(* ===== verification/_CoqProject ===== *)
-Q . S2P
Prelude.v
Naming.v
GoBase.v
Sdk.v
Providers.v
Go.v
Interfaces.v
Footprint.v
Bench.v
Random.v
Url.v
Json.v
Rfc3339.v
RedisBase.v
RedisProvision.v
RedisQuery.v
Progress.v
RedisFailover.v
RedisCredentials.v
RedisSnapshots.v
RedisParameters.v
RedisService.v
Config.v
Parameters.v
Broker.v
BenchBroker.v
BrokerOperation.v
BrokerProvision.v
BrokerUpdate.v
BrokerPoll.v
BrokerService.v
Panics.v
Isolation.v
Password.v
Interleaving.v
Concurrent.v
FailoverCycle.v
Polling.v
DeprovisionCycle.v
ProvisionCycle.v
JsonDecode.v
ConfigFile.v
ConfigLoad.v
JsonText.v
ConfigDocument.v
Startup.v
Query.v
Client.v
ClientRequests.v
AwsHelper.v
ConfigHelper.v
