(* ===== verification/Prelude.v ===== *)
(** * A verification of the ElastiCache broker

    The program under src/ is a Cloud Foundry service broker, written in Go,
    that sells Redis instances on AWS ElastiCache.  The platform calls it over
    the Open Service Broker API; it has no state of its own: everything it knows
    of an instance is in AWS, in its configuration and in the operation data that
    the platform hands back with every poll.  This library models its two
    components and what they stand on, and proves what they promise.

    ** The parts, from the bottom up

    - [Prelude] (this file): bytes and strings as Go has them, lists, the hint
      database [go] and the rewriting database [strings].
    - [Naming] (providers/redis/redis.go, [GenerateReplicationGroupName]): 64-bit
      FNV-1a with its wrap-around, base 32, lower case.
    - [GoBase], [Sdk], [Providers]: data only.  Go errors, contexts and log
      lines and the records of the broker API; the requests and answers of the
      two AWS services (providers/elasticache.go, providers/secretsmanager.go);
      the records and the methods of providers/provider.go, a method call being
      a value of [pv_call] with a result in [pv_out].
    - [Go]: a state monad with panics.  Its state has the [map\[string\]string]
      objects of the heap (the only objects the program shares and mutates), the
      trace of what the program did at its boundary, and an outside world of an
      abstract type [X].  [Runtime] is what the language and the machine leave
      open (clock, zone, random source, order of [range], [sort.Sort]), and
      [RuntimeLaws] what they promise.  [runs h m Q] is the program logic:
      started with the maps [h], whatever the world answers, [m] ends with an
      outcome (a result or a panic), new events and maps that satisfy [Q].  It is
      a statement of total correctness: every function of the model is total.
    - [Interfaces]: the classes [ElastiCache] and [SecretsManager], which have no
      law at all, and [Provider] with [ProviderLaws], which is what the broker
      relies on: a provider calls no provider, does not read the clock and writes
      to no map it was not given.  [only] bounds effects, [handled] and [part_of]
      are the shape of the specifications of handlers.
    - [Bench], [BenchBroker]: a concrete world with scripted answers, in the
      manner of the fakes of providers/mocks, on which the theorems are tried.
    - [Random], [Url], [Json], [Rfc3339]: the token of an instance
      (providers/redis/crypto_rand_utils.go) and the parts of net/url,
      encoding/json and time that the program uses: a scanner and a decoder for
      structs, [Marshal] of a struct of strings, [Format] and [Parse] of
      RFC 3339 time stamps over the whole calendar.
    - [RedisBase], [RedisProvision], [RedisQuery], [RedisFailover]: the methods of
      providers/redis/redis.go; [RedisService] makes them an instance of
      [Provider] and proves its laws.
    - [Config] (broker/config.go, broker/tls_config.go), [Parameters]
      (broker/parameters.go), [Broker] (broker/broker.go): the configuration, the
      user parameters and the handlers, over any [Provider].
    - [JsonDecode], [ConfigFile]: how encoding/json decodes into tagged structs,
      slices, maps and pointers, and [LoadConfig] with the structs of the
      configuration and of the catalog.
    - [Startup] (main.go, cache-cluster-name-generator/main.go): the process, from
      its flags to the server it runs.
    - [Query], [Client] (ci/helpers/brokerapi_helper.go): query strings, and the
      client of the acceptance tests; [AwsHelper] (ci/helpers/aws_helper.go): the
      AWS resources these run in, with a specification of their creation;
      [ConfigHelper] (ci/helpers/config_helper.go): the configuration file they
      write, over any file system.
    - [Footprint]: the programs put together from the operations of the model and
      from a set of calls to AWS.  That a program is one of them follows from its
      shape (the database [footprint]) and bounds its trace and what it can do to
      the world.  [Progress]: rules for runs that return, against a world that
      can be looked at ([ends], [stays], and [goes] for those that allocate);
      [Polling]: the polls of an operation in which the code makes no step.
    - [ConfigLoad], [JsonText], [ConfigDocument], [ClientRequests],
      [BrokerOperation], [BrokerProvision], [BrokerUpdate], [BrokerPoll],
      [BrokerService], [RedisCredentials], [RedisSnapshots], [RedisParameters]:
      specifications and theorems of single components.
    - [Panics], [Isolation], [Password], [Interleaving], [Concurrent],
      [FailoverCycle], [DeprovisionCycle], [ProvisionCycle]: theorems on the broker and the Redis
      provider together.

    ** How the model reads

    A definition has the name of the Go function it translates.  A pointer is an
    [option] and a dereference [deref], which panics on nil; a result and an
    error are a pair with an [option error]; [try!], [check!] are the code's
    [if err != nil { return ... }]; a slice is a list; a map that is only read is
    a [gmap], one that is shared or written to a [map_ref] into the heap;
    [with_timeout] is [context.WithTimeout] with its deferred cancel.  [int64]
    values are [Z]: the code compares them and passes them on, and does no
    arithmetic that could overflow, apart from the hash, whose wrap-around is
    written out, and [time.Now().Add], far from the bounds.  Parts of a long
    handler are definitions of their own ([update_failover], [poll_state],
    [failover_step], ...), each with the lines it covers.  A JSON decoder stores a
    value over an old one and returns a status ([Fine], [Saved], [Aborted]).

    ** What is proved

    - Refinement.  For each handler and each method of the provider there is an
      inductive relation between the calls it makes, with their answers, and its
      outcome ([provision_run], [update_run], [poll_run], [progress_run],
      [credentials_run], [snapshots_run], ...).  The theorems say that the
      definition follows the relation for every behaviour of the world: errors,
      empty and incomplete answers included.  The relations also say where the
      code panics.  They are written from the protocol and not from the code: the
      request to create an instance field by field ([instance_request]), the
      states that a poll may report ([reported]), the documents that the user
      parameters may be ([document_parsed], which is about JSON values and knows
      no decoder).
    - Composition. [redis_keeps_contract] discharges the laws that the theorems
      of the broker assume; [service_contained] states for all handlers that the
      maps of the configuration never change, that calls are made in the right
      context, and that the broker adds no panic. [instances_isolated] is about
      every call to AWS, reading included: it names what belongs to the instance
      of the request, or what an answer to that request has named before.
      [password_kept] is an invariant of all states that requests can lead to, in
      an AWS account that stores what it accepts (the class [AccountLaws]): the
      secret of an instance is the token of its group; with it,
      [bind_password_correct] shows that what is bound is what was provisioned.
      An error of a call is never taken to mean that nothing happened: the call
      may have taken place and its answer may be lost. A group whose creation was
      reported as failed is therefore kept apart as not confirmed; its token is
      valid, but the clean-up of the code gives up its secret
      ([lost_creation_forgets_password]), so that the theorems promise the secret
      for the confirmed groups. [password_kept_interleaved] has the calls of
      requests about other instances come in between, at any operation: the laws
      of the account are about the names of one instance, so an interleaved world
      is an account again, and the same invariant applies.
      [password_kept_concurrent] is about simultaneous requests, the same
      instance included: a transition system of which a state is what is left of
      the traces of the requests in flight and what AWS keeps of the instance.
      Every request is shown to follow a small protocol (the modes [Idle],
      [Holding], [Removing]), and the invariant of the system is that the name of
      the secret works as a lock, as long as no creation that was reported as
      failed has taken place (the flag of [concurrent]); [lawful_concurrent]
      shows that requests in an account are runs of the system.
      [provision_completes], [failover_completes] and [deprovision_completes] run
      the two components against a cloud that carries out what it accepts, and
      show that a provisioning, a failover test and a deprovisioning end, with an
      instance that can be bound, the roles swapped or nothing left, within an
      explicit number of polls. The clock may move as it likes; only a poll of
      the failover test that reads it after the deadline of the test is left out.
      [main_correct] and [process_serves] put the parts in a process: what is
      reported or served follows from what the machine answered to each step,
      what [LoadConfig] accepts is what the theorems of the broker ask of a
      configuration, and every request, after any sequence of requests, is
      contained. [panics_bounded] says which panics are left: no reference of the
      program is ever unsound, and what remains are nil pointers in answers of
      AWS and, in a provisioning, a random source that fails.
    - Safety and round trips.  Restores stay in their space; operation data,
      time stamps, the URI of the credentials and the configuration file are read
      back as they were written, operation data also through the client of the
      tests ([operation_through_client]), and what the tests write as configuration
      is what the broker loads ([custom_config_loads]); names and tokens are always
      acceptable to AWS; the numbers of a configuration are [int64] values, and a
      document with a number that does not fit is refused ([load_numbers_int64]).
    - Defects.  Three theorems, [start_failover_error_panics],
      [missing_role_panics] and [lost_creation_forgets_password], are about
      behaviour that is surely not intended.

    ** Recursion and bounds

    Loops over slices are structural ([for_each]).  The scanner of [Json] and
    the calendar of [Rfc3339] need no fuel, and neither do the decoders, which
    recurse over the value or its members.  [polls], in [FailoverCycle],
    [DeprovisionCycle] and [ProvisionCycle], takes a number of polls; [rounds], and one more than the
    latency of a creation or a deletion, are proved to be enough.

    ** What is not modelled

    The HTTP layer, authentication and routing of the brokerapi library; the AWS
    SDK, the file system, the network and X.509, which are parameters; printing
    to the terminal, apart from the line of [main]; the cleaning of paths by
    [http.ServeMux] and the parsing of a URL apart from its query; the positions
    in the texts of JSON and time errors; what a decoded slice that shrank keeps
    in its capacity; of the catalog, what is not an id (its document is a
    parameter of [ConfigHelper]); the generated fakes of providers/mocks; and
    test/tls_helpers.go, which makes certificates for the tests.  A call is
    atomic: requests interleave between their calls ([Interleaving],
    [Concurrent]), and not on the Go heap, where no two requests share an object
    that either writes to ([service_contained]). *)
From stdpp Require Export base list strings gmap pretty sorting numbers.
From Stdlib Require Export Ascii ZArith Lia.

(** * Bytes and strings

    A Go [string] is a read-only sequence of bytes; it is a [string] here, one
    [ascii] per byte.  Bytes are read as integers in [0, 256). *)

Definition byte_val (c : ascii) : Z := Z.of_N (N_of_ascii c).
Definition byte_of_val (z : Z) : ascii := ascii_of_N (Z.to_N z).

Definition bytes_of (s : string) : list Z := byte_val <$> String.list_ascii_of_string s.

(** Is [c] between the bytes [lo] and [hi], both included? *)
Definition byte_in (lo hi : ascii) (c : ascii) : bool :=
  (byte_val lo <=? byte_val c)%Z && (byte_val c <=? byte_val hi)%Z.

Definition is_upper (c : ascii) : bool := byte_in "A" "Z" c.
Definition is_lower (c : ascii) : bool := byte_in "a" "z" c.
Definition is_digit (c : ascii) : bool := byte_in "0" "9" c.
Definition is_alpha (c : ascii) : bool := is_upper c || is_lower c.
Definition is_alnum (c : ascii) : bool := is_alpha c || is_digit c.

(** [strings.ToLower] on one ASCII byte. *)
Definition lower_byte (c : ascii) : ascii :=
  if is_upper c then byte_of_val (byte_val c + 32) else c.

Fixpoint string_map (f : ascii → ascii) (s : string) : string :=
  match s with
  | EmptyString => EmptyString
  | String c s' => String (f c) (string_map f s')
  end.

Fixpoint string_forallb (f : ascii → bool) (s : string) : bool :=
  match s with
  | EmptyString => true
  | String c s' => f c && string_forallb f s'
  end.

(** [strings.ToLower] on an ASCII string. *)
Definition to_lower : string → string := string_map lower_byte.

(** [strings.Join]. *)
Fixpoint string_join (sep : string) (l : list string) : string :=
  match l with
  | [] => ""
  | [s] => s
  | s :: l' => s +:+ sep +:+ string_join sep l'
  end.

(** [n] copies of the byte [c]. *)
Fixpoint string_repeat (c : ascii) (n : nat) : string :=
  match n with
  | O => ""
  | S n' => String c (string_repeat c n')
  end.

(** The [%-Ns] verb of [fmt.Sprintf] on an ASCII operand: pad with spaces on
    the right up to [n] bytes. *)
Definition pad_right (n : nat) (s : string) : string :=
  s +:+ string_repeat " " (n - String.length s).

(** [strings.TrimRight(s, cutset)] for a one-byte cutset. *)
Fixpoint trim_right_byte (cut : ascii) (s : string) : string :=
  match s with
  | EmptyString => EmptyString
  | String c s' =>
      match trim_right_byte cut s' with
      | EmptyString => if decide (c = cut) then EmptyString else String c EmptyString
      | t => String c t
      end
  end.

(** [strip_prefix p s] is the rest of [s] after the prefix [p]. *)
Fixpoint strip_prefix (p s : string) : option string :=
  match p, s with
  | EmptyString, _ => Some s
  | String a p', String b s' => if decide (a = b) then strip_prefix p' s' else None
  | String _ _, EmptyString => None
  end.

(** Remove prefixes that belong to [ps] as long as there is one; every step
    consumes at least a byte, so the length of the string is enough fuel. *)
Fixpoint strip_prefixes (fuel : nat) (ps : list string) (s : string) : string :=
  match fuel with
  | O => s
  | S fuel' =>
      match omap (λ p, strip_prefix p s) ps with
      | [] => s
      | s' :: _ => strip_prefixes fuel' ps s'
      end
  end.

(** The byte of value [n], as a one-byte string. *)
Definition chr (n : Z) : string := String (byte_of_val n) "".
Definition chrs (l : list Z) : string := string_join "" (chr <$> l).

(** The UTF-8 encodings of the runes for which [unicode.IsSpace] holds. *)
Definition space_runes : list string :=
  map chr [9; 10; 11; 12; 13; 32]%Z ++
  map chrs [[194; 133]; [194; 160]; [225; 154; 128];
            [226; 128; 128]; [226; 128; 129]; [226; 128; 130]; [226; 128; 131];
             [226; 128; 132]; [226; 128; 133]; [226; 128; 134]; [226; 128; 135];
             [226; 128; 136]; [226; 128; 137]; [226; 128; 138];
             [226; 128; 168]; [226; 128; 169]; [226; 128; 175]; [226; 129; 159];
             [227; 128; 128]]%Z.

(** [strings.TrimSpace]. *)
Definition trim_space (s : string) : string :=
  let left := strip_prefixes (String.length s) space_runes s in
  String.rev (strip_prefixes (String.length left) (String.rev <$> space_runes)
                (String.rev left)).

(** * Lemmas on strings *)

Lemma string_app_cons c s t : String c s +:+ t = String c (s +:+ t).
Proof. done. Qed.

Lemma string_app_nil_l t : "" +:+ t = t.
Proof. done. Qed.

Lemma string_app_nil_r s : s +:+ "" = s.
Proof. induction s as [|c s IH]; [done|]. by rewrite string_app_cons, IH. Qed.

Lemma string_app_assoc s t u : (s +:+ t) +:+ u = s +:+ (t +:+ u).
Proof. induction s as [|c s IH]; [done|]. by rewrite !string_app_cons, IH. Qed.

Lemma string_length_app s t :
  String.length (s +:+ t) = String.length s + String.length t.
Proof. induction s as [|c s IH]; [done|]. by rewrite string_app_cons; simpl; rewrite IH. Qed.

Lemma string_forallb_app f s t :
  string_forallb f (s +:+ t) = string_forallb f s && string_forallb f t.
Proof.
  induction s as [|c s IH]; [done|].
  rewrite string_app_cons; simpl. by rewrite IH, andb_assoc.
Qed.

Lemma string_forallb_impl (f g : ascii → bool) s :
  (∀ c, f c = true → g c = true) →
  string_forallb f s = true → string_forallb g s = true.
Proof.
  intros Hfg. induction s as [|c s IH]; simpl; [done|].
  rewrite !andb_true_iff. naive_solver.
Qed.

Lemma string_app_inj_l s t u : s +:+ t = s +:+ u → t = u.
Proof. induction s as [|c s IH]; [done|]. rewrite !string_app_cons. intros [=]. auto. Qed.

Lemma string_app_inj_length s1 s2 t1 t2 :
  String.length s1 = String.length s2 →
  s1 +:+ t1 = s2 +:+ t2 → s1 = s2 ∧ t1 = t2.
Proof.
  revert s2. induction s1 as [|c s1 IH]; intros [|d s2]; simpl; try done.
  rewrite !string_app_cons. intros [=Hl] [=-> Heq].
  by destruct (IH _ Hl Heq) as [-> ->].
Qed.

Lemma byte_val_range c : (0 <= byte_val c < 256)%Z.
Proof. unfold byte_val. pose proof (N_ascii_bounded c). lia. Qed.

Lemma byte_of_val_of c : byte_of_val (byte_val c) = c.
Proof. unfold byte_of_val, byte_val. rewrite N2Z.id. apply ascii_N_embedding. Qed.

Lemma byte_val_of_val z : (0 <= z < 256)%Z → byte_val (byte_of_val z) = z.
Proof.
  intros Hz. unfold byte_of_val, byte_val.
  rewrite N_ascii_embedding; lia.
Qed.

#[export] Instance byte_val_inj : Inj (=) (=) byte_val.
Proof. intros c d Heq. by rewrite <-(byte_of_val_of c), Heq, byte_of_val_of. Qed.

Lemma byte_in_true lo hi c :
  byte_in lo hi c = true ↔ (byte_val lo <= byte_val c <= byte_val hi)%Z.
Proof. unfold byte_in. rewrite andb_true_iff, !Z.leb_le. done. Qed.

(** Every property of bytes that can be computed can be checked on all 256. *)
Definition all_bytes : list ascii := (λ n, ascii_of_nat n) <$> seq 0 256.

Lemma all_bytes_elem c : c ∈ all_bytes.
Proof.
  unfold all_bytes. apply list_elem_of_fmap. exists (nat_of_ascii c). split.
  - by rewrite ascii_nat_embedding.
  - apply elem_of_seq. pose proof (nat_ascii_bounded c). lia.
Qed.

Lemma byte_forall (P : ascii → bool) :
  forallb P all_bytes = true → ∀ c, P c = true.
Proof.
  rewrite forallb_forall. intros H c. apply H. apply list_elem_of_In, all_bytes_elem.
Qed.

Lemma string_map_app f s t : string_map f (s +:+ t) = string_map f s +:+ string_map f t.
Proof. induction s as [|c s IH]; [done|]. simpl. by rewrite !string_app_cons, <-IH. Qed.

Lemma string_map_length f s : String.length (string_map f s) = String.length s.
Proof. induction s as [|c s IH]; simpl; auto. Qed.

(** * Lists *)

Lemma filter_nil_forall {A} (P : A → Prop) `{∀ x, Decision (P x)} (l : list A) :
  filter P l = [] ↔ ∀ x, x ∈ l → ¬ P x.
Proof.
  split.
  - intros Hl x Hx HP. assert (x ∈ filter P l) as Hin by (by apply list_elem_of_filter).
    rewrite Hl in Hin. by apply not_elem_of_nil in Hin.
  - intros Hl. destruct (filter P l) as [|x l'] eqn:Hf; [done|]. exfalso.
    assert (x ∈ filter P l) as [HP Hx]%list_elem_of_filter by (rewrite Hf; apply list_elem_of_here).
    by apply (Hl x).
Qed.

Lemma filter_cons_elem {A} (P : A → Prop) `{∀ x, Decision (P x)} (l l' : list A) x :
  filter P l = x :: l' → x ∈ l ∧ P x.
Proof.
  intros Hf. assert (x ∈ filter P l) as Hin by (rewrite Hf; apply list_elem_of_here).
  apply list_elem_of_filter in Hin. tauto.
Qed.

(** * Maps in the order of their keys *)

(** The order of [sort.Strings]: by bytes. *)
Definition key_le (a b : string) : Prop := String.leb a b = true.

#[export] Instance key_le_dec : RelDecision key_le.
Proof. intros a b. unfold key_le. apply _. Defined.

#[export] Instance key_le_total : Total key_le.
Proof. intros a b. apply String.leb_total. Qed.

Definition entry_le {V} (a b : string * V) : Prop := key_le a.1 b.1.

#[export] Instance entry_le_dec {V} : RelDecision (entry_le (V:=V)).
Proof. intros a b. unfold entry_le. apply _. Defined.

Definition sorted_entries {V} (m : gmap string V) : list (string * V) :=
  merge_sort entry_le (map_to_list m).

Lemma sorted_entries_perm {V} (m : gmap string V) : sorted_entries m ≡ₚ map_to_list m.
Proof. apply merge_sort_Permutation. Qed.

Lemma sorted_entries_NoDup {V} (m : gmap string V) : NoDup (sorted_entries m).*1.
Proof. rewrite sorted_entries_perm. apply NoDup_fst_map_to_list. Qed.

Lemma elem_of_sorted_entries {V} (m : gmap string V) k v :
  (k, v) ∈ sorted_entries m ↔ m !! k = Some v.
Proof. rewrite sorted_entries_perm. apply elem_of_map_to_list. Qed.

Lemma list_to_map_sorted {V} (m : gmap string V) : list_to_map (sorted_entries m) = m.
Proof.
  rewrite <-(list_to_map_to_list m) at 2. apply list_to_map_proper, sorted_entries_perm.
  apply sorted_entries_NoDup.
Qed.

(** * Automation shared by the development *)

Create HintDb go.
Create Rewrite HintDb strings.
#[export] Hint Rewrite string_app_nil_l string_app_nil_r string_app_assoc
  string_app_cons : strings.
