(* ===== verification/Naming.v ===== *)
(** * Replication group names

    [GenerateReplicationGroupName] of providers/redis/redis.go: the 64-bit
    FNV-1a hash of the service instance id, in unpadded base 32, in lower case,
    after the prefix [cf-].  Every AWS object of a service instance carries this
    name, so what matters is that the name is one ElastiCache accepts and that
    it loses nothing of the hash. *)
From S2P Require Import Prelude.
Local Open Scope Z_scope.

(** ** [hash/fnv]: the 64-bit FNV-1a hash *)

Definition fnv_offset64 : Z := 14695981039346656037.
Definition fnv_prime64 : Z := 1099511628211.
Definition two64 : Z := 2 ^ 64.

(** [uint64] product: wraps around at 64 bits. *)
Definition fnv_step (h c : Z) : Z := (Z.lxor h c * fnv_prime64) mod two64.

(** [New64a], then one [Write] of the bytes. *)
Definition fnv64a (data : list Z) : Z := fold_left fnv_step data fnv_offset64.

(** [n] digits of [v] in base [b], most significant first. *)
Fixpoint digits (b : Z) (n : nat) (v : Z) : list Z :=
  match n with
  | O => []
  | S n' => digits b n' (v / b) ++ [v mod b]
  end.

Definition undigits (b : Z) (l : list Z) : Z := fold_left (λ acc d, acc * b + d) l 0.

(** [hash.Sum]: the eight bytes of the hash, big endian. *)
Definition fnv_sum (h : Z) : list Z := digits 256 8 h.

(** ** [encoding/base32]: the standard alphabet without padding *)

Definition b32_char (d : Z) : ascii :=
  if d <? 26 then byte_of_val (byte_val "A" + d) else byte_of_val (byte_val "2" + (d - 26)).

Definition b32_digits (n : nat) (v : Z) : string :=
  String.string_of_list_ascii (map b32_char (digits 32 n v)).

(** The encoder takes five bytes to eight characters; a last group of 1, 2, 3
    or 4 bytes, completed with zero bits, gives 2, 4, 5 or 7 characters. *)
Fixpoint base32_encode (src : list Z) : string :=
  match src with
  | [] => ""
  | [a] => b32_digits 2 (a * 2 ^ 2)
  | [a; b] => b32_digits 4 (undigits 256 [a; b] * 2 ^ 4)
  | [a; b; c] => b32_digits 5 (undigits 256 [a; b; c] * 2)
  | [a; b; c; d] => b32_digits 7 (undigits 256 [a; b; c; d] * 2 ^ 3)
  | a :: b :: c :: d :: e :: rest =>
      b32_digits 8 (undigits 256 [a; b; c; d; e]) +:+ base32_encode rest
  end.

(** ** providers/redis/redis.go *)

(* map: providers/redis/redis.go 574-582 GenerateReplicationGroupName *)
Definition GenerateReplicationGroupName (instanceID : string) : string :=
  let hash := fnv64a (bytes_of instanceID) in
  let out := fnv_sum hash in
  to_lower ("cf-" +:+ base32_encode out).

(** ** What ElastiCache accepts as a name

    The comment of the function: between 1 and 20 alphanumeric characters or
    hyphens, starting with a letter, not ending with a hyphen, without two
    consecutive hyphens. *)

Fixpoint no_double_hyphen (s : string) : bool :=
  match s with
  | String c s' =>
      match s' with
      | String d _ => negb (bool_decide (c = "-"%char) && bool_decide (d = "-"%char)) && no_double_hyphen s'
      | EmptyString => true
      end
  | EmptyString => true
  end.

Definition starts_with_letter (s : string) : bool :=
  match s with String c _ => is_alpha c | EmptyString => false end.

Definition ends_with_hyphen (s : string) : bool :=
  match String.rev s with String c _ => bool_decide (c = "-"%char) | EmptyString => false end.

Definition valid_group_name (s : string) : bool :=
  (1 <=? String.length s)%nat && (String.length s <=? 20)%nat &&
  string_forallb (λ c, is_alnum c || bool_decide (c = "-"%char)) s &&
  starts_with_letter s && negb (ends_with_hyphen s) && no_double_hyphen s.

Example name_foobar : GenerateReplicationGroupName "foobar" = "cf-qwkec4pxhft6q".
Proof. vm_compute. reflexivity. Qed.

(** ** Lemmas on positional notation *)

Lemma length_digits b n v : length (digits b n v) = n.
Proof. revert v. induction n as [|n IH]; intros v; simpl; [done|]. rewrite length_app, IH. simpl. lia. Qed.

Lemma digits_range b n v : 0 < b → Forall (λ d, 0 <= d < b) (digits b n v).
Proof.
  intros Hb. revert v. induction n as [|n IH]; intros v; simpl; [constructor|].
  apply Forall_app. split; [apply IH|]. repeat constructor; apply Z.mod_pos_bound; done.
Qed.

Lemma undigits_snoc b l d : undigits b (l ++ [d]) = undigits b l * b + d.
Proof. unfold undigits. by rewrite fold_left_app. Qed.

Lemma undigits_digits b n v :
  1 < b → 0 <= v < b ^ Z.of_nat n → undigits b (digits b n v) = v.
Proof.
  intros Hb. revert v. induction n as [|n IH]; intros v Hv; simpl.
  - unfold undigits; simpl. change (b ^ Z.of_nat 0) with 1 in Hv. lia.
  - rewrite undigits_snoc, IH.
    + pose proof (Z.div_mod v b). lia.
    + rewrite Nat2Z.inj_succ, Z.pow_succ_r in Hv by lia.
      split; [apply Z.div_pos; lia|]. apply Z.div_lt_upper_bound; lia.
Qed.

Lemma digits_inj b n v w :
  1 < b → 0 <= v < b ^ Z.of_nat n → 0 <= w < b ^ Z.of_nat n →
  digits b n v = digits b n w → v = w.
Proof.
  intros Hb Hv Hw Heq. rewrite <-(undigits_digits b n v), Heq by done.
  by apply undigits_digits.
Qed.

Lemma fnv64a_range data : 0 <= fnv64a data < two64.
Proof.
  unfold fnv64a.
  assert (∀ l h, 0 <= h < two64 → 0 <= fold_left fnv_step l h < two64) as Hstep.
  { intros l. induction l as [|c l IH]; intros h Hh; simpl; [done|].
    apply IH. unfold fnv_step. apply Z.mod_pos_bound. reflexivity. }
  apply Hstep. done.
Qed.

(** ** The encoding of one hash *)

(** The eight bytes of the hash make one group of five and one of three. *)
Lemma base32_fnv_sum h :
  0 <= h < two64 →
  base32_encode (fnv_sum h) = b32_digits 8 (h / 2 ^ 24) +:+ b32_digits 5 (h mod 2 ^ 24 * 2).
Proof.
  intros Hh. unfold fnv_sum. change (digits 256 8 h) with (digits 256 (5 + 3) h).
  cbn [digits Nat.add app base32_encode undigits fold_left].
  rewrite !Z.div_div by lia. unfold two64 in Hh.
  f_equal; f_equal; [|f_equal];
    change (2 ^ 24) with 16777216; simpl (256 * _);
    Z.to_euclidean_division_equations; lia.
Qed.

Lemma b32_digits_length n v : String.length (b32_digits n v) = n.
Proof.
  unfold b32_digits.
  rewrite <-(length_digits 32 n v) at 2. generalize (digits 32 n v) as l.
  induction l as [|d l IH]; simpl; auto.
Qed.

Definition b32_lower_ok (c : ascii) : bool := is_lower c || byte_in "2" "7" c.

Lemma b32_lower_char d : 0 <= d < 32 → b32_lower_ok (lower_byte (b32_char d)) = true.
Proof.
  intros Hd.
  assert (forallb (λ d, b32_lower_ok (lower_byte (b32_char (Z.of_nat d)))) (seq 0 32) = true)
    as Hall by (vm_compute; reflexivity).
  rewrite forallb_forall in Hall. specialize (Hall (Z.to_nat d)).
  rewrite Z2Nat.id in Hall by lia. apply Hall, in_seq. lia.
Qed.

Lemma lower_b32_inj d e :
  0 <= d < 32 → 0 <= e < 32 → lower_byte (b32_char d) = lower_byte (b32_char e) → d = e.
Proof.
  intros Hd He Heq.
  assert (forallb (λ p, implb (bool_decide (lower_byte (b32_char (Z.of_nat p.1)) =
                                  lower_byte (b32_char (Z.of_nat p.2))))
                          (bool_decide (p.1 = p.2)))
            (list_prod (seq 0 32) (seq 0 32)) = true) as Hall by (vm_compute; reflexivity).
  rewrite forallb_forall in Hall. specialize (Hall (Z.to_nat d, Z.to_nat e)).
  rewrite in_prod_iff, !in_seq in Hall. specialize (Hall ltac:(lia)).
  simpl in Hall. rewrite !Z2Nat.id in Hall by lia. rewrite bool_decide_true in Hall by done.
  apply bool_decide_eq_true in Hall. lia.
Qed.

Lemma b32_digits_lower_ok n v : string_forallb b32_lower_ok (to_lower (b32_digits n v)) = true.
Proof.
  unfold b32_digits, to_lower. pose proof (digits_range 32 n v ltac:(lia)) as Hr.
  induction Hr as [|d l Hd Hl IH]; simpl; [done|].
  rewrite andb_true_iff. split; [by apply b32_lower_char|done].
Qed.

Lemma b32_digits_lower_inj n v w :
  to_lower (b32_digits n v) = to_lower (b32_digits n w) → digits 32 n v = digits 32 n w.
Proof.
  unfold b32_digits, to_lower.
  pose proof (digits_range 32 n v ltac:(lia)) as Hv.
  pose proof (digits_range 32 n w ltac:(lia)) as Hw.
  revert Hw. generalize (digits 32 n w) as l'.
  induction Hv as [|d l Hd Hl IH]; intros l' Hw; destruct Hw as [|e l' He Hl']; simpl;
    try done.
  intros Heq. injection Heq as Hc Hs. f_equal; [by apply lower_b32_inj|by apply IH].
Qed.

Lemma to_lower_app s t : to_lower (s +:+ t) = to_lower s +:+ to_lower t.
Proof. apply string_map_app. Qed.

(** The shape of every generated name. *)
Lemma group_name_shape instanceID :
  let h := fnv64a (bytes_of instanceID) in
  GenerateReplicationGroupName instanceID =
  "cf-" +:+ to_lower (b32_digits 8 (h / 2 ^ 24)) +:+ to_lower (b32_digits 5 (h mod 2 ^ 24 * 2)).
Proof.
  intros h. unfold GenerateReplicationGroupName. fold h.
  rewrite base32_fnv_sum by apply fnv64a_range.
  by rewrite !to_lower_app.
Qed.

Lemma no_double_hyphen_b32 s :
  string_forallb b32_lower_ok s = true → no_double_hyphen s = true.
Proof.
  induction s as [|c s IH]; simpl; [done|]. rewrite andb_true_iff. intros [Hc Hs].
  destruct s as [|d s']; [done|]. rewrite IH by done.
  rewrite bool_decide_false; [done|]. by intros ->.
Qed.

Lemma string_rev_forallb f s :
  string_forallb f s = true → string_forallb f (String.rev s) = true.
Proof.
  unfold String.rev. intros Hs.
  assert (∀ t, string_forallb f t = true → string_forallb f (String.rev_app s t) = true)
    as Hgen; [|by apply Hgen].
  induction s as [|c s IH]; intros t Ht; simpl in *; [done|].
  apply andb_true_iff in Hs as [Hc Hs]. apply IH; [done|]. simpl. by rewrite Hc, Ht.
Qed.

(** ** Properties *)

(** C31: [GenerateReplicationGroupName] always returns a name that ElastiCache
    accepts (between 1 and 20 letters, digits or hyphens, starting with a
    letter, no trailing and no double hyphen), for every instance id. *)
Theorem group_name_valid (instanceID : string) :
  valid_group_name (GenerateReplicationGroupName instanceID) = true ∧
  String.length (GenerateReplicationGroupName instanceID) = 16%nat.
Proof.
  rewrite group_name_shape. set (h := fnv64a _). cbv zeta.
  set (s := _ +:+ to_lower (b32_digits 5 _)).
  assert (String.length s = 13%nat) as Hlen.
  { unfold s, to_lower. by rewrite string_length_app, !string_map_length, !b32_digits_length. }
  assert (string_forallb b32_lower_ok s = true) as Hok.
  { unfold s. by rewrite string_forallb_app, !b32_digits_lower_ok. }
  assert (∀ c, b32_lower_ok c = true → is_alnum c || bool_decide (c = "-"%char) = true) as Himp.
  { intros c. apply implb_true_iff. revert c. apply byte_forall. vm_compute. reflexivity. }
  split; [|rewrite string_length_app, Hlen; reflexivity].
  unfold valid_group_name. rewrite string_length_app, Hlen, string_forallb_app.
  rewrite (string_forallb_impl _ _ s Himp Hok).
  assert (no_double_hyphen ("cf-" +:+ s) = true) as ->.
  { destruct s as [|c s'] eqn:Hs; [done|].
    change ("cf-" +:+ String c s') with (String "c" (String "f" (String "-" (String c s')))).
    pose proof (no_double_hyphen_b32 _ Hok) as Hnd.
    cbn [string_forallb] in Hok. apply andb_true_iff in Hok as [Hc _].
    change (negb (bool_decide ("-"%char = "-"%char) && bool_decide (c = "-"%char)) &&
            no_double_hyphen (String c s') = true).
    rewrite Hnd, (bool_decide_false (c = "-"%char)); [done|]. by intros ->. }
  assert (ends_with_hyphen ("cf-" +:+ s) = false) as ->; [|done].
  unfold ends_with_hyphen.
  assert (String.rev ("cf-" +:+ s) = String.rev s +:+ "-fc") as ->.
  { unfold String.rev. clear. 
    assert (∀ t, String.rev_app s t = String.rev_app s "" +:+ t) as Hrev.
    { induction s as [|c s IH]; intros t; simpl; [done|].
      rewrite IH, (IH (String c "")), string_app_assoc. done. }
    apply Hrev. }
  pose proof (string_rev_forallb _ _ Hok) as Hr.
  destruct (String.rev s) as [|c r] eqn:Hs.
  - apply (f_equal String.length) in Hs. exfalso. revert Hs Hlen. clear.
    unfold String.rev.
    assert (∀ t, String.length (String.rev_app s t) = (String.length s + String.length t)%nat) as Hl.
    { induction s as [|c s IH]; intros t; simpl; [done|]. rewrite IH. simpl. lia. }
    rewrite Hl. simpl. lia.
  - simpl in Hr. apply andb_true_iff in Hr as [Hc _]. simpl.
    apply bool_decide_false. by intros ->.
Qed.

(** C32: the name determines the 64-bit hash: two instance ids get the same
    replication group and parameter group names exactly when their
    FNV-1a hashes collide; the base-32 step and the lower-casing lose nothing. *)
Theorem group_name_collision (i j : string) :
  GenerateReplicationGroupName i = GenerateReplicationGroupName j ↔
  fnv64a (bytes_of i) = fnv64a (bytes_of j).
Proof.
  split; [|unfold GenerateReplicationGroupName; by intros ->].
  rewrite !group_name_shape. cbv zeta.
  pose proof (fnv64a_range (bytes_of i)) as Hi. pose proof (fnv64a_range (bytes_of j)) as Hj.
  set (h := fnv64a (bytes_of i)) in *. set (k := fnv64a (bytes_of j)) in *.
  intros Heq%string_app_inj_l.
  apply string_app_inj_length in Heq as [H1%b32_digits_lower_inj H2%b32_digits_lower_inj].
  2: { unfold to_lower. by rewrite !string_map_length, !b32_digits_length. }
  unfold two64 in *. change (2 ^ 24) with 16777216 in *. change (2 ^ 64) with 18446744073709551616 in *.
  apply digits_inj in H1; [|lia|simpl; Z.to_euclidean_division_equations; lia..].
  apply digits_inj in H2; [|lia|simpl; Z.to_euclidean_division_equations; lia..].
  Z.to_euclidean_division_equations. lia.
Qed.
