(* ===== verification/GoBase.v ===== *)
(** * Values of the Go runtime

    Errors, contexts, log lines and the request records of the Open Service
    Broker API: pure data that the interfaces of the program carry. *)
From S2P Require Import Prelude.

(** ** Errors

    A value of the interface type [error]; a nil error is [None] of
    [option error].  What the code observes of an error is its text
    ([Error()]), its AWS code (the type assertion to [awserr.Error]) and its
    identity for the three sentinel values. *)
Inductive error :=
  | ErrorString (text : string)                      (** [errors.New], [fmt.Errorf] *)
  | AwsError (code text : string)                    (** implements [awserr.Error] *)
  | SdkError (text : string)                         (** any other error of a library *)
  | WithMessage (cause : error) (msg : string)       (** [errors.Wrap] of pkg/errors *)
  | FailureResponse (status : Z) (key text : string) (** brokerapi's failure responses *)
  | JsonSyntaxError
  | JsonTypeError (field : string)
  | TimeParseError (value : string).

#[export] Instance error_eq_dec : EqDecision error.
Proof. solve_decision. Defined.

(** [err.Error()].  The texts of the two JSON errors and of the time error are
    cut to what does not depend on the position in the input. *)
Fixpoint error_text (e : error) : string :=
  match e with
  | ErrorString t | AwsError _ t | SdkError t | FailureResponse _ _ t => t
  | WithMessage c m => m +:+ ": " +:+ error_text c
  | JsonSyntaxError => "invalid JSON"
  | JsonTypeError f => "json: cannot unmarshal value into Go struct field " +:+ f
  | TimeParseError v => "parsing time " +:+ v
  end.

(** [if awsErr, ok := err.(awserr.Error); ok { awsErr.Code() == code }] *)
Definition has_aws_code (code : string) (e : error) : bool :=
  match e with
  | AwsError c _ => bool_decide (c = code)
  | _ => false
  end.

(** [errors.Wrap(err, message)] for a non-nil [err]. *)
Definition errors_wrap (e : error) (msg : string) : error := WithMessage e msg.

(* map: vendor/github.com/pivotal-cf/brokerapi/domain/apiresponses/errors.go 64-66 ErrAsyncRequired *)
Definition ErrAsyncRequired : error :=
  FailureResponse 422 "async-required"
    "This service plan requires client support for asynchronous service operations.".

(* map: vendor/github.com/pivotal-cf/brokerapi/domain/apiresponses/errors.go 44-46 ErrInstanceDoesNotExist *)
Definition ErrInstanceDoesNotExist : error :=
  FailureResponse 410 "instance-missing" "instance does not exist".

(** ** Contexts and durations *)

(** The context of the HTTP request, or a context derived by
    [context.WithTimeout] with a duration in nanoseconds. *)
Inductive context :=
  | RequestContext
  | TimeoutContext (parent : context) (timeout : Z).

#[export] Instance context_eq_dec : EqDecision context.
Proof. solve_decision. Defined.

Definition time_Second : Z := 1000000000.
Definition time_Minute : Z := 60 * time_Second.

(** A Go duration constant is an [int64] number of nanoseconds. *)
Definition timeout_30s : Z := 30 * time_Second.

(** ** Shared maps *)

(** A Go value of type [map[string]string] that can be shared and mutated: nil
    or the address of a map object of the heap. *)
Definition map_ref := option nat.

(** ** Requests of the Open Service Broker API (the fields the broker reads) *)

(* map: vendor/github.com/pivotal-cf/brokerapi/domain/service_broker.go 82-90 ProvisionDetails *)
Record ProvisionDetails := mkProvisionDetails {
  pd_ServiceID : string;
  pd_PlanID : string;
  pd_OrganizationGUID : string;
  pd_SpaceGUID : string;
  pd_RawParameters : string;
}.

(* map: vendor/github.com/pivotal-cf/brokerapi/domain/service_broker.go 99-103 DeprovisionDetails *)
Record DeprovisionDetails := mkDeprovisionDetails {
  dd_PlanID : string;
  dd_ServiceID : string;
  dd_Force : bool;
}.

(* map: vendor/github.com/pivotal-cf/brokerapi/domain/service_broker.go 126-131 PreviousValues *)
Record PreviousValues := mkPreviousValues {
  pv_PlanID : string;
  pv_ServiceID : string;
  pv_OrgID : string;
  pv_SpaceID : string;
}.

(* map: vendor/github.com/pivotal-cf/brokerapi/domain/service_broker.go 117-124 UpdateDetails *)
Record UpdateDetails := mkUpdateDetails {
  ud_ServiceID : string;
  ud_PlanID : string;
  ud_RawParameters : string;
  ud_PreviousValues : PreviousValues;
}.

(* map: vendor/github.com/pivotal-cf/brokerapi/domain/service_broker.go 139-143 PollDetails *)
Record PollDetails := mkPollDetails {
  poll_ServiceID : string;
  poll_PlanID : string;
  poll_OperationData : string;
}.

(* map: vendor/github.com/pivotal-cf/brokerapi/domain/service_broker.go 145-152 BindDetails *)
Record BindDetails := mkBindDetails {
  bd_AppGUID : string;
  bd_PlanID : string;
  bd_ServiceID : string;
  bd_RawParameters : string;
}.

(* map: vendor/github.com/pivotal-cf/brokerapi/domain/service_broker.go 161-164 UnbindDetails *)
Record UnbindDetails := mkUnbindDetails {
  ubd_PlanID : string;
  ubd_ServiceID : string;
}.

(** ** Log lines *)

Inductive log_level := LDebug | LInfo | LError.

(** The values the program puts in a [lager.Data] map. *)
Inductive log_value :=
  | LString (s : string)
  | LBool (b : bool)
  | LProvision (d : ProvisionDetails)
  | LDeprovision (d : DeprovisionDetails)
  | LUpdate (d : UpdateDetails)
  | LBind (d : BindDetails)
  | LUnbind (d : UnbindDetails).

Record log_line := mkLogLine {
  log_lvl : log_level;
  log_action : string;
  log_err : option error;
  log_data : list (string * log_value);
}.
