(* ===== verification/Sdk.v ===== *)
(** * The AWS SDK seen by the provider

    The requests and responses of the ElastiCache and Secrets Manager clients
    (the fields the provider reads or writes), one constructor of [ec_call] or
    [sm_call] per method of the interfaces [providers.ElastiCache] and
    [providers.SecretsManager].  A pointer is an [option]; a nil and an empty
    slice, which the code never tells apart, are both []. *)
From S2P Require Import Prelude GoBase.

(** ** Data of ElastiCache *)

Record Tag := mkTag { tag_Key : option string; tag_Value : option string }.

Record ParameterNameValue := mkParameterNameValue {
  pnv_ParameterName : option string;
  pnv_ParameterValue : option string;
}.

Record Endpoint := mkEndpoint { ep_Address : option string; ep_Port : option Z }.

Record NodeGroupMember := mkNodeGroupMember {
  ngm_CurrentRole : option string;
  ngm_CacheClusterId : option string;
}.

Record NodeGroup := mkNodeGroup {
  ng_NodeGroupMembers : list (option NodeGroupMember);
  ng_PrimaryEndpoint : option Endpoint;
}.

Record ReplicationGroup := mkReplicationGroup {
  rg_ReplicationGroupId : option string;
  rg_Status : option string;
  rg_MemberClusters : list (option string);
  rg_NodeGroups : list (option NodeGroup);
  rg_AutomaticFailover : option string;
  rg_SnapshotWindow : option string;
  rg_ConfigurationEndpoint : option Endpoint;
}.

Record CacheCluster := mkCacheCluster {
  cc_EngineVersion : option string;
  cc_PreferredMaintenanceWindow : option string;
}.

Record SdkParameter := mkSdkParameter {
  par_ParameterName : option string;
  par_ParameterValue : option string;
}.

Record NodeSnapshot := mkNodeSnapshot { ns_SnapshotCreateTime : option Z }.

Record Snapshot := mkSnapshot {
  sn_SnapshotName : option string;
  sn_NodeSnapshots : list (option NodeSnapshot);
}.

(** ** Requests to ElastiCache *)

Record CreateCacheParameterGroupInput := mkCreateCacheParameterGroupInput {
  ccpg_CacheParameterGroupFamily : option string;
  ccpg_CacheParameterGroupName : option string;
  ccpg_Description : option string;
}.

Record ModifyCacheParameterGroupInput := mkModifyCacheParameterGroupInput {
  mcpg_ParameterNameValues : list ParameterNameValue;
  mcpg_CacheParameterGroupName : option string;
}.

Record CreateReplicationGroupInput := mkCreateReplicationGroupInput {
  crg_Tags : list Tag;
  crg_AtRestEncryptionEnabled : option bool;
  crg_TransitEncryptionEnabled : option bool;
  crg_AuthToken : option string;
  crg_AutomaticFailoverEnabled : option bool;
  crg_MultiAZEnabled : option bool;
  crg_CacheNodeType : option string;
  crg_CacheParameterGroupName : option string;
  crg_SecurityGroupIds : list (option string);
  crg_CacheSubnetGroupName : option string;
  crg_Engine : option string;
  crg_EngineVersion : option string;
  crg_PreferredMaintenanceWindow : option string;
  crg_ReplicationGroupDescription : option string;
  crg_ReplicationGroupId : option string;
  crg_NumNodeGroups : option Z;
  crg_ReplicasPerNodeGroup : option Z;
  crg_SnapshotName : option string;
  crg_SnapshotRetentionLimit : option Z;
  crg_SnapshotWindow : option string;
}.

Record ModifyReplicationGroupInput := mkModifyReplicationGroupInput {
  mrg_ReplicationGroupId : option string;
  mrg_PreferredMaintenanceWindow : option string;
  mrg_PrimaryClusterId : option string;
  mrg_AutomaticFailoverEnabled : option bool;
  mrg_MultiAZEnabled : option bool;
  mrg_ApplyImmediately : option bool;
}.

Record DeleteReplicationGroupInput := mkDeleteReplicationGroupInput {
  drg_ReplicationGroupId : option string;
  drg_FinalSnapshotIdentifier : option string;
}.

(** ** Requests to Secrets Manager *)

Record SmTag := mkSmTag { smtag_Key : option string; smtag_Value : option string }.

Record CreateSecretInput := mkCreateSecretInput {
  cs_Name : option string;
  cs_SecretString : option string;
  cs_KmsKeyId : option string;
  cs_Tags : list SmTag;
}.

Record DeleteSecretInput := mkDeleteSecretInput {
  ds_SecretId : option string;
  ds_RecoveryWindowInDays : option Z;
}.

(** ** Calls *)

(** The interface has three more methods ([TestFailover], [AddTagsToResource],
    [RemoveTagsFromResource]); no code of the program calls them. *)
(* map: providers/elasticache.go 13-28 ElastiCache *)
Inductive ec_call :=
  | CreateCacheParameterGroupWithContext (ctx : context) (input : CreateCacheParameterGroupInput)
  | CreateReplicationGroupWithContext (ctx : context) (input : CreateReplicationGroupInput)
  | DeleteCacheParameterGroupWithContext (ctx : context) (CacheParameterGroupName : option string)
  | DeleteReplicationGroupWithContext (ctx : context) (input : DeleteReplicationGroupInput)
  | DescribeReplicationGroupsWithContext (ctx : context) (ReplicationGroupId : option string)
  | DescribeCacheClustersWithContext (ctx : context) (CacheClusterId : option string)
  | DescribeCacheParametersWithContext (ctx : context) (CacheParameterGroupName : option string)
  | ModifyReplicationGroupWithContext (ctx : context) (input : ModifyReplicationGroupInput)
  | ModifyCacheParameterGroupWithContext (ctx : context) (input : ModifyCacheParameterGroupInput)
  | DescribeSnapshotsPagesWithContext (ctx : context)
  | ListTagsForResourceWithContext (ctx : context) (ResourceName : option string).

(** What the code reads of the response; the responses it drops are [unit].
    [DescribeSnapshotsPages] hands over the pages one by one before it
    returns its error. *)
Definition ec_out (c : ec_call) : Type :=
  match c with
  | DescribeReplicationGroupsWithContext _ _ => option (list (option ReplicationGroup))
  | DescribeCacheClustersWithContext _ _ => option (list (option CacheCluster))
  | DescribeCacheParametersWithContext _ _ => option (list (option SdkParameter))
  | DescribeSnapshotsPagesWithContext _ => list (list (option Snapshot))
  | ListTagsForResourceWithContext _ _ => option (list (option Tag))
  | _ => unit
  end.

(* map: providers/secretsmanager.go 12-16 SecretsManager *)
Inductive sm_call :=
  | CreateSecretWithContext (ctx : context) (input : CreateSecretInput)
  | GetSecretValueWithContext (ctx : context) (SecretId : option string)
  | DeleteSecretWithContext (ctx : context) (input : DeleteSecretInput).

(** [GetSecretValue] returns a pointer to a record whose [SecretString] may be
    nil. *)
Definition sm_out (c : sm_call) : Type :=
  match c with
  | GetSecretValueWithContext _ _ => option (option string)
  | _ => unit
  end.

(** Error codes, from the SDK's api.go. *)
Definition ErrCodeCacheParameterGroupNotFoundFault : string := "CacheParameterGroupNotFound".
Definition ErrCodeReplicationGroupNotFoundFault : string := "ReplicationGroupNotFoundFault".
