(* ===== verification/Providers.v ===== *)
(** * The types of the providers package

    providers/provider.go: the states of a service, the parameters and results
    of the [Provider] interface, and one constructor of [pv_call] per method of
    the interface. *)
From S2P Require Import Prelude GoBase.

(** ** Service states *)

(* map: providers/provider.go 10-11 ServiceState *)
Definition ServiceState : Type := string.

(* map: providers/provider.go 15-15 Creating *)
Definition Creating : ServiceState := "creating".
(* map: providers/provider.go 16-16 Available *)
Definition Available : ServiceState := "available".
(* map: providers/provider.go 17-17 Modifying *)
Definition Modifying : ServiceState := "modifying".
(* map: providers/provider.go 18-18 Deleting *)
Definition Deleting : ServiceState := "deleting".
(* map: providers/provider.go 19-19 CreateFailed *)
Definition CreateFailed : ServiceState := "create-failed".
(* map: providers/provider.go 20-20 Snapshotting *)
Definition Snapshotting : ServiceState := "snapshotting".
(* map: providers/provider.go 21-21 NonExisting *)
Definition NonExisting : ServiceState := "non-existing".

(** ** Parameters and results

    [Parameters] maps are references: the provider writes to the map it is
    given.  [Tags] maps are built for one call and only read afterwards; they
    are plain finite maps. *)

(* map: providers/provider.go 24-41 ProvisionParameters *)
Record ProvisionParameters := mkProvisionParameters {
  pp_InstanceType : string;
  pp_CacheParameterGroupFamily : string;
  pp_SecurityGroupIds : list string;
  pp_CacheSubnetGroupName : string;
  pp_PreferredMaintenanceWindow : string;
  pp_ReplicasPerNodeGroup : Z;
  pp_ShardCount : Z;
  pp_SnapshotRetentionLimit : Z;
  pp_RestoreFromSnapshot : option string;
  pp_AutomaticFailoverEnabled : bool;
  pp_MultiAZEnabled : bool;
  pp_Description : string;
  pp_Parameters : map_ref;
  pp_Tags : gmap string string;
  pp_Engine : string;
  pp_EngineVersion : string;
}.

(* map: providers/provider.go 43-45 DeprovisionParameters *)
Record DeprovisionParameters := mkDeprovisionParameters {
  dp_FinalSnapshotIdentifier : string;
}.

(* map: providers/provider.go 47-49 UpdateReplicationGroupParameters *)
Record UpdateReplicationGroupParameters := mkUpdateReplicationGroupParameters {
  urg_PreferredMaintenanceWindow : string;
}.

(* map: providers/provider.go 51-53 UpdateParamGroupParameters *)
Record UpdateParamGroupParameters := mkUpdateParamGroupParameters {
  upg_Parameters : map_ref;
}.

(* map: providers/provider.go 55-59 SnapshotInfo *)
Record SnapshotInfo := mkSnapshotInfo {
  si_Name : string;
  si_CreateTime : Z;   (** an instant, in nanoseconds *)
  si_Tags : gmap string string;
}.

(* map: providers/provider.go 61-64 CacheParameter *)
Record CacheParameter := mkCacheParameter {
  cp_ParameterName : string;
  cp_ParameterValue : string;
}.

(* map: providers/provider.go 65-73 InstanceParameters *)
Record InstanceParameters := mkInstanceParameters {
  ip_PreferredMaintenanceWindow : string;
  ip_DailyBackupWindow : string;
  ip_MaxMemoryPolicy : string;
  ip_CacheParameters : list CacheParameter;
  ip_ActiveNodes : list string;
  ip_PassiveNodes : list string;
  ip_AutoFailover : bool;
}.

(** The zero value [InstanceParameters{}]. *)
Definition zero_InstanceParameters : InstanceParameters :=
  mkInstanceParameters "" "" "" [] [] [] false.

(* map: providers/provider.go 101-109 Credentials *)
Record Credentials := mkCredentials {
  cr_Host : string;
  cr_Port : Z;
  cr_Name : string;
  cr_Password : string;
  cr_URI : string;
  cr_TLSEnabled : bool;
}.

(** ** The methods of the interface *)

(* map: providers/provider.go 83-99 Provider *)
Inductive pv_call :=
  | PvProvision (ctx : context) (instanceID : string) (params : ProvisionParameters)
  | PvUpdateReplicationGroup (ctx : context) (instanceID : string)
      (params : UpdateReplicationGroupParameters)
  | PvUpdateParamGroupParameters (ctx : context) (instanceID : string)
      (params : UpdateParamGroupParameters)
  | PvDeprovision (ctx : context) (instanceID : string) (params : DeprovisionParameters)
  | PvProgressState (ctx : context) (instanceID operation primaryNode : string)
  | PvGetInstanceParameters (ctx : context) (instanceID : string)
  | PvGetInstanceTags (ctx : context) (instanceID : string)
  | PvGenerateCredentials (ctx : context) (instanceID bindingID : string)
  | PvRevokeCredentials (ctx : context) (instanceID bindingID : string)
  | PvDeleteCacheParameterGroup (ctx : context) (instanceID : string)
  | PvFindSnapshots (ctx : context) (instanceID : string)
  | PvStartFailoverTest (ctx : context) (instanceID : string).

Definition pv_out (c : pv_call) : Type :=
  match c with
  | PvProvision _ _ _ | PvUpdateReplicationGroup _ _ _ | PvUpdateParamGroupParameters _ _ _
  | PvDeprovision _ _ _ | PvRevokeCredentials _ _ _ | PvDeleteCacheParameterGroup _ _ =>
      option error
  | PvProgressState _ _ _ _ => ServiceState * string * option error
  | PvGetInstanceParameters _ _ => InstanceParameters * option error
  | PvGetInstanceTags _ _ => gmap string string * option error
  | PvGenerateCredentials _ _ _ => option Credentials * option error
  | PvFindSnapshots _ _ => list SnapshotInfo * option error
  | PvStartFailoverTest _ _ => string * option error
  end.

(** The map objects a call hands over to the provider. *)
Definition pv_maps (c : pv_call) : list nat :=
  match c with
  | PvProvision _ _ params => option_list (pp_Parameters params)
  | PvUpdateParamGroupParameters _ _ params => option_list (upg_Parameters params)
  | _ => []
  end.

(** Those it may write to. *)
Definition pv_refs (c : pv_call) : list nat :=
  match c with
  | PvProvision _ _ params => option_list (pp_Parameters params)
  | _ => []
  end.
