(* ===== verification/Go.v ===== *)
(** * A small model of the Go runtime

    The program runs in a state monad with panics.  The state has the map
    objects of the Go heap that the program mutates or shares, the trace of
    what the program did at its boundary, and the outside world, an abstract
    type [X] of which only the classes below are known: the clock, the entropy
    source, the iteration order of maps and the two AWS services. *)
From S2P Require Import Prelude GoBase Sdk Providers.
Local Open Scope Z_scope.

(** ** Outcomes and states *)

Inductive panic_reason :=
  | NilDereference
  | IndexOutOfRange
  | NegativeMakeLen
  | NilMapWrite
  | DanglingReference   (** a map reference the heap does not have: not a Go panic,
                            ruled out where it matters *)
  | PanicError (e : error)
  | LogFatal (msg : string).  (** [log.Fatal]: the process exits with status 1 *)

Inductive outcome (A : Type) :=
  | Ret (a : A)
  | Panic (p : panic_reason).
Arguments Ret {A} a.
Arguments Panic {A} p.

(** What the program does at its boundary: a call to an AWS service or to the
    provider with the answer it got (and the contents, at the time of the call,
    of the map objects handed over), a log line, a reading of the clock, the
    cancellation of a derived context. *)
Inductive event :=
  | EvElastiCache (c : ec_call) (r : ec_out c * option error)
  | EvSecretsManager (c : sm_call) (r : sm_out c * option error)
  | EvProvider (c : pv_call) (maps : list (gmap string string)) (r : pv_out c)
  | EvLog (l : log_line)
  | EvNow (t : Z)
  | EvCancel (ctx : context).

Record state (X : Type) := mkState {
  st_maps : list (gmap string string);
  st_trace : list event;
  st_world : X;
}.
Arguments mkState {X} _ _ _.
Arguments st_maps {X} _.
Arguments st_trace {X} _.
Arguments st_world {X} _.

Definition M (X A : Type) : Type := state X → outcome A * state X.

Declare Scope go_scope.
Delimit Scope go_scope with go.

Section monad.
Context {X : Type}.

Definition ret {A} (a : A) : M X A := λ s, (Ret a, s).
Definition panic {A} (p : panic_reason) : M X A := λ s, (Panic p, s).
Definition bind {A B} (m : M X A) (k : A → M X B) : M X B := λ s,
  match m s with
  | (Ret a, s') => k a s'
  | (Panic p, s') => (Panic p, s')
  end.

Definition emit (e : event) : M X () := λ s,
  (Ret tt, mkState (st_maps s) (st_trace s ++ [e]) (st_world s)).

Definition log (lvl : log_level) (action : string) (err : option error)
    (data : list (string * log_value)) : M X () :=
  emit (EvLog (mkLogLine lvl action err data)).

(** An operation of the outside world. *)
Definition external {A} (f : X → A * X) : M X A := λ s,
  (Ret (f (st_world s)).1, mkState (st_maps s) (st_trace s) (f (st_world s)).2).

(** [*p] *)
Definition deref {A} (p : option A) : M X A :=
  match p with Some a => ret a | None => panic NilDereference end.

(** [l[i]] *)
Definition index {A} (l : list A) (i : nat) : M X A :=
  match l !! i with Some a => ret a | None => panic IndexOutOfRange end.

(** [map[string]string{...}]: a new map object. *)
Definition alloc_map (m : gmap string string) : M X map_ref := λ s,
  (Ret (Some (length (st_maps s))),
   mkState (st_maps s ++ [m]) (st_trace s) (st_world s)).

(** The contents of a map; a nil map reads as an empty one. *)
Definition read_map (r : map_ref) : M X (gmap string string) := λ s,
  match r with
  | None => (Ret ∅, s)
  | Some l =>
      match st_maps s !! l with
      | Some m => (Ret m, s)
      | None => (Panic DanglingReference, s)
      end
  end.

(** [r[k] = v]: writing to a nil map panics. *)
Definition write_map (r : map_ref) (k v : string) : M X () := λ s,
  match r with
  | None => (Panic NilMapWrite, s)
  | Some l =>
      match st_maps s !! l with
      | Some m => (Ret tt, mkState (<[l := <[k := v]> m]> (st_maps s)) (st_trace s) (st_world s))
      | None => (Panic DanglingReference, s)
      end
  end.

(** The contents of some map objects, for the record. *)
Definition peek_maps (refs : list nat) : M X (list (gmap string string)) := λ s,
  (Ret (omap (λ l, st_maps s !! l) refs), s).

(** [ctx', cancel := context.WithTimeout(ctx, d); defer cancel()]: the rest
    of the function runs with the derived context, which is cancelled when
    the function returns or panics. *)
Definition with_timeout {A} (ctx : context) (d : Z) (body : context → M X A) : M X A := λ s,
  let '(o, s') := body (TimeoutContext ctx d) s in
  (o, mkState (st_maps s') (st_trace s' ++ [EvCancel (TimeoutContext ctx d)]) (st_world s')).

(** [for _, x := range l { ... }] with an accumulator. *)
Fixpoint for_each {A B} (l : list A) (acc : B) (body : B → A → M X B) : M X B :=
  match l with
  | [] => ret acc
  | x :: l' => bind (body acc x) (λ acc', for_each l' acc' body)
  end.
End monad.

Notation "'let!' x ':=' m 'in' k" := (bind m (λ x, k))
  (at level 10, x pattern, m at level 100, k at level 200) : go_scope.
Notation "'do!' m 'in' k" := (bind m (λ _, k))
  (at level 10, m at level 100, k at level 200) : go_scope.
(** [x, err := m; if err != nil { return h }; k] *)
Notation "'try!' x ':=' m 'catch' e '=>' h 'in' k" :=
  (bind m (λ r, match r with
                | (_, Some e) => h
                | (x, None) => k
                end))
  (at level 10, x name, m at level 100, e name, h at level 200, k at level 200) : go_scope.
(** [if err := m; err != nil { return h }; k] *)
Notation "'check!' m 'catch' e '=>' h 'in' k" :=
  (bind m (λ r, match r with
                | Some e => h
                | None => k
                end))
  (at level 10, m at level 100, e name, h at level 200, k at level 200) : go_scope.

(** ** Interfaces to the outside world *)

(** The nondeterminism of the language and of the machine. *)
Class Runtime (X : Type) := {
  rt_now : X → Z * X;                           (** [time.Now], in nanoseconds since 1970 *)
  rt_zone : Z → Z;                              (** offset of the local zone at an instant, in seconds *)
  rt_rand : Z → X → (Z * option error) * X;     (** [rand.Int(rand.Reader, max)] *)
  rt_range : gset string → X → list string * X; (** order in which [range] visits the keys of a map *)
  rt_sort : ∀ {A}, (A → A → bool) → list A → list A; (** [sort.Sort] with a [Less] *)
}.

(** A strict weak order given by its boolean test. *)
Record strict_weak {A} (less : A → A → bool) : Prop := {
  less_irrefl : ∀ a, less a a = false;
  less_trans : ∀ a b c, less a b = true → less b c = true → less a c = true;
  incomparable_trans : ∀ a b c, less b a = false → less c b = false → less c a = false;
}.

(** What the language promises: [range] visits every key once, [rand.Int] is in
    range, [sort.Sort] permutes and sorts (it need not be stable). *)
Class RuntimeLaws (X : Type) `{Runtime X} : Prop := {
  rt_range_perm : ∀ (ks : gset string) x, (rt_range ks x).1 ≡ₚ elements ks;
  rt_rand_range : ∀ n x v, 0 < n → (rt_rand n x).1 = (v, None) → 0 <= v < n;
  rt_sort_perm : ∀ A (less : A → A → bool) l, rt_sort less l ≡ₚ l;
  rt_sort_sorted : ∀ A (less : A → A → bool) l, strict_weak less →
    StronglySorted (λ a b, less b a = false) (rt_sort less l);
}.

Section runtime.
Context {X : Type} `{Runtime X}.

Definition now : M X Z := bind (external rt_now) (λ t, bind (emit (EvNow t)) (λ _, ret t)).

Definition rand_int (max : Z) : M X (Z * option error) := external (rt_rand max).

(** [for k := range m]: the keys of a map with keys [ks], in the order of
    this run. *)
Definition range_keys (ks : gset string) : M X (list string) := external (rt_range ks).

(** [for k, v := range m]: the entries of the map, in the order of this run. *)
Definition range_map {V} (m : gmap string V) : M X (list (string * V)) :=
  bind (range_keys (dom m))
    (λ ks, ret (omap (λ k, pair k <$> m !! k) ks)).
End runtime.

(** ** Reasoning

    [runs h m Q]: started with the map objects [h], whatever the outside world
    answers, [m] ends with an outcome, new events and map objects that satisfy
    [Q].  The trace before is kept. *)

Definition runs {X A} (h : list (gmap string string)) (m : M X A)
    (Q : outcome A → list event → list (gmap string string) → Prop) : Prop :=
  ∀ s, st_maps s = h →
    ∃ es, st_trace (m s).2 = st_trace s ++ es ∧ Q (m s).1 es (st_maps (m s).2).

Section runs.
Context {X : Type}.
Implicit Types h : list (gmap string string).

Lemma runs_conseq {A} h (m : M X A) (Q Q' : outcome A → list event → _ → Prop) :
  runs h m Q' → (∀ o es h', Q' o es h' → Q o es h') → runs h m Q.
Proof. intros Hm HQ s Hs. destruct (Hm s Hs) as (es & ? & ?). eauto. Qed.

Lemma runs_ret {A} h (a : A) (Q : outcome A → list event → _ → Prop) :
  Q (Ret a) [] h → runs h (ret a : M X A) Q.
Proof. intros HQ s <-. exists []. by rewrite app_nil_r. Qed.

Lemma runs_panic {A} h p (Q : outcome A → list event → _ → Prop) :
  Q (Panic p) [] h → runs h (panic p : M X A) Q.
Proof. intros HQ s <-. exists []. by rewrite app_nil_r. Qed.

Lemma runs_bind {A B} h (m : M X A) (k : A → M X B) (Q : outcome B → list event → _ → Prop) :
  runs h m (λ o es h',
    match o with
    | Ret a => runs h' (k a) (λ o' es' h'', Q o' (es ++ es') h'')
    | Panic p => Q (Panic p) es h'
    end) →
  runs h (bind m k) Q.
Proof.
  intros Hm s Hs. destruct (Hm s Hs) as (es & Htr & HQ). unfold bind.
  destruct (m s) as [[a|p] s'] eqn:Hms; simpl in *.
  - destruct (HQ s' eq_refl) as (es' & Htr' & HQ'). exists (es ++ es').
    rewrite Htr', Htr, app_assoc. done.
  - exists es. done.
Qed.

Lemma runs_emit h e (Q : outcome () → list event → _ → Prop) :
  Q (Ret tt) [e] h → runs h (emit e : M X ()) Q.
Proof. intros HQ s <-. exists [e]. done. Qed.

Lemma runs_log h lvl act err data (Q : outcome () → list event → _ → Prop) :
  Q (Ret tt) [EvLog (mkLogLine lvl act err data)] h →
  runs h (log lvl act err data : M X ()) Q.
Proof. apply runs_emit. Qed.

Lemma runs_external {A} h (f : X → A * X) (Q : outcome A → list event → _ → Prop) :
  (∀ x, Q (Ret (f x).1) [] h) → runs h (external f) Q.
Proof. intros HQ s <-. exists []. simpl. rewrite app_nil_r. eauto. Qed.

(** A program whose first part is known to return. *)
Lemma run_bind {A B} (m : M X A) (k : A → M X B) s a s' :
  m s = (Ret a, s') → bind m k s = k a s'.
Proof. intros Hm. unfold bind. by rewrite Hm. Qed.

(** A call to the outside, with its answer. *)
Lemma run_external {A B} (f : X → A * X) (k : A → M X B) s a x' :
  f (st_world s) = (a, x') → bind (external f) k s = k a (mkState (st_maps s) (st_trace s) x').
Proof. intros Hf. unfold bind, external. by rewrite Hf. Qed.

Lemma runs_deref {A} h (p : option A) (Q : outcome A → list event → _ → Prop) :
  match p with Some a => Q (Ret a) [] h | None => Q (Panic NilDereference) [] h end →
  runs h (deref p : M X A) Q.
Proof. destruct p; [apply runs_ret|apply runs_panic]. Qed.

Lemma runs_index {A} h (l : list A) i (Q : outcome A → list event → _ → Prop) :
  match l !! i with Some a => Q (Ret a) [] h | None => Q (Panic IndexOutOfRange) [] h end →
  runs h (index l i : M X A) Q.
Proof. unfold index. destruct (l !! i); [apply runs_ret|apply runs_panic]. Qed.

Lemma runs_alloc_map h m (Q : outcome map_ref → list event → _ → Prop) :
  Q (Ret (Some (length h))) [] (h ++ [m]) → runs h (alloc_map m : M X map_ref) Q.
Proof. intros HQ s <-. exists []. simpl. by rewrite app_nil_r. Qed.

Lemma runs_peek_maps h refs (Q : outcome (list (gmap string string)) → list event → _ → Prop) :
  Q (Ret (omap (λ l, h !! l) refs)) [] h → runs h (peek_maps refs : M X _) Q.
Proof. intros HQ s <-. exists []. simpl. by rewrite app_nil_r. Qed.

Lemma runs_read_nil h (Q : outcome (gmap string string) → list event → _ → Prop) :
  Q (Ret ∅) [] h → runs h (read_map None : M X _) Q.
Proof. intros HQ s <-. exists []. simpl. by rewrite app_nil_r. Qed.

Lemma runs_read_map h l m (Q : outcome (gmap string string) → list event → _ → Prop) :
  h !! l = Some m → Q (Ret m) [] h → runs h (read_map (Some l) : M X _) Q.
Proof. intros Hl HQ s <-. exists []. simpl. rewrite Hl. simpl. by rewrite app_nil_r. Qed.

Lemma runs_write_map h l m k v (Q : outcome () → list event → _ → Prop) :
  h !! l = Some m → Q (Ret tt) [] (<[l := <[k := v]> m]> h) →
  runs h (write_map (Some l) k v : M X ()) Q.
Proof. intros Hl HQ s <-. exists []. simpl. rewrite Hl. simpl. by rewrite app_nil_r. Qed.

Lemma runs_with_timeout {A} h ctx d (body : context → M X A)
    (Q : outcome A → list event → _ → Prop) :
  runs h (body (TimeoutContext ctx d))
    (λ o es h', Q o (es ++ [EvCancel (TimeoutContext ctx d)]) h') →
  runs h (with_timeout ctx d body) Q.
Proof.
  intros Hb s Hs. destruct (Hb s Hs) as (es & Htr & HQ). unfold with_timeout.
  destruct (body _ s) as [o s'] eqn:Hbs. simpl in *.
  exists (es ++ [EvCancel (TimeoutContext ctx d)]). by rewrite Htr, app_assoc.
Qed.

(** Loops: an invariant on the accumulator and the events so far, kept by
    every iteration that returns. *)
Lemma runs_for_each {A B} h (l : list A) (acc : B) (body : B → A → M X B)
    (I : list A → B → list event → Prop) (Q : outcome B → list event → _ → Prop) :
  I [] acc [] →
  (∀ done x rest acc' es, l = done ++ x :: rest → I done acc' es →
     runs h (body acc' x) (λ o es' h',
       match o with
       | Ret acc'' => h' = h ∧ I (done ++ [x]) acc'' (es ++ es')
       | Panic p => Q (Panic p) (es ++ es') h'
       end)) →
  (∀ acc' es, I l acc' es → Q (Ret acc') es h) →
  runs h (for_each l acc body) Q.
Proof.
  intros Hinit Hstep Hend.
  assert (∀ rest dn acc' es, l = dn ++ rest → I dn acc' es →
    runs h (for_each rest acc' body) (λ o es' h', Q o (es ++ es') h')) as Hgen.
  { intros rest. induction rest as [|x rest IH]; intros dn acc' es Hl HI; simpl.
    - apply runs_ret. rewrite app_nil_r. apply Hend. by rewrite Hl, app_nil_r.
    - apply runs_bind. eapply runs_conseq; [by eapply Hstep|].
      intros [acc''|p] es' h'; [|done]. intros [-> HI'].
      eapply runs_conseq; [apply (IH (dn ++ [x])); [by rewrite <-app_assoc|exact HI']|].
      intros o es'' h'' HQ. by rewrite app_assoc. }
  apply (Hgen l [] acc []); done.
Qed.
End runs.

Section runs_runtime.
Context {X : Type} `{RuntimeLaws X}.

Lemma runs_now h (Q : outcome Z → list event → list (gmap string string) → Prop) :
  (∀ t, Q (Ret t) [EvNow t] h) → runs h (now : M X Z) Q.
Proof.
  intros HQ. apply runs_bind, runs_external. intros x. apply runs_bind, runs_emit, runs_ret.
  apply HQ.
Qed.

Lemma runs_rand h n (Q : outcome (Z * option error) → list event → list (gmap string string) → Prop) :
  0 < n →
  (∀ v, 0 <= v < n → Q (Ret (v, None)) [] h) → (∀ v e, Q (Ret (v, Some e)) [] h) →
  runs h (rand_int n : M X _) Q.
Proof.
  intros Hn HQ1 HQ2. apply runs_external. intros x.
  destruct (rt_rand n x).1 as [v [e|]] eqn:Hr; [apply HQ2|].
  apply HQ1. by eapply rt_rand_range.
Qed.

Lemma range_entries_NoDup {V} (m : gmap string V) ks :
  NoDup ks → NoDup (omap (λ k, pair k <$> m !! k) ks).
Proof.
  induction 1 as [|k ks Hk Hks IH]; csimpl; [constructor|].
  destruct (m !! k) as [v|] eqn:Hm; simpl; [|done]. constructor; [|done].
  intros (k' & Hk' & Heq)%list_elem_of_omap.
  destruct (m !! k'); simplify_eq/=. done.
Qed.

(** Whatever the order of the keys, [range] yields the entries of the map. *)
Lemma range_entries_perm {V} (m : gmap string V) ks :
  ks ≡ₚ elements (dom m) → omap (λ k, pair k <$> m !! k) ks ≡ₚ map_to_list m.
Proof.
  intros Hks. apply NoDup_Permutation.
  - apply range_entries_NoDup. rewrite Hks. apply NoDup_elements.
  - apply NoDup_map_to_list.
  - intros [k v]. rewrite elem_of_map_to_list, list_elem_of_omap. split.
    + intros (k' & _ & Heq). destruct (m !! k') eqn:?; by simplify_eq/=.
    + intros Hm. exists k. rewrite Hks, elem_of_elements, elem_of_dom, Hm. eauto.
Qed.

Lemma runs_range_keys h ks
    (Q : outcome (list string) → list event → list (gmap string string) → Prop) :
  (∀ l, l ≡ₚ elements ks → Q (Ret l) [] h) → runs h (range_keys ks : M X _) Q.
Proof. intros HQ. apply runs_external. intros x. apply HQ, rt_range_perm. Qed.

Lemma runs_range_map {V} h (m : gmap string V)
    (Q : outcome (list (string * V)) → list event → list (gmap string string) → Prop) :
  (∀ l, l ≡ₚ map_to_list m → Q (Ret l) [] h) → runs h (range_map m : M X _) Q.
Proof.
  intros HQ. apply runs_bind, runs_range_keys. intros ks Hks. apply runs_ret. simpl.
  by apply HQ, range_entries_perm.
Qed.
End runs_runtime.
