(* ===== verification/Interfaces.v ===== *)
(** * The interfaces between the components

    [providers.ElastiCache] and [providers.SecretsManager] are implemented by
    the AWS SDK, outside the program: their classes give no law, every theorem
    holds whatever they answer.  [providers.Provider] is what the broker
    programs against; [ProviderLaws] is what the broker needs to know of an
    implementation. *)
From S2P Require Import Prelude GoBase Sdk Providers Go.

Class ElastiCache (X : Type) :=
  ec_serve : ∀ c : ec_call, X → (ec_out c * option error) * X.

Class SecretsManager (X : Type) :=
  sm_serve : ∀ c : sm_call, X → (sm_out c * option error) * X.

Class Provider (X : Type) :=
  pv_serve : ∀ c : pv_call, M X (pv_out c).

Section calls.
Context {X : Type}.

Definition ec_do `{ElastiCache X} (c : ec_call) : M X (ec_out c * option error) :=
  bind (external (ec_serve c)) (λ r, bind (emit (EvElastiCache c r)) (λ _, ret r)).

Definition sm_do `{SecretsManager X} (c : sm_call) : M X (sm_out c * option error) :=
  bind (external (sm_serve c)) (λ r, bind (emit (EvSecretsManager c r)) (λ _, ret r)).

(** A call through the [Provider] interface, once it has returned. *)
Definition pv_do `{Provider X} (c : pv_call) : M X (pv_out c) :=
  bind (peek_maps (pv_maps c)) (λ maps,
  bind (pv_serve c) (λ r, bind (emit (EvProvider c maps r)) (λ _, ret r))).
End calls.

(** ** Projections of a trace *)

Definition is_provider_event (e : event) : bool :=
  match e with EvProvider _ _ _ => true | _ => false end.

Definition is_aws_event (e : event) : bool :=
  match e with EvElastiCache _ _ | EvSecretsManager _ _ => true | _ => false end.

Definition is_broker_event (e : event) : bool :=
  match e with EvProvider _ _ _ | EvNow _ => true | _ => false end.

(** What the broker does itself: the calls to its [Provider], with their
    answers, and the readings of the clock. *)
Definition broker_events (es : list event) : list event :=
  filter (λ e, Is_true (is_broker_event e)) es.

(** The calls made to the two AWS services, with their answers. *)
Definition aws_events (es : list event) : list event :=
  filter (λ e, Is_true (is_aws_event e)) es.

(** The contexts that have been cancelled. *)
Definition cancelled (es : list event) : list context :=
  omap (λ e, match e with EvCancel ctx => Some ctx | _ => None end) es.

Lemma broker_events_app es es' :
  broker_events (es ++ es') = broker_events es ++ broker_events es'.
Proof. apply list.filter_app. Qed.

Lemma aws_events_app es es' : aws_events (es ++ es') = aws_events es ++ aws_events es'.
Proof. apply list.filter_app. Qed.

Lemma cancelled_app es es' : cancelled (es ++ es') = cancelled es ++ cancelled es'.
Proof. apply omap_app. Qed.

(** ** What the heap keeps *)

(** Every object of [h], those at the addresses [refs] apart, is unchanged in
    [h']. *)
Definition frame (refs : list nat) (h h' : list (gmap string string)) : Prop :=
  length h ≤ length h' ∧ ∀ l, l < length h → l ∉ refs → h' !! l = h !! l.

Lemma frame_refl refs h : frame refs h h.
Proof. split; [done|]. auto. Qed.

Lemma frame_trans refs h1 h2 h3 : frame refs h1 h2 → frame refs h2 h3 → frame refs h1 h3.
Proof.
  intros [Hl1 H1] [Hl2 H2]. split; [lia|]. intros l Hl Hr.
  rewrite H2 by (done || lia). by apply H1.
Qed.

Lemma frame_alloc refs h m : frame refs h (h ++ [m]).
Proof.
  split; [rewrite length_app; lia|]. intros l Hl _. by apply lookup_app_l.
Qed.

(** A new object may be written to freely. *)
Lemma frame_fresh h m h' : frame [length h] (h ++ [m]) h' → frame [] h h'.
Proof.
  intros [Hl Hf]. rewrite length_app in *. simpl in *. split; [lia|].
  intros l Hl' _. rewrite Hf; [by apply lookup_app_l|lia|].
  rewrite list_elem_of_singleton. lia.
Qed.

Lemma frame_weaken refs h h' : frame [] h h' → frame refs h h'.
Proof. intros [Hl Hf]. split; [done|]. intros l ??. apply Hf; [done|]. apply not_elem_of_nil. Qed.

Lemma frame_write h l m : frame [l] h (<[l := m]> h).
Proof.
  split; [by rewrite length_insert|]. intros l' _ Hne'%not_elem_of_cons.
  apply list_lookup_insert_ne. naive_solver.
Qed.

Lemma frame_lookup h h' l m : frame [] h h' → h !! l = Some m → h' !! l = Some m.
Proof.
  intros [_ Hf] Hl. rewrite Hf; [done| |apply not_elem_of_nil]. by eapply lookup_lt_Some.
Qed.

#[export] Hint Resolve frame_refl frame_alloc frame_fresh frame_weaken frame_write : go.

(** The contents of the map behind a reference. *)
Definition deref_map (h : list (gmap string string)) (r : map_ref) : option (gmap string string) :=
  match r with None => Some ∅ | Some l => h !! l end.

Lemma frame_deref h h' r m : frame [] h h' → deref_map h r = Some m → deref_map h' r = Some m.
Proof. destruct r as [l|]; [|done]. apply frame_lookup. Qed.

(** ** What the broker needs of a provider

    A provider makes no call through the [Provider] interface itself, does not
    read the clock, and writes to no map but the ones it is given. *)
Class ProviderLaws (X : Type) `{Provider X} : Prop :=
  pv_contract : ∀ (c : pv_call) (h : list (gmap string string)),
    Forall (λ l, l < length h) (pv_refs c) →
    runs h (pv_serve c) (λ _ es h', broker_events es = [] ∧ frame (pv_refs c) h h').

(** The maps a call hands over exist in the heap. *)
Definition maps_valid (h : list (gmap string string)) (c : pv_call) : Prop :=
  Forall (λ l, l < length h) (pv_maps c).

Lemma maps_valid_refs h c : maps_valid h c → Forall (λ l, l < length h) (pv_refs c).
Proof. by destruct c. Qed.

(** The provider panics with [p], in some state, on a call that is handed maps
    that exist. *)
Definition provider_panics (X : Type) `{Provider X} (p : panic_reason) : Prop :=
  ∃ (c : pv_call) (s : state X), maps_valid (st_maps s) c ∧ (pv_serve c s).1 = Panic p.

Section runs_calls.
Context {X : Type}.
Implicit Types h : list (gmap string string).

Lemma runs_read_deref h r m (Q : outcome (gmap string string) → list event → _ → Prop) :
  deref_map h r = Some m → Q (Ret m) [] h → runs h (read_map r : M X _) Q.
Proof.
  destruct r as [l|]; simpl; [by apply runs_read_map|]. intros [= <-]. apply runs_read_nil.
Qed.

Lemma runs_ec_do `{ElastiCache X} h c (Q : outcome _ → list event → _ → Prop) :
  (∀ r, Q (Ret r) [EvElastiCache c r] h) → runs h (ec_do c : M X _) Q.
Proof.
  intros HQ. apply runs_bind, runs_external. intros x. apply runs_bind, runs_emit, runs_ret.
  apply HQ.
Qed.

Lemma runs_sm_do `{SecretsManager X} h c (Q : outcome _ → list event → _ → Prop) :
  (∀ r, Q (Ret r) [EvSecretsManager c r] h) → runs h (sm_do c : M X _) Q.
Proof.
  intros HQ. apply runs_bind, runs_external. intros x. apply runs_bind, runs_emit, runs_ret.
  apply HQ.
Qed.

Lemma runs_pv_do `{ProviderLaws X} h c (Q : outcome _ → list event → _ → Prop) :
  maps_valid h c →
  (∀ r es h', broker_events es = [] → frame (pv_refs c) h h' →
     Q (Ret r) (es ++ [EvProvider c (omap (λ l, h !! l) (pv_maps c)) r]) h') →
  (∀ p es h', provider_panics X p → broker_events es = [] → frame (pv_refs c) h h' →
     Q (Panic p) es h') →
  runs h (pv_do c : M X _) Q.
Proof.
  intros Hmaps HQ1 HQ2. apply runs_bind, runs_peek_maps. apply runs_bind.
  pose proof (maps_valid_refs h c Hmaps) as Hrefs.
  assert (runs h (pv_serve c) (λ o es h', (broker_events es = [] ∧ frame (pv_refs c) h h') ∧
    ∀ p, o = Panic p → provider_panics X p)) as Hrun.
  { intros s Hs. destruct (pv_contract c h Hrefs s Hs) as (es & Htr & HQ). exists es.
    split; [done|]. split; [done|]. intros p Hp. exists c, s. by rewrite Hs. }
  eapply runs_conseq; [exact Hrun|].
  intros [r|p] es h' [[Hes Hfr] Hp]; [|by apply HQ2; auto].
  apply runs_bind, runs_emit, runs_ret. by apply HQ1.
Qed.
End runs_calls.

(** The outcome of a handler of the broker that works in the derived context
    [pctx]: the maps that exist are as they were, the calls to the provider and
    the result are as [spec] says, the context is cancelled at the end if a call
    was made, and a panic is one of the provider. *)
Definition handled {X} `{Provider X} {A} (pctx : context) (h : list (gmap string string))
    (spec : list event → A → Prop) (o : outcome A) (es : list event)
    (h' : list (gmap string string)) : Prop :=
  frame [] h h' ∧ (existsb is_provider_event (broker_events es) = true → list.last es = Some (EvCancel pctx)) ∧
  match o with
  | Ret r => spec (broker_events es) r
  | Panic p => provider_panics X p ∧ list.last es = Some (EvCancel pctx)
  end.

(** The outcome of a part of such a handler. *)
Definition part_of {X} `{Provider X} {A} (h : list (gmap string string))
    (spec : list event → A → Prop) (o : outcome A) (es : list event)
    (h' : list (gmap string string)) : Prop :=
  frame [] h h' ∧
  match o with Ret r => spec (broker_events es) r | Panic p => provider_panics X p end.

Section handled.
Context {X : Type} `{Provider X} {A : Type} (pctx : context) (h : list (gmap string string)).
Context (spec : list event → A → Prop).

Lemma handled_quiet l r : spec [] r → handled pctx h spec (Ret r) [EvLog l] h.
Proof. intros Hs. split; [apply frame_refl|]. done. Qed.

Lemma handled_no_call l es r :
  existsb is_provider_event (broker_events es) = false → spec (broker_events es) r →
  handled pctx h spec (Ret r) ([EvLog l] ++ es) h.
Proof.
  intros He Hs. split; [apply frame_refl|]. split; [|done]. intros Hb. exfalso.
  change (existsb is_provider_event (broker_events es) = true) in Hb. congruence.
Qed.

Lemma handled_cancel l es h' r :
  frame [] h h' → spec (broker_events es) r →
  handled pctx h spec (Ret r) ([EvLog l] ++ es ++ [EvCancel pctx]) h'.
Proof.
  intros Hfr Hs. split; [done|]. rewrite app_assoc, list.last_snoc, broker_events_app, app_nil_r.
  by rewrite broker_events_app.
Qed.

Lemma handled_panic l es h' p :
  frame [] h h' → provider_panics X p →
  handled pctx h spec (Panic p) ([EvLog l] ++ es ++ [EvCancel pctx]) h'.
Proof. intros Hfr Hp. split; [done|]. by rewrite app_assoc, list.last_snoc. Qed.

(** A part under the derived context, after the log line. *)
Lemma part_handled l (m : M X A) :
  runs h m (part_of h spec) →
  runs h m (λ o es h', handled pctx h spec o ([EvLog l] ++ es ++ [EvCancel pctx]) h').
Proof.
  intros Hm. eapply runs_conseq; [exact Hm|]. intros [r|p] es h' [Hfr Hr].
  - by apply handled_cancel.
  - by apply handled_panic.
Qed.

Lemma part_here r : spec [] r → part_of h spec (Ret r) [] h.
Proof. intros Hs. split; [apply frame_refl|done]. Qed.
End handled.

(** ** Effect bounds

    [only P m]: whatever is answered, [m] does nothing at the boundary but
    events of [P], and touches no map object. *)
Definition only {X A} (P : event → bool) (m : M X A) : Prop :=
  ∀ h, runs h m (λ _ es h', forallb P es = true ∧ h' = h).

Section only.
Context {X : Type} (P : event → bool).

Lemma only_ret {A} (a : A) : only P (ret a : M X A).
Proof. intros h. by apply runs_ret. Qed.

Lemma only_panic {A} p : only P (panic p : M X A).
Proof. intros h. by apply runs_panic. Qed.

Lemma only_deref {A} (o : option A) : only P (deref o : M X A).
Proof. destruct o; [apply only_ret|apply only_panic]. Qed.

Lemma only_index {A} (l : list A) i : only P (index l i : M X A).
Proof. unfold index. destruct (l !! i); [apply only_ret|apply only_panic]. Qed.

Lemma only_emit e : P e = true → only P (emit e : M X ()).
Proof. intros He h. apply runs_emit. simpl. by rewrite He. Qed.

Lemma only_log lvl act err data :
  P (EvLog (mkLogLine lvl act err data)) = true → only P (log lvl act err data : M X ()).
Proof. apply only_emit. Qed.

Lemma only_external {A} (f : X → A * X) : only P (external f).
Proof. intros h. by apply runs_external. Qed.

Lemma only_read_map r : only P (read_map r : M X _).
Proof.
  intros h s <-. exists []. rewrite app_nil_r. destruct r as [l|]; simpl; [|done].
  by destruct (st_maps s !! l).
Qed.

Lemma only_bind {A B} (m : M X A) (k : A → M X B) :
  only P m → (∀ a, only P (k a)) → only P (bind m k).
Proof.
  intros Hm Hk h. apply runs_bind. eapply runs_conseq; [apply Hm|].
  intros [a|p] es h' [Hes ->]; [|done].
  eapply runs_conseq; [apply Hk|]. intros o es' h' [Hes' ->].
  by rewrite forallb_app, Hes.
Qed.

Lemma only_for_each {A B} (l : list A) (acc : B) (body : B → A → M X B) :
  (∀ b a, only P (body b a)) → only P (for_each l acc body).
Proof.
  intros Hb. revert acc. induction l as [|x l IH]; intros acc; [apply only_ret|].
  apply only_bind; [apply Hb|apply IH].
Qed.

Lemma only_ec_do `{ElastiCache X} c :
  (∀ r, P (EvElastiCache c r) = true) → only P (ec_do c : M X _).
Proof.
  intros HP. apply only_bind; [apply only_external|]. intros r.
  apply only_bind; [by apply only_emit|]. intros _. apply only_ret.
Qed.

Lemma only_sm_do `{SecretsManager X} c :
  (∀ r, P (EvSecretsManager c r) = true) → only P (sm_do c : M X _).
Proof.
  intros HP. apply only_bind; [apply only_external|]. intros r.
  apply only_bind; [by apply only_emit|]. intros _. apply only_ret.
Qed.

Lemma only_range_map `{Runtime X} {V} (m : gmap string V) : only P (range_map m : M X _).
Proof. apply only_bind; [apply only_external|]. intros ks. apply only_ret. Qed.

Lemma only_weaken {A} (P' : event → bool) (m : M X A) :
  (∀ e, P e = true → P' e = true) → only P m → only P' m.
Proof.
  intros HP Hm h. eapply runs_conseq; [apply Hm|]. intros _ es h' [Hes ->]. split; [|done].
  rewrite forallb_forall in *. auto.
Qed.
End only.

(** Structural search for an effect bound: the rule of each operation, the
    hints of the database [go] for the operations that have a bound already. *)
Ltac only_step :=
  lazymatch goal with
  | |- only _ (bind _ _) => apply only_bind
  | |- only _ (ret _) => apply only_ret
  | |- only _ (panic _) => apply only_panic
  | |- only _ (deref _) => apply only_deref
  | |- only _ (index _ _) => apply only_index
  | |- only _ (log _ _ _ _) => apply only_log
  | |- only _ (external _) => apply only_external
  | |- only _ (read_map _) => apply only_read_map
  | |- only _ (range_map _) => apply only_range_map
  | |- only _ (for_each _ _ _) => apply only_for_each
  | |- only _ (ec_do _) => apply only_ec_do
  | |- only _ (sm_do _) => apply only_sm_do
  | |- only _ (match ?x with _ => _ end) => destruct x
  | |- only _ (let _ := _ in _) => cbv zeta
  | |- only _ _ => solve [eauto 3 with go]
  | |- ∀ _, _ => intros ?
  end; cbn beta.
Ltac only_auto := repeat only_step; try done.

(** Calls that change nothing: they describe or list, or log. *)
Definition is_read_event (e : event) : bool :=
  match e with
  | EvElastiCache c _ =>
      match c with
      | DescribeReplicationGroupsWithContext _ _ | DescribeCacheClustersWithContext _ _
      | DescribeCacheParametersWithContext _ _ | DescribeSnapshotsPagesWithContext _
      | ListTagsForResourceWithContext _ _ => true
      | _ => false
      end
  | EvSecretsManager c _ =>
      match c with GetSecretValueWithContext _ _ => true | _ => false end
  | EvLog _ => true
  | _ => false
  end.

Definition is_not_broker (e : event) : bool := negb (is_broker_event e).

Lemma read_not_broker e : is_read_event e = true → is_not_broker e = true.
Proof. by destruct e. Qed.

Lemma only_not_broker es : forallb is_not_broker es = true → broker_events es = [].
Proof.
  induction es as [|e es IH]; [done|]. simpl. rewrite andb_true_iff. intros [He Hes].
  unfold broker_events. rewrite filter_cons_False; [by apply IH|].
  unfold is_not_broker in He. destruct (is_broker_event e); [done|intros []].
Qed.

(** ** Symbolic execution

    [go_step] applies the rule of the first operation of the program. *)
Ltac go_step :=
  lazymatch goal with
  | |- runs _ (bind _ _) _ => apply runs_bind
  | |- runs _ (ret _) _ => apply runs_ret
  | |- runs _ (panic _) _ => apply runs_panic
  | |- runs _ (emit _) _ => apply runs_emit
  | |- runs _ (log _ _ _ _) _ => apply runs_log
  | |- runs _ (deref (Some _)) _ => apply runs_deref
  | |- runs _ (deref ?p) _ => apply runs_deref; destruct p eqn:?
  | |- runs _ (index ?l ?i) _ => apply runs_index; destruct (l !! i) eqn:?
  | |- runs _ (alloc_map _) _ => apply runs_alloc_map
  | |- runs _ (read_map None) _ => apply runs_read_nil
  | |- runs _ (with_timeout _ _ _) _ => apply runs_with_timeout
  | |- runs _ now _ => apply runs_now; intros ?
  | |- runs _ (range_map _) _ => apply runs_range_map; intros ? ?
  | |- runs _ (range_keys _) _ => apply runs_range_keys; intros ? ?
  | |- runs _ (ec_do _) _ => apply runs_ec_do; intros [? [?|]]
  | |- runs _ (sm_do _) _ => apply runs_sm_do; intros [? [?|]]
  | |- runs _ (match ?x with _ => _ end) _ => destruct x eqn:?
  end; cbn beta iota.
Ltac go_steps := repeat go_step.
