(* ===== verification/Footprint.v ===== *)
(** * Footprints

    Which calls to AWS a program can make, whatever it is answered.  A footprint
    is proved once from the shape of the program, and gives both the calls that
    can be in its trace and what it can do to the outside world. *)
From S2P Require Import Prelude GoBase Sdk Providers Go Interfaces.

Inductive aws_call :=
  | AwsEc (c : ec_call)
  | AwsSm (c : sm_call).

(** An event that is no call to AWS, or a call in the footprint. *)
Definition within (K : aws_call → bool) (e : event) : Prop :=
  match e with
  | EvElastiCache c _ => K (AwsEc c) = true
  | EvSecretsManager c _ => K (AwsSm c) = true
  | _ => True
  end.

Section footprint.
Context {X : Type} `{Runtime X} `{ElastiCache X} `{SecretsManager X}.

(** The programs put together from the operations of the runtime model and from
    the calls of [K]. *)
Inductive built (K : aws_call → bool) : ∀ {A : Type}, M X A → Prop :=
  | built_ret {A} (a : A) : built K (ret a)
  | built_panic {A} p : built K (panic p : M X A)
  | built_bind {A B} (m : M X A) (k : A → M X B) :
      built K m → (∀ a, built K (k a)) → built K (bind m k)
  | built_timeout {A} ctx d (body : context → M X A) :
      built K (body (TimeoutContext ctx d)) → built K (with_timeout ctx d body)
  | built_emit e : is_aws_event e = false → built K (emit e)
  | built_clock : built K (external rt_now)
  | built_random n : built K (external (rt_rand n))
  | built_range ks : built K (external (rt_range ks))
  | built_alloc m : built K (alloc_map m)
  | built_read r : built K (read_map r)
  | built_write r k v : built K (write_map r k v)
  | built_peek refs : built K (peek_maps refs)
  | built_ec c : K (AwsEc c) = true → built K (ec_do c)
  | built_sm c : K (AwsSm c) = true → built K (sm_do c).

Variable K : aws_call → bool.

Lemma built_weaken {A} (K' : aws_call → bool) (m : M X A) :
  (∀ c, K c = true → K' c = true) → built K m → built K' m.
Proof.
  intros HK. induction 1; auto using @built_ec, @built_sm; constructor; auto.
Qed.

Lemma built_deref {A} (o : option A) : built K (deref o).
Proof. destruct o; constructor. Qed.

Lemma built_index {A} (l : list A) i : built K (index l i).
Proof. unfold index. destruct (l !! i); constructor. Qed.

Lemma built_for_each {A B} (l : list A) (acc : B) (body : B → A → M X B) :
  (∀ b a, built K (body b a)) → built K (for_each l acc body).
Proof.
  intros Hb. revert acc. induction l as [|x l IH]; intros acc; [constructor|].
  apply built_bind; [apply Hb|apply IH].
Qed.

Lemma built_range_map {V} (m : gmap string V) : built K (range_map m).
Proof. apply built_bind; [apply built_range|]. intros ks. constructor. Qed.

Lemma built_now : built K now.
Proof.
  apply built_bind; [apply built_clock|]. intros t. apply built_bind; [by apply built_emit|].
  intros _. constructor.
Qed.

Lemma built_pv_do `{Provider X} c : built K (pv_serve c) → built K (pv_do c).
Proof.
  intros Hc. apply built_bind; [constructor|]. intros maps. apply built_bind; [done|]. intros r.
  apply built_bind; [by apply built_emit|]. intros _. constructor.
Qed.

(** The trace of a run: the calls of the footprint. *)
Lemma built_runs {A} h (m : M X A) :
  built K m → runs h m (λ _ es _, Forall (within K) es).
Proof.
  intros Hm. revert h. induction Hm as [|A p|A B m k _ IHm _ IHk|A ctx d body _ IH|e He| | | | |r|r k v| |c Hc|c Hc];
    intros h.
  - by apply runs_ret, Forall_nil.
  - by apply runs_panic, Forall_nil.
  - apply runs_bind. eapply runs_conseq; [apply IHm|]. intros [a|p] es h' Hes; [|done].
    eapply runs_conseq; [apply IHk|]. intros o es' h'' Hes'. by apply Forall_app.
  - apply runs_with_timeout. eapply runs_conseq; [apply IH|]. intros o es h' Hes.
    apply Forall_app. split; [done|]. by repeat constructor.
  - apply runs_emit. apply list.Forall_singleton. by destruct e.
  - by apply runs_external.
  - by apply runs_external.
  - by apply runs_external.
  - by apply runs_alloc_map.
  - intros s <-. exists []. rewrite app_nil_r. split; [|done].
    destruct r as [l|]; [|done]. unfold read_map. by destruct (st_maps s !! l).
  - intros s <-. exists []. rewrite app_nil_r. split; [|done].
    destruct r as [l|]; [|done]. unfold write_map. by destruct (st_maps s !! l).
  - by apply runs_peek_maps.
  - apply runs_ec_do. intros r. by apply list.Forall_singleton.
  - apply runs_sm_do. intros r. by apply list.Forall_singleton.
Qed.

(** The outside world after a run: a relation that the runtime and the calls of
    the footprint respect holds between before and after. *)
Lemma built_world {A} (R : X → X → Prop) `{!PreOrder R} (m : M X A) :
  (∀ x, R x (rt_now x).2) → (∀ n x, R x (rt_rand n x).2) → (∀ ks x, R x (rt_range ks x).2) →
  (∀ c x, K (AwsEc c) = true → R x (ec_serve c x).2) →
  (∀ c x, K (AwsSm c) = true → R x (sm_serve c x).2) →
  built K m → ∀ s, R (st_world s) (st_world (m s).2).
Proof.
  intros Hnow Hrand Hrange Hec Hsm.
  induction 1 as [| |A B m k _ IHm _ IHk|A ctx d body _ IH|e He| | | | |r|r k v| |c Hc|c Hc]; intros s;
    try done; simpl; auto.
  - unfold bind. specialize (IHm s). destruct (m s) as [[a|p] s']; simpl in *; [|done].
    etrans; [exact IHm|apply IHk].
  - unfold with_timeout. specialize (IH s). by destruct (body _ s).
  - destruct r as [l|]; [|done]. unfold read_map. by destruct (st_maps s !! l).
  - destruct r as [l|]; [|done]. unfold write_map. by destruct (st_maps s !! l).
Qed.
End footprint.

(** The footprint of a program, from its shape; the operations that have one
    already are hints of the database [footprint]. *)
Create HintDb footprint.

Ltac built_step :=
  lazymatch goal with
  | |- built _ (bind _ _) => apply built_bind
  | |- built _ (with_timeout _ _ _) => apply built_timeout
  | |- built _ (ret _) => apply built_ret
  | |- built _ (panic _) => apply built_panic
  | |- built _ (deref _) => apply built_deref
  | |- built _ (index _ _) => apply built_index
  | |- built _ (log _ _ _ _) => apply built_emit
  | |- built _ (emit _) => apply built_emit
  | |- built _ (rand_int _) => apply built_random
  | |- built _ (range_keys _) => apply built_range
  | |- built _ (range_map _) => apply built_range_map
  | |- built _ now => apply built_now
  | |- built _ (alloc_map _) => apply built_alloc
  | |- built _ (read_map _) => apply built_read
  | |- built _ (write_map _ _ _) => apply built_write
  | |- built _ (for_each _ _ _) => apply built_for_each
  | |- built _ (ec_do _) => apply built_ec
  | |- built _ (sm_do _) => apply built_sm
  | |- built _ (pv_do _) => apply built_pv_do
  | |- built _ (match ?x with _ => _ end) => destruct x
  | |- built _ (let _ := _ in _) => cbv zeta
  | |- built _ _ => solve [eauto 3 with footprint]
  | |- ∀ _, _ => intros ?
  end; cbn beta.
Ltac built_auto := repeat built_step; try done.
