(* ===== verification/Bench.v ===== *)
(** * A test bench

    A concrete world with scripted answers, in the manner of the fakes of
    providers/mocks: every method returns what its stub says.  It shows that
    the laws of the interfaces can be met, and the theorems are tried on it. *)
From S2P Require Import Prelude GoBase Sdk Providers Go Interfaces.
From stdpp Require Import sorting.
Local Open Scope Z_scope.

Record bench := mkBench {
  bn_clock : Z;                                   (** the next reading *)
  bn_ec : ∀ c : ec_call, ec_out c * option error;
  bn_sm : ∀ c : sm_call, sm_out c * option error;
  bn_pv : ∀ c : pv_call, pv_out c;
}.

(** [sort.Sort], by merge sort. *)
Definition not_after {A} (less : A → A → bool) (a b : A) : Prop := less b a = false.

#[export] Instance not_after_dec {A} (less : A → A → bool) : RelDecision (not_after less).
Proof. intros a b. unfold not_after. apply _. Defined.

Definition bench_sort {A} (less : A → A → bool) (l : list A) : list A :=
  merge_sort (not_after less) l.

#[export] Instance bench_Runtime : Runtime bench := {
  rt_now w := (bn_clock w, mkBench (bn_clock w + time_Second) (bn_ec w) (bn_sm w) (bn_pv w));
  rt_zone _ := 0;
  rt_rand n w := ((bn_clock w mod n, None),
                  mkBench (bn_clock w + 1) (bn_ec w) (bn_sm w) (bn_pv w));
  rt_range ks w := (elements ks, w);
  rt_sort := @bench_sort;
}.

Lemma strict_weak_total {A} (less : A → A → bool) :
  strict_weak less → Total (not_after less).
Proof.
  intros [Hirr Htr _] a b. unfold not_after. destruct (less b a) eqn:Hba; [right|by left].
  destruct (less a b) eqn:Hab; [|done]. pose proof (Htr _ _ _ Hab Hba). by rewrite Hirr in *.
Qed.

Lemma strict_weak_transitive {A} (less : A → A → bool) :
  strict_weak less → Transitive (not_after less).
Proof. intros [_ _ Hinc] a b c Hba Hcb. by eapply Hinc. Qed.

Lemma bench_sort_sorted {A} (less : A → A → bool) (l : list A) :
  strict_weak less → StronglySorted (λ a b, less b a = false) (bench_sort less l).
Proof.
  intros Hs. pose proof (strict_weak_transitive less Hs). pose proof (strict_weak_total less Hs).
  apply (StronglySorted_merge_sort (not_after less)).
Qed.

#[export] Instance bench_RuntimeLaws : RuntimeLaws bench.
Proof.
  split.
  - done.
  - intros n w v Hn [= <-]. by apply Z.mod_pos_bound.
  - intros A less l. apply merge_sort_Permutation.
  - intros A less l. apply bench_sort_sorted.
Qed.

(** A machine where time stands still and every random number is the smallest. *)
Definition still_Runtime {X : Type} : Runtime X := {|
  rt_now x := (1704110400 * time_Second, x);
  rt_zone _ := 0;
  rt_rand _ x := ((0, None), x);
  rt_range ks x := (elements ks, x);
  rt_sort := @bench_sort;
|}.

Lemma still_RuntimeLaws {X : Type} : @RuntimeLaws X still_Runtime.
Proof.
  split.
  - done.
  - intros n x v Hn [= <-]. lia.
  - intros A less l. apply merge_sort_Permutation.
  - intros A less l. apply bench_sort_sorted.
Qed.

#[export] Instance bench_ElastiCache : ElastiCache bench := λ c w, (bn_ec w c, w).
#[export] Instance bench_SecretsManager : SecretsManager bench := λ c w, (bn_sm w c, w).

(** The fake provider. *)
Definition bench_Provider : Provider bench := λ c s, (Ret (bn_pv (st_world s) c), s).

Lemma bench_ProviderLaws : @ProviderLaws bench bench_Provider.
Proof.
  intros c h _ s <-. exists []. rewrite app_nil_r. split; [done|]. split; [done|apply frame_refl].
Qed.

(** Stubs: every call succeeds with an empty answer. *)
Definition ec_empty (c : ec_call) : ec_out c * option error :=
  match c return ec_out c * option error with
  | DescribeReplicationGroupsWithContext _ _ => (Some [], None)
  | DescribeCacheClustersWithContext _ _ => (Some [], None)
  | DescribeCacheParametersWithContext _ _ => (Some [], None)
  | DescribeSnapshotsPagesWithContext _ => ([], None)
  | ListTagsForResourceWithContext _ _ => (Some [], None)
  | _ => (tt, None)
  end.

Definition sm_empty (c : sm_call) : sm_out c * option error :=
  match c return sm_out c * option error with
  | GetSecretValueWithContext _ _ => (Some None, None)
  | _ => (tt, None)
  end.

Definition pv_empty (c : pv_call) : pv_out c :=
  match c return pv_out c with
  | PvProgressState _ _ _ _ => (Available, "", None)
  | PvGetInstanceParameters _ _ => (zero_InstanceParameters, None)
  | PvGetInstanceTags _ _ => (∅, None)
  | PvGenerateCredentials _ _ _ => (None, None)
  | PvFindSnapshots _ _ => ([], None)
  | PvStartFailoverTest _ _ => ("", None)
  | _ => None
  end.

Definition bench_start (h : list (gmap string string)) (w : bench) : state bench := mkState h [] w.
