(* ===== verification/Random.v ===== *)
(** * Random tokens

    providers/redis/crypto_rand_utils.go and [GenerateAuthToken]: the password
    of a Redis instance is 32 characters drawn with [rand.Int], the first one a
    letter. *)
From S2P Require Import Prelude GoBase Sdk Providers Go Interfaces Bench.
Local Open Scope Z_scope.
Local Open Scope go_scope.

(* map: providers/redis/crypto_rand_utils.go 8-8 alpha *)
Definition alpha : list ascii :=
  String.list_ascii_of_string "ABCDEFGHIJKLMNOPQRSTUVWXYZabcdefghijklmnopqrstuvwxyz".

(* map: providers/redis/crypto_rand_utils.go 11-11 numer *)
Definition numer : list ascii := String.list_ascii_of_string "0123456789".

(* map: providers/redis/redis.go 22-22 PasswordLength *)
Definition PasswordLength : Z := 32.

Section random.
Context {X : Type} `{Runtime X}.

(** The bytes are written to [password] in order, so the slice filled so far
    is the accumulator of the loop. *)
(* map: providers/redis/crypto_rand_utils.go 17-29 randChar *)
Definition randChar (len : Z) (chars : list ascii) : M X string :=
  let charsLen := Z.of_nat (length chars) in
  if len <? 0 then panic NegativeMakeLen else
  for_each (seq 0 (Z.to_nat len)) "" (λ password _,
    let! (charsIndex, err) := rand_int charsLen in
    match err with
    | Some e => panic (PanicError e)
    | None =>
        let! c := index chars (Z.to_nat charsIndex) in
        ret (password +:+ String c "")
    end).

(* map: providers/redis/crypto_rand_utils.go 13-15 RandomAlphaNum *)
Definition RandomAlphaNum (len : Z) : M X string :=
  let! first := randChar 1 alpha in
  let! rest := randChar (len - 1) (alpha ++ numer) in
  ret (first +:+ rest).

(* map: providers/redis/redis.go 584-587 GenerateAuthToken *)
Definition GenerateAuthToken : M X string := RandomAlphaNum PasswordLength.
End random.

(** What ElastiCache and the URI of the credentials need of a token. *)
Definition valid_token (s : string) : bool :=
  (String.length s =? 32)%nat && string_forallb is_alnum s &&
  match s with String c _ => is_alpha c | EmptyString => false end.

(** ** Lemmas *)

Section random_lemmas.
Context {X : Type} `{RuntimeLaws X}.

Lemma runs_randChar h len chars f :
  0 <= len → chars ≠ [] → Forall (λ c, f c = true) chars →
  runs h (randChar len chars : M X string) (λ o es h',
    es = [] ∧ h' = h ∧
    match o with
    | Ret s => String.length s = Z.to_nat len ∧ string_forallb f s = true
    | Panic p => ∃ e, p = PanicError e
    end).
Proof.
  intros Hlen Hne Hf. unfold randChar. rewrite (proj2 (Z.ltb_ge len 0)) by done.
  apply runs_for_each with
    (I := λ dn s es, es = [] ∧ String.length s = length dn ∧ string_forallb f s = true).
  - done.
  - intros dn x rest s es _ (-> & Hls & Hfs). apply runs_bind, runs_rand.
    + destruct chars; [done|]. simpl. lia.
    + intros v Hv. go_step. apply runs_index.
      destruct (chars !! Z.to_nat v) as [c|] eqn:Hc.
      * go_step. split; [done|]. rewrite string_length_app, length_app, string_forallb_app, Hls, Hfs.
        simpl. repeat split. rewrite andb_true_r. eapply Forall_lookup_1 in Hf; done.
      * apply lookup_ge_None in Hc. lia.
    + intros v e. go_step. eauto.
  - intros s es (-> & Hls & Hfs). by rewrite Hls, length_seq.
Qed.

Lemma runs_GenerateAuthToken h :
  runs h (GenerateAuthToken : M X string) (λ o es h',
    es = [] ∧ h' = h ∧
    match o with
    | Ret s => valid_token s = true
    | Panic p => ∃ e, p = PanicError e
    end).
Proof.
  unfold GenerateAuthToken, RandomAlphaNum, PasswordLength.
  apply runs_bind. eapply runs_conseq.
  { apply (runs_randChar h 1 alpha is_alpha); [lia|done|repeat constructor]. }
  intros [s|p] es h' (-> & -> & Hs); [|done].
  apply runs_bind. eapply runs_conseq.
  { apply (runs_randChar h (32 - 1) (alpha ++ numer) is_alnum); [lia|done|repeat constructor]. }
  intros [t|p] es h' (-> & -> & Ht); [|done].
  go_step. repeat split. destruct Hs as [Hls Hs], Ht as [Hlt Ht].
  unfold valid_token. rewrite string_length_app, Hls, Hlt, string_forallb_app, Ht.
  destruct s as [|c s]; [done|]. simpl in Hs. apply andb_true_iff in Hs as [Hc Hs].
  rewrite (string_forallb_impl is_alpha is_alnum (String c s)); simpl; [by rewrite Hc| |by rewrite Hc].
  unfold is_alnum. by intros d ->.
Qed.
End random_lemmas.

(** ** Properties *)

(** C38: every token [GenerateAuthToken] returns has 32 characters, all ASCII
    letters or digits, the first one a letter, whatever the random source
    yields; if the source fails, the broker panics rather than return a weaker
    token. *)
Theorem auth_token_valid {X : Type} `{RuntimeLaws X} (h : list (gmap string string)) :
  runs h (GenerateAuthToken : M X string) (λ o es h',
    es = [] ∧ h' = h ∧
    match o with
    | Ret s => valid_token s = true
    | Panic p => ∃ e, p = PanicError e
    end).
Proof. apply runs_GenerateAuthToken. Qed.

Lemma auth_token_valid_witness :
  runs [] (GenerateAuthToken : M bench string) (λ o es h',
    es = [] ∧ h' = [] ∧
    match o with
    | Ret s => valid_token s = true
    | Panic p => ∃ e, p = PanicError e
    end).
Proof. apply (auth_token_valid []). Defined.
