(* ===== verification/Url.v ===== *)
(** * The URI of the credentials

    The part of [net/url] that [GenerateCredentials] uses: the string of a URL
    with a scheme, a user name, a password and a host, and no path. *)
From S2P Require Import Prelude.
Local Open Scope Z_scope.

Inductive url_mode := EncodeHost | EncodeUserPassword.

Definition byte_mem (c : ascii) (s : string) : bool :=
  bool_decide (c ∈ String.list_ascii_of_string s).

(** [shouldEscape] *)
Definition should_escape (m : url_mode) (c : ascii) : bool :=
  if is_alnum c then false
  else if byte_mem c "-_.~" then false
  else match m with
       | EncodeHost => negb (byte_mem c "!$&'()*+,;=:[]<>" || bool_decide (byte_val c = 34))
       | EncodeUserPassword => if byte_mem c "$&+,/:;=?@" then byte_mem c "@/?:" else true
       end.

Definition upper_hex (d : Z) : ascii :=
  if d <? 10 then byte_of_val (byte_val "0" + d) else byte_of_val (byte_val "A" + (d - 10)).

(** [escape] *)
Fixpoint url_escape (m : url_mode) (s : string) : string :=
  match s with
  | EmptyString => EmptyString
  | String c s' =>
      if should_escape m c
      then String "%" (String (upper_hex (byte_val c / 16))
                         (String (upper_hex (byte_val c mod 16)) (url_escape m s')))
      else String c (url_escape m s')
  end.

(** [(&url.URL{Scheme: scheme, User: url.UserPassword(username, password),
    Host: host}).String()] *)
Definition url_string (scheme username password host : string) : string :=
  scheme +:+ "://" +:+ url_escape EncodeUserPassword username +:+ ":" +:+
  url_escape EncodeUserPassword password +:+ "@" +:+ url_escape EncodeHost host.

(** ** What a client reads back *)

Definition hex_val (c : ascii) : option Z :=
  if is_digit c then Some (byte_val c - byte_val "0")
  else if byte_in "a" "f" c then Some (byte_val c - byte_val "a" + 10)
  else if byte_in "A" "F" c then Some (byte_val c - byte_val "A" + 10)
  else None.

(** [unescape]: percent decoding. *)
Fixpoint url_unescape (s : string) : option string :=
  match s with
  | EmptyString => Some EmptyString
  | String c s' =>
      if bool_decide (c = "%"%char) then
        match s' with
        | String a (String b s'') =>
            match hex_val a, hex_val b with
            | Some x, Some y => String (byte_of_val (16 * x + y)) <$> url_unescape s''
            | _, _ => None
            end
        | _ => None
        end
      else String c <$> url_unescape s'
  end.

(** ** Lemmas *)

Lemma hex_val_upper d : 0 <= d < 16 → hex_val (upper_hex d) = Some d.
Proof.
  intros Hd.
  assert (forallb (λ n, bool_decide (hex_val (upper_hex (Z.of_nat n)) = Some (Z.of_nat n)))
            (seq 0 16) = true) as Hall by (vm_compute; reflexivity).
  rewrite forallb_forall in Hall. specialize (Hall (Z.to_nat d)).
  rewrite Z2Nat.id in Hall by lia. apply bool_decide_eq_true in Hall; [done|].
  apply in_seq. lia.
Qed.

Lemma alnum_not_escaped m c : is_alnum c = true → should_escape m c = false.
Proof. unfold should_escape. by intros ->. Qed.

(** Characters that appear in host names and in [host:port]. *)
Definition host_char (c : ascii) : bool := is_alnum c || byte_mem c "-.:".

Lemma host_char_not_escaped c : host_char c = true → should_escape EncodeHost c = false.
Proof.
  intros Hc. assert (implb (host_char c) (negb (should_escape EncodeHost c)) = true) as Hi.
  { revert c Hc. intros c _. revert c. apply byte_forall. vm_compute. reflexivity. }
  rewrite Hc in Hi. simpl in Hi. by apply negb_true_iff in Hi.
Qed.

Lemma url_escape_id m s :
  string_forallb (λ c, negb (should_escape m c)) s = true → url_escape m s = s.
Proof.
  induction s as [|c s IH]; simpl; [done|]. rewrite andb_true_iff, negb_true_iff.
  intros [-> Hs]. by rewrite IH.
Qed.

Lemma url_escape_alnum m s : string_forallb is_alnum s = true → url_escape m s = s.
Proof.
  intros Hs. apply url_escape_id. revert Hs. apply string_forallb_impl.
  intros c Hc. by rewrite alnum_not_escaped.
Qed.

Lemma url_escape_host s : string_forallb host_char s = true → url_escape EncodeHost s = s.
Proof.
  intros Hs. apply url_escape_id. revert Hs. apply string_forallb_impl.
  intros c Hc. by rewrite host_char_not_escaped.
Qed.

Lemma percent_escaped m : should_escape m "%" = true.
Proof. by destruct m. Qed.

(** Percent encoding loses nothing. *)
Lemma url_unescape_escape m s : url_unescape (url_escape m s) = Some s.
Proof.
  induction s as [|c s IH]; simpl; [done|].
  destruct (should_escape m c) eqn:Hc.
  - pose proof (byte_val_range c).
    cbn [url_unescape]. rewrite bool_decide_true by done.
    rewrite !hex_val_upper by (Z.to_euclidean_division_equations; lia).
    rewrite IH. simpl. rewrite <-Z.div_mod by lia. by rewrite byte_of_val_of.
  - cbn [url_unescape]. rewrite bool_decide_false, IH; [done|].
    intros ->. by rewrite percent_escaped in Hc.
Qed.
