(* ===== verification/Json.v ===== *)
(** * JSON as [encoding/json] reads and writes it

    The scanner is the one of the Go library: a state machine that takes the
    input byte by byte and keeps a stack of the open arrays and objects.  The
    values it builds are decoded into structs by the components that need
    them, with the helpers at the end of the definitions. *)
From S2P Require Import Prelude GoBase Url.
Local Open Scope Z_scope.

#[warnings="-register-all"]
Inductive json :=
  | JNull
  | JBool (b : bool)
  | JNumber (literal : string)
  | JString (s : string)
  | JArray (l : list json)
  | JObject (members : list (string * json)).

(** ** UTF-8 *)

Definition in_range (lo hi : Z) (c : ascii) : bool := (lo <=? byte_val c) && (byte_val c <=? hi).
Definition is_cont : ascii → bool := in_range 128 191.

(** The well-formed sequences of two, three and four bytes ([utf8.DecodeRune]). *)
Definition utf8_2 (a b : ascii) : bool := in_range 194 223 a && is_cont b.
Definition utf8_3 (a b c : ascii) : bool :=
  is_cont c &&
  ((in_range 224 224 a && in_range 160 191 b) ||
   (in_range 225 236 a && is_cont b) ||
   (in_range 237 237 a && in_range 128 159 b) ||
   (in_range 238 239 a && is_cont b)).
Definition utf8_4 (a b c d : ascii) : bool :=
  is_cont c && is_cont d &&
  ((in_range 240 240 a && in_range 144 191 b) ||
   (in_range 241 243 a && is_cont b) ||
   (in_range 244 244 a && in_range 128 143 b)).

Definition is_ascii (c : ascii) : bool := byte_val c <? 128.

(** [utf8.EncodeRune]; a surrogate is encoded as U+FFFD. *)
Definition encode_rune (r : Z) : string :=
  if r <? 128 then chrs [r]
  else if r <? 2048 then chrs [192 + r / 64; 128 + r mod 64]
  else if (55296 <=? r) && (r <? 57344) then chrs [239; 191; 189]
  else if r <? 65536 then chrs [224 + r / 4096; 128 + r / 64 mod 64; 128 + r mod 64]
  else chrs [240 + r / 262144; 128 + r / 4096 mod 64; 128 + r / 64 mod 64; 128 + r mod 64].

Definition replacement_char : string := chrs [239; 191; 189].

(** ** Strings *)

(** Four hexadecimal digits. *)
Definition hex4 (a b c d : ascii) : option Z :=
  match hex_val a, hex_val b, hex_val c, hex_val d with
  | Some w, Some x, Some y, Some z => Some (w * 4096 + x * 256 + y * 16 + z)
  | _, _, _, _ => None
  end.

Definition backslash : ascii := "\".
Definition quote : ascii := byte_of_val 34.

(** What the one-letter escapes stand for. *)
Definition simple_escape (c : ascii) : option ascii :=
  if bool_decide (c = quote) then Some quote
  else if bool_decide (c = backslash) then Some backslash
  else if bool_decide (c = "/"%char) then Some "/"%char
  else if bool_decide (c = "b"%char) then Some (byte_of_val 8)
  else if bool_decide (c = "f"%char) then Some (byte_of_val 12)
  else if bool_decide (c = "n"%char) then Some (byte_of_val 10)
  else if bool_decide (c = "r"%char) then Some (byte_of_val 13)
  else if bool_decide (c = "t"%char) then Some (byte_of_val 9)
  else None.

Definition is_high_surrogate (r : Z) : bool := (55296 <=? r) && (r <? 56320).
Definition is_low_surrogate (r : Z) : bool := (56320 <=? r) && (r <? 57344).

(** [unquote] on the bytes between the quotation marks of a scanned string. *)
Fixpoint unquote (s : string) : string :=
  match s with
  | EmptyString => EmptyString
  | String c s1 =>
      if bool_decide (c = backslash) then
        match s1 with
        | EmptyString => EmptyString
        | String e s2 =>
            if bool_decide (e = "u"%char) then
              match s2 with
              | String h1 (String h2 (String h3 (String h4 s3))) =>
                  match hex4 h1 h2 h3 h4 with
                  | Some r =>
                      if is_high_surrogate r then
                        match s3 with
                        | String b (String u (String l1 (String l2 (String l3 (String l4 s4))))) =>
                            match hex4 l1 l2 l3 l4 with
                            | Some r' =>
                                if bool_decide (b = backslash) && bool_decide (u = "u"%char) &&
                                   is_low_surrogate r'
                                then encode_rune ((r - 55296) * 1024 + (r' - 56320) + 65536) +:+ unquote s4
                                else replacement_char +:+ unquote s3
                            | None => replacement_char +:+ unquote s3
                            end
                        | _ => replacement_char +:+ unquote s3
                        end
                      else encode_rune r +:+ unquote s3
                  | None => EmptyString
                  end
              | _ => EmptyString
              end
            else
              match simple_escape e with
              | Some d => String d (unquote s2)
              | None => EmptyString
              end
        end
      else if is_ascii c then String c (unquote s1)
      else
        match s1 with
        | String c1 s2 =>
            if utf8_2 c c1 then String c (String c1 (unquote s2)) else
            match s2 with
            | String c2 s3 =>
                if utf8_3 c c1 c2 then String c (String c1 (String c2 (unquote s3))) else
                match s3 with
                | String c3 s4 =>
                    if utf8_4 c c1 c2 c3
                    then String c (String c1 (String c2 (String c3 (unquote s4))))
                    else replacement_char +:+ unquote s1
                | EmptyString => replacement_char +:+ unquote s1
                end
            | EmptyString => replacement_char +:+ unquote s1
            end
        | EmptyString => replacement_char +:+ unquote s1
        end
  end.

Definition lower_hex (d : Z) : ascii :=
  if d <? 10 then byte_of_val (byte_val "0" + d) else byte_of_val (byte_val "a" + (d - 10)).

(** The escape of an ASCII byte: [appendString] with [escapeHTML]. *)
Definition quote_ascii (c : ascii) : string :=
  if bool_decide (c = backslash) || bool_decide (c = quote) then String backslash (String c "")
  else if bool_decide (byte_val c = 8) then "\b"
  else if bool_decide (byte_val c = 12) then "\f"
  else if bool_decide (byte_val c = 10) then "\n"
  else if bool_decide (byte_val c = 13) then "\r"
  else if bool_decide (byte_val c = 9) then "\t"
  else if (byte_val c <? 32) || bool_decide (c = "<"%char) || bool_decide (c = ">"%char)
          || bool_decide (c = "&"%char)
  then "\u00" +:+ String (lower_hex (byte_val c / 16)) (String (lower_hex (byte_val c mod 16)) "")
  else String c "".

(** U+2028 and U+2029 are escaped too. *)
Definition quote_3 (a b c : ascii) : string :=
  if bool_decide (byte_val a = 226) && bool_decide (byte_val b = 128) && bool_decide (byte_val c = 168)
  then "\u2028"
  else if bool_decide (byte_val a = 226) && bool_decide (byte_val b = 128) && bool_decide (byte_val c = 169)
  then "\u2029"
  else String a (String b (String c "")).

(** The bytes between the quotation marks of an encoded string. *)
Fixpoint quote_string (s : string) : string :=
  match s with
  | EmptyString => EmptyString
  | String c s1 =>
      if is_ascii c then quote_ascii c +:+ quote_string s1
      else
        match s1 with
        | String c1 s2 =>
            if utf8_2 c c1 then String c (String c1 (quote_string s2)) else
            match s2 with
            | String c2 s3 =>
                if utf8_3 c c1 c2 then quote_3 c c1 c2 +:+ quote_string s3 else
                match s3 with
                | String c3 s4 =>
                    if utf8_4 c c1 c2 c3
                    then String c (String c1 (String c2 (String c3 (quote_string s4))))
                    else "\ufffd" +:+ quote_string s1
                | EmptyString => "\ufffd" +:+ quote_string s1
                end
            | EmptyString => "\ufffd" +:+ quote_string s1
            end
        | EmptyString => "\ufffd" +:+ quote_string s1
        end
  end.

Definition json_string (s : string) : string :=
  String quote (quote_string s +:+ String quote "").

(** ** The scanner *)

Inductive scan_frame :=
  | FArray (rev_elements : list json)
  | FObject (rev_members : list (string * json)) (key : option string).

Inductive number_state := NumNeg | Num0 | Num1 | NumDot | NumDot0 | NumE | NumESign | NumE0.

Inductive scan_mode :=
  | BeginValue
  | BeginValueOrEmpty
  | BeginString
  | BeginStringOrEmpty
  | InString (raw : string)
  | InStringEsc (raw : string)
  | InStringEscU (pending : nat) (raw : string)
  | AfterKey
  | InLiteral (rest : string) (v : json)
  | InNumber (st : number_state) (raw : string)
  | EndValue
  | EndTop (v : json).

Record scanner := mkScanner { sc_stack : list scan_frame; sc_mode : scan_mode }.

Definition is_json_space (c : ascii) : bool :=
  bool_decide (c = " "%char) || bool_decide (byte_val c = 9) || bool_decide (byte_val c = 13)
  || bool_decide (byte_val c = 10).

Definition maxNestingDepth : Z := 10000.

Definition push (f : scan_frame) (k : list scan_frame) (m : scan_mode) : option scanner :=
  if Z.of_nat (length (f :: k)) <=? maxNestingDepth then Some (mkScanner (f :: k) m) else None.

(** A value is complete: hand it to the innermost open array or object. *)
Definition finish_value (k : list scan_frame) (v : json) : option scanner :=
  match k with
  | [] => Some (mkScanner [] (EndTop v))
  | FArray l :: k' => Some (mkScanner (FArray (v :: l) :: k') EndValue)
  | FObject ms (Some key) :: k' => Some (mkScanner (FObject ((key, v) :: ms) None :: k') EndValue)
  | FObject _ None :: _ => None
  end.

(** A string is complete: the key of a member, or a value. *)
Definition finish_string (k : list scan_frame) (raw : string) : option scanner :=
  match k with
  | FObject ms None :: k' => Some (mkScanner (FObject ms (Some (unquote raw)) :: k') AfterKey)
  | _ => finish_value k (JString (unquote raw))
  end.

(** [stateEndValue] *)
Definition step_end (k : list scan_frame) (c : ascii) : option scanner :=
  if is_json_space c then Some (mkScanner k EndValue) else
  match k with
  | FArray l :: k' =>
      if bool_decide (c = ","%char) then Some (mkScanner k BeginValue)
      else if bool_decide (c = "]"%char) then finish_value k' (JArray (rev l))
      else None
  | FObject ms None :: k' =>
      if bool_decide (c = ","%char) then Some (mkScanner k BeginString)
      else if bool_decide (c = "}"%char) then finish_value k' (JObject (rev ms))
      else None
  | _ => None
  end.

(** The byte after a complete value. *)
Definition step_after (s : scanner) (c : ascii) : option scanner :=
  match sc_mode s with
  | EndTop v => if is_json_space c then Some s else None
  | _ => step_end (sc_stack s) c
  end.

(** [stateBeginValue] *)
Definition step_begin_value (k : list scan_frame) (c : ascii) : option scanner :=
  if bool_decide (c = "{"%char) then push (FObject [] None) k BeginStringOrEmpty
  else if bool_decide (c = "["%char) then push (FArray []) k BeginValueOrEmpty
  else if bool_decide (c = quote) then Some (mkScanner k (InString ""))
  else if bool_decide (c = "-"%char) then Some (mkScanner k (InNumber NumNeg (String c "")))
  else if bool_decide (c = "0"%char) then Some (mkScanner k (InNumber Num0 (String c "")))
  else if bool_decide (c = "t"%char) then Some (mkScanner k (InLiteral "rue" (JBool true)))
  else if bool_decide (c = "f"%char) then Some (mkScanner k (InLiteral "alse" (JBool false)))
  else if bool_decide (c = "n"%char) then Some (mkScanner k (InLiteral "ull" JNull))
  else if byte_in "1" "9" c then Some (mkScanner k (InNumber Num1 (String c "")))
  else None.

(** The next state inside a number; [None] when the byte is not part of it. *)
Definition step_number (st : number_state) (c : ascii) : option number_state :=
  let exp := bool_decide (c = "e"%char) || bool_decide (c = "E"%char) in
  match st with
  | NumNeg => if bool_decide (c = "0"%char) then Some Num0
              else if byte_in "1" "9" c then Some Num1 else None
  | Num1 => if is_digit c then Some Num1
            else if bool_decide (c = "."%char) then Some NumDot
            else if exp then Some NumE else None
  | Num0 => if bool_decide (c = "."%char) then Some NumDot
            else if exp then Some NumE else None
  | NumDot => if is_digit c then Some NumDot0 else None
  | NumDot0 => if is_digit c then Some NumDot0 else if exp then Some NumE else None
  | NumE => if bool_decide (c = "+"%char) || bool_decide (c = "-"%char) then Some NumESign
            else if is_digit c then Some NumE0 else None
  | NumESign | NumE0 => if is_digit c then Some NumE0 else None
  end.

(** May a number end in this state? *)
Definition number_complete (st : number_state) : bool :=
  match st with Num0 | Num1 | NumDot0 | NumE0 => true | _ => false end.

Definition scan_step (s : scanner) (c : ascii) : option scanner :=
  let k := sc_stack s in
  match sc_mode s with
  | BeginValue => if is_json_space c then Some s else step_begin_value k c
  | BeginValueOrEmpty =>
      if is_json_space c then Some s
      else if bool_decide (c = "]"%char) then step_end k c
      else step_begin_value k c
  | BeginString =>
      if is_json_space c then Some s
      else if bool_decide (c = quote) then Some (mkScanner k (InString "")) else None
  | BeginStringOrEmpty =>
      if is_json_space c then Some s
      else if bool_decide (c = "}"%char) then step_end k c
      else if bool_decide (c = quote) then Some (mkScanner k (InString "")) else None
  | InString raw =>
      if bool_decide (c = quote) then finish_string k raw
      else if bool_decide (c = backslash) then Some (mkScanner k (InStringEsc (raw +:+ String c "")))
      else if byte_val c <? 32 then None
      else Some (mkScanner k (InString (raw +:+ String c "")))
  | InStringEsc raw =>
      if bool_decide (c = "u"%char) then Some (mkScanner k (InStringEscU 4 (raw +:+ String c "")))
      else match simple_escape c with
           | Some _ => Some (mkScanner k (InString (raw +:+ String c "")))
           | None => None
           end
  | InStringEscU pending raw =>
      match hex_val c with
      | Some _ =>
          match pending with
          | S (S n) => Some (mkScanner k (InStringEscU (S n) (raw +:+ String c "")))
          | _ => Some (mkScanner k (InString (raw +:+ String c "")))
          end
      | None => None
      end
  | AfterKey =>
      if is_json_space c then Some s
      else if bool_decide (c = ":"%char) then Some (mkScanner k BeginValue) else None
  | InLiteral rest v =>
      match rest with
      | String r rest' =>
          if bool_decide (c = r) then
            match rest' with
            | EmptyString => finish_value k v
            | _ => Some (mkScanner k (InLiteral rest' v))
            end
          else None
      | EmptyString => None
      end
  | InNumber st raw =>
      match step_number st c with
      | Some st' => Some (mkScanner k (InNumber st' (raw +:+ String c "")))
      | None =>
          if number_complete st
          then match finish_value k (JNumber raw) with
               | Some s' => step_after s' c
               | None => None
               end
          else None
      end
  | EndValue => step_end k c
  | EndTop v => if is_json_space c then Some s else None
  end.

Fixpoint scan (s : scanner) (input : string) : option scanner :=
  match input with
  | EmptyString => Some s
  | String c rest =>
      match scan_step s c with
      | Some s' => scan s' rest
      | None => None
      end
  end.

(** The value of a whole input: at the end the scanner takes one more space, as
    [scanner.eof] does, and must be past the top-level value. *)
Definition json_parse (input : string) : option json :=
  match scan (mkScanner [] BeginValue) (input +:+ " ") with
  | Some (mkScanner _ (EndTop v)) => Some v
  | _ => None
  end.

(** ** Numbers *)

(** Split a number literal at the first byte that satisfies [f]. *)
Fixpoint split_at (f : ascii → bool) (s : string) : string * option string :=
  match s with
  | EmptyString => (EmptyString, None)
  | String c s' => if f c then (EmptyString, Some s') else
                   let (a, b) := split_at f s' in (String c a, b)
  end.

(** The value of the digits of a string, other bytes dropped. *)
Fixpoint digits_val (acc : Z) (s : string) : Z :=
  match s with
  | EmptyString => acc
  | String c s' => digits_val (if is_digit c then acc * 10 + (byte_val c - byte_val "0") else acc) s'
  end.

(** [strconv.ParseFloat] fails with a range error: the literal rounds to a
    number beyond the largest [float64].  The decimal exponent is compared
    first, so that no huge power is ever computed. *)
Definition float64_overflows (literal : string) : bool :=
  let (mant, exp) := split_at (λ c, bool_decide (c = "e"%char) || bool_decide (c = "E"%char)) literal in
  let (int, frac) := split_at (λ c, bool_decide (c = "."%char)) mant in
  let frac := default "" frac in
  let m := digits_val 0 (int +:+ frac) in
  let e := match exp with
           | None => 0
           | Some (String c _ as t) => if bool_decide (c = "-"%char) then - digits_val 0 t else digits_val 0 t
           | Some EmptyString => 0
           end in
  let e10 := e - Z.of_nat (String.length frac) in
  let size := Z.of_nat (String.length mant) + e10 in
  if m =? 0 then false
  else if size <? 300 then false
  else if 400 + Z.of_nat (String.length mant) <? e10 + Z.log2 m / 4 + 1 then true
  else if 0 <=? e10 then 2 ^ 1024 - 2 ^ 970 <=? m * 10 ^ e10
  else (2 ^ 1024 - 2 ^ 970) * 10 ^ (- e10) <=? m.

(** Some number inside the value does not fit a [float64]. *)
Fixpoint has_overflow (v : json) : bool :=
  match v with
  | JNumber l => float64_overflows l
  | JArray l => existsb has_overflow l
  | JObject ms => existsb (λ m, has_overflow m.2) ms
  | _ => false
  end.

(** ** Decoding *)

(** [json.Unmarshal] into a [map[string]interface{}]: the keys of the map, or
    an error.  [null] leaves the map empty. *)
Definition unmarshal_keys (data : string) : gset string + error :=
  match json_parse data with
  | None => inr JsonSyntaxError
  | Some (JObject ms as v) =>
      if has_overflow v then inr (JsonTypeError "") else inl (list_to_set (fst <$> ms))
  | Some JNull => inl ∅
  | Some _ => inr (JsonTypeError "")
  end.

(** [foldName]: keys are compared up to letter case; the two non-ASCII runes
    that fold to an ASCII letter are U+017F (s) and U+212A (k). *)
Fixpoint fold_name (s : string) : string :=
  match s with
  | EmptyString => EmptyString
  | String c s1 =>
      match s1 with
      | String c1 s2 =>
          if bool_decide (byte_val c = 197) && bool_decide (byte_val c1 = 191)
          then String "s" (fold_name s2) else
          match s2 with
          | String c2 s3 =>
              if bool_decide (byte_val c = 226) && bool_decide (byte_val c1 = 132) &&
                 bool_decide (byte_val c2 = 170)
              then String "k" (fold_name s3) else String (lower_byte c) (fold_name s1)
          | EmptyString => String (lower_byte c) (fold_name s1)
          end
      | EmptyString => String (lower_byte c) (fold_name s1)
      end
  end.

(** The struct field a key selects: an exact match first, a folded one else. *)
Definition select_field (names : list string) (key : string) : option string :=
  if bool_decide (key ∈ names) then Some key
  else match filter (λ n, fold_name n = fold_name key) names with
       | n :: _ => Some n
       | [] => None
       end.

(** Decoding of one value into a field: the new contents, or a type error
    ([None]).  A [null] leaves a string as it is and clears a pointer. *)
Definition decode_string (old : string) (v : json) : option string :=
  match v with JString s => Some s | JNull => Some old | _ => None end.

Definition decode_string_ptr (old : option string) (v : json) : option (option string) :=
  match v with JString s => Some (Some s) | JNull => Some None | _ => None end.

Definition decode_bool_ptr (old : option bool) (v : json) : option (option bool) :=
  match v with JBool b => Some (Some b) | JNull => Some None | _ => None end.

(** [json.Unmarshal] into a struct: the members are stored one after the other;
    the first type error is reported when all of them have been.  [set] stores
    a value in the named field. *)
Section decode_struct.
Context {T : Type} (names : list string) (set : string → T → json → option T).

Fixpoint decode_members (ms : list (string * json)) (t : T) : T * option error :=
  match ms with
  | [] => (t, None)
  | (key, v) :: ms' =>
      match select_field names key with
      | None => decode_members ms' t
      | Some name =>
          match set name t v with
          | Some t' => decode_members ms' t'
          | None => let (t', _) := decode_members ms' t in (t', Some (JsonTypeError name))
          end
      end
  end.

Definition unmarshal_struct (data : string) (zero : T) : T * option error :=
  match json_parse data with
  | None => (zero, Some JsonSyntaxError)
  | Some (JObject ms) => decode_members ms zero
  | Some JNull => (zero, None)
  | Some _ => (zero, Some (JsonTypeError ""))
  end.
End decode_struct.

(** [json.Marshal] of a struct whose fields are strings. *)
Definition marshal_strings (fields : list (string * string)) : string :=
  "{" +:+ string_join "," ((λ f, json_string f.1 +:+ ":" +:+ json_string f.2) <$> fields) +:+ "}".

(** Well-formed UTF-8. *)
Fixpoint utf8_valid (s : string) : bool :=
  match s with
  | EmptyString => true
  | String c s1 =>
      if is_ascii c then utf8_valid s1
      else
        match s1 with
        | String c1 s2 =>
            if utf8_2 c c1 then utf8_valid s2 else
            match s2 with
            | String c2 s3 =>
                if utf8_3 c c1 c2 then utf8_valid s3 else
                match s3 with
                | String c3 s4 => utf8_4 c c1 c2 c3 && utf8_valid s4
                | EmptyString => false
                end
            | EmptyString => false
            end
        | EmptyString => false
        end
  end.

(** ** The scanner on concrete inputs *)

Definition in_quotes (s : string) : string := String quote (s +:+ String quote "").

Example json_parse_object :
  json_parse (" { " +:+ in_quotes "a" +:+ " : [1, -2.5e3 ,true], " +:+
              in_quotes "b\u00e9\n\ud83d\ude00" +:+ ":null}") =
  Some (JObject [("a", JArray [JNumber "1"; JNumber "-2.5e3"; JBool true]);
                 ("bé" +:+ chr 10 +:+ chrs [240; 159; 152; 128], JNull)]).
Proof. vm_compute. reflexivity. Qed.

Example json_parse_rejects :
  json_parse <$> ["[1,]"; "01"; "{"; "1 2"; "tru"; ""] = replicate 6 None.
Proof. vm_compute. reflexivity. Qed.

Example float64_overflows_bounds :
  float64_overflows <$> ["1e999"; "1.8e308"; "0.0000001e99999999999999999999"] = [true; true; true] ∧
  float64_overflows <$> ["1e308"; "0e999"; "1e-99999999999999999999"] = [false; false; false].
Proof. vm_compute. done. Qed.

(** ** Lemmas: strings *)

(** The sequences that make a string well formed, as an inductive predicate. *)
Inductive utf8 : string → Prop :=
  | utf8_nil : utf8 ""
  | utf8_ascii_cons c s : is_ascii c = true → utf8 s → utf8 (String c s)
  | utf8_2_cons a b s : utf8_2 a b = true → utf8 s → utf8 (String a (String b s))
  | utf8_3_cons a b c s : utf8_3 a b c = true → utf8 s → utf8 (String a (String b (String c s)))
  | utf8_4_cons a b c d s : utf8_4 a b c d = true → utf8 s →
      utf8 (String a (String b (String c (String d s)))).

Lemma utf8_valid_utf8 s : utf8_valid s = true → utf8 s.
Proof.
  remember (String.length s) as n eqn:Hn. revert s Hn.
  induction (lt_wf n) as [n _ IH]. intros s -> Hs.
  destruct s as [|a s1]; [constructor|]. simpl in Hs.
  destruct (is_ascii a) eqn:Ha. { apply utf8_ascii_cons; [done|]. eapply IH; eauto. simpl. lia. }
  destruct s1 as [|b s2]; [done|].
  destruct (utf8_2 a b) eqn:H2. { apply utf8_2_cons; [done|]. eapply IH; eauto. simpl. lia. }
  destruct s2 as [|c s3]; [done|].
  destruct (utf8_3 a b c) eqn:H3. { apply utf8_3_cons; [done|]. eapply IH; eauto. simpl. lia. }
  destruct s3 as [|d s4]; [done|]. apply andb_true_iff in Hs as [H4 Hs].
  apply utf8_4_cons; [done|]. eapply IH; eauto. simpl. lia.
Qed.

Lemma in_range_true lo hi c : in_range lo hi c = true ↔ lo <= byte_val c <= hi.
Proof. unfold in_range. rewrite andb_true_iff, !Z.leb_le. done. Qed.

(** The first byte tells the length of a sequence. *)
Lemma utf8_2_lead a b : utf8_2 a b = true → 194 <= byte_val a <= 223.
Proof. unfold utf8_2. rewrite andb_true_iff, !in_range_true. tauto. Qed.

Lemma utf8_3_lead a b c : utf8_3 a b c = true → 224 <= byte_val a <= 239.
Proof.
  unfold utf8_3. rewrite !andb_true_iff, !orb_true_iff, !andb_true_iff, !in_range_true. lia.
Qed.

Lemma utf8_4_lead a b c d : utf8_4 a b c d = true → 240 <= byte_val a <= 244.
Proof.
  unfold utf8_4. rewrite !andb_true_iff, !orb_true_iff, !andb_true_iff, !in_range_true. lia.
Qed.

Lemma is_cont_true c : is_cont c = true ↔ 128 <= byte_val c <= 191.
Proof. apply in_range_true. Qed.

(** Every byte of a sequence of several bytes is above the ASCII range. *)
Lemma utf8_2_bytes a b : utf8_2 a b = true → 128 <= byte_val a ∧ 128 <= byte_val b.
Proof. unfold utf8_2. rewrite andb_true_iff, is_cont_true, in_range_true. lia. Qed.

Lemma utf8_3_bytes a b c :
  utf8_3 a b c = true → 128 <= byte_val a ∧ 128 <= byte_val b ∧ 128 <= byte_val c.
Proof.
  unfold utf8_3. rewrite !andb_true_iff, !orb_true_iff, !andb_true_iff, !is_cont_true, !in_range_true.
  lia.
Qed.

Lemma utf8_4_bytes a b c d :
  utf8_4 a b c d = true →
  128 <= byte_val a ∧ 128 <= byte_val b ∧ 128 <= byte_val c ∧ 128 <= byte_val d.
Proof.
  unfold utf8_4. rewrite !andb_true_iff, !orb_true_iff, !andb_true_iff, !is_cont_true, !in_range_true.
  lia.
Qed.

Lemma not_ascii a : 128 <= byte_val a → is_ascii a = false ∧ a ≠ backslash ∧ a ≠ quote.
Proof.
  intros Ha. split; [apply Z.ltb_ge; lia|].
  split; intros ->; vm_compute in Ha; done.
Qed.

Lemma not_utf8_2 a b : 224 <= byte_val a → utf8_2 a b = false.
Proof. intros Ha. apply not_true_iff_false. intros H%utf8_2_lead. lia. Qed.

Lemma not_utf8_3 a b c : 240 <= byte_val a → utf8_3 a b c = false.
Proof. intros Ha. apply not_true_iff_false. intros H%utf8_3_lead. lia. Qed.

(** The tests on the first byte [a] of a sequence, decided by its length. *)
Ltac utf8_branch a :=
  let Ha := fresh in let Hb := fresh in let Hq := fresh in
  destruct (not_ascii a) as (Ha & Hb & Hq); [lia|];
  rewrite ?Ha, ?(bool_decide_false (a = backslash)) by done;
  rewrite ?(not_utf8_2 a) by lia; rewrite ?(not_utf8_3 a) by lia;
  repeat match goal with H : ?t = true |- context [if ?t then _ else _] => rewrite H end.

Lemma quote_string_2 a b s :
  utf8_2 a b = true → quote_string (String a (String b s)) = String a (String b (quote_string s)).
Proof. intros H. pose proof (utf8_2_lead _ _ H). cbn [quote_string]. by utf8_branch a. Qed.

Lemma quote_string_3 a b c s :
  utf8_3 a b c = true →
  quote_string (String a (String b (String c s))) = quote_3 a b c +:+ quote_string s.
Proof. intros H. pose proof (utf8_3_lead _ _ _ H). cbn [quote_string]. by utf8_branch a. Qed.

Lemma quote_string_4 a b c d s :
  utf8_4 a b c d = true →
  quote_string (String a (String b (String c (String d s)))) =
  String a (String b (String c (String d (quote_string s)))).
Proof. intros H. pose proof (utf8_4_lead _ _ _ _ H). cbn [quote_string]. by utf8_branch a. Qed.

Lemma unquote_2 a b s :
  utf8_2 a b = true → unquote (String a (String b s)) = String a (String b (unquote s)).
Proof. intros H. pose proof (utf8_2_lead _ _ H). cbn [unquote]. by utf8_branch a. Qed.

Lemma unquote_3 a b c s :
  utf8_3 a b c = true →
  unquote (String a (String b (String c s))) = String a (String b (String c (unquote s))).
Proof. intros H. pose proof (utf8_3_lead _ _ _ H). cbn [unquote]. by utf8_branch a. Qed.

Lemma unquote_4 a b c d s :
  utf8_4 a b c d = true →
  unquote (String a (String b (String c (String d s)))) =
  String a (String b (String c (String d (unquote s)))).
Proof. intros H. pose proof (utf8_4_lead _ _ _ _ H). cbn [unquote]. by utf8_branch a. Qed.

Lemma unquote_quote_ascii c s :
  is_ascii c = true → unquote (quote_ascii c +:+ s) = String c (unquote s).
Proof. destruct c as [[][][][][][][][]]; intros Hc; first [discriminate Hc|reflexivity]. Qed.

Lemma unquote_quote_3 a b c s :
  utf8_3 a b c = true → unquote (quote_3 a b c +:+ s) = String a (String b (String c (unquote s))).
Proof.
  intros H. unfold quote_3.
  destruct (bool_decide (byte_val a = 226)) eqn:Ha, (bool_decide (byte_val b = 128)) eqn:Hb;
    cbn [andb];
    try (by rewrite !string_app_cons, unquote_3).
  apply bool_decide_eq_true in Ha, Hb.
  assert (a = byte_of_val 226) as -> by (apply byte_val_inj; rewrite Ha; reflexivity).
  assert (b = byte_of_val 128) as -> by (apply byte_val_inj; rewrite Hb; reflexivity).
  repeat case_bool_decide; try (by rewrite !string_app_cons, unquote_3).
  - assert (c = byte_of_val 168) as -> by (apply byte_val_inj; done). reflexivity.
  - assert (c = byte_of_val 169) as -> by (apply byte_val_inj; done). reflexivity.
Qed.

(** Decoding undoes encoding, on well-formed strings. *)
Lemma unquote_quote_string s : utf8_valid s = true → unquote (quote_string s) = s.
Proof.
  intros Hs%utf8_valid_utf8.
  induction Hs as [|c s Hc Hs IH|a b s H Hs IH|a b c s H Hs IH|a b c d s H Hs IH].
  - done.
  - cbn [quote_string]. by rewrite Hc, unquote_quote_ascii, IH.
  - by rewrite quote_string_2, unquote_2, IH.
  - by rewrite quote_string_3, unquote_quote_3, IH.
  - by rewrite quote_string_4, unquote_4, IH.
Qed.

(** ** Lemmas: the scanner *)

Lemma scan_app s a b :
  scan s (a +:+ b) = match scan s a with Some s' => scan s' b | None => None end.
Proof.
  revert s. induction a as [|c a IH]; intros s; [done|].
  rewrite string_app_cons. cbn [scan]. destruct (scan_step s c); [apply IH|done].
Qed.

Lemma scan_raw_byte k raw c :
  32 <= byte_val c → c ≠ quote → c ≠ backslash →
  scan_step (mkScanner k (InString raw)) c = Some (mkScanner k (InString (raw +:+ String c ""))).
Proof.
  intros H1 H2 H3. cbn [scan_step sc_mode sc_stack].
  rewrite !bool_decide_false by done. by rewrite (proj2 (Z.ltb_ge _ _)).
Qed.

(** One unit of an encoded string: a plain byte, a one-letter escape or a
    four-digit one. *)
Definition escape_unit (t : string) : bool :=
  match t with
  | String c EmptyString =>
      (32 <=? byte_val c) && negb (bool_decide (c = quote)) && negb (bool_decide (c = backslash))
  | String b (String e EmptyString) =>
      bool_decide (b = backslash) && negb (bool_decide (e = "u"%char)) &&
      bool_decide (is_Some (simple_escape e))
  | String b (String u (String h1 (String h2 (String h3 (String h4 EmptyString))))) =>
      bool_decide (b = backslash) && bool_decide (u = "u"%char) &&
      forallb (λ h, bool_decide (is_Some (hex_val h))) [h1; h2; h3; h4]
  | _ => false
  end.

Lemma scan_backslash k raw :
  scan_step (mkScanner k (InString raw)) backslash =
  Some (mkScanner k (InStringEsc (raw +:+ String backslash ""))).
Proof. reflexivity. Qed.

Lemma scan_escape_unit k raw t :
  escape_unit t = true →
  scan (mkScanner k (InString raw)) t = Some (mkScanner k (InString (raw +:+ t))).
Proof.
  destruct t as [|c [|e [|h1 [|h2 [|h3 [|h4 [|]]]]]]]; try done; unfold escape_unit; simpl forallb;
    rewrite ?andb_true_iff, ?negb_true_iff, ?bool_decide_eq_true, ?bool_decide_eq_false.
  - intros [[Hc%Z.leb_le Hq] Hb]. cbn [scan]. by rewrite scan_raw_byte.
  - intros [[-> Hu] [d Hd]]. cbn [scan]. rewrite scan_backslash. cbn [scan scan_step sc_mode sc_stack].
    rewrite bool_decide_false, Hd by done. cbn [scan]. by rewrite string_app_assoc.
  - intros [[-> ->] ([v1 H1] & [v2 H2] & [v3 H3] & [v4 H4] & _)].
    cbn [scan]. rewrite scan_backslash. cbn [scan scan_step sc_mode sc_stack].
    rewrite bool_decide_true by done. cbn [scan scan_step sc_mode sc_stack].
    rewrite H1. cbn [scan scan_step sc_mode sc_stack]. rewrite H2.
    cbn [scan scan_step sc_mode sc_stack]. rewrite H3. cbn [scan scan_step sc_mode sc_stack].
    rewrite H4. by rewrite !string_app_assoc.
Qed.

Lemma quote_ascii_unit c : is_ascii c = true → escape_unit (quote_ascii c) = true.
Proof.
  intros Hc. assert (implb (is_ascii c) (escape_unit (quote_ascii c)) = true) as Hi.
  { clear Hc. revert c. apply byte_forall. vm_compute. reflexivity. }
  by rewrite Hc in Hi.
Qed.

Lemma scan_high_byte k raw c :
  128 <= byte_val c →
  scan_step (mkScanner k (InString raw)) c = Some (mkScanner k (InString (raw +:+ String c ""))).
Proof. intros Hc. destruct (not_ascii c Hc) as (_ & ? & ?). apply scan_raw_byte; [lia|done..]. Qed.

Lemma scan_quote_3 k raw a b c :
  utf8_3 a b c = true →
  scan (mkScanner k (InString raw)) (quote_3 a b c) =
  Some (mkScanner k (InString (raw +:+ quote_3 a b c))).
Proof.
  intros (Ha & Hb & Hc)%utf8_3_bytes. unfold quote_3.
  repeat case_match; try (by apply scan_escape_unit).
  do 3 (cbn [scan]; rewrite scan_high_byte by done). cbn [scan]. by rewrite !string_app_assoc.
Qed.

(** The scanner goes through an encoded string without leaving it. *)
Lemma scan_quote_string k raw s :
  utf8_valid s = true →
  scan (mkScanner k (InString raw)) (quote_string s) =
  Some (mkScanner k (InString (raw +:+ quote_string s))).
Proof.
  intros Hs%utf8_valid_utf8. revert raw.
  induction Hs as [|c s Hc Hs IH|a b s H Hs IH|a b c s H Hs IH|a b c d s H Hs IH]; intros raw.
  - cbn. by rewrite string_app_nil_r.
  - cbn [quote_string]. rewrite Hc, scan_app, scan_escape_unit by (by apply quote_ascii_unit).
    by rewrite IH, string_app_assoc.
  - destruct (utf8_2_bytes _ _ H) as (Ha & Hb). rewrite quote_string_2 by done. cbn [scan].
    rewrite scan_high_byte by done. cbn [scan]. rewrite scan_high_byte, IH by done.
    by rewrite !string_app_assoc.
  - rewrite quote_string_3 by done. rewrite scan_app, scan_quote_3, IH by done.
    by rewrite string_app_assoc.
  - destruct (utf8_4_bytes _ _ _ _ H) as (Ha & Hb & Hc & Hd). rewrite quote_string_4 by done.
    do 4 (cbn [scan]; rewrite scan_high_byte by done). rewrite IH by done.
    by rewrite !string_app_assoc.
Qed.

Lemma scan_quoted k m s :
  utf8_valid s = true →
  scan_step (mkScanner k m) quote = Some (mkScanner k (InString "")) →
  scan (mkScanner k m) (json_string s) = finish_string k (quote_string s).
Proof.
  intros Hs Hm. unfold json_string. cbn [scan]. rewrite Hm, scan_app, scan_quote_string by done.
  rewrite string_app_nil_l. cbn [scan scan_step sc_mode sc_stack].
  rewrite bool_decide_true by done. by destruct (finish_string k (quote_string s)).
Qed.

Definition string_member (f : string * string) : string :=
  json_string f.1 +:+ ":" +:+ json_string f.2.

(** One member with a string value, from the beginning of its key. *)
Lemma scan_member ms k m f :
  utf8_valid f.1 = true → utf8_valid f.2 = true → m = BeginString ∨ m = BeginStringOrEmpty →
  scan (mkScanner (FObject ms None :: k) m) (string_member f) =
  Some (mkScanner (FObject ((f.1, JString f.2) :: ms) None :: k) EndValue).
Proof.
  intros Hk Hv Hm. unfold string_member.
  rewrite scan_app, scan_quoted by (done || by destruct Hm as [-> | ->]).
  cbn [finish_string]. rewrite unquote_quote_string by done.
  rewrite string_app_cons, string_app_nil_l. cbn [scan].
  change (scan_step _ ":") with (Some (mkScanner (FObject ms (Some f.1) :: k) BeginValue)).
  cbn [scan]. rewrite scan_quoted by done. cbn [finish_string finish_value].
  by rewrite unquote_quote_string.
Qed.

Definition string_members (fields : list (string * string)) : list (string * json) :=
  (λ f, (f.1, JString f.2)) <$> fields.

Lemma scan_members ms k m fields :
  fields ≠ [] → Forall (λ f, utf8_valid f.1 = true ∧ utf8_valid f.2 = true) fields →
  m = BeginString ∨ m = BeginStringOrEmpty →
  scan (mkScanner (FObject ms None :: k) m) (string_join "," (string_member <$> fields)) =
  Some (mkScanner (FObject (rev (string_members fields) ++ ms) None :: k) EndValue).
Proof.
  intros Hne Hf. revert ms m Hne.
  induction Hf as [|f fields [H1 H2] Hf IH]; intros ms m Hne Hm; [done|].
  destruct fields as [|g fields].
  - cbn. by apply scan_member.
  - change (string_join "," (string_member <$> f :: g :: fields)) with
      (string_member f +:+ "," +:+ string_join "," (string_member <$> g :: fields)).
    rewrite scan_app, scan_member by done. rewrite string_app_cons, string_app_nil_l. cbn [scan].
    change (scan_step _ ",") with
      (Some (mkScanner (FObject ((f.1, JString f.2) :: ms) None :: k) BeginString)).
    cbn [scan]. rewrite (IH ((f.1, JString f.2) :: ms) BeginString) by auto.
    unfold string_members. rewrite (fmap_cons _ f). cbn [rev]. by rewrite <-app_assoc.
Qed.

(** What [json.Marshal] writes for a struct of strings, the scanner reads back
    as the object with these members. *)
Lemma json_parse_marshal fields :
  fields ≠ [] → Forall (λ f, utf8_valid f.1 = true ∧ utf8_valid f.2 = true) fields →
  json_parse (marshal_strings fields) = Some (JObject (string_members fields)).
Proof.
  intros Hne Hf. unfold json_parse, marshal_strings. fold string_member.
  rewrite !string_app_cons, !string_app_nil_l, !string_app_assoc. cbn [scan].
  change (scan_step _ "{") with (Some (mkScanner [FObject [] None] BeginStringOrEmpty)).
  cbn [scan]. rewrite scan_app.
  change ((λ f, json_string f.1 +:+ ":" +:+ json_string f.2) <$> fields)
    with (string_member <$> fields).
  rewrite scan_members by auto. rewrite app_nil_r.
  change (scan _ ("}" +:+ " ")) with
    (Some (mkScanner [] (EndTop (JObject (rev (rev (string_members fields))))))).
  by rewrite rev_involutive.
Qed.
