(* ===== verification/Rfc3339.v ===== *)
(** * Time stamps

    The part of the [time] package that the broker uses for the deadline of a
    failover: [Time.Format(time.RFC3339)] and [time.Parse(time.RFC3339, s)].  An
    instant is a number of nanoseconds since 1970, a zone an offset in seconds. *)
From S2P Require Import Prelude.
Local Open Scope Z_scope.

(** ** The proleptic Gregorian calendar *)

Definition is_leap (y : Z) : bool :=
  (y mod 4 =? 0) && (negb (y mod 100 =? 0) || (y mod 400 =? 0)).

(** Days before a month, in a common year ([daysBefore]). *)
Definition days_before (m : Z) : Z :=
  nth (Z.to_nat m) [0; 31; 59; 90; 120; 151; 181; 212; 243; 273; 304; 334; 365] 0.

Definition days_in (m y : Z) : Z :=
  if (m =? 2) && is_leap y then 29 else days_before m - days_before (m - 1).

(** The day of the year of a date, from 0. *)
Definition year_day (leap : bool) (m d : Z) : Z :=
  days_before (m - 1) + (if (2 <? m) && leap then 1 else 0) + (d - 1).

(** Days from 1 January of year 1 to 1 January of year [y]. *)
Definition days_before_year (y : Z) : Z :=
  365 * (y - 1) + (y - 1) / 4 - (y - 1) / 100 + (y - 1) / 400.

Definition days_of_date (y m d : Z) : Z :=
  days_before_year y + year_day (is_leap y) m d.

(** The month and the day of the month of a day of the year, from 0. *)
Definition month_day (leap : bool) (yday : Z) : Z * Z :=
  if leap && (yday =? 59) then (2, 29) else
  let yday := if leap && (59 <? yday) then yday - 1 else yday in
  let m := yday / 31 in
  let m := if days_before (m + 1) <=? yday then m + 1 else m in
  (m + 1, yday - days_before m + 1).

(** The year, from 1 to 400, and the day of the year of a day of the 400-year
    cycle: cut into centuries, groups of four years and years. *)
Definition cycle_year (n : Z) : Z * Z :=
  let n100 := Z.min 3 (n / 36524) in
  let n := n - 36524 * n100 in
  let n4 := n / 1461 in
  let n := n - 1461 * n4 in
  let n1 := Z.min 3 (n / 365) in
  (100 * n100 + 4 * n4 + n1 + 1, n - 365 * n1).

(** The date of a day counted from 1 January of year 1. *)
Definition date_of_days (n : Z) : Z * Z * Z :=
  let (y, yday) := cycle_year (n mod 146097) in
  let (m, d) := month_day (is_leap y) yday in
  (400 * (n / 146097) + y, m, d).

(** 1 January 1970. *)
Definition unix_epoch_days : Z := 719162.

Definition ns_per_s : Z := 1000000000.

(** ** Formatting *)

Definition digit (d : Z) : ascii := byte_of_val (byte_val "0" + d).

(** [appendInt(b, n, 2)] and [appendInt(b, n, 4)] for numbers that fit. *)
Definition d2 (n : Z) : string := String (digit (n / 10)) (String (digit (n mod 10)) "").
Definition d4 (n : Z) : string := d2 (n / 100) +:+ d2 (n mod 100).

(** The year of an instant in a zone. *)
Definition local_seconds (t offset : Z) : Z := t / ns_per_s + offset.
Definition local_date (t offset : Z) : Z * Z * Z :=
  date_of_days (local_seconds t offset / 86400 + unix_epoch_days).

Definition format_zone (offset : Z) : string :=
  if offset =? 0 then "Z" else
  let zone := Z.quot offset 60 in
  let a := Z.abs zone in
  (if zone <? 0 then "-" else "+") +:+ d2 (a / 60) +:+ ":" +:+ d2 (a mod 60).

(** [t.Format(time.RFC3339)], for years of four digits. *)
Definition format_rfc3339 (t offset : Z) : string :=
  let '(y, mo, d) := local_date t offset in
  let s := local_seconds t offset mod 86400 in
  d4 y +:+ "-" +:+ d2 mo +:+ "-" +:+ d2 d +:+ "T" +:+
  d2 (s / 3600) +:+ ":" +:+ d2 (s / 60 mod 60) +:+ ":" +:+ d2 (s mod 60) +:+
  format_zone offset.

(** ** Parsing *)

Definition digit_val (c : ascii) : option Z :=
  if is_digit c then Some (byte_val c - byte_val "0") else None.

(** [getnum]: two digits, or one when [fixed] is false. *)
Definition getnum (fixed : bool) (s : string) : option (Z * string) :=
  match s with
  | String a rest =>
      x ← digit_val a;
      match rest with
      | String b rest' =>
          match digit_val b with
          | Some y => Some (10 * x + y, rest')
          | None => if fixed then None else Some (x, rest)
          end
      | EmptyString => if fixed then None else Some (x, rest)
      end
  | EmptyString => None
  end.

(** The year: exactly four digits. *)
Definition getyear (s : string) : option (Z * string) :=
  '(hi, s) ← getnum true s;
  '(lo, s) ← getnum true s;
  Some (100 * hi + lo, s).

(** A literal byte of the layout. *)
Definition skip (c : ascii) (s : string) : option string :=
  match s with
  | String a rest => if bool_decide (a = c) then Some rest else None
  | EmptyString => None
  end.

(** The leading digits of a string, at most [n] of them counted, as a number
    scaled to [n] digits; all of them are consumed. *)
Fixpoint fraction (n : nat) (acc : Z) (s : string) : Z * string :=
  match s with
  | String a rest =>
      match digit_val a with
      | Some x =>
          match n with
          | O => fraction O acc rest
          | S n' => fraction n' (acc * 10 + x) rest
          end
      | None => (acc * 10 ^ Z.of_nat n, s)
      end
  | EmptyString => (acc * 10 ^ Z.of_nat n, s)
  end.

(** An optional fraction of a second after a period or a comma, in
    nanoseconds: accepted by the parser although the layout has none. *)
Definition getfraction (s : string) : Z * string :=
  match s with
  | String p (String a _ as rest) =>
      if (bool_decide (p = "."%char) || bool_decide (p = ","%char)) && is_digit a
      then fraction 9 0 rest else (0, s)
  | _ => (0, s)
  end.

(** [Z07:00]: the offset in seconds and the rest of the input. *)
Definition getzone (s : string) : option (Z * string) :=
  match s with
  | String c rest =>
      if bool_decide (c = "Z"%char) then Some (0, rest) else
      '(hr, s) ← getnum true rest;
      s ← skip ":" s;
      '(mm, s) ← getnum true s;
      if (24 <? hr) || (60 <? mm) then None
      else if bool_decide (c = "+"%char) then Some ((hr * 60 + mm) * 60, s)
      else if bool_decide (c = "-"%char) then Some (- ((hr * 60 + mm) * 60), s)
      else None
  | EmptyString => None
  end.

(** [time.Parse(time.RFC3339, s)]: the instant, or [None] for an error. *)
Definition parse_rfc3339 (s : string) : option Z :=
  '(y, s) ← getyear s;
  s ← skip "-" s; '(mo, s) ← getnum true s;
  s ← skip "-" s; '(d, s) ← getnum true s;
  s ← skip "T" s; '(hr, s) ← getnum false s;
  s ← skip ":" s; '(mi, s) ← getnum true s;
  s ← skip ":" s; '(sec, s) ← getnum true s;
  let '(ns, s) := getfraction s in
  '(offset, s) ← getzone s;
  if (mo <? 1) || (12 <? mo) || (23 <? hr) || (59 <? mi) || (59 <? sec) ||
     (d <? 1) || (days_in mo y <? d) || negb (bool_decide (s = "")) then None
  else Some (((days_of_date y mo d - unix_epoch_days) * 86400 +
              hr * 3600 + mi * 60 + sec - offset) * ns_per_s + ns).

Example format_ex : format_rfc3339 (1700000000 * ns_per_s + 5) 0 = "2023-11-14T22:13:20Z".
Proof. vm_compute. reflexivity. Qed.
Example format_ex_zone : format_rfc3339 (1700000000 * ns_per_s) (-12600) = "2023-11-14T18:43:20-03:30".
Proof. vm_compute. reflexivity. Qed.
Example parse_ex :
  parse_rfc3339 <$> ["2023-11-14T22:13:20Z"; "2023-11-14T18:43:20.5-03:30"; "2023-02-29T00:00:00Z"] =
  [Some (1700000000 * ns_per_s); Some (1700000000 * ns_per_s + 500000000); None].
Proof. vm_compute. reflexivity. Qed.

(** ** Lemmas: the calendar *)

Fixpoint check_from (P : Z → bool) (n : nat) (z : Z) : bool :=
  match n with
  | O => true
  | S n' => P z && check_from P n' (z + 1)
  end.

Lemma check_from_spec P n z :
  check_from P n z = true → ∀ i, z <= i < z + Z.of_nat n → P i = true.
Proof.
  revert z. induction n as [|n IH]; intros z; cbn [check_from]; [lia|].
  rewrite andb_true_iff. intros [Hz Hn] i Hi.
  destruct (decide (i = z)) as [->|]; [done|]. apply (IH (z + 1) Hn). lia.
Qed.

(** The days of a common and of a leap year, checked one by one. *)
Definition month_day_ok (leap : bool) (yday : Z) : bool :=
  let (m, d) := month_day leap yday in
  (year_day leap m d =? yday) && (1 <=? m) && (m <=? 12) && (1 <=? d) &&
  (d <=? if (m =? 2) && leap then 29 else days_before m - days_before (m - 1)).

Lemma month_day_spec leap yday :
  0 <= yday < 365 + Z.b2z leap → month_day_ok leap yday = true.
Proof.
  intros Hy. eapply (check_from_spec (month_day_ok leap) (Z.to_nat (365 + Z.b2z leap)) 0).
  - destruct leap; vm_compute; reflexivity.
  - destruct leap; simpl in *; lia.
Qed.

Lemma is_leap_parts a b c :
  0 <= a < 4 → 0 <= b < 25 → 0 <= c < 4 →
  is_leap (100 * a + 4 * b + c + 1) = (c =? 3) && (negb (b =? 24) || (a =? 3)).
Proof.
  intros Ha Hb Hc.
  set (P i := Bool.eqb (is_leap (100 * (i / 100) + 4 * (i / 4 mod 25) + i mod 4 + 1))
                ((i mod 4 =? 3) && (negb (i / 4 mod 25 =? 24) || (i / 100 =? 3)))).
  assert (P (100 * a + 4 * b + c) = true) as HP.
  { eapply (check_from_spec P (Z.to_nat 400) 0); [vm_compute; reflexivity|lia]. }
  apply Bool.eqb_prop in HP.
  assert ((100 * a + 4 * b + c) / 100 = a ∧ (100 * a + 4 * b + c) / 4 mod 25 = b ∧
          (100 * a + 4 * b + c) mod 4 = c) as (E1 & E2 & E3)
    by (Z.to_euclidean_division_equations; lia).
  by rewrite E1, E2, E3 in HP.
Qed.

Lemma cycle_year_spec n y yday :
  0 <= n < 146097 → cycle_year n = (y, yday) →
  days_before_year y + yday = n ∧ 1 <= y <= 400 ∧ 0 <= yday < 365 + Z.b2z (is_leap y).
Proof.
  intros Hn. unfold cycle_year.
  set (a := Z.min 3 (n / 36524)). set (n' := n - 36524 * a). set (b := n' / 1461).
  set (n'' := n' - 1461 * b). set (c := Z.min 3 (n'' / 365)). intros [= <- <-].
  assert (0 <= a < 4 ∧ 0 <= n' ∧ n' < 36524 + Z.b2z (a =? 3)) as (Ha & Hn1 & Hn2).
  { subst n' a. destruct (_ =? 3) eqn:E; cbn [Z.b2z andb orb negb]; Z.to_euclidean_division_equations; lia. }
  assert (0 <= b < 25 ∧ 0 <= n'' ∧ n'' < 1461 - Z.b2z ((b =? 24) && negb (a =? 3))) as (Hb & Hm1 & Hm2).
  { subst n'' b. destruct (a =? 3) eqn:E, (n' / 1461 =? 24) eqn:E'; cbn [Z.b2z andb orb negb] in *;
      Z.to_euclidean_division_equations; lia. }
  assert (0 <= c < 4) as Hc by (subst c; Z.to_euclidean_division_equations; lia).
  rewrite is_leap_parts by done. unfold days_before_year.
  assert ((100 * a + 4 * b + c + 1 - 1) / 4 = 25 * a + b ∧
          (100 * a + 4 * b + c + 1 - 1) / 100 = a ∧
          (100 * a + 4 * b + c + 1 - 1) / 400 = 0) as (-> & -> & ->)
    by (clear -Ha Hb Hc; Z.to_euclidean_division_equations; lia).
  split; [lia|]. split; [lia|].
  assert (0 <= n'' - 365 * c < 365 + Z.b2z (c =? 3)) as Hd.
  { assert (n'' < 1461) as Hm3 by (destruct (_ && _); cbn [Z.b2z] in Hm2; lia).
    subst c. clear -Hm1 Hm3. generalize dependent n''. intros n'' H1 H2.
    destruct (_ =? 3) eqn:E; [apply Z.eqb_eq in E|apply Z.eqb_neq in E]; cbn [Z.b2z];
      Z.to_euclidean_division_equations; lia. }
  destruct (c =? 3) eqn:E3; cbn [Z.b2z andb orb negb] in *; [|lia].
  destruct (b =? 24) eqn:E24, (a =? 3) eqn:E1; cbn [Z.b2z andb orb negb] in *; try lia.
Qed.

Lemma is_leap_cycle k y : is_leap (400 * k + y) = is_leap y.
Proof.
  unfold is_leap.
  replace (400 * k + y) with (y + (100 * k) * 4) at 1 by lia. rewrite Z_mod_plus_full.
  replace (400 * k + y) with (y + (4 * k) * 100) at 1 by lia. rewrite Z_mod_plus_full.
  replace (400 * k + y) with (y + k * 400) at 1 by lia. by rewrite Z_mod_plus_full.
Qed.

Lemma days_before_year_cycle k y :
  days_before_year (400 * k + y) = 146097 * k + days_before_year y.
Proof.
  unfold days_before_year.
  replace (400 * k + y - 1) with (y - 1 + (100 * k) * 4) at 2 by lia. rewrite Z_div_plus_full by lia.
  replace (400 * k + y - 1) with (y - 1 + (4 * k) * 100) at 2 by lia. rewrite Z_div_plus_full by lia.
  replace (400 * k + y - 1) with (y - 1 + k * 400) at 2 by lia. rewrite Z_div_plus_full by lia.
  lia.
Qed.

(** The date of a day is a date, and that of this day. *)
Lemma date_of_days_spec n y m d :
  date_of_days n = (y, m, d) →
  days_of_date y m d = n ∧ 1 <= m <= 12 ∧ 1 <= d <= days_in m y.
Proof.
  unfold date_of_days. pose proof (Z.mod_pos_bound n 146097 ltac:(lia)) as Hr.
  destruct (cycle_year (n mod 146097)) as [y' yday] eqn:Hy.
  destruct (cycle_year_spec _ _ _ Hr Hy) as (Hdays & Hy' & Hyd).
  apply month_day_spec in Hyd. unfold month_day_ok in Hyd.
  destruct (month_day (is_leap y') yday) as [m' d'] eqn:Hm. intros [= <- <- <-].
  rewrite !andb_true_iff, Z.eqb_eq, !Z.leb_le in Hyd.
  unfold days_of_date, days_in. rewrite is_leap_cycle, days_before_year_cycle.
  pose proof (Z.div_mod n 146097). lia.
Qed.

(** The days of twenty-four cycles have years of four digits at most. *)
Lemma date_of_days_year n : 0 <= n < 24 * 146097 → 0 <= (date_of_days n).1.1 < 10000.
Proof.
  intros Hn. unfold date_of_days. destruct (cycle_year (n mod 146097)) as [y yday] eqn:Hy.
  destruct (month_day (is_leap y) yday) as [m d]. cbn [fst].
  pose proof (Z.mod_pos_bound n 146097 ltac:(lia)) as Hr.
  apply cycle_year_spec in Hy; [|done]. Z.to_euclidean_division_equations. lia.
Qed.

Lemma days_in_le m y : 1 <= m <= 12 → days_in m y <= 31.
Proof.
  intros Hm. unfold days_in. destruct ((m =? 2) && is_leap y); [lia|]. apply Z.leb_le.
  revert m Hm. intros m Hm.
  by apply (check_from_spec (λ m, days_before m - days_before (m - 1) <=? 31) 12 1); [|lia].
Qed.

(** ** Lemmas: digits *)

Lemma digit_val_digit d : 0 <= d < 10 → digit_val (digit d) = Some d.
Proof.
  intros Hd. unfold digit_val, digit.
  assert (0 <= byte_val "0" + d < 256) as Hb by (change (byte_val "0") with 48; lia).
  assert (is_digit (byte_of_val (byte_val "0" + d)) = true) as ->.
  { unfold is_digit. apply byte_in_true. rewrite byte_val_of_val by done.
    change (byte_val "0") with 48. change (byte_val "9") with 57. lia. }
  rewrite byte_val_of_val by done. f_equal. lia.
Qed.

Lemma getnum_d2 fixed n s : 0 <= n < 100 → getnum fixed (d2 n +:+ s) = Some (n, s).
Proof.
  intros Hn. unfold d2. rewrite !string_app_cons, string_app_nil_l. unfold getnum.
  rewrite !digit_val_digit by (Z.to_euclidean_division_equations; lia). simpl.
  do 2 f_equal. pose proof (Z.div_mod n 10). lia.
Qed.

Lemma getyear_d4 n s : 0 <= n < 10000 → getyear (d4 n +:+ s) = Some (n, s).
Proof.
  intros Hn. unfold getyear, d4. rewrite string_app_assoc.
  rewrite getnum_d2 by (Z.to_euclidean_division_equations; lia). cbn [mbind option_bind].
  rewrite getnum_d2 by (Z.to_euclidean_division_equations; lia). cbn [mbind option_bind].
  do 2 f_equal. pose proof (Z.div_mod n 100). lia.
Qed.

(** The offsets a zone can have in this format: whole minutes, within a day. *)
Definition zone_ok (offset : Z) : Prop := offset mod 60 = 0 ∧ -86400 < offset < 86400.

Lemma skip_literal c s : skip c (String c "" +:+ s) = Some s.
Proof. rewrite string_app_cons, string_app_nil_l. simpl. by rewrite bool_decide_true. Qed.

Lemma getzone_format offset : zone_ok offset → getzone (format_zone offset) = Some (offset, "").
Proof.
  intros [Hm Hr]. unfold format_zone. destruct (offset =? 0) eqn:H0.
  { apply Z.eqb_eq in H0 as ->. done. }
  apply Z.eqb_neq in H0. cbv zeta.
  assert (offset = 60 * (offset / 60)) as Hq by (Z.to_euclidean_division_equations; lia).
  set (q := offset / 60) in *.
  assert (Z.quot offset 60 = q) as ->.
  { rewrite Hq, Z.mul_comm. apply Z.quot_mul. lia. }
  assert (0 <= Z.abs q / 60 < 24 ∧ 0 <= Z.abs q mod 60 < 60) as [Hh Hmi]
    by (Z.to_euclidean_division_equations; lia).
  assert (getnum true (d2 (Z.abs q mod 60) +:+ "") = Some (Z.abs q mod 60, "")) as Hmm
    by (apply getnum_d2; lia).
  rewrite string_app_nil_r in Hmm.
  pose proof (Z.div_mod (Z.abs q) 60 ltac:(lia)) as Hdm.
  destruct (q <? 0) eqn:Hneg; rewrite string_app_cons, string_app_nil_l; unfold getzone;
    rewrite bool_decide_false by done; rewrite getnum_d2 by lia; cbn [mbind option_bind];
    rewrite skip_literal; cbn [mbind option_bind]; rewrite Hmm; cbn [mbind option_bind];
    rewrite (proj2 (Z.ltb_ge 24 _)), (proj2 (Z.ltb_ge 60 _)) by lia; cbn [orb].
  - rewrite (bool_decide_false ("-"%char = "+"%char)), (bool_decide_true ("-"%char = "-"%char)) by done.
    apply Z.ltb_lt in Hneg. do 2 f_equal. lia.
  - rewrite (bool_decide_true ("+"%char = "+"%char)) by done. apply Z.ltb_ge in Hneg. do 2 f_equal. lia.
Qed.

Lemma getfraction_zone offset : getfraction (format_zone offset) = (0, format_zone offset).
Proof.
  unfold format_zone. destruct (offset =? 0); [done|]. cbv zeta.
  destruct (Z.quot offset 60 <? 0); reflexivity.
Qed.

(** Parsing a formatted instant gives it back, cut to the second. *)
Lemma parse_format t offset :
  (0 <= (local_date t offset).1.1 < 10000) → zone_ok offset →
  parse_rfc3339 (format_rfc3339 t offset) = Some (t / ns_per_s * ns_per_s).
Proof.
  intros Hy Hz. unfold format_rfc3339.
  destruct (local_date t offset) as [[y mo] d] eqn:Hd. simpl in Hy.
  apply date_of_days_spec in Hd as (Hdays & Hmo & Hday).
  set (ls := local_seconds t offset) in *.
  pose proof (Z.mod_pos_bound ls 86400 ltac:(lia)) as Hs.
  assert (days_in mo y <= 31) as Hdi. by (by apply days_in_le).
  set (s := ls mod 86400) in *.
  assert (0 <= s / 3600 < 24 ∧ 0 <= s / 60 mod 60 < 60 ∧ 0 <= s mod 60 < 60) as (Hh & Hmi & Hse)
    by (Z.to_euclidean_division_equations; lia).
  unfold parse_rfc3339.
  rewrite getyear_d4 by done. cbn [mbind option_bind]. rewrite skip_literal. cbn [mbind option_bind].
  rewrite getnum_d2 by lia. cbn [mbind option_bind]. rewrite skip_literal. cbn [mbind option_bind].
  rewrite getnum_d2 by lia. cbn [mbind option_bind]. rewrite skip_literal. cbn [mbind option_bind].
  rewrite getnum_d2 by lia. cbn [mbind option_bind]. rewrite skip_literal. cbn [mbind option_bind].
  rewrite getnum_d2 by lia. cbn [mbind option_bind]. rewrite skip_literal. cbn [mbind option_bind].
  rewrite getnum_d2 by lia. cbn [mbind option_bind].
  rewrite getfraction_zone, getzone_format by done. cbn [mbind option_bind].
  rewrite !(proj2 (Z.ltb_ge _ _)) by lia. cbn [orb]. rewrite bool_decide_true by done. cbn [negb].
  f_equal. rewrite Hdays, Z.add_0_r. f_equal.
  assert (s / 3600 * 3600 + s / 60 mod 60 * 60 + s mod 60 = s) as Hsum
    by (Z.to_euclidean_division_equations; lia).
  pose proof (Z.div_mod ls 86400 ltac:(lia)) as Hls. fold s in Hls.
  assert (ls = t / ns_per_s + offset) by reflexivity. lia.
Qed.

(** ** Properties *)

(** Time stamps survive the round trip: [time.Parse(time.RFC3339, ...)] gives
    back the instant that [Format] wrote in any zone, cut to the second, for
    years of four digits and offsets of whole minutes. *)
Theorem rfc3339_roundtrip (t offset : Z) :
  0 <= (local_date t offset).1.1 < 10000 → zone_ok offset →
  parse_rfc3339 (format_rfc3339 t offset) = Some (t / ns_per_s * ns_per_s).
Proof. apply parse_format. Qed.

Lemma rfc3339_roundtrip_witness :
  parse_rfc3339 (format_rfc3339 1709210096123456789 (-12600)) = Some 1709210096000000000 ∧
  format_rfc3339 1709210096123456789 (-12600) = "2024-02-29T09:04:56-03:30".
Proof.
  split; [|by vm_compute].
  apply (rfc3339_roundtrip 1709210096123456789 (-12600)).
  - vm_compute. split; [discriminate|done].
  - split; [by vm_compute|split; by vm_compute].
Defined.
