(* ===== verification/RedisBase.v ===== *)
(** * The Redis provider: names, tags, secrets and describe calls

    The parts of providers/redis/redis.go that the operations share. *)
From S2P Require Import Prelude GoBase Sdk Providers Go Interfaces Naming.
Local Open Scope Z_scope.
Local Open Scope go_scope.

(** The AWS clients and the logger are the classes of the runtime model. *)
(* map: providers/redis/redis.go 24-34 RedisProvider *)
Record RedisProvider := mkRedisProvider {
  p_awsAccountID : string;
  p_awsPartition : string;
  p_awsRegion : string;
  p_kmsKeyID : string;
  p_secretsManagerPath : string;
}.

(* map: providers/redis/redis.go 36-56 NewProvider *)
Definition NewProvider (awsAccountID awsPartition awsRegion kmsKeyID secretsManagerPath : string)
    : RedisProvider :=
  mkRedisProvider awsAccountID awsPartition awsRegion kmsKeyID
    (trim_right_byte "/" secretsManagerPath).

(* map: providers/redis/redis.go 559-561 getAuthTokenPath *)
Definition getAuthTokenPath (p : RedisProvider) (instanceID : string) : string :=
  p_secretsManagerPath p +:+ "/" +:+ instanceID +:+ "/auth-token".

Definition elasticache_arn (p : RedisProvider) (kind id : string) : string :=
  "arn:" +:+ p_awsPartition p +:+ ":elasticache:" +:+ p_awsRegion p +:+ ":" +:+
  p_awsAccountID p +:+ ":" +:+ kind +:+ ":" +:+ id.

(* map: providers/redis/redis.go 530-532 snapshotARN *)
Definition snapshotARN (p : RedisProvider) (snapshotID : string) : string :=
  elasticache_arn p "snapshot" snapshotID.

(* map: providers/redis/redis.go 589-591 replicationGroupARN *)
Definition replicationGroupARN (p : RedisProvider) (replicationGroupID : string) : string :=
  elasticache_arn p "replicationgroup" replicationGroupID.

(** [aws.StringValue] *)
Definition StringValue (s : option string) : string := default "" s.

Section base.
Context {X : Type}.

(* map: providers/redis/redis.go 563-572 tagsValues *)
Definition tagsValues (elasticacheTags : list (option Tag)) : M X (gmap string string) :=
  for_each elasticacheTags ∅ (λ tags t,
    let! t := deref t in
    ret (<[StringValue (tag_Key t) := StringValue (tag_Value t)]> tags)).

Context `{ElastiCache X} `{SecretsManager X}.

(* map: providers/redis/redis.go 534-548 CreateAuthTokenSecret *)
Definition CreateAuthTokenSecret (p : RedisProvider) (ctx : context)
    (instanceID authToken : string) : M X (option error) :=
  let name := getAuthTokenPath p instanceID in
  let! (_, err) := sm_do (CreateSecretWithContext ctx (mkCreateSecretInput
    (Some name) (Some authToken) (Some (p_kmsKeyID p))
    [mkSmTag (Some "chargeable_entity") (Some instanceID)])) in
  ret err.

(* map: providers/redis/redis.go 550-557 DeleteAuthTokenSecret *)
Definition DeleteAuthTokenSecret (p : RedisProvider) (ctx : context) (instanceID : string)
    (recoveryWindowInDays : Z) : M X (option error) :=
  let name := getAuthTokenPath p instanceID in
  let! (_, err) := sm_do (DeleteSecretWithContext ctx (mkDeleteSecretInput
    (Some name) (Some recoveryWindowInDays))) in
  ret err.

(** The pointer returned without an error is an element of the response, and
    can be nil itself. *)
(* map: providers/redis/redis.go 385-399 describeReplicationGroup *)
Definition describeReplicationGroup (ctx : context) (replicationGroupID : string)
    : M X (option ReplicationGroup * option error) :=
  try! output := ec_do (DescribeReplicationGroupsWithContext ctx (Some replicationGroupID))
    catch err => ret (None, Some err) in
  let! groups := deref output in
  match groups with
  | [] => ret (None, Some (ErrorString
      ("Invalid response from AWS: no replication groups returned for " +:+ replicationGroupID)))
  | group :: _ => ret (group, None)
  end.

(* map: providers/redis/redis.go 401-415 describeCacheCluster *)
Definition describeCacheCluster (ctx : context) (cacheClusterID : string)
    : M X (option CacheCluster * option error) :=
  try! output := ec_do (DescribeCacheClustersWithContext ctx (Some cacheClusterID))
    catch err => ret (None, Some err) in
  let! clusters := deref output in
  match clusters with
  | [] => ret (None, Some (ErrorString
      ("Invalid response from AWS: no CacheClusters found for " +:+ cacheClusterID)))
  | cluster :: _ => ret (cluster, None)
  end.

(* map: providers/redis/redis.go 417-427 describeCacheParameters *)
Definition describeCacheParameters (ctx : context) (cacheParameterGroupName : string)
    : M X (list (option SdkParameter) * option error) :=
  try! output := ec_do (DescribeCacheParametersWithContext ctx (Some cacheParameterGroupName))
    catch err => ret ([], Some err) in
  let! params := deref output in
  ret (params, None).
End base.

(** ** Tags *)

(** The tags of a list as a map: the last tag of a key counts. *)
Definition tags_spec (l : list Tag) : gmap string string :=
  foldl (λ tags t, <[StringValue (tag_Key t) := StringValue (tag_Value t)]> tags) ∅ l.

Section base_lemmas.
Context {X : Type}.

Lemma for_each_ret {A B} (l : list A) (acc : B) (f : B → A → B) (s : state X) :
  for_each l acc (λ b a, ret (f b a)) s = (Ret (foldl f acc l), s).
Proof. revert acc. induction l as [|x l IH]; intros acc; [done|]. apply IH. Qed.

Lemma runs_tagsValues h (l : list (option Tag)) :
  runs h (tagsValues l : M X _) (λ o es h',
    es = [] ∧ h' = h ∧
    match o with
    | Ret tags => ∃ ts, l = Some <$> ts ∧ tags = tags_spec ts
    | Panic p => p = NilDereference ∧ None ∈ l
    end).
Proof.
  apply runs_for_each with
    (I := λ dn tags es, es = [] ∧ ∃ ts, dn = Some <$> ts ∧ tags = tags_spec ts).
  - split; [done|]. by exists [].
  - intros dn [t|] rest tags es Hl (-> & ts & -> & ->).
    + go_step. go_step. go_step. split; [done|]. split; [done|].
      exists (ts ++ [t]). rewrite fmap_app. split; [done|]. unfold tags_spec. by rewrite foldl_app.
    + apply runs_bind, runs_deref. repeat split. rewrite Hl. set_solver.
  - intros tags es (-> & ts & -> & ->). eauto.
Qed.
End base_lemmas.

Lemma snapshot_arn_example :
  replicationGroupARN (NewProvider "123456789012" "aws" "eu-west-1" "kms" "secrets/")
    (GenerateReplicationGroupName "foobar") =
  "arn:aws:elasticache:eu-west-1:123456789012:replicationgroup:cf-qwkec4pxhft6q".
Proof. vm_compute. reflexivity. Qed.
