(* ===== verification/RedisProvision.v ===== *)
(** * The Redis provider: creating, changing and deleting instances

    The operations of providers/redis/redis.go that write to AWS, the failover
    apart. *)
From S2P Require Import Prelude GoBase Sdk Providers Go Interfaces Bench Naming Random RedisBase.
Local Open Scope Z_scope.
Local Open Scope go_scope.

Section provision.
Context {X : Type} `{Runtime X} `{ElastiCache X} `{SecretsManager X}.

(* map: providers/redis/redis.go 111-129 modifyCacheParameterGroup *)
Definition modifyCacheParameterGroup (ctx : context) (replicationGroupID : string)
    (params : map_ref) : M X (option error) :=
  let! m := read_map params in
  if bool_decide (size m = 0%nat) then ret None else
  let! entries := range_map m in
  let! pgParams := for_each entries [] (λ pgParams '(paramName, paramValue),
    ret (pgParams ++ [mkParameterNameValue (Some paramName) (Some paramValue)])) in
  let! (_, err) := ec_do (ModifyCacheParameterGroupWithContext ctx
    (mkModifyCacheParameterGroupInput pgParams (Some replicationGroupID))) in
  ret err.

(** [params] is passed by value, but its map is shared with the caller. *)
(* map: providers/redis/redis.go 79-97 createCacheParameterGroup *)
Definition createCacheParameterGroup (ctx : context) (replicationGroupID : string)
    (params : ProvisionParameters) : M X (option error) :=
  try! _out := ec_do (CreateCacheParameterGroupWithContext ctx
      (mkCreateCacheParameterGroupInput (Some (pp_CacheParameterGroupFamily params))
         (Some replicationGroupID) (Some "Created by Cloud Foundry")))
    catch err => ret (Some err) in
  let! parameters :=
    match pp_Parameters params with
    | None => alloc_map ∅
    | Some _ => ret (pp_Parameters params)
    end in
  let! m := read_map parameters in
  do! match m !! "cluster-enabled" with
      | None => write_map parameters "cluster-enabled" "no"
      | Some _ => ret tt
      end in
  modifyCacheParameterGroup ctx replicationGroupID parameters.

(* map: providers/redis/redis.go 99-109 modifyReplicationGroup *)
Definition modifyReplicationGroup (ctx : context)
    (replicationGroupID preferredMaintenanceWindow : string) : M X (option error) :=
  if bool_decide (String.length preferredMaintenanceWindow = 0%nat) then ret None else
  let! (_, err) := ec_do (ModifyReplicationGroupWithContext ctx
    (mkModifyReplicationGroupInput (Some replicationGroupID) (Some preferredMaintenanceWindow)
       None None None None)) in
  ret err.

(* map: providers/redis/redis.go 131-144 DeleteCacheParameterGroup *)
Definition DeleteCacheParameterGroup (ctx : context) (instanceID : string)
    : M X (option error) :=
  let replicationGroupID := GenerateReplicationGroupName instanceID in
  let! (_, err) := ec_do (DeleteCacheParameterGroupWithContext ctx (Some replicationGroupID)) in
  match err with
  | Some e =>
      if has_aws_code ErrCodeCacheParameterGroupNotFoundFault e then ret None else ret err
  | None => ret err
  end.

(* map: providers/redis/redis.go 146-149 UpdateReplicationGroup *)
Definition UpdateReplicationGroup (ctx : context) (instanceID : string)
    (params : UpdateReplicationGroupParameters) : M X (option error) :=
  let replicationGroupID := GenerateReplicationGroupName instanceID in
  modifyReplicationGroup ctx replicationGroupID (urg_PreferredMaintenanceWindow params).

(* map: providers/redis/redis.go 151-154 UpdateParamGroupParameters *)
Definition UpdateParamGroupParameters (ctx : context) (instanceID : string)
    (params : Providers.UpdateParamGroupParameters) : M X (option error) :=
  let replicationGroupID := GenerateReplicationGroupName instanceID in
  modifyCacheParameterGroup ctx replicationGroupID (upg_Parameters params).

(** The request of [Provision], with the tags in the order given. *)
(* map: providers/redis/redis.go 173-204 Provision *)
Definition replication_group_input (replicationGroupID authToken : string)
    (params : ProvisionParameters) (tags : list Tag) : CreateReplicationGroupInput :=
  let retention := 0 <? pp_SnapshotRetentionLimit params in
  mkCreateReplicationGroupInput
    tags
    (Some true)
    (Some true)
    (Some authToken)
    (Some (pp_AutomaticFailoverEnabled params))
    (Some (pp_MultiAZEnabled params))
    (Some (pp_InstanceType params))
    (Some replicationGroupID)
    (Some <$> pp_SecurityGroupIds params)
    (Some (pp_CacheSubnetGroupName params))
    (Some (pp_Engine params))
    (Some (pp_EngineVersion params))
    (Some (pp_PreferredMaintenanceWindow params))
    (Some (pp_Description params))
    (Some replicationGroupID)
    (Some (pp_ShardCount params))
    (Some (pp_ReplicasPerNodeGroup params))
    (pp_RestoreFromSnapshot params)
    (if retention then Some (pp_SnapshotRetentionLimit params) else None)
    (if retention then Some "02:00-05:00" else None).

(* map: providers/redis/redis.go 156-218 Provision *)
Definition Provision (p : RedisProvider) (ctx : context) (instanceID : string)
    (params : ProvisionParameters) : M X (option error) :=
  let replicationGroupID := GenerateReplicationGroupName instanceID in
  check! createCacheParameterGroup ctx replicationGroupID params
    catch err => ret (Some err) in
  let! authToken := GenerateAuthToken in
  check! CreateAuthTokenSecret p ctx instanceID authToken
    catch err => ret (Some (ErrorString ("failed to create auth token: " +:+ error_text err))) in
  let! entries := range_map (pp_Tags params) in
  let! tags := for_each entries [] (λ tags '(tagName, tagValue),
    ret (tags ++ [mkTag (Some tagName) (Some tagValue)])) in
  let! (_, createErr) := ec_do (CreateReplicationGroupWithContext ctx
    (replication_group_input replicationGroupID authToken params tags)) in
  do! match createErr with
      | None => ret tt
      | Some _ =>
          let! err := DeleteCacheParameterGroup ctx instanceID in
          do! match err with
              | Some _ => log LError "delete-cache-parameter-group" err []
              | None => ret tt
              end in
          let! err := DeleteAuthTokenSecret p ctx instanceID 7 in
          match err with
          | Some _ => log LError "delete-auth-token-secret" err []
          | None => ret tt
          end
      end in
  ret createErr.

(* map: providers/redis/redis.go 220-242 Deprovision *)
Definition Deprovision (p : RedisProvider) (ctx : context) (instanceID : string)
    (params : DeprovisionParameters) : M X (option error) :=
  let replicationGroupID := GenerateReplicationGroupName instanceID in
  let input := mkDeleteReplicationGroupInput (Some replicationGroupID)
    (if bool_decide (dp_FinalSnapshotIdentifier params = "") then None
     else Some (dp_FinalSnapshotIdentifier params)) in
  try! _out := ec_do (DeleteReplicationGroupWithContext ctx input)
    catch err => ret (Some err) in
  check! DeleteAuthTokenSecret p ctx instanceID 30
    catch err => ret (Some err) in
  ret None.

(* map: providers/redis/redis.go 482-488 RevokeCredentials *)
Definition RevokeCredentials (ctx : context) (instanceID bindingID : string) : M X (option error) :=
  ret None.
End provision.

(** ** What the calls are *)

(** The parameters sent for a new group: [cluster-enabled] is always set. *)
Definition with_cluster_enabled (m : gmap string string) : gmap string string :=
  match m !! "cluster-enabled" with
  | None => <["cluster-enabled" := "no"]> m
  | Some _ => m
  end.

Definition to_pnv (e : string * string) : ParameterNameValue :=
  mkParameterNameValue (Some e.1) (Some e.2).
Definition to_tag (e : string * string) : Tag := mkTag (Some e.1) (Some e.2).

Definition create_group_event ctx id family (err : option error) : event :=
  EvElastiCache (CreateCacheParameterGroupWithContext ctx
    (mkCreateCacheParameterGroupInput (Some family) (Some id) (Some "Created by Cloud Foundry")))
    (tt, err).

Definition modify_group_event ctx id (entries : list (string * string)) (err : option error) : event :=
  EvElastiCache (ModifyCacheParameterGroupWithContext ctx
    (mkModifyCacheParameterGroupInput (to_pnv <$> entries) (Some id))) (tt, err).

Definition delete_group_event ctx id (err : option error) : event :=
  EvElastiCache (DeleteCacheParameterGroupWithContext ctx (Some id)) (tt, err).

Definition create_secret_event p ctx instanceID token (err : option error) : event :=
  EvSecretsManager (CreateSecretWithContext ctx (mkCreateSecretInput
    (Some (getAuthTokenPath p instanceID)) (Some token) (Some (p_kmsKeyID p))
    [mkSmTag (Some "chargeable_entity") (Some instanceID)])) (tt, err).

Definition delete_secret_event p ctx instanceID days (err : option error) : event :=
  EvSecretsManager (DeleteSecretWithContext ctx (mkDeleteSecretInput
    (Some (getAuthTokenPath p instanceID)) (Some days))) (tt, err).

Definition create_cluster_event ctx id token params (tags : list (string * string))
    (err : option error) : event :=
  EvElastiCache (CreateReplicationGroupWithContext ctx
    (replication_group_input id token params (to_tag <$> tags))) (tt, err).

Definition delete_cluster_event ctx id snapshot (err : option error) : event :=
  EvElastiCache (DeleteReplicationGroupWithContext ctx
    (mkDeleteReplicationGroupInput (Some id) snapshot)) (tt, err).

Definition modify_window_event ctx id window (err : option error) : event :=
  EvElastiCache (ModifyReplicationGroupWithContext ctx
    (mkModifyReplicationGroupInput (Some id) (Some window) None None None None)) (tt, err).

(** A parameter group that is already gone counts as deleted. *)
Definition ignore_not_found (err : option error) : option error :=
  match err with
  | Some e => if has_aws_code ErrCodeCacheParameterGroupNotFoundFault e then None else Some e
  | None => None
  end.

Definition final_snapshot (params : DeprovisionParameters) : option string :=
  if bool_decide (dp_FinalSnapshotIdentifier params = "") then None
  else Some (dp_FinalSnapshotIdentifier params).

(** ** What [Provision] promises

    The calls to AWS, in order, and the error returned, for a map [m] of
    parameters.  Nothing else is ever called, whatever AWS answers. *)
Section provision_run.
Variables (p : RedisProvider) (ctx : context) (instanceID : string).
Variables (params : ProvisionParameters) (m : gmap string string).
Abbreviation id := (GenerateReplicationGroupName instanceID).
Abbreviation family := (pp_CacheParameterGroupFamily params).

Inductive provision_run : list event → option error → Prop :=
  | provision_no_group e :
      provision_run [create_group_event ctx id family (Some e)] (Some e)
  | provision_no_parameters entries e :
      entries ≡ₚ map_to_list (with_cluster_enabled m) →
      provision_run [create_group_event ctx id family None;
                     modify_group_event ctx id entries (Some e)] (Some e)
  | provision_no_secret entries token e :
      entries ≡ₚ map_to_list (with_cluster_enabled m) → valid_token token = true →
      provision_run [create_group_event ctx id family None;
                     modify_group_event ctx id entries None;
                     create_secret_event p ctx instanceID token (Some e)]
        (Some (ErrorString ("failed to create auth token: " +:+ error_text e)))
  | provision_created entries token tags :
      entries ≡ₚ map_to_list (with_cluster_enabled m) → valid_token token = true →
      tags ≡ₚ map_to_list (pp_Tags params) →
      provision_run [create_group_event ctx id family None;
                     modify_group_event ctx id entries None;
                     create_secret_event p ctx instanceID token None;
                     create_cluster_event ctx id token params tags None] None
  | provision_rolled_back entries token tags e e1 e2 :
      entries ≡ₚ map_to_list (with_cluster_enabled m) → valid_token token = true →
      tags ≡ₚ map_to_list (pp_Tags params) →
      provision_run [create_group_event ctx id family None;
                     modify_group_event ctx id entries None;
                     create_secret_event p ctx instanceID token None;
                     create_cluster_event ctx id token params tags (Some e);
                     delete_group_event ctx id e1;
                     delete_secret_event p ctx instanceID 7 e2] (Some e).
End provision_run.

(** [Deprovision]: the secret is only given up once AWS has accepted to delete
    the cluster, and can be recovered for 30 days. *)
Inductive deprovision_run (p : RedisProvider) ctx instanceID params : list event → option error → Prop :=
  | deprovision_no_cluster e :
      deprovision_run p ctx instanceID params
        [delete_cluster_event ctx (GenerateReplicationGroupName instanceID)
           (final_snapshot params) (Some e)] (Some e)
  | deprovision_done err :
      deprovision_run p ctx instanceID params
        [delete_cluster_event ctx (GenerateReplicationGroupName instanceID)
           (final_snapshot params) None;
         delete_secret_event p ctx instanceID 30 err] err.

(** ** Lemmas *)

Lemma with_cluster_enabled_nonempty m : size (with_cluster_enabled m) ≠ 0%nat.
Proof.
  unfold with_cluster_enabled. intros Hs%map_size_empty_iff.
  destruct (m !! "cluster-enabled") eqn:Hm.
  - by rewrite Hs, lookup_empty in Hm.
  - by apply insert_non_empty in Hs.
Qed.

Section provision_lemmas.
Context {X : Type} `{RuntimeLaws X} `{ElastiCache X} `{SecretsManager X}.
Implicit Types h : list (gmap string string).

(** Appending one by one what the entries become. *)
Lemma runs_collect {A B} h (f : A → B) (l : list A) (body : list B → A → M X (list B))
    (Q : outcome (list B) → list event → _ → Prop) :
  (∀ acc x, body acc x = ret (acc ++ [f x])) → Q (Ret (f <$> l)) [] h →
  runs h (for_each l [] body) Q.
Proof.
  intros Hbody HQ. apply runs_for_each with
    (I := λ dn acc es, es = [] ∧ acc = f <$> dn); [done| |by intros ?? [-> ->]].
  intros dn x rest acc es _ [-> ->]. rewrite Hbody. apply runs_ret. by rewrite fmap_app.
Qed.

Lemma runs_modifyCacheParameterGroup h ctx id r m :
  deref_map h r = Some m →
  runs h (modifyCacheParameterGroup ctx id r : M X _) (λ o es h',
    h' = h ∧ ((size m = 0%nat ∧ es = [] ∧ o = Ret None) ∨
      (size m ≠ 0%nat ∧ ∃ entries err, entries ≡ₚ map_to_list m ∧
        es = [modify_group_event ctx id entries err] ∧ o = Ret err))).
Proof.
  intros Hr. unfold modifyCacheParameterGroup. go_step.
  apply runs_read_deref with m; [done|]. case_bool_decide.
  { go_step. auto. }
  do 2 go_step. apply runs_bind, (runs_collect h to_pnv l); [by intros ? []|]. cbn beta iota.
  apply runs_bind, runs_ec_do. intros [[] err]. go_step. split; [done|]. right. eauto 10.
Qed.

(** The map the parameters are read from, new or not, and the heap once it has
    the key [cluster-enabled]. *)
Lemma prepared_map h (pp : map_ref) m :
  deref_map h pp = Some m →
  ∃ r h1 h2,
    runs h (match pp with None => alloc_map ∅ | Some _ => ret pp end : M X _)
      (λ o es h', o = Ret r ∧ es = [] ∧ h' = h1) ∧ deref_map h1 r = Some m ∧
    runs h1 (match m !! "cluster-enabled" with
             | None => write_map r "cluster-enabled" "no" | Some _ => ret tt end : M X _)
      (λ o es h', o = Ret tt ∧ es = [] ∧ h' = h2) ∧
    deref_map h2 r = Some (with_cluster_enabled m) ∧ frame (option_list pp) h h2 ∧
    (∀ l, pp = Some l → h2 !! l = Some (with_cluster_enabled m)).
Proof.
  unfold with_cluster_enabled. intros Hm. destruct pp as [l|]; simpl in Hm.
  - exists (Some l), h. assert (l < length h)%nat by (by eapply lookup_lt_Some).
    destruct (m !! "cluster-enabled") eqn:Hc.
    + exists h. repeat split; try (by apply runs_ret); try done. by intros ? [= ->].
    + exists (<[l := <["cluster-enabled" := "no"]> m]> h). repeat split.
      * by apply runs_ret.
      * done.
      * by eapply runs_write_map.
      * simpl. by apply list_lookup_insert_eq.
      * by rewrite length_insert.
      * apply frame_write.
      * intros ? [= <-]. by apply list_lookup_insert_eq.
  - injection Hm as <-. rewrite lookup_empty.
    assert ((h ++ [∅]) !! length h = Some (∅ : gmap string string)) as Hl
      by (by rewrite lookup_app_r, Nat.sub_diag).
    exists (Some (length h)), (h ++ [∅]), (<[length h := <["cluster-enabled" := "no"]> ∅]> (h ++ [∅])).
    assert (length h < length (h ++ [∅ : gmap string string]))%nat by (rewrite length_app; simpl; lia).
    split; [by apply runs_alloc_map|]. split; [done|]. split; [by eapply runs_write_map|].
    split; [by apply list_lookup_insert_eq|]. split; [|done].
    eapply frame_fresh, frame_write.
Qed.

(** The map of the caller gets the key [cluster-enabled] when it lacks it. *)
Lemma runs_createCacheParameterGroup h ctx id params m :
  deref_map h (pp_Parameters params) = Some m →
  runs h (createCacheParameterGroup ctx id params : M X _) (λ o es h',
    frame (option_list (pp_Parameters params)) h h' ∧
    ((∃ e, es = [create_group_event ctx id (pp_CacheParameterGroupFamily params) (Some e)] ∧
           o = Ret (Some e) ∧ h' = h) ∨
     (∃ entries err, entries ≡ₚ map_to_list (with_cluster_enabled m) ∧
           es = [create_group_event ctx id (pp_CacheParameterGroupFamily params) None;
                 modify_group_event ctx id entries err] ∧ o = Ret err ∧
           (∀ l, pp_Parameters params = Some l → h' !! l = Some (with_cluster_enabled m))))).
Proof.
  intros Hm. unfold createCacheParameterGroup. apply runs_bind, runs_ec_do. intros [[] [e|]].
  { go_step. split; [apply frame_refl|]. left. eauto. }
  cbn beta iota.
  destruct (prepared_map h (pp_Parameters params) m Hm)
    as (r & h1 & h2 & Hr1 & Hd1 & Hr2 & Hd2 & Hfr & Hl).
  apply runs_bind. eapply runs_conseq; [exact Hr1|]. intros ??? (-> & -> & ->). cbn beta iota.
  apply runs_bind, (runs_read_deref _ _ m); [done|].
  apply runs_bind. eapply runs_conseq; [exact Hr2|]. intros ??? (-> & -> & ->). cbn beta iota.
  eapply runs_conseq; [by apply runs_modifyCacheParameterGroup|].
  intros o es h' [-> [[Hs _]|(_ & entries & err & Hent & -> & ->)]];
    [by apply with_cluster_enabled_nonempty in Hs|].
  split; [done|]. right. exists entries, err. eauto.
Qed.

Lemma runs_DeleteCacheParameterGroup h ctx instanceID :
  runs h (DeleteCacheParameterGroup ctx instanceID : M X _) (λ o es h',
    h' = h ∧ ∃ err, es = [delete_group_event ctx (GenerateReplicationGroupName instanceID) err] ∧
    o = Ret (ignore_not_found err)).
Proof.
  unfold DeleteCacheParameterGroup. apply runs_bind, runs_ec_do. intros [[] [e|]]; cbn beta iota.
  - destruct (has_aws_code _ e) eqn:He; go_step; (split; [done|]); exists (Some e);
      unfold ignore_not_found; by rewrite He.
  - go_step. split; [done|]. by exists None.
Qed.

Lemma runs_CreateAuthTokenSecret h p ctx instanceID token :
  runs h (CreateAuthTokenSecret p ctx instanceID token : M X _) (λ o es h',
    h' = h ∧ ∃ err, es = [create_secret_event p ctx instanceID token err] ∧ o = Ret err).
Proof. apply runs_bind, runs_sm_do. intros [[] err]. go_step. eauto. Qed.

Lemma runs_DeleteAuthTokenSecret h p ctx instanceID days :
  runs h (DeleteAuthTokenSecret p ctx instanceID days : M X _) (λ o es h',
    h' = h ∧ ∃ err, es = [delete_secret_event p ctx instanceID days err] ∧ o = Ret err).
Proof. apply runs_bind, runs_sm_do. intros [[] err]. go_step. eauto. Qed.

(** Logging an error does not show in the calls to AWS. *)
Lemma runs_log_error h action (err : option error) (Q : outcome () → list event → _ → Prop) :
  (∀ es, aws_events es = [] → broker_events es = [] → Q (Ret tt) es h) →
  runs h (match err with Some _ => log LError action err [] | None => ret tt end : M X _) Q.
Proof. intros HQ. destruct err; go_step; by apply HQ. Qed.

(** The last part of [Provision]: the cluster, and the clean-up when it
    cannot be created. *)
Lemma runs_provision_cluster h p ctx instanceID params token tags :
  let id := GenerateReplicationGroupName instanceID in
  runs h (
    let! (_, createErr) := ec_do (CreateReplicationGroupWithContext ctx
      (replication_group_input id token params (to_tag <$> tags))) in
    do! match createErr with
        | None => ret tt
        | Some _ =>
            let! err := DeleteCacheParameterGroup ctx instanceID in
            do! match err with
                | Some _ => log LError "delete-cache-parameter-group" err []
                | None => ret tt
                end in
            let! err := DeleteAuthTokenSecret p ctx instanceID 7 in
            match err with
            | Some _ => log LError "delete-auth-token-secret" err []
            | None => ret tt
            end
        end in
    ret createErr : M X _) (λ o es h',
    h' = h ∧ broker_events es = [] ∧
    ((aws_events es = [create_cluster_event ctx id token params tags None] ∧ o = Ret None) ∨
     ∃ e e1 e2, aws_events es = [create_cluster_event ctx id token params tags (Some e);
                   delete_group_event ctx id e1; delete_secret_event p ctx instanceID 7 e2] ∧
       o = Ret (Some e))).
Proof.
  intros id. apply runs_bind, runs_ec_do. intros [[] [e|]]; cbn beta iota.
  2: { do 3 go_step. split; [done|]. split; [done|]. by left. }
  apply runs_bind, runs_bind. eapply runs_conseq; [apply runs_DeleteCacheParameterGroup|].
  intros o es h' (-> & e1 & -> & ->). cbn beta iota.
  apply runs_bind, runs_log_error. intros es1 Ha1 Hp1. cbn beta iota.
  apply runs_bind. eapply runs_conseq; [apply runs_DeleteAuthTokenSecret|].
  intros o es h' (-> & e2 & -> & ->). cbn beta iota.
  apply runs_log_error. intros es2 Ha2 Hp2. cbn beta iota. go_step.
  split; [done|]. rewrite app_nil_r, !broker_events_app, !aws_events_app, Ha1, Hp1, Ha2, Hp2.
  split; [done|]. right. by exists e, e1, e2.
Qed.

(** The whole of [Provision], with what it does to the map objects. *)
Lemma runs_Provision h p ctx instanceID params m :
  deref_map h (pp_Parameters params) = Some m →
  runs h (Provision p ctx instanceID params : M X _) (λ o es h',
    broker_events es = [] ∧ frame (option_list (pp_Parameters params)) h h' ∧
    match o with
    | Ret err => provision_run p ctx instanceID params m (aws_events es) err
    | Panic r => ∃ e entries, r = PanicError e ∧
        entries ≡ₚ map_to_list (with_cluster_enabled m) ∧
        aws_events es =
          [create_group_event ctx (GenerateReplicationGroupName instanceID)
             (pp_CacheParameterGroupFamily params) None;
           modify_group_event ctx (GenerateReplicationGroupName instanceID) entries None]
    end).
Proof.
  intros Hm. unfold Provision. apply runs_bind.
  eapply runs_conseq; [by apply runs_createCacheParameterGroup|].
  intros o es h' [Hfr [(e & -> & -> & ->)|(entries & err & Hent & -> & -> & _)]]; cbn beta iota.
  { go_step. split; [done|]. split; [apply frame_refl|]. constructor. }
  destruct err as [e|]; [go_step; split; [done|]; split; [done|]; by constructor|].
  apply runs_bind. eapply runs_conseq; [apply runs_GenerateAuthToken|].
  intros [token|r] es h'' (-> & -> & Htok).
  2: { destruct Htok as [e ->]. split; [done|]. split; [done|]. by exists e, entries. }
  apply runs_bind. eapply runs_conseq; [apply runs_CreateAuthTokenSecret|].
  intros o es h'' (-> & [e|] & -> & ->); cbn beta iota.
  { go_step. split; [done|]. split; [done|]. by constructor. }
  apply runs_bind, runs_range_map. intros tags Htags. cbn beta iota.
  apply runs_bind, (runs_collect _ to_tag tags); [by intros ? []|]. cbn beta iota.
  eapply runs_conseq; [apply runs_provision_cluster|].
  intros o es h'' (-> & Hpe & [[Hae ->]|(e & e1 & e2 & Hae & ->)]);
    rewrite !broker_events_app, !aws_events_app, Hae, Hpe;
    (split; [done|]; split; [done|]); by constructor.
Qed.

Lemma runs_Deprovision h p ctx instanceID params :
  runs h (Deprovision p ctx instanceID params : M X _) (λ o es h',
    h' = h ∧ broker_events es = [] ∧
    ∃ err, o = Ret err ∧ deprovision_run p ctx instanceID params es err).
Proof.
  unfold Deprovision. apply runs_bind, runs_ec_do. intros [[] [e|]]; cbn beta iota.
  { go_step. split; [done|]. split; [done|]. eexists. split; [done|]. constructor. }
  apply runs_bind. eapply runs_conseq; [apply runs_DeleteAuthTokenSecret|].
  intros o es h' (-> & err & -> & ->). cbn beta iota.
  destruct err as [e|]; go_step; (split; [done|]; split; [done|]);
    eexists; (split; [done|]); constructor.
Qed.

Lemma runs_modifyReplicationGroup h ctx id w :
  runs h (modifyReplicationGroup ctx id w : M X _) (λ o es h',
    h' = h ∧ broker_events es = [] ∧ ∃ err, o = Ret err ∧
    ((w = "" ∧ es = [] ∧ err = None) ∨
     (w ≠ "" ∧ es = [modify_window_event ctx id w err]))).
Proof.
  unfold modifyReplicationGroup. case_bool_decide as Hw.
  - go_step. split; [done|]. split; [done|]. exists None. split; [done|]. left. by destruct w.
  - apply runs_bind, runs_ec_do. intros [[] err]. go_step. split; [done|]. split; [done|].
    exists err. split; [done|]. right. split; [|done]. by intros ->.
Qed.
End provision_lemmas.

(** ** Properties *)

(** C2: [RedisProvider.Provision] refines [provision_run], whatever AWS answers:
    a parameter group, its parameters with [cluster-enabled] always set, a
    secret with a fresh token, and the replication group with that token, each
    call only if the ones before it succeeded; if the replication group cannot
    be created, the parameter group and the secret (recoverable for 7 days) are
    deleted and the error of the creation is returned. The only map it writes to
    is the one it is given, and it panics only when the random source fails,
    after the parameter group. *)
Theorem redis_provision_correct {X : Type} `{RuntimeLaws X} `{ElastiCache X} `{SecretsManager X}
    (p : RedisProvider) (ctx : context) (instanceID : string) (params : ProvisionParameters)
    (m : gmap string string) (h : list (gmap string string)) :
  deref_map h (pp_Parameters params) = Some m →
  runs h (Provision p ctx instanceID params : M X _) (λ o es h',
    broker_events es = [] ∧ frame (option_list (pp_Parameters params)) h h' ∧
    match o with
    | Ret err => provision_run p ctx instanceID params m (aws_events es) err
    | Panic r => ∃ e entries, r = PanicError e ∧
        entries ≡ₚ map_to_list (with_cluster_enabled m) ∧
        aws_events es =
          [create_group_event ctx (GenerateReplicationGroupName instanceID)
             (pp_CacheParameterGroupFamily params) None;
           modify_group_event ctx (GenerateReplicationGroupName instanceID) entries None]
    end).
Proof. apply runs_Provision. Qed.

Definition bench_params : ProvisionParameters :=
  mkProvisionParameters "cache.t3.small" "redis6.x" ["sg-1"] "subnet" "sun:23:00-mon:01:30" 1 1 7
    None true true "Cloud Foundry service" (Some 0%nat) {[ "instance-id" := "instance" ]}
    "redis" "6.x".

Definition bench_provider : RedisProvider := NewProvider "123456789012" "aws" "eu-west-1" "kms" "secrets/".

(** AWS refuses to create the replication group. *)
Definition ec_no_cluster (c : ec_call) : ec_out c * option error :=
  match c return ec_out c * option error with
  | CreateReplicationGroupWithContext _ _ => (tt, Some (AwsError "QuotaExceeded" "no more"))
  | c => ec_empty c
  end.

Lemma redis_provision_correct_witness :
  runs [ {[ "maxmemory-policy" := "noeviction" ]} ]
    (Provision bench_provider RequestContext "instance" bench_params : M bench _)
    (λ o es h', broker_events es = [] ∧ frame [0%nat] [ {[ "maxmemory-policy" := "noeviction" ]} ] h' ∧
      match o with
      | Ret err => provision_run bench_provider RequestContext "instance" bench_params
          {[ "maxmemory-policy" := "noeviction" ]} (aws_events es) err
      | Panic r => ∃ e entries, r = PanicError e ∧
          entries ≡ₚ map_to_list (with_cluster_enabled {[ "maxmemory-policy" := "noeviction" ]}) ∧
          aws_events es =
            [create_group_event RequestContext (GenerateReplicationGroupName "instance") "redis6.x" None;
             modify_group_event RequestContext (GenerateReplicationGroupName "instance") entries None]
      end) ∧
  let run := Provision bench_provider RequestContext "instance" bench_params
    (bench_start [ {[ "maxmemory-policy" := "noeviction" ]} ]
       (mkBench 0 ec_no_cluster sm_empty pv_empty)) in
  run.1 = Ret (Some (AwsError "QuotaExceeded" "no more")) ∧ length (st_trace run.2) = 6%nat.
Proof.
  split; [|by vm_compute].
  by apply (redis_provision_correct bench_provider RequestContext "instance" bench_params
    {[ "maxmemory-policy" := "noeviction" ]}).
Defined.

(** C30: [RedisProvider.Deprovision] refines [deprovision_run]: the replication
    group is deleted first, with a final snapshot only if one is named, and the
    secret (recoverable for 30 days) only once AWS accepted that; the first
    error is returned, no map is touched, and it never panics. *)
Theorem redis_deprovision_correct {X : Type} `{RuntimeLaws X} `{ElastiCache X} `{SecretsManager X}
    (p : RedisProvider) (ctx : context) (instanceID : string) (params : DeprovisionParameters)
    (h : list (gmap string string)) :
  runs h (Deprovision p ctx instanceID params : M X _) (λ o es h',
    h' = h ∧ ∃ err, o = Ret err ∧ deprovision_run p ctx instanceID params es err).
Proof. eapply runs_conseq; [apply runs_Deprovision|]. intros o es h' (-> & _ & Hr). auto. Qed.

Lemma redis_deprovision_correct_witness :
  runs [] (Deprovision bench_provider RequestContext "instance" (mkDeprovisionParameters "") : M bench _)
    (λ o es h', h' = [] ∧ ∃ err, o = Ret err ∧
      deprovision_run bench_provider RequestContext "instance" (mkDeprovisionParameters "") es err).
Proof.
  apply (redis_deprovision_correct bench_provider RequestContext "instance" (mkDeprovisionParameters "")).
Defined.

(** Deleting a parameter group can be repeated:
    [RedisProvider.DeleteCacheParameterGroup] makes one call, and succeeds
    exactly when AWS deletes the group or does not know it. *)
Theorem delete_parameter_group_idempotent {X : Type} `{ElastiCache X}
    (ctx : context) (instanceID : string) (h : list (gmap string string)) :
  runs h (DeleteCacheParameterGroup ctx instanceID : M X _) (λ o es h',
    h' = h ∧ ∃ err err',
      es = [delete_group_event ctx (GenerateReplicationGroupName instanceID) err] ∧ o = Ret err' ∧
      (err' = None ↔ err = None ∨
        ∃ text, err = Some (AwsError ErrCodeCacheParameterGroupNotFoundFault text))).
Proof.
  eapply runs_conseq; [apply runs_DeleteCacheParameterGroup|].
  intros o es h' (-> & err & -> & ->). split; [done|]. exists err, (ignore_not_found err).
  split; [done|]. split; [done|]. destruct err as [[]|]; simpl; try naive_solver.
  case_bool_decide; naive_solver.
Qed.

(** [RedisProvider.UpdateParamGroupParameters] sends the entries of the map,
    each once, in one call; an empty map is not sent at all. The map is only
    read. *)
Theorem update_parameters_correct {X : Type} `{RuntimeLaws X} `{ElastiCache X}
    (ctx : context) (instanceID : string) (r : map_ref) (m : gmap string string)
    (h : list (gmap string string)) :
  deref_map h r = Some m →
  runs h (UpdateParamGroupParameters ctx instanceID (mkUpdateParamGroupParameters r) : M X _)
    (λ o es h', h' = h ∧
      ((m = ∅ ∧ es = [] ∧ o = Ret None) ∨
       (m ≠ ∅ ∧ ∃ entries err, entries ≡ₚ map_to_list m ∧
          es = [modify_group_event ctx (GenerateReplicationGroupName instanceID) entries err] ∧
          o = Ret err))).
Proof.
  intros Hr. eapply runs_conseq; [by apply runs_modifyCacheParameterGroup|].
  intros o es h' (-> & Hm). split; [done|]. by rewrite <-map_size_empty_iff.
Qed.

Lemma update_parameters_correct_witness :
  let m := {[ "maxmemory-policy" := "noeviction" ]} in
  runs [m] (UpdateParamGroupParameters RequestContext "instance"
      (mkUpdateParamGroupParameters (Some 0%nat)) : M bench _)
    (λ o es h', h' = [m] ∧
      ((m = ∅ ∧ es = [] ∧ o = Ret None) ∨
       (m ≠ ∅ ∧ ∃ entries err, entries ≡ₚ map_to_list m ∧
          es = [modify_group_event RequestContext (GenerateReplicationGroupName "instance") entries err] ∧
          o = Ret err))).
Proof. by apply (update_parameters_correct RequestContext "instance" (Some 0%nat)). Defined.
