(* ===== verification/RedisQuery.v ===== *)
(** * The Redis provider: reading the state of instances

    The operations of providers/redis/redis.go that only read from AWS: the
    status message, the credentials, the snapshots, the tags and the parameters
    of an instance. *)
From S2P Require Import Prelude GoBase Sdk Providers Go Interfaces Naming Url RedisBase.
Local Open Scope Z_scope.
Local Open Scope go_scope.

(** [fmt.Sprintf("%-20s : %s", label, value)] *)
Definition message_line (label value : string) : string :=
  pad_right 20 label +:+ " : " +:+ value.

Definition message_separator : string := chr 10 +:+ "           ".

(** A line when the pointer is not nil. *)
Definition opt_line (label : string) (value : option string) : list string :=
  match value with Some v => [message_line label v] | None => [] end.

Section query.
Context {X : Type} `{ElastiCache X} `{SecretsManager X}.

(** The lines for one parameter: a parameter without a name or a value has
    none. *)
(* map: providers/redis/redis.go 271-281 getMessage *)
Definition parameter_lines (msgs : list string) (param : option SdkParameter)
    : M X (list string) :=
  let! param := deref param in
  match par_ParameterName param with
  | None => ret msgs
  | Some name =>
      let msgs :=
        if bool_decide (name = "maxmemory-policy")
        then msgs ++ opt_line "maxmemory policy" (trim_space <$> par_ParameterValue param)
        else msgs in
      ret (if bool_decide (name = "cluster-enabled")
           then msgs ++ opt_line "cluster enabled" (trim_space <$> par_ParameterValue param)
           else msgs)
  end.

(** The lines about the first cluster and the parameters of the group. *)
(* map: providers/redis/redis.go 261-288 getMessage *)
Definition message_body (ctx : context) (replicationGroup : ReplicationGroup)
    (msgs : list string) : M X (list string) :=
  match rg_MemberClusters replicationGroup with
  | Some cacheClusterId :: _ =>
      let! (cacheCluster, err) := describeCacheCluster ctx cacheClusterId in
      match err with
      | Some _ => ret msgs
      | None =>
          let! cacheCluster := deref cacheCluster in
          let! msgs :=
            match cc_EngineVersion cacheCluster with
            | Some version => ret (msgs ++ [message_line "engine version" version])
            | None => ret msgs
            end in
          let! msgs :=
            match rg_ReplicationGroupId replicationGroup with
            | Some id =>
                let! (params, err) := describeCacheParameters ctx id in
                match err with
                | Some _ => ret msgs
                | None => for_each params msgs parameter_lines
                end
            | None => ret msgs
            end in
          ret (msgs ++ opt_line "maintenance window" (cc_PreferredMaintenanceWindow cacheCluster))
      end
  | _ => ret msgs
  end.

(* map: providers/redis/redis.go 244-300 getMessage *)
Definition getMessage (ctx : context) (replicationGroup : ReplicationGroup)
    (stateOverride : string) : M X string :=
  let msgs := ["---"] ++
    (if bool_decide (stateOverride = "") then
       match rg_Status replicationGroup with
       | Some status => [message_line "status" status]
       | None => [message_line "status" "unknown"]
       end
     else [message_line "status" stateOverride]) ++
    opt_line "cluster id" (rg_ReplicationGroupId replicationGroup) in
  let! msgs := message_body ctx replicationGroup msgs in
  ret (string_join message_separator
    (msgs ++ opt_line "daily backup window" (rg_SnapshotWindow replicationGroup) ++
     opt_line "automatic failover" (trim_space <$> rg_AutomaticFailover replicationGroup))).

(** The endpoint to connect to. *)
(* map: providers/redis/redis.go 446-455 GenerateCredentials *)
Definition choose_endpoint (replicationGroup : ReplicationGroup) : M X (option Endpoint) :=
  match rg_ConfigurationEndpoint replicationGroup with
  | Some ep => ret (Some ep)
  | None =>
      match rg_NodeGroups replicationGroup with
      | [] => ret None
      | group :: _ =>
          let! group := deref group in
          let! ep := deref (ng_PrimaryEndpoint group) in
          ret (Some ep)
      end
  end.

(* map: providers/redis/redis.go 429-480 GenerateCredentials *)
Definition GenerateCredentials (p : RedisProvider) (ctx : context)
    (instanceID bindingID : string) : M X (option Credentials * option error) :=
  let replicationGroupID := GenerateReplicationGroupName instanceID in
  try! replicationGroup := describeReplicationGroup ctx replicationGroupID
    catch err =>
      if has_aws_code ErrCodeReplicationGroupNotFoundFault err
      then ret (None, Some (ErrorString
             ("Replication group does not exist: " +:+ replicationGroupID)))
      else ret (None, Some err) in
  let! replicationGroup := deref replicationGroup in
  let! endpoint := choose_endpoint replicationGroup in
  match endpoint with
  | None => ret (None, Some (ErrorString
      ("Invalid response from AWS: no node groups returned for " +:+ replicationGroupID)))
  | Some ep =>
      let! host := deref (ep_Address ep) in
      let! port := deref (ep_Port ep) in
      try! authTokenSecret := sm_do (GetSecretValueWithContext ctx
          (Some (getAuthTokenPath p instanceID)))
        catch err => ret (None, Some err) in
      let! authTokenSecret := deref authTokenSecret in
      let authToken := StringValue authTokenSecret in
      ret (Some (mkCredentials host port replicationGroupID authToken
             (url_string "rediss" "" authToken (host +:+ ":" +:+ pretty port)) true), None)
  end.

(** The loop over the snapshots of all pages. *)
(* map: providers/redis/redis.go 502-527 FindSnapshots *)
Fixpoint collect_snapshots (p : RedisProvider) (ctx : context) (instanceID : string)
    (snapshots : list (option Snapshot)) (snapshotInfos : list SnapshotInfo)
    : M X (list SnapshotInfo * option error) :=
  match snapshots with
  | [] => ret (snapshotInfos, None)
  | snapshot :: snapshots' =>
      let! snapshot := deref snapshot in
      let invalid := ret ([], Some (ErrorString
        ("Invalid response from AWS: Missing values for snapshot for elasticache cluster "
         +:+ instanceID))) in
      match sn_SnapshotName snapshot, sn_NodeSnapshots snapshot with
      | Some name, nodeSnapshot :: _ =>
          let! nodeSnapshot := deref nodeSnapshot in
          match ns_SnapshotCreateTime nodeSnapshot with
          | None => invalid
          | Some createTime =>
              try! tagList := ec_do (ListTagsForResourceWithContext ctx
                  (Some (snapshotARN p name)))
                catch err => ret ([], Some err) in
              let! tagList := deref tagList in
              let! tags := tagsValues tagList in
              collect_snapshots p ctx instanceID snapshots'
                (if bool_decide (tags !! "instance-id" = Some instanceID)
                 then snapshotInfos ++ [mkSnapshotInfo name createTime tags]
                 else snapshotInfos)
          end
      | _, _ => invalid
      end
  end.

(** The pages are appended one after the other; the callback always asks for
    the next one. *)
(* map: providers/redis/redis.go 490-528 FindSnapshots *)
Definition FindSnapshots (p : RedisProvider) (ctx : context) (instanceID : string)
    : M X (list SnapshotInfo * option error) :=
  try! pages := ec_do (DescribeSnapshotsPagesWithContext ctx)
    catch err => ret ([], Some err) in
  let snapshots := foldl (λ snapshots page, snapshots ++ page) [] pages in
  collect_snapshots p ctx instanceID snapshots [].

(* map: providers/redis/redis.go 593-602 GetInstanceTags *)
Definition GetInstanceTags (p : RedisProvider) (ctx : context) (instanceID : string)
    : M X (gmap string string * option error) :=
  let replicationGroupID := GenerateReplicationGroupName instanceID in
  try! awsTags := ec_do (ListTagsForResourceWithContext ctx
      (Some (replicationGroupARN p replicationGroupID)))
    catch err => ret (∅, Some err) in
  let! tagList := deref awsTags in
  let! tags := tagsValues tagList in
  ret (tags, None).

(** The two tests on the role of a node. *)
(* map: providers/redis/redis.go 636-643 GetInstanceParameters *)
Definition add_node (ip : InstanceParameters) (nodeGroupMember : option NodeGroupMember)
    : M X InstanceParameters :=
  let! nodeGroupMember := deref nodeGroupMember in
  let! role := deref (ngm_CurrentRole nodeGroupMember) in
  let! ip :=
    if bool_decide (role = "primary") then
      let! id := deref (ngm_CacheClusterId nodeGroupMember) in
      ret (mkInstanceParameters (ip_PreferredMaintenanceWindow ip) (ip_DailyBackupWindow ip)
             (ip_MaxMemoryPolicy ip) (ip_CacheParameters ip) (ip_ActiveNodes ip ++ [id])
             (ip_PassiveNodes ip) (ip_AutoFailover ip))
    else ret ip in
  let! role := deref (ngm_CurrentRole nodeGroupMember) in
  if bool_decide (role = "replica") then
    let! id := deref (ngm_CacheClusterId nodeGroupMember) in
    ret (mkInstanceParameters (ip_PreferredMaintenanceWindow ip) (ip_DailyBackupWindow ip)
           (ip_MaxMemoryPolicy ip) (ip_CacheParameters ip) (ip_ActiveNodes ip)
           (ip_PassiveNodes ip ++ [id]) (ip_AutoFailover ip))
  else ret ip.

(* map: providers/redis/redis.go 650-659 GetInstanceParameters *)
Definition add_parameter (ip : InstanceParameters) (param : option SdkParameter)
    : M X InstanceParameters :=
  let! param := deref param in
  let! name := deref (par_ParameterName param) in
  let newParam := mkCacheParameter name (default "" (par_ParameterValue param)) in
  let ip := mkInstanceParameters (ip_PreferredMaintenanceWindow ip) (ip_DailyBackupWindow ip)
    (ip_MaxMemoryPolicy ip) (ip_CacheParameters ip ++ [newParam]) (ip_ActiveNodes ip)
    (ip_PassiveNodes ip) (ip_AutoFailover ip) in
  if bool_decide (name = "maxmemory-policy") then
    let! value := deref (par_ParameterValue param) in
    ret (mkInstanceParameters (ip_PreferredMaintenanceWindow ip) (ip_DailyBackupWindow ip)
           value (ip_CacheParameters ip) (ip_ActiveNodes ip) (ip_PassiveNodes ip)
           (ip_AutoFailover ip))
  else ret ip.

(** The window of the first cluster, whose error is ignored. *)
(* map: providers/redis/redis.go 618-622 GetInstanceParameters *)
Definition maintenance_window (ctx : context) (cacheClusterId : string) : M X string :=
  let! (cacheCluster, err) := describeCacheCluster ctx cacheClusterId in
  match err with
  | None =>
      let! cacheCluster := deref cacheCluster in
      ret (default "" (cc_PreferredMaintenanceWindow cacheCluster))
  | Some _ => ret ""
  end.

(* map: providers/redis/redis.go 604-664 GetInstanceParameters *)
Definition GetInstanceParameters (ctx : context) (instanceID : string)
    : M X (InstanceParameters * option error) :=
  let replicationGroupID := GenerateReplicationGroupName instanceID in
  try! replicationGroup := describeReplicationGroup ctx replicationGroupID
    catch err =>
      if has_aws_code ErrCodeReplicationGroupNotFoundFault err
      then ret (zero_InstanceParameters, Some (ErrorString
             ("Replication group does not exist: " +:+ replicationGroupID)))
      else ret (zero_InstanceParameters, Some err) in
  let! replicationGroup := deref replicationGroup in
  match rg_MemberClusters replicationGroup with
  | Some cacheClusterId :: _ =>
      let! window := maintenance_window ctx cacheClusterId in
      let ip := mkInstanceParameters window (default "" (rg_SnapshotWindow replicationGroup))
        "" [] [] [] (bool_decide (rg_AutomaticFailover replicationGroup = Some "enabled")) in
      let! ip := for_each (rg_NodeGroups replicationGroup) ip (λ ip nodeGroup,
        let! nodeGroup := deref nodeGroup in
        for_each (ng_NodeGroupMembers nodeGroup) ip add_node) in
      let! (cacheParameters, err) := describeCacheParameters ctx replicationGroupID in
      match err with
      | Some e => ret (ip, Some e)
      | None =>
          let! ip := for_each cacheParameters ip add_parameter in
          ret (ip, None)
      end
  | _ => ret (zero_InstanceParameters, Some (ErrorString
           ("Replication group does not have any member clusters: " +:+ replicationGroupID)))
  end.
End query.

(** ** These operations only read *)

Section effects.
Context {X : Type} `{ElastiCache X} `{SecretsManager X}.

Lemma tagsValues_only P l : only P (tagsValues l : M X _).
Proof. unfold tagsValues. only_auto. Qed.

Lemma describeReplicationGroup_reads ctx id :
  only is_read_event (describeReplicationGroup ctx id : M X _).
Proof. unfold describeReplicationGroup. only_auto. Qed.

Lemma describeCacheCluster_reads ctx id :
  only is_read_event (describeCacheCluster ctx id : M X _).
Proof. unfold describeCacheCluster. only_auto. Qed.

Lemma describeCacheParameters_reads ctx id :
  only is_read_event (describeCacheParameters ctx id : M X _).
Proof. unfold describeCacheParameters. only_auto. Qed.
Hint Resolve tagsValues_only describeReplicationGroup_reads describeCacheCluster_reads
  describeCacheParameters_reads : go.

Lemma getMessage_reads ctx rg st : only is_read_event (getMessage ctx rg st : M X _).
Proof. unfold getMessage, message_body, parameter_lines. only_auto. Qed.

Lemma GenerateCredentials_reads p ctx i b :
  only is_read_event (GenerateCredentials p ctx i b : M X _).
Proof. unfold GenerateCredentials, choose_endpoint. only_auto. Qed.

Lemma collect_snapshots_reads p ctx i l acc :
  only is_read_event (collect_snapshots p ctx i l acc : M X _).
Proof. revert acc. induction l as [|s l IH]; intros acc; simpl; only_auto. Qed.
Hint Resolve collect_snapshots_reads : go.

Lemma FindSnapshots_reads p ctx i : only is_read_event (FindSnapshots p ctx i : M X _).
Proof. unfold FindSnapshots. only_auto. Qed.

Lemma GetInstanceTags_reads p ctx i : only is_read_event (GetInstanceTags p ctx i : M X _).
Proof. unfold GetInstanceTags. only_auto. Qed.

Lemma GetInstanceParameters_reads ctx i :
  only is_read_event (GetInstanceParameters ctx i : M X _).
Proof. unfold GetInstanceParameters, maintenance_window, add_node, add_parameter. only_auto. Qed.
End effects.

#[export] Hint Resolve describeReplicationGroup_reads describeCacheCluster_reads
  describeCacheParameters_reads getMessage_reads : go.

(** ** Incomplete answers

    The SDK's types allow nil pointers where AWS always has a value; the code
    dereferences some of them unchecked. *)
Definition nil_answer (e : event) : Prop :=
  match e with
  | EvElastiCache c r =>
      match c return ec_out c * option error → Prop with
      | DescribeReplicationGroupsWithContext _ _ => λ r,
          r = (None, None) ∨ ∃ rest, r = (Some (None :: rest), None)
      | DescribeCacheClustersWithContext _ _ => λ r,
          r = (None, None) ∨ ∃ rest, r = (Some (None :: rest), None)
      | DescribeCacheParametersWithContext _ _ => λ r,
          r = (None, None) ∨ ∃ l, r = (Some l, None) ∧ None ∈ l
      | _ => λ _, False
      end r
  | _ => False
  end.

(** ** The status message

    [message_lines ctx rg es lines]: with the calls [es], the part of the message
    between the first and the last lines is [lines]. *)
Definition first_lines (rg : ReplicationGroup) (stateOverride : string) : list string :=
  ["---"] ++
  (if bool_decide (stateOverride = "") then
     match rg_Status rg with
     | Some status => [message_line "status" status]
     | None => [message_line "status" "unknown"]
     end
   else [message_line "status" stateOverride]) ++
  opt_line "cluster id" (rg_ReplicationGroupId rg).

Definition last_lines (rg : ReplicationGroup) : list string :=
  opt_line "daily backup window" (rg_SnapshotWindow rg) ++
  opt_line "automatic failover" (trim_space <$> rg_AutomaticFailover rg).

Definition engine_text (c : CacheCluster) : list string :=
  opt_line "engine version" (cc_EngineVersion c).

Definition window_text (c : CacheCluster) : list string :=
  opt_line "maintenance window" (cc_PreferredMaintenanceWindow c).

(** Two of the parameters have a line. *)
Definition parameter_text (p : SdkParameter) : list string :=
  match par_ParameterName p with
  | None => []
  | Some name =>
      if bool_decide (name = "maxmemory-policy")
      then opt_line "maxmemory policy" (trim_space <$> par_ParameterValue p)
      else if bool_decide (name = "cluster-enabled")
      then opt_line "cluster enabled" (trim_space <$> par_ParameterValue p)
      else []
  end.

Section message_run.
Variables (ctx : context) (rg : ReplicationGroup).
Abbreviation cluster cid r := (EvElastiCache (DescribeCacheClustersWithContext ctx (Some cid)) r).
Abbreviation parameters id r := (EvElastiCache (DescribeCacheParametersWithContext ctx (Some id)) r).

Inductive message_lines : list event → list string → Prop :=
  | lines_no_member :
      (∀ cid l, rg_MemberClusters rg ≠ Some cid :: l) → message_lines [] []
  | lines_no_cluster cid l r :
      rg_MemberClusters rg = Some cid :: l → (∃ e, r.2 = Some e) ∨ r = (Some [], None) →
      message_lines [cluster cid r] []
  | lines_no_id cid l c rest :
      rg_MemberClusters rg = Some cid :: l → rg_ReplicationGroupId rg = None →
      message_lines [cluster cid (Some (Some c :: rest), None)] (engine_text c ++ window_text c)
  | lines_no_parameters cid l c rest id out e :
      rg_MemberClusters rg = Some cid :: l → rg_ReplicationGroupId rg = Some id →
      message_lines [cluster cid (Some (Some c :: rest), None); parameters id (out, Some e)]
        (engine_text c ++ window_text c)
  | lines_parameters cid l c rest id ps :
      rg_MemberClusters rg = Some cid :: l → rg_ReplicationGroupId rg = Some id →
      message_lines [cluster cid (Some (Some c :: rest), None); parameters id (Some (Some <$> ps), None)]
        (engine_text c ++ mjoin (parameter_text <$> ps) ++ window_text c).

(** The whole message. *)
Definition message_run (stateOverride : string) (es : list event) (message : string) : Prop :=
  ∃ lines, message_lines es lines ∧
    message = string_join message_separator (first_lines rg stateOverride ++ lines ++ last_lines rg).
End message_run.

Section describe.
Context {X : Type} `{ElastiCache X} `{SecretsManager X}.
Implicit Types h : list (gmap string string).

(** The first cluster of an answer, and what it is nil for. *)
Lemma runs_describeCacheCluster h ctx id :
  runs h (describeCacheCluster ctx id : M X _) (λ o es h',
    h' = h ∧ ∃ r, es = [EvElastiCache (DescribeCacheClustersWithContext ctx (Some id)) r] ∧
    match o with
    | Ret (Some _, Some _) => False
    | Ret (None, None) => ∃ rest, r = (Some (None :: rest), None)
    | Ret (Some c, None) => ∃ rest, r = (Some (Some c :: rest), None)
    | Ret (None, Some e) => r.2 = Some e ∨ r = (Some [], None)
    | Panic p => p = NilDereference ∧ r = (None, None)
    end).
Proof.
  unfold describeCacheCluster. apply runs_bind, runs_ec_do. intros [out [e|]]; cbn beta iota.
  { go_step. split; [done|]. eexists. split; [done|]. by left. }
  apply runs_bind, runs_deref. destruct out as [[|[c|] rest]|]; try apply runs_ret;
    (split; [done|]); eexists; (split; [done|]); eauto.
Qed.

Lemma runs_describeReplicationGroup h ctx id :
  runs h (describeReplicationGroup ctx id : M X _) (λ o es h',
    h' = h ∧ ∃ r, es = [EvElastiCache (DescribeReplicationGroupsWithContext ctx (Some id)) r] ∧
    match o with
    | Ret (Some _, Some _) => False
    | Ret (None, None) => ∃ rest, r = (Some (None :: rest), None)
    | Ret (Some rg, None) => ∃ rest, r = (Some (Some rg :: rest), None)
    | Ret (None, Some e) => r.2 = Some e ∨ (r = (Some [], None) ∧ e = ErrorString
        ("Invalid response from AWS: no replication groups returned for " +:+ id))
    | Panic p => p = NilDereference ∧ r = (None, None)
    end).
Proof.
  unfold describeReplicationGroup. apply runs_bind, runs_ec_do. intros [out [e|]]; cbn beta iota.
  { go_step. split; [done|]. eexists. split; [done|]. by left. }
  apply runs_bind, runs_deref. destruct out as [[|[c|] rest]|]; try apply runs_ret;
    (split; [done|]); eexists; (split; [done|]); eauto.
Qed.

Lemma runs_describeCacheParameters h ctx id :
  runs h (describeCacheParameters ctx id : M X _) (λ o es h',
    h' = h ∧ ∃ r, es = [EvElastiCache (DescribeCacheParametersWithContext ctx (Some id)) r] ∧
    match o with
    | Ret (l, Some e) => l = [] ∧ r.2 = Some e
    | Ret (l, None) => r = (Some l, None)
    | Panic p => p = NilDereference ∧ r = (None, None)
    end).
Proof.
  unfold describeCacheParameters. apply runs_bind, runs_ec_do. intros [out [e|]]; cbn beta iota.
  { go_step. split; [done|]. eexists. split; [done|]. done. }
  apply runs_bind, runs_deref. destruct out as [l|]; [go_step|];
    (split; [done|]); eexists; (split; [done|]); eauto.
Qed.

Lemma runs_parameter_line h msgs x :
  runs h (parameter_lines msgs (Some x) : M X _) (λ o es h',
    h' = h ∧ es = [] ∧ o = Ret (msgs ++ parameter_text x)).
Proof.
  unfold parameter_lines, parameter_text. apply runs_bind, runs_deref.
  destruct (par_ParameterName x) as [name|]; apply runs_ret; [|by rewrite !app_nil_r].
  split; [done|]. split; [done|]. f_equal. repeat case_bool_decide; subst; try done;
    by rewrite ?app_nil_r.
Qed.

Lemma runs_parameter_lines h msgs l :
  runs h (for_each l msgs parameter_lines : M X _) (λ o es h',
    h' = h ∧ es = [] ∧
    match o with
    | Ret msgs' => ∃ ps, l = Some <$> ps ∧ msgs' = msgs ++ mjoin (parameter_text <$> ps)
    | Panic p => p = NilDereference ∧ None ∈ l
    end).
Proof.
  apply runs_for_each with (I := λ dn acc es, es = [] ∧
    ∃ ps, dn = Some <$> ps ∧ acc = msgs ++ mjoin (parameter_text <$> ps)).
  - split; [done|]. exists []. by rewrite app_nil_r.
  - intros dn [x|] rest acc es Hl (-> & ps & -> & ->).
    + eapply runs_conseq; [apply runs_parameter_line|].
      intros o es h' (-> & -> & ->). split; [done|]. split; [done|]. exists (ps ++ [x]).
      split; [by rewrite fmap_app|]. rewrite fmap_app, join_app. simpl. by rewrite app_nil_r, app_assoc.
    + apply runs_bind, runs_deref. split; [done|]. split; [done|]. split; [done|].
      rewrite Hl. set_solver.
  - intros acc es (-> & Hps). done.
Qed.

Lemma runs_message_body h ctx rg msgs :
  runs h (message_body ctx rg msgs : M X _) (λ o es h',
    h' = h ∧ forallb is_read_event es = true ∧
    match o with
    | Ret msgs' => ∃ lines, message_lines ctx rg es lines ∧ msgs' = msgs ++ lines
    | Panic p => p = NilDereference ∧ Exists nil_answer es
    end).
Proof.
  unfold message_body. destruct (rg_MemberClusters rg) as [|[cid|] rest] eqn:Hm.
  1, 3: apply runs_ret; split; [done|]; split; [done|]; exists []; rewrite app_nil_r;
    (split; [|done]); apply lines_no_member; congruence.
  apply runs_bind. eapply runs_conseq; [apply runs_describeCacheCluster|].
  intros [[[c|] [e|]]|p] es h' (-> & r & -> & Ho); cbn beta iota; try done.
  3: { apply runs_bind, runs_deref. split; [done|]. split; [done|]. split; [done|].
       constructor. by right. }
  3: { destruct Ho as [-> ->]. split; [done|]. split; [done|]. split; [done|]. constructor. by left. }
  2: { go_step. split; [done|]. split; [done|]. exists []. rewrite !app_nil_r. split; [|done].
       eapply lines_no_cluster; [done|]. destruct Ho as [Ho| ->]; [left; by exists e|by right]. }
  destruct Ho as [rest' ->]. apply runs_bind, runs_deref, runs_bind.
  eapply (runs_conseq _ _ _ (λ o es h', h' = h ∧ es = [] ∧ o = Ret (msgs ++ engine_text c))).
  { unfold engine_text, opt_line. destruct (cc_EngineVersion c); apply runs_ret; by rewrite ?app_nil_r. }
  intros o es h' (-> & -> & ->). cbn beta iota.
  destruct (rg_ReplicationGroupId rg) as [gid|] eqn:Hid.
  2: { go_steps. split; [done|]. split; [done|]. eexists. split; [by eapply lines_no_id|].
       by rewrite <-app_assoc. }
  apply runs_bind, runs_bind. eapply runs_conseq; [apply runs_describeCacheParameters|].
  intros [[l [e|]]|p] es h' (-> & [out err] & -> & Hr); cbn beta iota.
  - do 2 go_step. split; [done|]. split; [done|]. destruct Hr as [_ He]. simpl in He. subst err.
    eexists. split; [by eapply lines_no_parameters|]. by rewrite <-app_assoc.
  - injection Hr as -> ->. eapply runs_conseq; [apply runs_parameter_lines|].
    intros [ms|p] es h' (-> & -> & Hp).
    + destruct Hp as (ps & -> & ->). go_step. split; [done|]. split; [done|].
      eexists. split; [by eapply lines_parameters|]. by rewrite <-!app_assoc.
    + destruct Hp as [-> Hnil]. split; [done|]. split; [done|]. split; [done|].
      apply Exists_cons_tl, Exists_cons_hd. right. eauto.
  - destruct Hr as [-> [= -> ->]]. split; [done|]. split; [done|]. split; [done|].
    apply Exists_cons_tl, Exists_cons_hd. by left.
Qed.

Lemma runs_getMessage h ctx rg st :
  runs h (getMessage ctx rg st : M X _) (λ o es h',
    h' = h ∧ forallb is_read_event es = true ∧
    match o with
    | Ret message => message_run ctx rg st es message
    | Panic p => p = NilDereference ∧ Exists nil_answer es
    end).
Proof.
  unfold getMessage. cbv zeta. apply runs_bind.
  eapply runs_conseq; [apply runs_message_body|].
  intros [msgs|p] es h' (-> & Hes & Ho); [|done]. destruct Ho as (lines & Hlines & ->).
  apply runs_ret. rewrite app_nil_r. split; [done|]. split; [done|]. exists lines. split; [done|].
  unfold first_lines. by rewrite <-!app_assoc.
Qed.
End describe.
