(* ===== verification/Progress.v ===== *)
(** * Runs that return

    Rules for total correctness against a world that can be looked at: a
    program started in a state returns, with a result and a new view of the
    world.  They serve the properties that something happens in the end. *)
From S2P Require Import Prelude GoBase Sdk Providers Go Interfaces Naming RedisBase RedisQuery.
Local Open Scope Z_scope.
Local Open Scope go_scope.

(** ** Operations that only look at the values they are given *)

Definition leaves_state {X A} (m : M X A) : Prop := ∀ s, (m s).2 = s.

Lemma leaves_bind {X A B} (m : M X A) (k : A → M X B) :
  leaves_state m → (∀ a, leaves_state (k a)) → leaves_state (bind m k).
Proof.
  intros Hm Hk s. unfold bind. specialize (Hm s). destruct (m s) as [[a|p] s']; simpl in *; [|done].
  subst s'. apply Hk.
Qed.

Lemma leaves_deref {X A} (p : option A) : leaves_state (deref p : M X A).
Proof. by destruct p. Qed.

Lemma leaves_for_each {X A B} (l : list A) (acc : B) (body : B → A → M X B) :
  (∀ b a, leaves_state (body b a)) → leaves_state (for_each l acc body).
Proof.
  intros Hb. revert acc. induction l as [|x l IH]; intros acc; [done|].
  apply leaves_bind; [apply Hb|apply IH].
Qed.

(** ** Runs from a state *)

Section ends.
Context {X V : Type} (view : X → V).

(** From [s], [m] returns a value with [P] and leaves the world with the view
    [c]; the maps are as they were. *)
Definition ends {A} (s : state X) (m : M X A) (P : A → Prop) (c : V) : Prop :=
  ∃ a s', m s = (Ret a, s') ∧ P a ∧ view (st_world s') = c ∧ st_maps s' = st_maps s.

(** The view does not change. *)
Definition stays {A} (s : state X) (m : M X A) (P : A → Prop) : Prop :=
  ends s m P (view (st_world s)).

Lemma ends_ret {A} s (a : A) (P : A → Prop) c : P a → view (st_world s) = c → ends s (ret a) P c.
Proof. intros HP Hc. by exists a, s. Qed.

Lemma ends_bind {A B} s (m : M X A) (k : A → M X B) P Q c c' :
  ends s m P c →
  (∀ a s', P a → view (st_world s') = c → st_maps s' = st_maps s → ends s' (k a) Q c') →
  ends s (bind m k) Q c'.
Proof.
  intros (a & s' & Hm & HP & Hc & Hmaps) Hk.
  destruct (Hk a s' HP Hc Hmaps) as (b & s'' & Hk' & HQ & Hc' & Hmaps').
  exists b, s''. unfold bind. rewrite Hm. split; [done|]. split; [done|]. split; [done|congruence].
Qed.

Lemma stays_bind {A B} s (m : M X A) (k : A → M X B) P Q :
  stays s m P → (∀ a s', P a → stays s' (k a) Q) → stays s (bind m k) Q.
Proof.
  intros Hm Hk. eapply ends_bind; [exact Hm|]. intros a s' HP Hc _. rewrite <-Hc. by apply Hk.
Qed.

Lemma stays_ret {A} s (a : A) (P : A → Prop) : P a → stays s (ret a) P.
Proof. intros HP. by apply ends_ret. Qed.

Lemma ends_emit {B} s e (k : () → M X B) Q c :
  (∀ s', st_world s' = st_world s → st_maps s' = st_maps s → ends s' (k tt) Q c) →
  ends s (bind (emit e) k) Q c.
Proof.
  intros Hk. destruct (Hk (emit e s).2 eq_refl eq_refl) as (b & s' & Hb & HQ & Hc & Hm).
  by exists b, s'.
Qed.

Lemma ends_timeout {A} s ctx d (body : context → M X A) P c :
  ends s (body (TimeoutContext ctx d)) P c → ends s (with_timeout ctx d body) P c.
Proof.
  intros (a & s' & Hc & HP & Hv & Hm). unfold ends, with_timeout. rewrite Hc. by eexists a, _.
Qed.

Lemma ends_pv `{Provider X} s c P v : ends s (pv_serve c) P v → ends s (pv_do c) P v.
Proof.
  intros (a & s' & Hc & HP & Hv & Hm). unfold ends, pv_do, bind, peek_maps.
  cbn beta iota. rewrite Hc. by eexists a, _.
Qed.

Lemma ends_ec `{ElastiCache X} s call (P : _ → Prop) c :
  P (ec_serve call (st_world s)).1 → view (ec_serve call (st_world s)).2 = c →
  ends s (ec_do call) P c.
Proof. intros HP Hc. by eexists _, _. Qed.

Lemma ends_ec_bind `{ElastiCache X} {B} s call (k : _ → M X B) r c Q c' :
  (ec_serve call (st_world s)).1 = r → view (ec_serve call (st_world s)).2 = c →
  (∀ s', view (st_world s') = c → ends s' (k r) Q c') → ends s (bind (ec_do call) k) Q c'.
Proof.
  intros Hr Hc Hk. eapply ends_bind; [by apply (ends_ec s call (λ r', r' = r))|].
  intros r' s' -> Hs' _. by apply Hk.
Qed.

Lemma ends_sm_bind `{SecretsManager X} {B} s call (k : _ → M X B) r c Q c' :
  (sm_serve call (st_world s)).1 = r → view (sm_serve call (st_world s)).2 = c →
  (∀ s', view (st_world s') = c → ends s' (k r) Q c') → ends s (bind (sm_do call) k) Q c'.
Proof.
  intros Hr Hc Hk. eapply ends_bind with (P := λ r', r' = r) (c := c); [by eexists _, _|].
  intros r' s' -> Hs' _. by apply Hk.
Qed.
End ends.

(** ** Runs that allocate

    [goes n v m n' P]: from any state with [n] map objects and the view [v], [m]
    returns a value, leaving [n'] objects and a view that satisfy [P]. *)
Section goes.
Context {X V : Type} (view : X → V).

Definition goes {A} (n : nat) (v : V) (m : M X A) (n' : nat) (P : A → V → Prop) : Prop :=
  ∀ s, length (st_maps s) = n → view (st_world s) = v →
    ∃ a s', m s = (Ret a, s') ∧ length (st_maps s') = n' ∧ P a (view (st_world s')).

(** The usual assertion: a fact about the value, and the same view. *)
Definition and_view {A} (v : V) (P : A → Prop) : A → V → Prop := λ a v', v' = v ∧ P a.

Lemma goes_conseq {A} n v (m : M X A) n' (P Q : A → V → Prop) :
  goes n v m n' P → (∀ a v', P a v' → Q a v') → goes n v m n' Q.
Proof. intros Hm HQ s Hn Hv. destruct (Hm s Hn Hv) as (a & s' & ? & ? & ?). exists a, s'. auto. Qed.

Lemma goes_ret {A} n v (a : A) (P : A → V → Prop) : P a v → goes n v (ret a) n P.
Proof. intros HP s Hn <-. by exists a, s. Qed.

Lemma goes_bind {A B} n v (m : M X A) (k : A → M X B) n1 P n2 Q :
  goes n v m n1 P → (∀ a v1, P a v1 → goes n1 v1 (k a) n2 Q) → goes n v (bind m k) n2 Q.
Proof.
  intros Hm Hk s Hn Hv. destruct (Hm s Hn Hv) as (a & s1 & Hrun & Hn1 & HP).
  destruct (Hk a _ HP s1 Hn1 eq_refl) as (c & s2 & Hrun2 & Hn2 & HQ).
  exists c, s2. unfold bind. by rewrite Hrun.
Qed.

(** When the view stays the same. *)
Lemma goes_step {A B} n v (m : M X A) (k : A → M X B) n1 P n2 Q :
  goes n v m n1 (and_view v P) → (∀ a, P a → goes n1 v (k a) n2 Q) → goes n v (bind m k) n2 Q.
Proof. intros Hm Hk. eapply goes_bind; [exact Hm|]. intros a v1 [-> HP]. by apply Hk. Qed.

Lemma goes_emit {B} n v e (k : () → M X B) n' Q :
  goes n v (k tt) n' Q → goes n v (bind (emit e) k) n' Q.
Proof. intros Hk s Hn Hv. by apply (Hk (emit e s).2). Qed.

Lemma goes_deref {A B} n v (a : A) (k : A → M X B) n' Q :
  goes n v (k a) n' Q → goes n v (bind (deref (Some a)) k) n' Q.
Proof. done. Qed.

Lemma goes_timeout {A} n v ctx d (body : context → M X A) n' P :
  goes n v (body (TimeoutContext ctx d)) n' P → goes n v (with_timeout ctx d body) n' P.
Proof.
  intros Hb s Hn Hv. destruct (Hb s Hn Hv) as (a & s' & Hrun & Hn' & HP).
  unfold with_timeout. rewrite Hrun. by eexists a, _.
Qed.

Lemma goes_pv `{Provider X} n v c n' P : goes n v (pv_serve c) n' P → goes n v (pv_do c) n' P.
Proof.
  intros Hc s Hn Hv. destruct (Hc s Hn Hv) as (a & s' & Hrun & Hn' & HP).
  unfold pv_do, bind, peek_maps. cbn beta iota. rewrite Hrun. by eexists a, _.
Qed.

Lemma goes_external {A} n v (f : X → A * X) (P : A → V → Prop) :
  (∀ x, view x = v → P (f x).1 (view (f x).2)) → goes n v (external f) n P.
Proof. intros HP s Hn Hv. eexists _, _. split; [reflexivity|]. split; [done|]. by apply HP. Qed.

Lemma goes_ec_bind `{ElastiCache X} {B} n v call (k : _ → M X B) r v1 n' Q :
  (∀ x, view x = v → (ec_serve call x).1 = r ∧ view (ec_serve call x).2 = v1) →
  goes n v1 (k r) n' Q → goes n v (bind (ec_do call) k) n' Q.
Proof.
  intros Hc Hk. eapply (goes_bind n v _ _ n (λ r' v', r' = r ∧ v' = v1)).
  - intros s Hn Hv. eexists _, _. split; [reflexivity|]. split; [done|]. by apply Hc.
  - by intros r' v' [-> ->].
Qed.

Lemma goes_sm_bind `{SecretsManager X} {B} n v call (k : _ → M X B) r v1 n' Q :
  (∀ x, view x = v → (sm_serve call x).1 = r ∧ view (sm_serve call x).2 = v1) →
  goes n v1 (k r) n' Q → goes n v (bind (sm_do call) k) n' Q.
Proof.
  intros Hc Hk. eapply (goes_bind n v _ _ n (λ r' v', r' = r ∧ v' = v1)).
  - intros s Hn Hv. eexists _, _. split; [reflexivity|]. split; [done|]. by apply Hc.
  - by intros r' v' [-> ->].
Qed.

Lemma goes_alloc n v m :
  goes n v (alloc_map m : M X _) (S n) (and_view v (λ r, r = Some n)).
Proof.
  intros s Hn Hv. eexists _, _. split; [reflexivity|]. simpl. rewrite length_app, Hn, Hv.
  split; [simpl; lia|done].
Qed.

(** A reference to one of [n] objects, or nil. *)
Definition ref_below (n : nat) (r : map_ref) : Prop :=
  match r with None => True | Some l => (l < n)%nat end.

Lemma goes_read n v r : ref_below n r → goes n v (read_map r) n (and_view v (λ _, True)).
Proof.
  intros Hr s Hn Hv. destruct r as [l|]; cbn [read_map]; [|by eexists _, s].
  destruct (lookup_lt_is_Some_2 (st_maps s) l) as [m Hm]; [by rewrite Hn|].
  rewrite Hm. by eexists _, s.
Qed.

Lemma goes_write n v l k x :
  (l < n)%nat → goes n v (write_map (Some l) k x) n (and_view v (λ _, True)).
Proof.
  intros Hl s Hn Hv. cbn [write_map].
  destruct (lookup_lt_is_Some_2 (st_maps s) l) as [m Hm]; [by rewrite Hn|].
  rewrite Hm. eexists _, _. split; [reflexivity|]. simpl. by rewrite length_insert.
Qed.

Lemma goes_for_each {A B} n v (l : list A) (acc : B) body (I : B → Prop) :
  (∀ b a, I b → goes n v (body b a) n (and_view v I)) → I acc →
  goes n v (for_each l acc body) n (and_view v I).
Proof.
  intros Hb. revert acc. induction l as [|x l IH]; intros acc Hacc; [by apply goes_ret|].
  eapply goes_step; [by apply Hb|]. exact IH.
Qed.

(** Facts that hold of every result. *)
Lemma goes_runs {A} n v (m : M X A) n' P (Q : A → Prop) :
  goes n v m n' P → (∀ s a, (m s).1 = Ret a → Q a) → goes n v m n' (λ a v', P a v' ∧ Q a).
Proof.
  intros Hm HQ s Hn Hv. destruct (Hm s Hn Hv) as (a & s' & Hrun & Hn' & HP).
  exists a, s'. split; [done|]. split; [done|]. split; [done|]. apply (HQ s). by rewrite Hrun.
Qed.

(** The machine works: its random source does not fail, and neither a random
    number nor the order of a loop changes what is looked at. *)
Class Quiet `{Runtime X} : Prop := {
  quiet_rand : ∀ n x, 0 < n → (rt_rand n x).1.2 = None ∧ view (rt_rand n x).2 = view x;
  quiet_range : ∀ ks x, view (rt_range ks x).2 = view x;
  quiet_now : ∀ x, view (rt_now x).2 = view x;
}.

Context `{RuntimeLaws X} `{!Quiet}.

Lemma goes_range_keys n v ks :
  goes n v (range_keys ks) n (and_view v (λ l, l ≡ₚ elements ks)).
Proof.
  apply goes_external. intros x Hv. split; [by rewrite quiet_range|apply rt_range_perm].
Qed.

Lemma goes_range_map {W} n v (m : gmap string W) :
  goes n v (range_map m) n (and_view v (λ _, True)).
Proof. eapply goes_step; [apply goes_range_keys|]. intros ks _. by apply goes_ret. Qed.

Lemma goes_rand n v max : 0 < max →
  goes n v (rand_int max) n (and_view v (λ r, ∃ i, r = (i, None) ∧ 0 <= i < max)).
Proof.
  intros Hmax. apply goes_external. intros x Hv. destruct (quiet_rand max x Hmax) as [Hr Hv'].
  split; [by rewrite Hv'|]. destruct (rt_rand max x) as [[i e] x'] eqn:Hx. simpl in *. subst e.
  exists i. split; [done|]. eapply rt_rand_range; [done|]. by rewrite Hx.
Qed.
End goes.

(** ** The status message

    It is put together from two more answers, and never fails if they hold no
    nil pointers where the code looks. *)
Definition is_describe (c : ec_call) : bool :=
  match c with
  | DescribeReplicationGroupsWithContext _ _ | DescribeCacheClustersWithContext _ _
  | DescribeCacheParametersWithContext _ _ => true
  | _ => false
  end.

(** An error, or clusters the first of which is not nil. *)
Definition clusters_ok (r : option (list (option CacheCluster)) * option error) : Prop :=
  is_Some r.2 ∨ ∃ l, r = (Some l, None) ∧ head l ≠ Some None.

(** An error, or parameters none of which is nil. *)
Definition parameters_ok (r : option (list (option SdkParameter)) * option error) : Prop :=
  is_Some r.2 ∨ ∃ l, r = (Some (Some <$> l), None).

Section message.
Context {X V : Type} `{ElastiCache X} (view : X → V).

(** A describe call changes nothing, and its answers are as above. *)
Hypothesis describe_keeps : ∀ c x, is_describe c = true → view (ec_serve c x).2 = view x.
Hypothesis describes_cluster : ∀ ctx node x,
  clusters_ok (ec_serve (DescribeCacheClustersWithContext ctx node) x).1.
Hypothesis describes_parameters : ∀ ctx group x,
  parameters_ok (ec_serve (DescribeCacheParametersWithContext ctx group) x).1.

Lemma stays_describe s call (P : _ → Prop) :
  is_describe call = true → P (ec_serve call (st_world s)).1 → stays view s (ec_do call) P.
Proof. intros Hd HP. apply ends_ec; [exact HP|]. by apply describe_keeps. Qed.

Lemma stays_cluster s ctx node :
  stays view s (describeCacheCluster ctx node)
    (λ r, (∃ e, r = (None, Some e)) ∨ ∃ c, r = (Some c, None)).
Proof.
  unfold describeCacheCluster. eapply stays_bind.
  - apply (stays_describe s (DescribeCacheClustersWithContext ctx (Some node)) clusters_ok); [done|].
    apply describes_cluster.
  - intros [out [e|]] s' Hr; cbn beta iota; [apply stays_ret; left; by eexists|].
    destruct Hr as [[e He]|(l & [= ->] & Hl)]; [done|]. eapply stays_bind.
    { by apply stays_ret with (P := λ y, y = l). }
    intros y s'' ->. destruct l as [|[c|] l]; [apply stays_ret; left; by eexists| |done].
    apply stays_ret. right. by eexists.
Qed.

Lemma stays_parameters s ctx group :
  stays view s (describeCacheParameters ctx group)
    (λ r, is_Some r.2 ∨ ∃ l, r = (Some <$> l, None)).
Proof.
  unfold describeCacheParameters. eapply stays_bind.
  - apply (stays_describe s (DescribeCacheParametersWithContext ctx (Some group)) parameters_ok); [done|].
    apply describes_parameters.
  - intros [out [e|]] s' Hr; cbn beta iota; [apply stays_ret; left; by eexists|].
    destruct Hr as [[e He]|(l & [= ->])]; [done|]. eapply stays_bind.
    { by apply stays_ret with (P := λ y, y = Some <$> l). }
    intros y s'' ->. apply stays_ret. right. by eexists.
Qed.

Lemma stays_parameter_lines s msgs (l : list SdkParameter) :
  stays view s (for_each (Some <$> l) msgs parameter_lines) (λ _, True).
Proof.
  revert s msgs. induction l as [|x l IH]; intros s msgs; [by apply stays_ret|].
  change (for_each (Some <$> x :: l) msgs parameter_lines) with
    (bind (parameter_lines msgs (Some x)) (λ m, for_each (Some <$> l) m parameter_lines) : M X _).
  apply stays_bind with (λ _, True); [|by intros ? ? _].
  unfold parameter_lines. apply stays_bind with (λ y, y = x); [by apply stays_ret|].
  intros y s' ->. destruct (par_ParameterName x); by apply stays_ret.
Qed.

Lemma stays_message s ctx rg st : stays view s (getMessage ctx rg st) (λ _, True).
Proof.
  unfold getMessage, message_body. cbv zeta.
  apply stays_bind with (λ _, True); [|intros; by apply stays_ret].
  destruct (rg_MemberClusters rg) as [|[node|] rest]; try by apply stays_ret.
  eapply stays_bind; [apply stays_cluster|].
  intros r s1 [[e ->]|[c ->]]; cbn beta iota; [by apply stays_ret|].
  apply stays_bind with (λ y, y = c); [by apply stays_ret|]. intros y s2 ->.
  apply stays_bind with (λ _, True); [destruct (cc_EngineVersion c); by apply stays_ret|].
  intros msgs s3 _. apply stays_bind with (λ _, True); [|intros; by apply stays_ret].
  destruct (rg_ReplicationGroupId rg) as [group|]; [|by apply stays_ret].
  eapply stays_bind; [apply stays_parameters|].
  intros [params [e|]] s4 Hr; cbn beta iota; [by apply stays_ret|].
  destruct Hr as [[e He]|[l [= ->]]]; [done|]. apply stays_parameter_lines.
Qed.
End message.
