(* ===== verification/RedisFailover.v ===== *)
(** * The Redis provider: the failover test

    providers/redis/redis.go: the choice of the nodes, the start of a failover
    test, and [ProgressState], which reports the state of an instance and
    takes a failover test one step further every time it is polled. *)
From S2P Require Import Prelude GoBase Sdk Providers Go Interfaces Bench Naming RedisBase.
From S2P Require Import RedisProvision RedisQuery.
Local Open Scope Z_scope.
Local Open Scope go_scope.

Section failover.
Context {X : Type} `{ElastiCache X}.

(* map: providers/redis/redis.go 62-68 GetPrimaryAndReplicaCacheClusterIds *)
Definition note_role (nodes : string * string) (nodeGroupMember : option NodeGroupMember)
    : M X (string * string) :=
  let (primaryNode, replicaNode) := nodes in
  let! nodeGroupMember := deref nodeGroupMember in
  let! role := deref (ngm_CurrentRole nodeGroupMember) in
  if bool_decide (role = "primary") then
    let! id := deref (ngm_CacheClusterId nodeGroupMember) in ret (id, replicaNode)
  else if bool_decide (role = "replica") then
    let! id := deref (ngm_CacheClusterId nodeGroupMember) in ret (primaryNode, id)
  else ret nodes.

(** The argument is a pointer: a nil group is dereferenced in the loop. *)
(* map: providers/redis/redis.go 58-77 GetPrimaryAndReplicaCacheClusterIds *)
Definition GetPrimaryAndReplicaCacheClusterIds (replicationGroup : option ReplicationGroup)
    : M X (string * string * option error) :=
  let! replicationGroup := deref replicationGroup in
  let! (primaryNode, replicaNode) := for_each (rg_NodeGroups replicationGroup) ("", "")
    (λ nodes nodeGroup,
      let! nodeGroup := deref nodeGroup in
      for_each (ng_NodeGroupMembers nodeGroup) nodes note_role) in
  if bool_decide (primaryNode = "") then
    ret ("", "", Some (ErrorString "Unable to determine primary node"))
  else if bool_decide (replicaNode = "") then
    ret ("", "", Some (ErrorString "Unable to determine replica node"))
  else ret (primaryNode, replicaNode, None).

(** The error of [describeReplicationGroup] is overwritten by that of
    [GetPrimaryAndReplicaCacheClusterIds]. *)
(* map: providers/redis/redis.go 666-694 StartFailoverTest *)
Definition StartFailoverTest (ctx : context) (instanceID : string)
    : M X (string * option error) :=
  let replicationGroupID := GenerateReplicationGroupName instanceID in
  let! (replicationGroup, _) := describeReplicationGroup ctx replicationGroupID in
  let! (primaryNode, _, err) := GetPrimaryAndReplicaCacheClusterIds replicationGroup in
  match err with
  | Some e => ret ("", Some e)
  | None =>
      do! log LInfo "failover-disable-ha" None
            [("instance-id", LString instanceID); ("primary-node", LString primaryNode);
             ("replication-group-id", LString replicationGroupID)] in
      try! _out := ec_do (ModifyReplicationGroupWithContext ctx
          (mkModifyReplicationGroupInput (Some replicationGroupID) None None
             (Some false) (Some false) (Some true)))
        catch e => ret ("", Some e) in
      ret (primaryNode, None)
  end.

(** The next step of a failover test. *)
(* map: providers/redis/redis.go 337-375 ProgressState *)
Definition failover_step (ctx : context) (instanceID oldPrimaryNode : string)
    (replicationGroup : ReplicationGroup) (primaryNode nodeToFailOverTo : string)
    : M X (ServiceState * string * option error) :=
  let replicationGroupID := GenerateReplicationGroupName instanceID in
  let! message := getMessage ctx replicationGroup "modifying" in
  if negb (bool_decide (oldPrimaryNode = "")) && bool_decide (primaryNode = oldPrimaryNode) then
    do! log LInfo "failover-cutover-primary" None
          [("instance-id", LString instanceID); ("primary-node", LString primaryNode);
           ("failover-node", LString nodeToFailOverTo);
           ("replication-group-id", LString replicationGroupID)] in
    let! (_, err) := ec_do (ModifyReplicationGroupWithContext ctx
      (mkModifyReplicationGroupInput (Some replicationGroupID) None
         (Some nodeToFailOverTo) None None (Some true))) in
    match err with
    | Some e => ret ("", message, Some e)
    | None => ret ("modifying", message, None)
    end
  else
    do! log LInfo "failover-enable-ha" None
          [("instance-id", LString instanceID); ("primary-node", LString primaryNode);
           ("replication-group-id", LString replicationGroupID)] in
    let! (_, err) := ec_do (ModifyReplicationGroupWithContext ctx
      (mkModifyReplicationGroupInput (Some replicationGroupID) None None
         (Some true) (Some true) (Some true))) in
    match err with
    | Some e => ret ("", message, Some e)
    | None => ret ("modifying", message, None)
    end.

(* map: providers/redis/redis.go 302-383 ProgressState *)
Definition ProgressState (ctx : context) (instanceID operation oldPrimaryNode : string)
    : M X (ServiceState * string * option error) :=
  let replicationGroupID := GenerateReplicationGroupName instanceID in
  try! replicationGroup := describeReplicationGroup ctx replicationGroupID
    catch err =>
      if has_aws_code ErrCodeReplicationGroupNotFoundFault err
      then ret (NonExisting, "Replication group does not exist: " +:+ replicationGroupID, None)
      else ret ("", "", Some err) in
  let! replicationGroup := deref replicationGroup in
  match rg_Status replicationGroup with
  | None => ret ("", "", Some (ErrorString
      ("Invalid response from AWS: status is missing for " +:+ replicationGroupID)))
  | Some status =>
      let report :=
        let! message := getMessage ctx replicationGroup "" in
        ret (status, message, None) in
      if bool_decide (status = "available") && bool_decide (operation = "failover") then
        let! (primaryNode, nodeToFailOverTo, err) :=
          GetPrimaryAndReplicaCacheClusterIds (Some replicationGroup) in
        match err with
        | Some e => ret ("", "", Some e)
        | None =>
            let! automaticFailover := deref (rg_AutomaticFailover replicationGroup) in
            if bool_decide (automaticFailover = "disabled") then
              failover_step ctx instanceID oldPrimaryNode replicationGroup primaryNode
                nodeToFailOverTo
            else report
        end
      else report
  end.
End failover.

(** ** The nodes of a replication group *)

(** The members of all node groups; nil pointers left out. *)
Definition all_members (rg : ReplicationGroup) : list NodeGroupMember :=
  mjoin ((λ g, omap id (ng_NodeGroupMembers g)) <$> omap id (rg_NodeGroups rg)).

(** The ids of the members with a role, in the order of the answer. *)
Definition role_ids (role : string) (l : list NodeGroupMember) : list string :=
  omap (λ m, if bool_decide (ngm_CurrentRole m = Some role) then ngm_CacheClusterId m else None) l.

Definition last_id (role : string) (l : list NodeGroupMember) : string :=
  default "" (list.last (role_ids role l)).

(** What is needed of a member, a group and an answer for the code not to
    dereference a nil pointer: AWS gives a role to the nodes of groups that are
    not in cluster mode only. *)
Definition member_ok (m : option NodeGroupMember) : Prop :=
  ∃ x role, m = Some x ∧ ngm_CurrentRole x = Some role ∧
    (role = "primary" ∨ role = "replica" → is_Some (ngm_CacheClusterId x)).

Definition node_group_ok (g : option NodeGroup) : Prop :=
  ∃ x, g = Some x ∧ Forall member_ok (ng_NodeGroupMembers x).

Definition roles_ok (rg : ReplicationGroup) : Prop := Forall node_group_ok (rg_NodeGroups rg).

(** The last primary and the last replica, or the first error. *)
Definition chosen_nodes (rg : ReplicationGroup) : string * string * option error :=
  let primary := last_id "primary" (all_members rg) in
  let replica := last_id "replica" (all_members rg) in
  if bool_decide (primary = "") then
    ("", "", Some (ErrorString "Unable to determine primary node"))
  else if bool_decide (replica = "") then
    ("", "", Some (ErrorString "Unable to determine replica node"))
  else (primary, replica, None).

(** ** Lemmas *)

Lemma role_ids_app role l l' : role_ids role (l ++ l') = role_ids role l ++ role_ids role l'.
Proof. apply omap_app. Qed.

Lemma last_id_snoc role l m :
  last_id role (l ++ [m]) =
    match (if bool_decide (ngm_CurrentRole m = Some role) then ngm_CacheClusterId m else None) with
    | Some id => id
    | None => last_id role l
    end.
Proof.
  unfold last_id. rewrite role_ids_app. unfold role_ids at 2. simpl.
  destruct (if bool_decide _ then _ else _); [by rewrite list.last_snoc|by rewrite app_nil_r].
Qed.

(** ** Loops over the members

    The two loops over the groups and over their members, for a body that keeps
    a value [f l] of the members [l] seen so far. *)
Section over_members.
Context {X B : Type} (h : list (gmap string string)).
Variables (f : list NodeGroupMember → B) (body : B → option NodeGroupMember → M X B).

Definition member_spec (l : list NodeGroupMember) (m : option NodeGroupMember)
    (o : outcome B) (es : list event) (h' : list (gmap string string)) : Prop :=
  es = [] ∧ h' = h ∧
  match o with
  | Ret b => member_ok m ∧ ∃ x, m = Some x ∧ b = f (l ++ [x])
  | Panic p => p = NilDereference ∧ ¬ member_ok m
  end.

Hypothesis Hbody : ∀ l m, runs h (body (f l) m) (member_spec l m).

Lemma runs_over_group l members :
  runs h (for_each members (f l) body) (λ o es h',
    es = [] ∧ h' = h ∧
    match o with
    | Ret b => Forall member_ok members ∧ b = f (l ++ omap id members)
    | Panic p => p = NilDereference ∧ ¬ Forall member_ok members
    end).
Proof.
  apply runs_for_each with (I := λ dn b es,
    es = [] ∧ Forall member_ok dn ∧ b = f (l ++ omap id dn)).
  - by rewrite app_nil_r.
  - intros dn m rest b es -> (-> & Hdn & ->).
    eapply runs_conseq; [apply Hbody|]. intros [b|p] es h' (-> & -> & Ho).
    + destruct Ho as [Hm (x & -> & ->)]. repeat split.
      * by apply Forall_app_2; [|constructor].
      * by rewrite omap_app, app_assoc.
    + destruct Ho as [-> Hm]. repeat split. rewrite list.Forall_app, list.Forall_cons. tauto.
  - intros b es (-> & Hdn & ->). done.
Qed.

Lemma runs_over_members rg :
  runs h (for_each (rg_NodeGroups rg) (f []) (λ b nodeGroup,
      bind (deref nodeGroup) (λ nodeGroup, for_each (ng_NodeGroupMembers nodeGroup) b body)))
    (λ o es h', es = [] ∧ h' = h ∧
      match o with
      | Ret b => roles_ok rg ∧ b = f (all_members rg)
      | Panic p => p = NilDereference ∧ ¬ roles_ok rg
      end).
Proof.
  apply runs_for_each with (I := λ dn b es, es = [] ∧ Forall node_group_ok dn ∧
    b = f (mjoin ((λ g, omap id (ng_NodeGroupMembers g)) <$> omap id dn))).
  - done.
  - intros dn g rest b es Hl (-> & Hok & ->).
    assert (¬ node_group_ok g → ¬ roles_ok rg) as Hbad.
    { unfold roles_ok. rewrite Hl, list.Forall_app, list.Forall_cons. tauto. }
    destruct g as [g|].
    2: { apply runs_bind, runs_deref. repeat split. apply Hbad. by intros (? & ? & _). }
    apply runs_bind, runs_deref. eapply runs_conseq; [apply runs_over_group|].
    intros [b|p] es h' (-> & -> & Ho).
    + destruct Ho as [Hg ->]. repeat split.
      * apply Forall_app_2; [done|]. constructor; [by eexists|done].
      * rewrite omap_app, fmap_app, join_app. simpl. by rewrite app_nil_r.
    + destruct Ho as [-> Hg]. repeat split. apply Hbad. by intros (? & [= <-] & ?).
  - intros b es (-> & Hok & ->). done.
Qed.
End over_members.

(** The two nodes kept by the loops, after the members [l]. *)
Definition nodes_after (l : list NodeGroupMember) : string * string :=
  (last_id "primary" l, last_id "replica" l).

Lemma bool_decide_Some_eq (a b : string) : bool_decide (Some a = Some b) = bool_decide (a = b).
Proof. apply bool_decide_ext. naive_solver. Qed.

Lemma nodes_after_snoc l x role :
  ngm_CurrentRole x = Some role →
  nodes_after (l ++ [x]) =
    (if bool_decide (role = "primary") then default (last_id "primary" l) (ngm_CacheClusterId x)
     else last_id "primary" l,
     if bool_decide (role = "replica") then default (last_id "replica" l) (ngm_CacheClusterId x)
     else last_id "replica" l).
Proof.
  intros Hr. unfold nodes_after. rewrite !last_id_snoc, Hr.
  rewrite !bool_decide_Some_eq.
  by do 2 case_bool_decide; destruct (ngm_CacheClusterId x).
Qed.

Section failover_lemmas.
Context {X : Type} `{ElastiCache X}.
Implicit Types h : list (gmap string string).

Lemma runs_note_role h l m :
  runs h (note_role (nodes_after l) m : M X _) (member_spec h nodes_after l m).
Proof.
  unfold note_role, member_spec, nodes_after. destruct m as [x|].
  2: { apply runs_bind, runs_deref. repeat split. by intros (? & ? & ? & _). }
  apply runs_bind, runs_deref, runs_bind, runs_deref.
  destruct (ngm_CurrentRole x) as [role|] eqn:Hrole.
  2: { repeat split. intros (? & ? & [= <-] & Hr & _). congruence. }
  rename l into dn. pose proof (nodes_after_snoc dn x role Hrole) as Hnext.
  assert (∀ id, ngm_CacheClusterId x = Some id → member_ok (Some x)) as Hok.
  { intros id Hid. exists x, role. rewrite Hid. eauto. }
  assert (role = "primary" ∨ role = "replica" → ngm_CacheClusterId x = None → ¬ member_ok (Some x))
    as Hbad.
  { intros Hr Hid (? & ? & [= <-] & ? & Hs). simplify_eq/=. destruct Hs; [done|congruence]. }
  unfold nodes_after in Hnext.
  destruct (bool_decide (role = "primary")) eqn:Hp;
    [|destruct (bool_decide (role = "replica")) eqn:Hq];
    rewrite ?bool_decide_eq_true, ?bool_decide_eq_false in *.
  - rewrite (bool_decide_false (role = "replica")) in Hnext by congruence. apply runs_bind, runs_deref. destruct (ngm_CacheClusterId x) as [id|] eqn:Hid.
    + apply runs_ret. repeat split; [by eapply Hok|]. exists x. by rewrite Hnext.
    + repeat split. apply Hbad; auto.
  - apply runs_bind, runs_deref. destruct (ngm_CacheClusterId x) as [id|] eqn:Hid.
    + apply runs_ret. repeat split; [by eapply Hok|]. exists x. by rewrite Hnext.
    + repeat split. apply Hbad; auto.
  - apply runs_ret. repeat split; [exists x, role; naive_solver|]. exists x. by rewrite Hnext.
Qed.

Lemma runs_GetPrimaryAndReplica h rg :
  runs h (GetPrimaryAndReplicaCacheClusterIds (Some rg) : M X _) (λ o es h',
    es = [] ∧ h' = h ∧
    match o with
    | Ret r => roles_ok rg ∧ r = chosen_nodes rg
    | Panic p => p = NilDereference ∧ ¬ roles_ok rg
    end).
Proof.
  unfold GetPrimaryAndReplicaCacheClusterIds, chosen_nodes.
  apply runs_bind, runs_deref, runs_bind.
  eapply runs_conseq; [apply (runs_over_members h nodes_after note_role (runs_note_role h))|].
  intros [nodes|p] es h' (-> & -> & Ho); [|done]. destruct Ho as [Hok ->]. cbn beta iota.
  unfold nodes_after. repeat case_bool_decide; apply runs_ret; done.
Qed.
End failover_lemmas.

(** ** What [StartFailoverTest] and [ProgressState] promise *)

Section failover_run.
Variables (ctx : context) (instanceID : string).
Abbreviation id := (GenerateReplicationGroupName instanceID).

Definition describe_event (r : option (list (option ReplicationGroup)) * option error) : event :=
  EvElastiCache (DescribeReplicationGroupsWithContext ctx (Some id)) r.

(** The answer to a call that describes the replication group [rg]. *)
Definition described (rg : ReplicationGroup) (rest : list (option ReplicationGroup)) : event :=
  describe_event (Some (Some rg :: rest), None).

Definition disable_ha_event (err : option error) : event :=
  EvElastiCache (ModifyReplicationGroupWithContext ctx
    (mkModifyReplicationGroupInput (Some id) None None (Some false) (Some false) (Some true)))
    (tt, err).

Definition cutover_event (replica : string) (err : option error) : event :=
  EvElastiCache (ModifyReplicationGroupWithContext ctx
    (mkModifyReplicationGroupInput (Some id) None (Some replica) None None (Some true))) (tt, err).

Definition enable_ha_event (err : option error) : event :=
  EvElastiCache (ModifyReplicationGroupWithContext ctx
    (mkModifyReplicationGroupInput (Some id) None None (Some true) (Some true) (Some true)))
    (tt, err).

(** A failover test starts by switching high availability off; nothing is
    changed when the nodes cannot be told apart. An error of the first call is
    dropped: the code goes on with the nil group. *)
Inductive start_run : list event → outcome (string * option error) → Prop :=
  | start_no_group r :
      (∀ rg rest, r ≠ (Some (Some rg :: rest), None)) →
      start_run [describe_event r] (Panic NilDereference)
  | start_incomplete rg rest :
      ¬ roles_ok rg → start_run [described rg rest] (Panic NilDereference)
  | start_no_nodes rg rest a b e :
      roles_ok rg → chosen_nodes rg = (a, b, Some e) →
      start_run [described rg rest] (Ret ("", Some e))
  | start_done rg rest primary replica l err :
      roles_ok rg → chosen_nodes rg = (primary, replica, None) →
      start_run [described rg rest; EvLog l; disable_ha_event err]
        (Ret match err with Some e => ("", Some e) | None => (primary, None) end).

Section progress_run.
Variables (operation oldPrimaryNode : string).

(** The group is in the middle of a failover test that it is up to the
    broker to take further. *)
Definition test_pending (rg : ReplicationGroup) : Prop :=
  rg_Status rg = Some "available" ∧ operation = "failover" ∧
  rg_AutomaticFailover rg = Some "disabled".

Definition progress_out : Type := ServiceState * string * option error.

Definition stepped (message : string) (err : option error) : progress_out :=
  match err with Some e => ("", message, Some e) | None => ("modifying", message, None) end.

Inductive progress_run : list event → outcome progress_out → Prop :=
  | progress_gone out e :
      has_aws_code ErrCodeReplicationGroupNotFoundFault e = true →
      progress_run [describe_event (out, Some e)]
        (Ret (NonExisting, "Replication group does not exist: " +:+ id, None))
  | progress_error out e :
      has_aws_code ErrCodeReplicationGroupNotFoundFault e = false →
      progress_run [describe_event (out, Some e)] (Ret ("", "", Some e))
  | progress_no_group :
      progress_run [describe_event (Some [], None)]
        (Ret ("", "", Some (ErrorString
          ("Invalid response from AWS: no replication groups returned for " +:+ id))))
  | progress_no_status rg rest :
      rg_Status rg = None →
      progress_run [described rg rest]
        (Ret ("", "", Some (ErrorString
          ("Invalid response from AWS: status is missing for " +:+ id))))
  | progress_report rg rest reads status message :
      rg_Status rg = Some status → ¬ test_pending rg → message_run ctx rg "" reads message →
      progress_run (described rg rest :: reads) (Ret (status, message, None))
  | progress_no_nodes rg rest a b e :
      rg_Status rg = Some "available" → operation = "failover" →
      roles_ok rg → chosen_nodes rg = (a, b, Some e) →
      progress_run [described rg rest] (Ret ("", "", Some e))
  | progress_cutover rg rest reads l primary replica message err :
      test_pending rg → roles_ok rg → chosen_nodes rg = (primary, replica, None) →
      oldPrimaryNode ≠ "" → primary = oldPrimaryNode → message_run ctx rg "modifying" reads message →
      progress_run (described rg rest :: reads ++ [EvLog l; cutover_event replica err])
        (Ret (stepped message err))
  | progress_enable rg rest reads l primary replica message err :
      test_pending rg → roles_ok rg → chosen_nodes rg = (primary, replica, None) →
      oldPrimaryNode = "" ∨ primary ≠ oldPrimaryNode → message_run ctx rg "modifying" reads message →
      progress_run (described rg rest :: reads ++ [EvLog l; enable_ha_event err])
        (Ret (stepped message err))
  | progress_nil_answer reads :
      forallb is_read_event reads = true → Exists nil_answer reads →
      progress_run reads (Panic NilDereference)
  | progress_incomplete rg rest :
      rg_Status rg = Some "available" → operation = "failover" →
      ¬ roles_ok rg ∨ rg_AutomaticFailover rg = None →
      progress_run [described rg rest] (Panic NilDereference).
End progress_run.
End failover_run.

Section failover_run_lemmas.
Context {X : Type} `{ElastiCache X} `{SecretsManager X}.
Implicit Types h : list (gmap string string).

Lemma runs_StartFailoverTest h ctx instanceID :
  runs h (StartFailoverTest ctx instanceID : M X _) (λ o es h',
    h' = h ∧ start_run ctx instanceID es o).
Proof.
  unfold StartFailoverTest. cbv zeta. apply runs_bind.
  eapply runs_conseq; [apply runs_describeReplicationGroup|].
  intros [[[rg|] err]|p] es h' (-> & r & -> & Ho); cbn beta iota.
  - destruct err as [e|]; [done|]. destruct Ho as [rest ->].
    apply runs_bind. eapply runs_conseq; [apply runs_GetPrimaryAndReplica|].
    intros [nodes|p] es h' (-> & -> & Hn); cbn beta iota.
    2: { destruct Hn as [-> Hn]. split; [done|]. by apply start_incomplete. }
    destruct Hn as [Hok ->]. destruct (chosen_nodes rg) as [[a b] [e|]] eqn:Hc.
    { go_step. split; [done|]. by eapply start_no_nodes. }
    do 2 go_step. apply runs_bind, runs_ec_do. intros [[] [e|]]; cbn beta iota; go_step;
      (split; [done|]);
      [by eapply (start_done _ _ rg rest a b _ (Some e))|].
    by eapply (start_done _ _ rg rest a b _ None).
  - apply runs_bind. apply runs_bind, runs_deref. split; [done|].
    apply start_no_group. intros rg rest ->. destruct err as [e|].
    + by destruct Ho as [|[]].
    + by destruct Ho.
  - destruct Ho as [-> ->]. split; [done|]. by apply start_no_group.
Qed.

(** The message, and what is left to do once it is there. *)
Lemma runs_getMessage_then {A} h ctx rg st (k : string → M X A)
    (Q : outcome A → list event → list (gmap string string) → Prop) :
  (∀ es, forallb is_read_event es = true → Exists nil_answer es → Q (Panic NilDereference) es h) →
  (∀ message reads, message_run ctx rg st reads message →
     runs h (k message) (λ o es h', Q o (reads ++ es) h')) →
  runs h (bind (getMessage ctx rg st) k) Q.
Proof.
  intros Hp Hk. apply runs_bind. eapply runs_conseq; [apply runs_getMessage|].
  intros [message|p] es h' (-> & Hes & Hm); [by apply Hk|].
  destruct Hm as [-> Hnil]. by apply Hp.
Qed.

(** A report of the status as it is. *)
Lemma runs_report h ctx instanceID operation old rg rest status :
  rg_Status rg = Some status → ¬ test_pending operation rg →
  runs h (bind (getMessage ctx rg "") (λ message, ret (status, message, None)) : M X _)
    (λ o es h', h' = h ∧
       progress_run ctx instanceID operation old (described ctx instanceID rg rest :: es) o).
Proof.
  intros Hs Hn. apply runs_getMessage_then.
  - intros es Hes Hnil. split; [done|]. apply progress_nil_answer; [done|]. by apply Exists_cons_tl.
  - intros message reads Hreads. go_step. split; [done|]. rewrite app_nil_r.
    by apply progress_report.
Qed.

(** One step of a failover test. *)
Lemma runs_failover_step h ctx instanceID old rg rest primary replica :
  test_pending "failover" rg → roles_ok rg → chosen_nodes rg = (primary, replica, None) →
  runs h (failover_step ctx instanceID old rg primary replica : M X _)
    (λ o es h', h' = h ∧
       progress_run ctx instanceID "failover" old (described ctx instanceID rg rest :: es) o).
Proof.
  intros Hp Hok Hc. unfold failover_step. apply runs_getMessage_then.
  { intros es Hes Hnil. split; [done|]. apply progress_nil_answer; [done|]. by apply Exists_cons_tl. }
  intros message reads Hreads.
  destruct (negb (bool_decide (old = "")) && bool_decide (primary = old)) eqn:Hold.
  - rewrite andb_true_iff, negb_true_iff, bool_decide_eq_false, bool_decide_eq_true in Hold.
    destruct Hold as [Hne ->]. do 2 go_step.
    match goal with |- context [EvLog ?l] => set (line := l) end.
    apply runs_bind, runs_ec_do. intros [[] err]. pose proof (progress_cutover ctx instanceID "failover" old rg rest
      reads line old replica message err Hp Hok Hc Hne eq_refl Hreads) as Hrun.
    destruct err as [e|]; cbn beta iota; go_step; (split; [done|]); exact Hrun.
  - assert (old = "" ∨ primary ≠ old) as Hne.
    { rewrite andb_false_iff, negb_false_iff, bool_decide_eq_false, bool_decide_eq_true in Hold.
      naive_solver. }
    do 2 go_step.
    match goal with |- context [EvLog ?l] => set (line := l) end.
    apply runs_bind, runs_ec_do. intros [[] err]. pose proof (progress_enable ctx instanceID "failover" old rg rest
      reads line primary replica message err Hp Hok Hc Hne Hreads) as Hrun.
    destruct err as [e|]; cbn beta iota; go_step; (split; [done|]); exact Hrun.
Qed.

(** The part of [ProgressState] for a group that has been described. *)
Lemma runs_ProgressState h ctx instanceID operation old :
  runs h (ProgressState ctx instanceID operation old : M X _) (λ o es h',
    h' = h ∧ progress_run ctx instanceID operation old es o).
Proof.
  unfold ProgressState. cbv zeta. apply runs_bind.
  eapply runs_conseq; [apply runs_describeReplicationGroup|].
  intros [[[rg|] [e|]]|p] es h' (-> & r & -> & Ho); cbn beta iota; [done| | | |].
  - destruct Ho as [rest ->]. apply runs_bind, runs_deref.
    destruct (rg_Status rg) as [status|] eqn:Hs.
    2: { go_step. split; [done|]. by apply progress_no_status. }
    destruct (bool_decide (status = "available") && bool_decide (operation = "failover")) eqn:Hf.
    2: { apply runs_report; [done|]. intros (Ha & -> & _). rewrite Hs in Ha. injection Ha as ->. done. }
    rewrite andb_true_iff, !bool_decide_eq_true in Hf. destruct Hf as [-> ->].
    apply runs_bind. eapply runs_conseq; [apply runs_GetPrimaryAndReplica|].
    intros [nodes|p] es h' (-> & -> & Hn); cbn beta iota.
    2: { destruct Hn as [-> Hn]. split; [done|]. apply progress_incomplete; auto. }
    destruct Hn as [Hok ->]. destruct (chosen_nodes rg) as [[a b] [e|]] eqn:Hc.
    { go_step. split; [done|]. by eapply progress_no_nodes. }
    apply runs_bind, runs_deref. destruct (rg_AutomaticFailover rg) as [af|] eqn:Haf.
    2: { split; [done|]. apply progress_incomplete; auto. }
    case_bool_decide as Hd; [subst af; by apply runs_failover_step|].
    apply runs_report; [done|]. intros (_ & _ & Ha). congruence.
  - destruct Ho as [He|[-> ->]].
    + destruct r as [out err]. simpl in He. subst err.
      destruct (has_aws_code _ e) eqn:Hcode; go_step; (split; [done|]).
      * by apply progress_gone.
      * by apply progress_error.
    + cbn [has_aws_code]. go_step. split; [done|]. apply progress_no_group.
  - destruct Ho as [rest ->]. apply runs_bind, runs_deref. split; [done|].
    apply progress_nil_answer; [done|]. constructor. right. by exists rest.
  - destruct Ho as [-> ->]. split; [done|]. apply progress_nil_answer; [done|].
    constructor. by left.
Qed.
End failover_run_lemmas.

(** ** Properties *)

(** C33: the nodes of a failover: [GetPrimaryAndReplicaCacheClusterIds] returns
    the ids of the last primary and of the last replica of the answer, or the
    error for the first of the two that is missing; it panics exactly when a
    group, a member, the role of a member or the id of a primary or replica is
    missing. *)
Theorem chosen_nodes_correct {X : Type} (rg : ReplicationGroup) (h : list (gmap string string)) :
  runs h (GetPrimaryAndReplicaCacheClusterIds (Some rg) : M X _) (λ o es h',
    es = [] ∧ h' = h ∧
    match o with
    | Ret r => roles_ok rg ∧ r = chosen_nodes rg
    | Panic p => p = NilDereference ∧ ¬ roles_ok rg
    end).
Proof. apply runs_GetPrimaryAndReplica. Qed.

(** C17: [RedisProvider.StartFailoverTest] refines [start_run], whatever AWS
    answers: it switches automatic failover and multi-AZ off, and returns the
    primary node, only for a group whose primary and replica are known; when AWS
    does not describe a group, an error included, it panics. *)
Theorem start_failover_correct {X : Type} `{ElastiCache X}
    (ctx : context) (instanceID : string) (h : list (gmap string string)) :
  runs h (StartFailoverTest ctx instanceID : M X _) (λ o es h',
    h' = h ∧ start_run ctx instanceID es o).
Proof. apply runs_StartFailoverTest. Qed.

(** C3: [RedisProvider.ProgressState] refines [progress_run], whatever AWS
    answers: it changes the group only in a failover test that is pending (the
    group is available with automatic failover disabled), with one call: the
    cutover to the replica while the primary is still the one the test started
    with, and the return to high availability otherwise; in all other cases it
    only reads, and reports the status of the group with the exact status message
    ([message_run]), that it does not exist, or an error. *)
Theorem progress_state_correct {X : Type} `{ElastiCache X}
    (ctx : context) (instanceID operation oldPrimaryNode : string) (h : list (gmap string string)) :
  runs h (ProgressState ctx instanceID operation oldPrimaryNode : M X _) (λ o es h',
    h' = h ∧ progress_run ctx instanceID operation oldPrimaryNode es o).
Proof. apply runs_ProgressState. Qed.

(** C39: an error of AWS crashes the start of a failover test: when the
    description of the group fails, [StartFailoverTest] dereferences a nil
    pointer instead of returning the error. *)
Theorem start_failover_error_panics {X : Type} `{ElastiCache X}
    (ctx : context) (instanceID : string) (s : state X) (e : error) :
  (ec_serve (DescribeReplicationGroupsWithContext ctx
     (Some (GenerateReplicationGroupName instanceID))) (st_world s)).1.2 = Some e →
  (StartFailoverTest ctx instanceID s).1 = Panic NilDereference.
Proof.
  intros He. unfold StartFailoverTest, describeReplicationGroup, ec_do, bind, external.
  cbn [fst snd]. destruct (ec_serve _ _) as [[out err] w] eqn:Hs. simpl in He. by rewrite He.
Qed.

Definition ec_throttled (c : ec_call) : ec_out c * option error :=
  match c return ec_out c * option error with
  | DescribeReplicationGroupsWithContext _ _ => (None, Some (AwsError "Throttling" "rate exceeded"))
  | c => ec_empty c
  end.

Lemma start_failover_error_panics_witness :
  (StartFailoverTest RequestContext "instance"
     (bench_start [] (mkBench 0 ec_throttled sm_empty pv_empty))).1 = Panic NilDereference.
Proof.
  apply (start_failover_error_panics RequestContext "instance" _ (AwsError "Throttling" "rate exceeded")).
  reflexivity.
Defined.
