(* ===== verification/RedisCredentials.v ===== *)
(** * The Redis provider: the credentials of a binding

    What [RedisProvider.GenerateCredentials] returns for every answer of AWS,
    and that a client reads the host, the port and the token back from the
    URI. *)
From S2P Require Import Prelude GoBase Sdk Providers Go Interfaces Bench Naming Random Url.
From S2P Require Import RedisBase RedisProvision RedisQuery.
Local Open Scope Z_scope.

(** ** The URI *)

Lemma pretty_N_char_digit x : host_char (pretty_N_char x) = true.
Proof. unfold pretty_N_char. by repeat case_match. Qed.

Lemma pretty_N_go_host x s :
  string_forallb host_char s = true → string_forallb host_char (pretty_N_go x s) = true.
Proof.
  revert s. induction (N.lt_wf_0 x) as [x _ IH]. intros s Hs.
  destruct (decide (x = 0)%N) as [->|Hx]; [by rewrite pretty_N_go_0|].
  rewrite pretty_N_go_step by lia. apply IH; [apply N.div_lt; lia|].
  cbn [string_forallb]. by rewrite pretty_N_char_digit, Hs.
Qed.

(** A number in decimal needs no escape. *)
Lemma pretty_Z_host (z : Z) : string_forallb host_char (pretty z) = true.
Proof.
  assert (∀ p : positive, string_forallb host_char (pretty p) = true) as Hp.
  { intros p. by apply (pretty_N_go_host (N.pos p)). }
  unfold pretty, pretty_Z. destruct z; [done|apply Hp|].
  rewrite string_forallb_app. cbn [string_forallb]. by rewrite Hp.
Qed.

(** ** What [GenerateCredentials] promises *)

(** The endpoint to connect to: that of the cluster, or the primary endpoint of
    the first node group; nil where the code would dereference nil. *)
Inductive endpoint_of (rg : ReplicationGroup) : option (option Endpoint) → Prop :=
  | endpoint_configuration ep :
      rg_ConfigurationEndpoint rg = Some ep → endpoint_of rg (Some (Some ep))
  | endpoint_missing :
      rg_ConfigurationEndpoint rg = None → rg_NodeGroups rg = [] → endpoint_of rg (Some None)
  | endpoint_primary g rest ep :
      rg_ConfigurationEndpoint rg = None → rg_NodeGroups rg = Some g :: rest →
      ng_PrimaryEndpoint g = Some ep → endpoint_of rg (Some (Some ep))
  | endpoint_nil_group rest :
      rg_ConfigurationEndpoint rg = None → rg_NodeGroups rg = None :: rest → endpoint_of rg None
  | endpoint_nil_primary g rest :
      rg_ConfigurationEndpoint rg = None → rg_NodeGroups rg = Some g :: rest →
      ng_PrimaryEndpoint g = None → endpoint_of rg None.

Definition endpoint_complete (ep : Endpoint) (host : string) (port : Z) : Prop :=
  ep_Address ep = Some host ∧ ep_Port ep = Some port.

Section credentials_run.
Variables (p : RedisProvider) (ctx : context) (instanceID : string).
Abbreviation id := (GenerateReplicationGroupName instanceID).
Abbreviation describe r :=
  (EvElastiCache (DescribeReplicationGroupsWithContext ctx (Some id)) r).
Abbreviation secret r :=
  (EvSecretsManager (GetSecretValueWithContext ctx (Some (getAuthTokenPath p instanceID))) r).

Definition credentials (host : string) (port : Z) (token : string) : Credentials :=
  mkCredentials host port id token (url_string "rediss" "" token (host +:+ ":" +:+ pretty port)) true.

Inductive credentials_run : list event → outcome (option Credentials * option error) → Prop :=
  | credentials_not_found out e :
      has_aws_code ErrCodeReplicationGroupNotFoundFault e = true →
      credentials_run [describe (out, Some e)]
        (Ret (None, Some (ErrorString ("Replication group does not exist: " +:+ id))))
  | credentials_error out e :
      has_aws_code ErrCodeReplicationGroupNotFoundFault e = false →
      credentials_run [describe (out, Some e)] (Ret (None, Some e))
  | credentials_no_group :
      credentials_run [describe (Some [], None)]
        (Ret (None, Some (ErrorString
          ("Invalid response from AWS: no replication groups returned for " +:+ id))))
  | credentials_no_endpoint rg rest :
      endpoint_of rg (Some None) →
      credentials_run [describe (Some (Some rg :: rest), None)]
        (Ret (None, Some (ErrorString
          ("Invalid response from AWS: no node groups returned for " +:+ id))))
  | credentials_no_secret rg rest ep host port out e :
      endpoint_of rg (Some (Some ep)) → endpoint_complete ep host port →
      credentials_run [describe (Some (Some rg :: rest), None); secret (out, Some e)]
        (Ret (None, Some e))
  | credentials_done rg rest ep host port token :
      endpoint_of rg (Some (Some ep)) → endpoint_complete ep host port →
      credentials_run [describe (Some (Some rg :: rest), None); secret (Some token, None)]
        (Ret (Some (credentials host port (StringValue token)), None))
  | credentials_nil_answer r :
      r = (None, None) ∨ (∃ rest, r = (Some (None :: rest), None)) →
      credentials_run [describe r] (Panic NilDereference)
  | credentials_nil_endpoint rg rest oep :
      endpoint_of rg oep →
      oep = None ∨ (∃ ep, oep = Some (Some ep) ∧ ∀ host port, ¬ endpoint_complete ep host port) →
      credentials_run [describe (Some (Some rg :: rest), None)] (Panic NilDereference)
  | credentials_nil_secret rg rest ep host port :
      endpoint_of rg (Some (Some ep)) → endpoint_complete ep host port →
      credentials_run [describe (Some (Some rg :: rest), None); secret (None, None)]
        (Panic NilDereference).
End credentials_run.

(** Where credentials come from: the endpoint of the group that AWS described and
    the secret of the instance. *)
Definition bound_from (p : RedisProvider) (ctx : context) (instanceID : string) (c : Credentials)
    (es : list event) : Prop :=
  ∃ rg rest ep token,
    es = [EvElastiCache (DescribeReplicationGroupsWithContext ctx
            (Some (GenerateReplicationGroupName instanceID))) (Some (Some rg :: rest), None);
          EvSecretsManager (GetSecretValueWithContext ctx (Some (getAuthTokenPath p instanceID)))
            (Some token, None)] ∧
    endpoint_of rg (Some (Some ep)) ∧ ep_Address ep = Some (cr_Host c) ∧
    ep_Port ep = Some (cr_Port c) ∧ cr_Password c = default "" token.

(** ** Lemmas *)

Lemma credentials_uri instanceID host port token :
  string_forallb host_char host = true →
  ∃ password, cr_URI (credentials instanceID host port token) =
      "rediss://:" +:+ password +:+ "@" +:+ host +:+ ":" +:+ pretty port ∧
    url_unescape password = Some token ∧ (valid_token token = true → password = token).
Proof.
  intros Hhost. exists (url_escape EncodeUserPassword token). split; [|split].
  - unfold credentials, url_string. cbn [cr_URI].
    rewrite (url_escape_host (host +:+ _)); [done|].
    rewrite !string_forallb_app, Hhost, pretty_Z_host. done.
  - apply url_unescape_escape.
  - unfold valid_token. rewrite !andb_true_iff. intros [[_ Ht] _]. by apply url_escape_alnum.
Qed.

Section credentials_lemmas.
Context {X : Type} `{ElastiCache X} `{SecretsManager X}.
Implicit Types h : list (gmap string string).

Lemma runs_choose_endpoint h rg :
  runs h (choose_endpoint rg : M X _) (λ o es h',
    es = [] ∧ h' = h ∧
    match o with
    | Ret oep => endpoint_of rg (Some oep)
    | Panic p => p = NilDereference ∧ endpoint_of rg None
    end).
Proof.
  unfold choose_endpoint. destruct (rg_ConfigurationEndpoint rg) as [ep|] eqn:Hc.
  { go_step. repeat split. by constructor. }
  destruct (rg_NodeGroups rg) as [|[g|] rest] eqn:Hg.
  - go_step. repeat split. by constructor.
  - apply runs_bind, runs_deref, runs_bind, runs_deref.
    destruct (ng_PrimaryEndpoint g) as [ep|] eqn:Hep.
    + apply runs_ret. repeat split. by eapply endpoint_primary.
    + repeat split. by eapply endpoint_nil_primary.
  - apply runs_bind, runs_deref. repeat split. by eapply endpoint_nil_group.
Qed.

Lemma runs_GenerateCredentials h p ctx instanceID bindingID :
  runs h (GenerateCredentials p ctx instanceID bindingID : M X _) (λ o es h',
    h' = h ∧ credentials_run p ctx instanceID es o).
Proof.
  unfold GenerateCredentials. cbv zeta. apply runs_bind.
  eapply runs_conseq; [apply runs_describeReplicationGroup|].
  intros [[[rg|] [e|]]|p'] es h' (-> & r & -> & Ho); cbn beta iota; [done| | | |].
  - destruct Ho as [rest ->]. apply runs_bind, runs_deref, runs_bind.
    eapply runs_conseq; [apply runs_choose_endpoint|].
    intros [[ep|]|p'] es h' (-> & -> & Hep); cbn beta iota.
    + apply runs_bind, runs_deref. destruct (ep_Address ep) as [host|] eqn:Hhost.
      2: { split; [done|]. eapply credentials_nil_endpoint; [done|]. right. exists ep.
           split; [done|]. intros ? ? []. congruence. }
      apply runs_bind, runs_deref. destruct (ep_Port ep) as [port|] eqn:Hport.
      2: { split; [done|]. eapply credentials_nil_endpoint; [done|]. right. exists ep.
           split; [done|]. intros ? ? []. congruence. }
      apply runs_bind, runs_sm_do. intros [out [e|]]; cbn beta iota.
      { go_step. split; [done|]. by eapply credentials_no_secret. }
      apply runs_bind, runs_deref. destruct out as [token|]; [go_step|]; (split; [done|]).
      * by eapply credentials_done.
      * by eapply credentials_nil_secret.
    + go_step. split; [done|]. by eapply credentials_no_endpoint.
    + destruct Hep as [-> Hep]. split; [done|]. eapply credentials_nil_endpoint; [done|]. by left.
  - destruct Ho as [He|[-> ->]].
    + destruct r as [out err]. simpl in He. subst err.
      destruct (has_aws_code _ e) eqn:Hcode; go_step; (split; [done|]); by constructor.
    + cbn [has_aws_code]. go_step. split; [done|]. constructor.
  - destruct Ho as [rest ->]. apply runs_bind, runs_deref. split; [done|].
    apply credentials_nil_answer. right. by exists rest.
  - destruct Ho as [-> ->]. split; [done|]. apply credentials_nil_answer. by left.
Qed.
End credentials_lemmas.

(** ** Properties *)

(** C25: [RedisProvider.GenerateCredentials] refines [credentials_run], whatever
    AWS answers: the credentials have the address and the port of the cluster
    endpoint, or else of the primary endpoint of the first node group, the token
    of the secret, and TLS; every missing piece is an error or, for the pointers
    the code does not check, a panic; nothing is changed. *)
Theorem credentials_correct {X : Type} `{ElastiCache X} `{SecretsManager X}
    (p : RedisProvider) (ctx : context) (instanceID bindingID : string)
    (h : list (gmap string string)) :
  runs h (GenerateCredentials p ctx instanceID bindingID : M X _) (λ o es h',
    h' = h ∧ credentials_run p ctx instanceID es o).
Proof. apply runs_GenerateCredentials. Qed.

(** C26: a client reads back from the URI what was bound: when
    [RedisProvider.GenerateCredentials] returns credentials, AWS described the
    group with their host and port and the secret holds their password; if the
    host is a host name or an IPv4 address, the part of the URI after the [@] is
    the host, a colon and the port, and the part before it decodes to the
    password, whatever its bytes; a token of the broker's own appears in it as it
    is. *)
Theorem credentials_uri_exact {X : Type} `{ElastiCache X} `{SecretsManager X}
    (p : RedisProvider) (ctx : context) (instanceID bindingID : string)
    (h : list (gmap string string)) :
  runs h (GenerateCredentials p ctx instanceID bindingID : M X _) (λ o es h',
    ∀ c, o = Ret (Some c, None) → bound_from p ctx instanceID c es ∧
      (string_forallb host_char (cr_Host c) = true → ∃ password,
        cr_URI c = "rediss://:" +:+ password +:+ "@" +:+ cr_Host c +:+ ":" +:+ pretty (cr_Port c) ∧
        url_unescape password = Some (cr_Password c) ∧
        (valid_token (cr_Password c) = true → password = cr_Password c))).
Proof.
  eapply runs_conseq; [apply runs_GenerateCredentials|]. intros o es h' [_ Hrun] c ->.
  inversion Hrun as [| | | | |rg rest ep host port token Hep [Hhost Hport]| | |]; subst. split.
  - by exists rg, rest, ep, token.
  - intros Hh. by apply credentials_uri.
Qed.

(** A group whose host name needs no escape, with a token that does. *)
Definition ec_one_group (c : ec_call) : ec_out c * option error :=
  match c return ec_out c * option error with
  | DescribeReplicationGroupsWithContext _ _ => (Some [Some (mkReplicationGroup (Some "cf-x")
      (Some "available") [] [] None None
      (Some (mkEndpoint (Some "master.cf-x.cache.amazonaws.com") (Some 6379))))], None)
  | c => ec_empty c
  end.

Definition sm_one_secret (c : sm_call) : sm_out c * option error :=
  match c return sm_out c * option error with
  | GetSecretValueWithContext _ _ => (Some (Some "a/b@c"), None)
  | c => sm_empty c
  end.

Lemma credentials_uri_exact_witness :
  let run := GenerateCredentials bench_provider RequestContext "instance" "binding" : M bench _ in
  runs [] run (λ o es h',
    ∀ c, o = Ret (Some c, None) → bound_from bench_provider RequestContext "instance" c es ∧
      (string_forallb host_char (cr_Host c) = true → ∃ password,
        cr_URI c = "rediss://:" +:+ password +:+ "@" +:+ cr_Host c +:+ ":" +:+ pretty (cr_Port c) ∧
        url_unescape password = Some (cr_Password c) ∧
        (valid_token (cr_Password c) = true → password = cr_Password c))) ∧
  ∃ c, (run (bench_start [] (mkBench 0 ec_one_group sm_one_secret pv_empty))).1 = Ret (Some c, None) ∧
    cr_URI c = "rediss://:a%2Fb%40c@master.cf-x.cache.amazonaws.com:6379".
Proof.
  intros run. split; [apply (credentials_uri_exact bench_provider RequestContext "instance" "binding" [])|].
  eexists. split; vm_compute; reflexivity.
Defined.
