(* ===== verification/RedisSnapshots.v ===== *)
(** * The Redis provider: snapshots and tags

    What [RedisProvider.FindSnapshots] and [GetInstanceTags] return for every
    answer of AWS. *)
From S2P Require Import Prelude GoBase Sdk Providers Go Interfaces Bench Naming RedisBase.
From S2P Require Import RedisProvision RedisQuery.
Local Open Scope Z_scope.

(** ** What [FindSnapshots] promises *)

(** A complete snapshot of the listing and its tags. *)
Record row := mkRow { row_Name : string; row_CreateTime : Z; row_Tags : list Tag }.

(** [s] has what the code needs: a name and a first node with a time. *)
Definition snapshot_data (s : Snapshot) : option (string * Z) :=
  match sn_SnapshotName s, sn_NodeSnapshots s with
  | Some name, Some node :: _ => (λ t, (name, t)) <$> ns_SnapshotCreateTime node
  | _, _ => None
  end.

(** [s] is incomplete in a way the code notices. *)
Definition snapshot_invalid (s : Snapshot) : Prop :=
  sn_SnapshotName s = None ∨ sn_NodeSnapshots s = [] ∨
  ∃ node rest, sn_NodeSnapshots s = Some node :: rest ∧ ns_SnapshotCreateTime node = None.

(** [s] has a nil node, which the code dereferences. *)
Definition snapshot_nil (s : Snapshot) : Prop :=
  is_Some (sn_SnapshotName s) ∧ ∃ rest, sn_NodeSnapshots s = None :: rest.

Definition row_of (s : option Snapshot) (r : row) : Prop :=
  ∃ x, s = Some x ∧ snapshot_data x = Some (row_Name r, row_CreateTime r).

Definition row_info (r : row) : SnapshotInfo :=
  mkSnapshotInfo (row_Name r) (row_CreateTime r) (tags_spec (row_Tags r)).

(** The snapshots of the instance, in the order of the listing. *)
Definition snapshots_of (instanceID : string) (rows : list row) : list SnapshotInfo :=
  filter (λ i, si_Tags i !! "instance-id" = Some instanceID) (row_info <$> rows).

Section snapshots_run.
Variables (p : RedisProvider) (ctx : context) (instanceID : string).

Definition list_tags_event (name : string)
    (r : option (list (option Tag)) * option error) : event :=
  EvElastiCache (ListTagsForResourceWithContext ctx (Some (snapshotARN p name))) r.

Definition row_event (r : row) : event :=
  list_tags_event (row_Name r) (Some (Some <$> row_Tags r), None).

Definition invalid_snapshot : error := ErrorString
  ("Invalid response from AWS: Missing values for snapshot for elasticache cluster "
   +:+ instanceID).

(** From the snapshot [s] on nothing is looked at any more. *)
Inductive snapshot_stops (s : option Snapshot)
    : list event → outcome (list SnapshotInfo * option error) → Prop :=
  | stop_nil : s = None → snapshot_stops s [] (Panic NilDereference)
  | stop_nil_node x : s = Some x → snapshot_nil x → snapshot_stops s [] (Panic NilDereference)
  | stop_invalid x :
      s = Some x → snapshot_invalid x → snapshot_stops s [] (Ret ([], Some invalid_snapshot))
  | stop_error x name t out e :
      s = Some x → snapshot_data x = Some (name, t) →
      snapshot_stops s [list_tags_event name (out, Some e)] (Ret ([], Some e))
  | stop_nil_tags x name t r :
      s = Some x → snapshot_data x = Some (name, t) →
      r = None ∨ (∃ l, r = Some l ∧ None ∈ l) →
      snapshot_stops s [list_tags_event name (r, None)] (Panic NilDereference).

Inductive collect_run (l : list (option Snapshot))
    : list event → outcome (list SnapshotInfo * option error) → Prop :=
  | collect_done rows :
      Forall2 row_of l rows →
      collect_run l (row_event <$> rows) (Ret (snapshots_of instanceID rows, None))
  | collect_stopped dn rows s rest es o :
      l = dn ++ s :: rest → Forall2 row_of dn rows → snapshot_stops s es o →
      collect_run l ((row_event <$> rows) ++ es) o.

Inductive snapshots_run : list event → outcome (list SnapshotInfo * option error) → Prop :=
  | snapshots_error pages e :
      snapshots_run [EvElastiCache (DescribeSnapshotsPagesWithContext ctx) (pages, Some e)]
        (Ret ([], Some e))
  | snapshots_listed pages es o :
      collect_run (mjoin pages) es o →
      snapshots_run (EvElastiCache (DescribeSnapshotsPagesWithContext ctx) (pages, None) :: es) o.
End snapshots_run.

(** What [GetInstanceTags] makes of the answer [r]. *)
Definition tags_result (r : option (list (option Tag)) * option error)
    (o : outcome (gmap string string * option error)) : Prop :=
  match o with
  | Ret (tags, Some e) => tags = ∅ ∧ r.2 = Some e
  | Ret (tags, None) => ∃ ts, r = (Some (Some <$> ts), None) ∧ tags = tags_spec ts
  | Panic q => q = NilDereference ∧ (r = (None, None) ∨ ∃ l, r = (Some l, None) ∧ None ∈ l)
  end.

(** ** Lemmas *)

Lemma snapshots_of_snoc instanceID rows r :
  snapshots_of instanceID (rows ++ [r]) =
    snapshots_of instanceID rows ++
    (if bool_decide (tags_spec (row_Tags r) !! "instance-id" = Some instanceID)
     then [row_info r] else []).
Proof.
  unfold snapshots_of. rewrite fmap_app, list.filter_app. f_equal. simpl.
  case_bool_decide; [by rewrite filter_cons_True|by rewrite filter_cons_False].
Qed.

Lemma mjoin_foldl {A} (pages : list (list A)) :
  foldl (λ acc page, acc ++ page) [] pages = mjoin pages.
Proof.
  assert (∀ acc, foldl (λ acc page, acc ++ page) acc pages = acc ++ mjoin pages) as Hg.
  { induction pages as [|page pages IH]; intros acc; simpl; [by rewrite app_nil_r|].
    by rewrite IH, <-app_assoc. }
  by rewrite Hg.
Qed.

Section snapshots_lemmas.
Context {X : Type} `{ElastiCache X}.
Implicit Types h : list (gmap string string).

(** The tags of a complete snapshot. *)
Lemma runs_snapshot_tags h p ctx name (k : gmap string string → M X (list SnapshotInfo * option error))
    (Q : outcome (list SnapshotInfo * option error) → list event → list (gmap string string) → Prop) :
  (∀ out e, Q (Ret ([], Some e)) [list_tags_event p ctx name (out, Some e)] h) →
  (∀ r, r = None ∨ (∃ l, r = Some l ∧ None ∈ l) →
     Q (Panic NilDereference) [list_tags_event p ctx name (r, None)] h) →
  (∀ ts, runs h (k (tags_spec ts)) (λ o es h',
     Q o (list_tags_event p ctx name (Some (Some <$> ts), None) :: es) h')) →
  runs h (bind (ec_do (ListTagsForResourceWithContext ctx (Some (snapshotARN p name)))) (λ r,
    match r with
    | (_, Some err) => ret ([], Some err)
    | (tagList, None) => bind (deref tagList) (λ tagList, bind (tagsValues tagList) k)
    end) : M X _) Q.
Proof.
  intros Herr Hnil Hk. apply runs_bind, runs_ec_do. intros [out [e|]]; cbn beta iota.
  { go_step. apply Herr. }
  apply runs_bind, runs_deref. destruct out as [l|]; [|by apply Hnil; left].
  apply runs_bind. eapply runs_conseq; [apply runs_tagsValues|].
  intros [tags|q] es h' (-> & -> & Ho).
  - destruct Ho as (ts & -> & ->). apply Hk.
  - destruct Ho as [-> Hin]. apply Hnil. right. by exists l.
Qed.

Lemma runs_collect_snapshots h p ctx instanceID l dn rows :
  Forall2 row_of dn rows →
  runs h (collect_snapshots p ctx instanceID l (snapshots_of instanceID rows) : M X _)
    (λ o es h', h' = h ∧
       collect_run p ctx instanceID (dn ++ l) ((row_event p ctx <$> rows) ++ es) o).
Proof.
  revert dn rows. induction l as [|s l IH]; intros dn rows Hrows; cbn [collect_snapshots].
  { go_step. split; [done|]. rewrite !app_nil_r. by apply collect_done. }
  assert (∀ es o, snapshot_stops p ctx instanceID s es o →
    collect_run p ctx instanceID (dn ++ s :: l) ((row_event p ctx <$> rows) ++ es) o) as Hstop
    by (intros; by eapply collect_stopped).
  apply runs_bind, runs_deref. destruct s as [s|]; [|split; [done|]; by apply Hstop, stop_nil].
  assert (snapshot_invalid s → collect_run p ctx instanceID (dn ++ Some s :: l)
    ((row_event p ctx <$> rows) ++ []) (Ret ([], Some (invalid_snapshot instanceID)))) as Hinvalid
    by (intros; by eapply Hstop, stop_invalid).
  destruct (sn_SnapshotName s) as [name|] eqn:Hname; [|go_step; split; [done|]; by apply Hinvalid; left].
  destruct (sn_NodeSnapshots s) as [|[node|] rest] eqn:Hnode.
  - go_step. split; [done|]. apply Hinvalid. by right; left.
  - apply runs_bind, runs_deref. destruct (ns_SnapshotCreateTime node) as [t|] eqn:Ht.
    2: { go_step. split; [done|]. apply Hinvalid. right. right. by exists node, rest. }
    assert (snapshot_data s = Some (name, t)) as Hd
      by (unfold snapshot_data; by rewrite Hname, Hnode, Ht).
    apply runs_snapshot_tags.
    + intros out e. split; [done|]. by eapply Hstop, stop_error.
    + intros r Hr. split; [done|]. by eapply Hstop, stop_nil_tags.
    + intros ts. pose proof (snapshots_of_snoc instanceID rows (mkRow name t ts)) as Hsnoc.
      simpl in Hsnoc.
      replace (if bool_decide _ then _ else _) with (snapshots_of instanceID (rows ++ [mkRow name t ts]))
        by (rewrite Hsnoc; case_bool_decide; by rewrite ?app_nil_r).
      eapply runs_conseq; [apply (IH (dn ++ [Some s]))|].
      * apply Forall2_app; [done|]. constructor; [by exists s|constructor].
      * intros o es h' [-> Hrun]. split; [done|].
        by rewrite fmap_app, <-!app_assoc in Hrun.
  - apply runs_bind, runs_deref. split; [done|]. eapply Hstop, stop_nil_node; [done|].
    split; [by eexists|by exists rest].
Qed.

Lemma runs_FindSnapshots h p ctx instanceID :
  runs h (FindSnapshots p ctx instanceID : M X _) (λ o es h',
    h' = h ∧ snapshots_run p ctx instanceID es o).
Proof.
  unfold FindSnapshots. apply runs_bind, runs_ec_do. intros [pages [e|]]; cbn beta iota.
  { go_step. split; [done|]. apply snapshots_error. }
  cbv zeta. rewrite mjoin_foldl.
  eapply runs_conseq; [by apply (runs_collect_snapshots h p ctx instanceID _ [] [])|].
  intros o es h' [-> Hrun]. split; [done|]. by apply snapshots_listed.
Qed.
End snapshots_lemmas.

(** ** Properties *)

(** C24: [RedisProvider.FindSnapshots] refines [snapshots_run], whatever AWS
    answers: it reads the tags of every snapshot of every page, in order, and
    returns exactly those whose tag [instance-id] is the instance, with their
    name, the time of their first node and all their tags; an incomplete
    snapshot or an error stops it with no snapshot at all. *)
Theorem find_snapshots_correct {X : Type} `{ElastiCache X}
    (p : RedisProvider) (ctx : context) (instanceID : string) (h : list (gmap string string)) :
  runs h (FindSnapshots p ctx instanceID : M X _) (λ o es h',
    h' = h ∧ snapshots_run p ctx instanceID es o).
Proof. apply runs_FindSnapshots. Qed.

(** [RedisProvider.GetInstanceTags] returns the tags of the replication
    group, the last one of a key, from one call for its ARN. *)
Theorem instance_tags_correct {X : Type} `{ElastiCache X}
    (p : RedisProvider) (ctx : context) (instanceID : string) (h : list (gmap string string)) :
  runs h (GetInstanceTags p ctx instanceID : M X _) (λ o es h', h' = h ∧ ∃ r,
    es = [EvElastiCache (ListTagsForResourceWithContext ctx
            (Some (replicationGroupARN p (GenerateReplicationGroupName instanceID)))) r] ∧
    tags_result r o).
Proof.
  unfold GetInstanceTags, tags_result. cbv zeta. apply runs_bind, runs_ec_do. intros [out [e|]]; cbn beta iota.
  { go_step. split; [done|]. by eexists. }
  apply runs_bind, runs_deref. destruct out as [l|].
  2: { split; [done|]. eexists. split; [done|]. auto. }
  apply runs_bind. eapply runs_conseq; [apply runs_tagsValues|].
  intros [tags|q] es h' (-> & -> & Ho); [go_step|]; (split; [done|]); eexists; (split; [done|]).
  - destruct Ho as (ts & -> & ->). by exists ts.
  - destruct Ho as [-> Hin]. split; [done|]. right. eauto.
Qed.
