(* ===== verification/RedisParameters.v ===== *)
(** * The Redis provider: the parameters of an instance

    What [RedisProvider.GetInstanceParameters] returns for every answer of
    AWS. *)
From S2P Require Import Prelude GoBase Sdk Providers Go Interfaces Bench Naming RedisBase.
From S2P Require Import RedisProvision RedisQuery RedisFailover.
Local Open Scope Z_scope.

(** ** What [GetInstanceParameters] promises *)

(** A parameter needs a name, and the policy a value. *)
Definition parameter_ok (p : option SdkParameter) : Prop :=
  ∃ x name, p = Some x ∧ par_ParameterName x = Some name ∧
    (name = "maxmemory-policy" → is_Some (par_ParameterValue x)).

Definition cache_parameter (x : SdkParameter) : CacheParameter :=
  mkCacheParameter (default "" (par_ParameterName x)) (default "" (par_ParameterValue x)).

(** The last policy of a list of parameters. *)
Definition policy_of (l : list SdkParameter) : string :=
  default "" (list.last (omap (λ x,
    if bool_decide (par_ParameterName x = Some "maxmemory-policy")
    then par_ParameterValue x else None) l)).

(** The parameters of the group [rg], its nodes by their role. *)
Definition instance_parameters (rg : ReplicationGroup) (window : string) (l : list SdkParameter)
    : InstanceParameters :=
  mkInstanceParameters window (default "" (rg_SnapshotWindow rg)) (policy_of l)
    (cache_parameter <$> l)
    (role_ids "primary" (all_members rg)) (role_ids "replica" (all_members rg))
    (bool_decide (rg_AutomaticFailover rg = Some "enabled")).

(** The maintenance window, from the answer about the first cluster: none if
    there is an error; nil where the code would dereference nil. *)
Inductive window_of (r : option (list (option CacheCluster)) * option error)
    : option string → Prop :=
  | window_error out e : r = (out, Some e) → window_of r (Some "")
  | window_no_cluster : r = (Some [], None) → window_of r (Some "")
  | window_found c rest :
      r = (Some (Some c :: rest), None) →
      window_of r (Some (default "" (cc_PreferredMaintenanceWindow c)))
  | window_nil :
      r = (None, None) ∨ (∃ rest, r = (Some (None :: rest), None)) → window_of r None.

Section parameters_run.
Variables (ctx : context) (instanceID : string).
Abbreviation id := (GenerateReplicationGroupName instanceID).
Abbreviation describe r :=
  (EvElastiCache (DescribeReplicationGroupsWithContext ctx (Some id)) r).
Abbreviation cluster cid r := (EvElastiCache (DescribeCacheClustersWithContext ctx (Some cid)) r).
Abbreviation parameters r := (EvElastiCache (DescribeCacheParametersWithContext ctx (Some id)) r).

Inductive parameters_run : list event → outcome (InstanceParameters * option error) → Prop :=
  | parameters_not_found out e :
      has_aws_code ErrCodeReplicationGroupNotFoundFault e = true →
      parameters_run [describe (out, Some e)]
        (Ret (zero_InstanceParameters,
              Some (ErrorString ("Replication group does not exist: " +:+ id))))
  | parameters_error out e :
      has_aws_code ErrCodeReplicationGroupNotFoundFault e = false →
      parameters_run [describe (out, Some e)] (Ret (zero_InstanceParameters, Some e))
  | parameters_no_group :
      parameters_run [describe (Some [], None)]
        (Ret (zero_InstanceParameters, Some (ErrorString
          ("Invalid response from AWS: no replication groups returned for " +:+ id))))
  | parameters_no_member rg rest :
      (∀ cid l, rg_MemberClusters rg ≠ Some cid :: l) →
      parameters_run [describe (Some (Some rg :: rest), None)]
        (Ret (zero_InstanceParameters, Some (ErrorString
          ("Replication group does not have any member clusters: " +:+ id))))
  | parameters_refused rg rest cid l r window out e :
      rg_MemberClusters rg = Some cid :: l → window_of r (Some window) → roles_ok rg →
      parameters_run [describe (Some (Some rg :: rest), None); cluster cid r;
                      parameters (out, Some e)]
        (Ret (instance_parameters rg window [], Some e))
  | parameters_done rg rest cid l r window ps :
      rg_MemberClusters rg = Some cid :: l → window_of r (Some window) → roles_ok rg →
      Forall parameter_ok (Some <$> ps) →
      parameters_run [describe (Some (Some rg :: rest), None); cluster cid r;
                      parameters (Some (Some <$> ps), None)]
        (Ret (instance_parameters rg window ps, None))
  | parameters_nil_answer r :
      r = (None, None) ∨ (∃ rest, r = (Some (None :: rest), None)) →
      parameters_run [describe r] (Panic NilDereference)
  | parameters_nil_role rg rest cid l r :
      rg_MemberClusters rg = Some cid :: l → window_of r None ∨ ¬ roles_ok rg →
      parameters_run [describe (Some (Some rg :: rest), None); cluster cid r]
        (Panic NilDereference)
  | parameters_nil_parameter rg rest cid l r window ps :
      rg_MemberClusters rg = Some cid :: l → window_of r (Some window) → roles_ok rg →
      ps = None ∨ (∃ l, ps = Some l ∧ ¬ Forall parameter_ok l) →
      parameters_run [describe (Some (Some rg :: rest), None); cluster cid r;
                      parameters (ps, None)]
        (Panic NilDereference).
End parameters_run.

(** ** Lemmas *)

(** The parameters after the loops have seen some nodes and parameters. *)
Definition parameters_at (rg : ReplicationGroup) (window : string) (nodes : list NodeGroupMember)
    (l : list SdkParameter) : InstanceParameters :=
  mkInstanceParameters window (default "" (rg_SnapshotWindow rg)) (policy_of l)
    (cache_parameter <$> l) (role_ids "primary" nodes) (role_ids "replica" nodes)
    (bool_decide (rg_AutomaticFailover rg = Some "enabled")).

Lemma role_ids_snoc role l x role' id :
  ngm_CurrentRole x = Some role' → (role = role' → ngm_CacheClusterId x = Some id) →
  role_ids role (l ++ [x]) = role_ids role l ++ (if bool_decide (role' = role) then [id] else []).
Proof.
  intros Hr Hid. rewrite role_ids_app. f_equal. unfold role_ids. simpl.
  rewrite Hr, bool_decide_Some_eq. destruct (bool_decide (role' = role)) eqn:He; [|done].
  apply bool_decide_eq_true in He. by rewrite Hid.
Qed.

Lemma policy_of_snoc l x :
  policy_of (l ++ [x]) =
    match (if bool_decide (par_ParameterName x = Some "maxmemory-policy")
           then par_ParameterValue x else None) with
    | Some v => v
    | None => policy_of l
    end.
Proof.
  unfold policy_of. rewrite omap_app. simpl.
  destruct (if bool_decide _ then _ else _); [by rewrite list.last_snoc|by rewrite app_nil_r].
Qed.

Section parameters_lemmas.
Context {X : Type} `{ElastiCache X}.
Implicit Types h : list (gmap string string).

Lemma runs_add_node h rg window nodes m :
  runs h (add_node (parameters_at rg window nodes []) m : M X _) 
    (member_spec h (λ nodes, parameters_at rg window nodes []) nodes m).
Proof.
  unfold add_node, member_spec. destruct m as [x|].
  2: { apply runs_bind, runs_deref. repeat split. by intros (? & ? & ? & _). }
  apply runs_bind, runs_deref, runs_bind, runs_deref.
  destruct (ngm_CurrentRole x) as [role|] eqn:Hrole.
  2: { repeat split. intros (? & ? & [= <-] & Hr & _). congruence. }
  assert (∀ id, ngm_CacheClusterId x = Some id → member_ok (Some x)) as Hok.
  { intros id Hid. exists x, role. rewrite Hid. eauto. }
  assert (role = "primary" ∨ role = "replica" → ngm_CacheClusterId x = None → ¬ member_ok (Some x))
    as Hbad.
  { intros Hr Hid (? & ? & [= <-] & ? & Hs). simplify_eq/=. destruct Hs; [done|congruence]. }
  destruct (decide (role = "primary")) as [->|Hp]; [|destruct (decide (role = "replica")) as [->|Hq]].
  - apply runs_bind, runs_bind, runs_deref.
    destruct (ngm_CacheClusterId x) as [id|] eqn:Hid; [|repeat split; by apply Hbad; auto].
    apply runs_ret, runs_bind, runs_deref, runs_ret. repeat split; [by eapply Hok|]. exists x.
    split; [done|]. unfold parameters_at. by rewrite !(role_ids_snoc _ nodes x "primary" id), app_nil_r.
  - apply runs_bind, runs_ret, runs_bind, runs_deref. apply runs_bind, runs_deref.
    destruct (ngm_CacheClusterId x) as [id|] eqn:Hid; [|repeat split; by apply Hbad; auto].
    apply runs_ret. repeat split; [by eapply Hok|]. exists x.
    split; [done|]. unfold parameters_at. by rewrite !(role_ids_snoc _ nodes x "replica" id), app_nil_r.
  - rewrite (bool_decide_false (role = "primary")) by done.
    apply runs_bind, runs_ret, runs_bind, runs_deref.
    rewrite (bool_decide_false (role = "replica")) by done. apply runs_ret.
    repeat split; [exists x, role; naive_solver|]. exists x. split; [done|]. unfold parameters_at.
    rewrite !(role_ids_snoc _ nodes x role "") by naive_solver.
    by rewrite (bool_decide_false (role = "primary")), (bool_decide_false (role = "replica")), !app_nil_r by done.
Qed.


Lemma runs_add_parameter h rg window nodes l m :
  runs h (add_parameter (parameters_at rg window nodes l) m : M X _) (λ o es h',
    es = [] ∧ h' = h ∧
    match o with
    | Ret ip => parameter_ok m ∧ ∃ x, m = Some x ∧ ip = parameters_at rg window nodes (l ++ [x])
    | Panic p => p = NilDereference ∧ ¬ parameter_ok m
    end).
Proof.
  unfold add_parameter. destruct m as [x|].
  2: { apply runs_bind, runs_deref. repeat split. by intros (? & ? & ? & _). }
  apply runs_bind, runs_deref, runs_bind, runs_deref.
  destruct (par_ParameterName x) as [name|] eqn:Hname.
  2: { repeat split. intros (? & ? & [= <-] & Hn & _). congruence. }
  assert (cache_parameter <$> l ++ [x] =
    (cache_parameter <$> l) ++ [mkCacheParameter name (default "" (par_ParameterValue x))]) as Hc.
  { rewrite fmap_app. simpl. unfold cache_parameter at 2. by rewrite Hname. }
  pose proof (policy_of_snoc l x) as Hp. rewrite Hname, bool_decide_Some_eq in Hp.
  destruct (decide (name = "maxmemory-policy")) as [->|Hn].
  - apply runs_bind, runs_deref. destruct (par_ParameterValue x) as [v|] eqn:Hv.
    + apply runs_ret. repeat split; [exists x, "maxmemory-policy"; rewrite Hv; eauto|].
      exists x. split; [done|]. unfold parameters_at. by rewrite Hp, Hc.
    + repeat split. intros (? & ? & [= <-] & ? & Hs). simplify_eq/=.
      destruct (Hs eq_refl). congruence.
  - rewrite (bool_decide_false (name = _)) in Hp by done.
    rewrite (bool_decide_false (name = _)) by done. apply runs_ret.
    repeat split; [exists x, name; naive_solver|]. exists x. split; [done|].
    unfold parameters_at. by rewrite Hp, Hc.
Qed.

Lemma runs_add_parameters h rg window nodes params :
  runs h (for_each params (parameters_at rg window nodes []) add_parameter : M X _) (λ o es h',
    es = [] ∧ h' = h ∧
    match o with
    | Ret ip => Forall parameter_ok params ∧ ∃ l, params = Some <$> l ∧
        ip = parameters_at rg window nodes l
    | Panic p => p = NilDereference ∧ ¬ Forall parameter_ok params
    end).
Proof.
  apply runs_for_each with (I := λ dn ip es, es = [] ∧ Forall parameter_ok dn ∧
    ∃ l, dn = Some <$> l ∧ ip = parameters_at rg window nodes l).
  - split; [done|]. split; [done|]. by exists [].
  - intros dn m rest ip es -> (-> & Hdn & l & -> & ->).
    eapply runs_conseq; [apply runs_add_parameter|]. intros [ip|p] es h' (-> & -> & Ho).
    + destruct Ho as [Hm (x & -> & ->)]. repeat split; [by apply Forall_app_2; [|constructor]|].
      exists (l ++ [x]). by rewrite fmap_app.
    + destruct Ho as [-> Hm]. repeat split. rewrite list.Forall_app, list.Forall_cons. tauto.
  - intros ip es (-> & Hdn & l & -> & ->). eauto 10.
Qed.

Lemma runs_window h ctx cid :
  runs h (maintenance_window ctx cid : M X _) (λ o es h',
    h' = h ∧ ∃ r, es = [EvElastiCache (DescribeCacheClustersWithContext ctx (Some cid)) r] ∧
    match o with
    | Ret w => window_of r (Some w)
    | Panic p => p = NilDereference ∧ window_of r None
    end).
Proof.
  unfold maintenance_window. apply runs_bind.
  eapply runs_conseq; [apply runs_describeCacheCluster|].
  intros [[[c|] [e|]]|p] es h' (-> & r & -> & Ho); cbn beta iota; [done| | | |].
  - destruct Ho as [rest ->]. apply runs_bind, runs_deref. go_step. split; [done|].
    eexists. split; [done|]. by eapply window_found.
  - go_step. split; [done|]. exists r. split; [done|]. destruct Ho as [He| ->].
    + destruct r as [out err]. simpl in He. subst err. by eapply window_error.
    + by apply window_no_cluster.
  - destruct Ho as [rest ->]. apply runs_bind, runs_deref. split; [done|]. eexists. split; [done|].
    split; [done|]. apply window_nil. right. by exists rest.
  - destruct Ho as [-> ->]. split; [done|]. eexists. split; [done|].
    split; [done|]. apply window_nil. by left.
Qed.

Lemma runs_GetInstanceParameters h ctx instanceID :
  runs h (GetInstanceParameters ctx instanceID : M X _) (λ o es h',
    h' = h ∧ parameters_run ctx instanceID es o).
Proof.
  unfold GetInstanceParameters. cbv zeta. apply runs_bind.
  eapply runs_conseq; [apply runs_describeReplicationGroup|].
  intros [[[rg|] [e|]]|p] es h' (-> & r & -> & Ho); cbn beta iota; [done| | | |].
  2: { destruct Ho as [He|[-> ->]].
    - destruct r as [out err]. simpl in He. subst err.
      destruct (has_aws_code _ e) eqn:Hcode; go_step; (split; [done|]); by constructor.
    - cbn [has_aws_code]. go_step. split; [done|]. constructor. }
  2: { destruct Ho as [rest ->]. apply runs_bind, runs_deref. split; [done|].
       apply parameters_nil_answer. right. by exists rest. }
  2: { destruct Ho as [-> ->]. split; [done|]. apply parameters_nil_answer. by left. }
  destruct Ho as [rest ->]. apply runs_bind, runs_deref.
  destruct (rg_MemberClusters rg) as [|[cid|] members] eqn:Hm;
    try (go_step; split; [done|]; apply parameters_no_member; congruence).
  apply runs_bind. eapply runs_conseq; [apply runs_window|].
  intros [window|p] es h' (-> & r & -> & Hw).
  2: { destruct Hw as [-> Hw]. split; [done|]. by eapply parameters_nil_role; [|left]. }
  apply runs_bind. eapply runs_conseq; [apply (runs_over_members h
    (λ nodes, parameters_at rg window nodes []) add_node (runs_add_node h rg window))|].
  intros [ip|p] es h' (-> & -> & Hip).
  2: { destruct Hip as [-> Hip]. split; [done|]. by eapply parameters_nil_role; [|right]. }
  destruct Hip as [Hok ->]. apply runs_bind.
  eapply runs_conseq; [apply runs_describeCacheParameters|].
  intros [[l [e|]]|p] es h' (-> & [out err] & -> & Hps); cbn beta iota.
  - go_step. split; [done|]. destruct Hps as [_ He]. simpl in He. subst err.
    by eapply parameters_refused.
  - injection Hps as -> ->. apply runs_bind.
    eapply runs_conseq; [apply runs_add_parameters|].
    intros [ip|p] es h' (-> & -> & Hip).
    + destruct Hip as [Hall (ps & -> & ->)]. go_step. split; [done|]. by eapply parameters_done.
    + destruct Hip as [-> Hip]. split; [done|]. eapply parameters_nil_parameter; [done..|].
      right. by exists l.
  - destruct Hps as [-> [= -> ->]]. split; [done|]. eapply parameters_nil_parameter; [done..|].
    by left.
Qed.
End parameters_lemmas.

(** Some node has no role. *)
Definition lacks_role (rg : ReplicationGroup) : Prop :=
  Exists (λ g, Exists (λ m, ∃ x, m = Some x ∧ ngm_CurrentRole x = None)
                 (ng_NodeGroupMembers g)) (omap id (rg_NodeGroups rg)).

Lemma missing_role_not_ok rg : lacks_role rg → ¬ roles_ok rg.
Proof.
  intros Hex Hok. apply list.Exists_exists in Hex as (g & Hg & Hm).
  apply list.Exists_exists in Hm as (m & Hin & x & -> & Hnone).
  apply list_elem_of_omap in Hg as (og & Hog & Hid). simpl in Hid. subst og.
  unfold roles_ok in Hok. rewrite list.Forall_forall in Hok.
  destruct (Hok _ Hog) as (g' & [= <-] & Hall). rewrite list.Forall_forall in Hall.
  destruct (Hall _ Hin) as (x' & role & [= <-] & Hr & _). congruence.
Qed.

(** The answer to the call that describes the group, if [e] is one. *)
Definition describe_answer (e : event)
    : option (option (list (option ReplicationGroup)) * option error) :=
  match e with
  | EvElastiCache c r =>
      match c return ec_out c * option error →
        option (option (list (option ReplicationGroup)) * option error) with
      | DescribeReplicationGroupsWithContext _ _ => λ r, Some r
      | _ => λ _, None
      end r
  | _ => None
  end.

(** Nodes without a role never make it into a result. *)
Lemma parameters_run_roles ctx instanceID es o rg rest cid l :
  parameters_run ctx instanceID es o →
  EvElastiCache (DescribeReplicationGroupsWithContext ctx
    (Some (GenerateReplicationGroupName instanceID))) (Some (Some rg :: rest), None) ∈ es →
  rg_MemberClusters rg = Some cid :: l → ¬ roles_ok rg → o = Panic NilDereference.
Proof.
  intros Hrun Hin Hm Hrole.
  apply (list_elem_of_fmap_2 describe_answer) in Hin. cbn [describe_answer] in Hin.
  destruct Hrun; try done; exfalso; cbn in Hin;
    repeat (apply elem_of_cons in Hin as [Hin|Hin]; [try discriminate|]);
    try (by apply elem_of_nil in Hin); simplify_eq; naive_solver.
Qed.

(** ** Properties *)

(** C27: [RedisProvider.GetInstanceParameters] refines [parameters_run], whatever
    AWS answers: the maintenance and backup windows, the last memory policy,
    every parameter of the group, the primaries as active and the replicas as
    passive nodes; a failure to describe the first cluster only costs the
    maintenance window; every other missing piece is an error or, for the
    pointers the code does not check, a panic; nothing is changed. *)
Theorem instance_parameters_correct {X : Type} `{ElastiCache X}
    (ctx : context) (instanceID : string) (h : list (gmap string string)) :
  runs h (GetInstanceParameters ctx instanceID : M X _) (λ o es h',
    h' = h ∧ parameters_run ctx instanceID es o).
Proof. apply runs_GetInstanceParameters. Qed.

(** C40: the parameters of an instance in cluster mode cannot be read: whenever
    AWS describes a group that has a member cluster and a node without a role
    (AWS gives roles to the nodes of groups that are not in cluster mode only),
    [GetInstanceParameters] panics. *)
Theorem missing_role_panics {X : Type} `{ElastiCache X} (ctx : context) (instanceID : string)
    (h : list (gmap string string)) :
  runs h (GetInstanceParameters ctx instanceID : M X _) (λ o es _,
    ∀ rg rest cid l,
      EvElastiCache (DescribeReplicationGroupsWithContext ctx
        (Some (GenerateReplicationGroupName instanceID))) (Some (Some rg :: rest), None) ∈ es →
      rg_MemberClusters rg = Some cid :: l → lacks_role rg →
      o = Panic NilDereference).
Proof.
  eapply runs_conseq; [apply runs_GetInstanceParameters|].
  intros o es h' [-> Hrun] rg rest cid l Hin Hm Hrole.
  apply missing_role_not_ok in Hrole. by eapply parameters_run_roles.
Qed.
