(* ===== verification/RedisService.v ===== *)
(** * The Redis provider as a [Provider]

    [var _ providers.Provider = &RedisProvider{}]: the operations of the Redis
    provider make an instance of the interface the broker uses, and keep its
    laws. *)
From S2P Require Import Prelude GoBase Sdk Providers Go Interfaces Bench Naming Random Url.
From S2P Require Import RedisBase RedisProvision RedisQuery RedisFailover.
Local Open Scope Z_scope.

(* map: providers/redis/redis.go 20-20 Provider *)
Definition RedisProvider_Provider {X : Type} `{Runtime X} `{ElastiCache X} `{SecretsManager X}
    (p : RedisProvider) : Provider X := λ c,
  match c return M X (pv_out c) with
  | PvProvision ctx instanceID params => Provision p ctx instanceID params
  | PvUpdateReplicationGroup ctx instanceID params => UpdateReplicationGroup ctx instanceID params
  | PvUpdateParamGroupParameters ctx instanceID params =>
      UpdateParamGroupParameters ctx instanceID params
  | PvDeprovision ctx instanceID params => Deprovision p ctx instanceID params
  | PvProgressState ctx instanceID operation primaryNode =>
      ProgressState ctx instanceID operation primaryNode
  | PvGetInstanceParameters ctx instanceID => GetInstanceParameters ctx instanceID
  | PvGetInstanceTags ctx instanceID => GetInstanceTags p ctx instanceID
  | PvGenerateCredentials ctx instanceID bindingID => GenerateCredentials p ctx instanceID bindingID
  | PvRevokeCredentials ctx instanceID bindingID => RevokeCredentials ctx instanceID bindingID
  | PvDeleteCacheParameterGroup ctx instanceID => DeleteCacheParameterGroup ctx instanceID
  | PvFindSnapshots ctx instanceID => FindSnapshots p ctx instanceID
  | PvStartFailoverTest ctx instanceID => StartFailoverTest ctx instanceID
  end.

Section effects.
Context {X : Type} `{RuntimeLaws X} `{ElastiCache X} `{SecretsManager X}.

Lemma GetPrimary_only P rg : only P (GetPrimaryAndReplicaCacheClusterIds rg : M X _).
Proof. unfold GetPrimaryAndReplicaCacheClusterIds, note_role. only_auto. Qed.
Hint Resolve GetPrimary_only : go.

Lemma reads_not_broker {A} (m : M X A) : only is_read_event m → only is_not_broker m.
Proof. apply only_weaken, read_not_broker. Qed.
Hint Resolve reads_not_broker : go.

Lemma ProgressState_not_broker ctx i op old :
  only is_not_broker (ProgressState ctx i op old : M X _).
Proof. unfold ProgressState, failover_step. only_auto. Qed.

Lemma StartFailoverTest_not_broker ctx i :
  only is_not_broker (StartFailoverTest ctx i : M X _).
Proof. unfold StartFailoverTest. only_auto. Qed.

(** An operation that does no call through [Provider] and touches no map
    keeps the contract, whatever maps it is given. *)
Lemma only_contract {A} (m : M X A) h refs :
  only is_not_broker m →
  runs h m (λ _ es h', broker_events es = [] ∧ frame refs h h').
Proof.
  intros Hm. eapply runs_conseq; [apply Hm|]. intros _ es h' [Hes ->].
  split; [by apply only_not_broker|apply frame_refl].
Qed.
(** The Redis provider is a provider the broker can rely on. *)
Lemma redis_contract (p : RedisProvider) (c : pv_call) h :
  Forall (λ l, l < length h)%nat (pv_refs c) →
  runs h (RedisProvider_Provider p c : M X _)
    (λ _ es h', broker_events es = [] ∧ frame (pv_refs c) h h').
Proof.
  intros Hrefs. destruct c; cbn [pv_refs RedisProvider_Provider] in *;
    try (apply only_contract; by eauto using GetInstanceParameters_reads, GetInstanceTags_reads,
           GenerateCredentials_reads, FindSnapshots_reads, ProgressState_not_broker,
           StartFailoverTest_not_broker with go).
  - destruct (deref_map h (pp_Parameters params)) as [m|] eqn:Hm.
    + eapply runs_conseq; [by apply runs_Provision|]. by intros o es h' (? & ? & _).
    + exfalso. destruct (pp_Parameters params) as [l|]; simpl in *; [|done].
      inversion Hrefs as [|?? Hl _]. apply lookup_lt_is_Some_2 in Hl as [m' Hm']. congruence.
  - eapply runs_conseq; [apply runs_modifyReplicationGroup|]. intros o es h' (-> & ? & _).
    split; [done|apply frame_refl].
  - apply only_contract. unfold UpdateParamGroupParameters, modifyCacheParameterGroup.
    only_auto.
  - eapply runs_conseq; [apply runs_Deprovision|]. intros o es h' (-> & ? & _).
    split; [done|apply frame_refl].
  - apply only_contract. unfold RevokeCredentials. only_auto.
  - eapply runs_conseq; [apply runs_DeleteCacheParameterGroup|].
    intros o es h' (-> & err & -> & _). split; [done|apply frame_refl].
Qed.
End effects.

#[export] Instance RedisProvider_ProviderLaws {X : Type} `{RuntimeLaws X} `{ElastiCache X}
    `{SecretsManager X} (p : RedisProvider) :
  @ProviderLaws X (RedisProvider_Provider p).
Proof. intros c h. apply redis_contract. Qed.

(** ** Properties *)

(** C15: the Redis provider keeps the contract the broker relies on, whatever AWS
    answers: no method calls a provider or reads the clock, and none writes to
    a map it was not given. *)
Theorem redis_keeps_contract {X : Type} `{RuntimeLaws X} `{ElastiCache X} `{SecretsManager X}
    (p : RedisProvider) (c : pv_call) (h : list (gmap string string)) :
  Forall (λ l, l < length h)%nat (pv_refs c) →
  runs h (RedisProvider_Provider p c : M X _)
    (λ _ es h', broker_events es = [] ∧ frame (pv_refs c) h h').
Proof. apply redis_contract. Qed.

Lemma redis_keeps_contract_witness :
  let c := PvProvision RequestContext "instance" bench_params in
  runs [∅] (RedisProvider_Provider bench_provider c : M bench _)
    (λ _ es h', broker_events es = [] ∧ frame [0%nat] [∅] h').
Proof.
  apply (redis_keeps_contract bench_provider (PvProvision RequestContext "instance" bench_params) [∅]).
  repeat constructor.
Defined.
