(* ===== verification/Config.v ===== *)
(** * Configuration

    broker/config.go and broker/tls_config.go: the plans a broker offers, the
    validation of a configuration and the TLS settings of the listener. *)
From S2P Require Import Prelude GoBase Sdk Providers Go Interfaces Bench.
Local Open Scope Z_scope.
Local Open Scope go_scope.

(** ** The catalog (the fields the program reads) *)

(* map: vendor/github.com/pivotal-cf/brokerapi/domain/service_catalog.go 27-36 ServicePlan *)
Record ServicePlan := mkServicePlan { plan_ID : string }.

(* map: vendor/github.com/pivotal-cf/brokerapi/domain/service_catalog.go 12-25 Service *)
Record Service := mkService { service_ID : string; service_Plans : list ServicePlan }.

(** ** broker/tls_config.go *)

(* map: broker/tls_config.go 8-11 TLSConfig *)
Record TLSConfig := mkTLSConfig { tls_Certificate : string; tls_PrivateKey : string }.

Inductive tls_version := VersionTLS12 | VersionTLS13.
Inductive tls_curve := CurveP256 | CurveP384 | CurveP521.
Inductive tls_cipher :=
  | TLS_ECDHE_RSA_WITH_AES_256_GCM_SHA384
  | TLS_ECDHE_RSA_WITH_AES_256_CBC_SHA
  | TLS_RSA_WITH_AES_256_GCM_SHA384
  | TLS_RSA_WITH_AES_256_CBC_SHA.

(** The [tls.Config] the program builds. *)
Record tls_settings (certificate : Type) := mkTlsSettings {
  ts_Certificates : list certificate;
  ts_MinVersion : tls_version;
  ts_CurvePreferences : list tls_curve;
  ts_PreferServerCipherSuites : bool;
  ts_CipherSuites : list tls_cipher;
}.
Arguments mkTlsSettings {certificate} _ _ _ _ _.
Arguments ts_Certificates {certificate} _.
Arguments ts_MinVersion {certificate} _.

(** [tls.X509KeyPair]: the certificate of a pair of PEM blocks, or an error. *)
Class X509 (certificate : Type) := X509KeyPair : string → string → certificate + error.

Section tls.
Context {certificate : Type} `{X509 certificate}.

(* map: broker/tls_config.go 13-35 GenerateTLSConfig *)
Definition GenerateTLSConfig (t : TLSConfig) : option (tls_settings certificate) * option error :=
  match X509KeyPair (tls_Certificate t) (tls_PrivateKey t) with
  | inr err => (None, Some err)
  | inl certificate =>
      (Some (mkTlsSettings [certificate] VersionTLS12 [CurveP521; CurveP384; CurveP256] true
               [TLS_ECDHE_RSA_WITH_AES_256_GCM_SHA384; TLS_ECDHE_RSA_WITH_AES_256_CBC_SHA;
                TLS_RSA_WITH_AES_256_GCM_SHA384; TLS_RSA_WITH_AES_256_CBC_SHA]), None)
  end.

(* map: broker/tls_config.go 37-51 Validate *)
Definition TLSConfig_Validate (t : TLSConfig) : option error :=
  if bool_decide (tls_Certificate t = "") then
    Some (ErrorString "Config error: TLS certificate required")
  else if bool_decide (tls_PrivateKey t = "") then
    Some (ErrorString "Config error: TLS private key required")
  else match X509KeyPair (tls_Certificate t) (tls_PrivateKey t) with
       | inr err => Some (ErrorString ("Invalid Certificate and key: " +:+ error_text err))
       | inl _ => None
       end.
End tls.

(** ** broker/config.go *)

(* map: broker/config.go 13-15 ErrNoSuchPlan *)
Definition ErrNoSuchPlan : error := ErrorString "no plan found".

(* map: broker/config.go 19-21 DefaultHost *)
Definition DefaultHost : string := "0.0.0.0".

(* map: broker/config.go 23-34 PlanConfig *)
Record PlanConfig := mkPlanConfig {
  pc_InstanceType : string;
  pc_ReplicasPerNodeGroup : Z;
  pc_ShardCount : Z;
  pc_SnapshotRetentionLimit : Z;
  pc_AutomaticFailoverEnabled : bool;
  pc_MultiAZEnabled : bool;
  pc_Parameters : map_ref;
  pc_Engine : string;
  pc_EngineVersion : string;
  pc_CacheParameterGroupFamily : string;
}.

(** [PlanConfig{}] *)
Definition zero_PlanConfig : PlanConfig := mkPlanConfig "" 0 0 0 false false None "" "" "".

(* map: broker/config.go 36-50 Config *)
Record Config := mkConfig {
  cf_LogLevel : string;
  cf_Username : string;
  cf_Password : string;
  cf_Region : string;
  cf_BrokerName : string;
  cf_CacheSubnetGroupName : string;
  cf_VpcSecurityGroupIds : list string;
  cf_Catalog : list Service;   (** the [Services] of the catalog response *)
  cf_PlanConfigs : gmap string PlanConfig;
  cf_KmsKeyID : string;
  cf_SecretsManagerPath : string;
  cf_Host : string;
  cf_TLS : option TLSConfig;
}.

(* map: broker/config.go 52-58 GetPlanConfig *)
Definition GetPlanConfig (c : Config) (planID : string) : PlanConfig * option error :=
  match cf_PlanConfigs c !! planID with
  | None => (zero_PlanConfig, Some ErrNoSuchPlan)
  | Some plan => (plan, None)
  end.

(* map: broker/config.go 152-155 hasPlanConfig *)
Definition hasPlanConfig (c : Config) (id : string) : bool :=
  match cf_PlanConfigs c !! id with Some _ => true | None => false end.

(* map: broker/config.go 157-159 TLSEnabled *)
Definition TLSEnabled (c : Config) : bool :=
  match cf_TLS c with Some _ => true | None => false end.

(* map: broker/config.go 161-170 hasPlan *)
Definition hasPlan (c : Config) (id : string) : bool :=
  existsb (λ s, existsb (λ p, bool_decide (plan_ID p = id)) (service_Plans s)) (cf_Catalog c).

(** The first plan of the catalog without a configuration, service by service. *)
(* map: broker/config.go 128-134 Validate *)
Definition plan_without_config (c : Config) : option ServicePlan :=
  head (filter (λ p, hasPlanConfig c (plan_ID p) = false) (mjoin (service_Plans <$> cf_Catalog c))).

Section validate.
Context {X : Type} `{Runtime X} {certificate : Type} `{X509 certificate}.

(* map: broker/config.go 91-150 Validate *)
Definition Validate (c : Config) : M X (option error) :=
  let fail msg := ret (Some (ErrorString msg)) in
  if bool_decide (cf_LogLevel c = "") then fail "Must provide a non-empty log_level"
  else if bool_decide (cf_Username c = "") then fail "Must provide a non-empty username"
  else if bool_decide (cf_Password c = "") then fail "Must provide a non-empty password"
  else if bool_decide (cf_Region c = "") then fail "Must provide a non-empty region"
  else if bool_decide (cf_BrokerName c = "") then fail "Must provide a non-empty broker_name"
  else if bool_decide (cf_CacheSubnetGroupName c = "") then
    fail "Must provide a cache_subnet_group_name"
  else if bool_decide (length (cf_VpcSecurityGroupIds c) < 1)%nat then
    fail "Must provide at least one VPC security group ID"
  else if bool_decide (cf_KmsKeyID c = "") then fail "Must provide a non-empty kms_key_id"
  else if bool_decide (cf_SecretsManagerPath c = "") then
    fail "Must provide a non-empty secrets_manager_path"
  else match plan_without_config c with
  | Some p => fail ("Plan with ID " +:+ plan_ID p +:+ " has no PlanConfig")
  | None =>
      let! ks := range_keys (dom (cf_PlanConfigs c)) in
      match filter (λ k, hasPlan c k = false) ks with
      | k :: _ => fail ("PlanConfig " +:+ k +:+ " not found in catalog")
      | [] =>
          match cf_TLS c with
          | None => ret None
          | Some t =>
              match TLSConfig_Validate t with
              | Some err => fail ("TLS Validation failed: " +:+ error_text err)
              | None => ret None
              end
          end
      end
  end.
End validate.

(** ** What a valid configuration is *)

Definition tls_ok `{X509 certificate} (t : TLSConfig) : Prop :=
  tls_Certificate t ≠ "" ∧ tls_PrivateKey t ≠ "" ∧
  ∃ cert, X509KeyPair (tls_Certificate t) (tls_PrivateKey t) = inl cert.

(** [id] is a plan of the catalog. *)
Definition in_catalog (c : Config) (id : string) : Prop :=
  ∃ s p, s ∈ cf_Catalog c ∧ p ∈ service_Plans s ∧ plan_ID p = id.

Record config_ok `{X509 certificate} (c : Config) : Prop := {
  ok_LogLevel : cf_LogLevel c ≠ "";
  ok_Username : cf_Username c ≠ "";
  ok_Password : cf_Password c ≠ "";
  ok_Region : cf_Region c ≠ "";
  ok_BrokerName : cf_BrokerName c ≠ "";
  ok_CacheSubnetGroupName : cf_CacheSubnetGroupName c ≠ "";
  ok_VpcSecurityGroupIds : cf_VpcSecurityGroupIds c ≠ [];
  ok_KmsKeyID : cf_KmsKeyID c ≠ "";
  ok_SecretsManagerPath : cf_SecretsManagerPath c ≠ "";
  ok_plans : ∀ id, in_catalog c id ↔ is_Some (cf_PlanConfigs c !! id);
  ok_TLS : ∀ t, cf_TLS c = Some t → tls_ok t;
}.

(** ** Lemmas *)

Lemma hasPlanConfig_spec c id : hasPlanConfig c id = true ↔ is_Some (cf_PlanConfigs c !! id).
Proof. unfold hasPlanConfig. destruct (cf_PlanConfigs c !! id); naive_solver. Qed.

Lemma hasPlan_spec c id : hasPlan c id = true ↔ in_catalog c id.
Proof.
  unfold hasPlan, in_catalog. rewrite existsb_exists. setoid_rewrite existsb_exists.
  setoid_rewrite bool_decide_eq_true. setoid_rewrite list_elem_of_In. naive_solver.
Qed.

Lemma elem_of_plans c p :
  p ∈ mjoin (service_Plans <$> cf_Catalog c) ↔ ∃ s, s ∈ cf_Catalog c ∧ p ∈ service_Plans s.
Proof.
  rewrite list_elem_of_join. setoid_rewrite list_elem_of_fmap. naive_solver.
Qed.

Lemma plan_without_config_None c :
  plan_without_config c = None ↔ ∀ id, in_catalog c id → is_Some (cf_PlanConfigs c !! id).
Proof.
  unfold plan_without_config.
  assert (∀ l : list ServicePlan, head l = None ↔ l = []) as -> by (by intros []).
  rewrite filter_nil_forall. setoid_rewrite elem_of_plans. unfold in_catalog.
  setoid_rewrite <-hasPlanConfig_spec. setoid_rewrite not_false_iff_true. naive_solver.
Qed.

Lemma TLSConfig_Validate_None `{X509 certificate} t : TLSConfig_Validate t = None ↔ tls_ok t.
Proof.
  unfold TLSConfig_Validate, tls_ok. repeat case_bool_decide; try (split; [done|naive_solver]).
  destruct (X509KeyPair _ _); split; naive_solver.
Qed.

Section validate_lemmas.
Context {X : Type} `{RuntimeLaws X} {certificate : Type} `{X509 certificate}.

(** The last three checks: catalog, plan configurations and TLS. *)
Lemma runs_Validate h (c : Config) :
  runs h (Validate c : M X _) (λ o es h',
    es = [] ∧ h' = h ∧ ∃ err, o = Ret err ∧ (err = None ↔ config_ok c)).
Proof.
  unfold Validate. repeat case_bool_decide;
    try (go_step; split; [done|]; split; [done|]; eexists; split; [done|];
         split; [done|by intros []]).
  { go_step. split; [done|]. split; [done|]. eexists. split; [done|].
    split; [done|]. intros []. destruct (cf_VpcSecurityGroupIds c); [done|]. simpl in *. lia. }
  destruct (plan_without_config c) as [p|] eqn:Hp.
  { go_step. split; [done|]. split; [done|]. eexists. split; [done|]. split; [done|].
    intros []. rewrite (proj2 (plan_without_config_None c)) in Hp; [done|].
    intros id. by apply ok_plans0. }
  apply runs_bind, runs_range_keys. intros ks Hks. cbn beta iota.
  pose proof (proj1 (plan_without_config_None c) Hp) as Hplans.
  destruct (filter _ ks) as [|k ks'] eqn:Hf.
  2: { apply filter_cons_elem in Hf as [Hk Hcat].
       go_step. split; [done|]. split; [done|]. eexists. split; [done|]. split; [done|].
       intros []. rewrite Hks, elem_of_elements, elem_of_dom in Hk.
       apply ok_plans0, hasPlan_spec in Hk. congruence. }
  assert (∀ id, in_catalog c id ↔ is_Some (cf_PlanConfigs c !! id)) as Hiff.
  { intros id. split; [apply Hplans|]. intros Hid.
    rewrite filter_nil_forall in Hf. apply hasPlan_spec, not_false_iff_true, Hf.
    rewrite Hks. by apply elem_of_elements, elem_of_dom. }
  assert (cf_VpcSecurityGroupIds c ≠ []) as Hvpc by (by intros Hv; rewrite Hv in *; simpl in *; lia).
  destruct (cf_TLS c) as [t|] eqn:Ht.
  - destruct (TLSConfig_Validate t) as [err|] eqn:Htv; go_step; (split; [done|]; split; [done|]);
      eexists; (split; [done|]); split; try done.
    + intros []. apply ok_TLS0, TLSConfig_Validate_None in Ht. congruence.
    + intros _. split; try done. intros t' Ht'. simplify_eq. by apply TLSConfig_Validate_None.
  - go_step. split; [done|]. split; [done|]. eexists. split; [done|]. split; [|done].
    intros _. split; try done. intros t' Ht'. congruence.
Qed.
End validate_lemmas.

(** ** Properties *)

(** C34: [Config.Validate] succeeds exactly on the configurations that are
    complete: no required field is empty, there is a security group, the plans
    of the catalog and the plan configurations are the same, and the TLS section,
    if there is one, holds a certificate and a key that belong together. *)
Theorem validate_correct {X : Type} `{RuntimeLaws X} {certificate : Type} `{X509 certificate}
    (c : Config) (h : list (gmap string string)) :
  runs h (Validate c : M X _) (λ o es h',
    es = [] ∧ h' = h ∧ ∃ err, o = Ret err ∧ (err = None ↔ config_ok c)).
Proof. apply runs_Validate. Qed.

#[local] Instance any_X509 : X509 () := λ _ _, inl tt.

Definition bench_catalog_config : Config :=
  mkConfig "info" "user" "pass" "eu-west-1" "broker" "subnet" ["sg-1"]
    [mkService "service-1" [mkServicePlan "plan-1"]] {[ "plan-2" := zero_PlanConfig ]}
    "key" "path" "" None.

Lemma validate_correct_witness :
  runs [] (Validate bench_catalog_config : M bench _) (λ o es h',
    es = [] ∧ h' = [] ∧ ∃ err, o = Ret err ∧ (err = None ↔ config_ok bench_catalog_config)) ∧
  (Validate bench_catalog_config (bench_start [] (mkBench 0 ec_empty sm_empty pv_empty))).1 =
    Ret (Some (ErrorString "Plan with ID plan-1 has no PlanConfig")).
Proof. split; [|by vm_compute]. apply (validate_correct bench_catalog_config []). Defined.
