(* ===== verification/Parameters.v ===== *)
(** * User parameters

    broker/parameters.go: the JSON parameters of provision and update requests.
    Keys are checked against a list before the document is decoded. *)
From S2P Require Import Prelude GoBase Sdk Providers Go Interfaces Bench Url Json.
Local Open Scope Z_scope.
Local Open Scope go_scope.

(* map: broker/parameters.go 8-8 ParamRestoreLatestSnapshotOf *)
Definition ParamRestoreLatestSnapshotOf : string := "restore_from_latest_snapshot_of".
(* map: broker/parameters.go 9-9 ParamMaxMemoryPolicy *)
Definition ParamMaxMemoryPolicy : string := "maxmemory_policy".
(* map: broker/parameters.go 10-10 ParamPreferredMaintenanceWindow *)
Definition ParamPreferredMaintenanceWindow : string := "preferred_maintenance_window".
(* map: broker/parameters.go 11-11 TestFailover *)
Definition TestFailover : string := "test_failover".

(* map: broker/parameters.go 66-70 ProvisionParameters *)
Record ProvisionParameters := mkProvisionParameters {
  prov_RestoreFromLatestSnapshotOf : option string;
  prov_MaxMemoryPolicy : option string;
  prov_PreferredMaintenanceWindow : string;
}.

(* map: broker/parameters.go 72-76 UpdateParameters *)
Record UpdateParameters := mkUpdateParameters {
  upd_MaxMemoryPolicy : option string;
  upd_PreferredMaintenanceWindow : string;
  upd_TestFailover : option bool;
}.

(** [&ProvisionParameters{}] and [&UpdateParameters{}] *)
Definition zero_ProvisionParameters : ProvisionParameters := mkProvisionParameters None None "".
Definition zero_UpdateParameters : UpdateParameters := mkUpdateParameters None "" None.

(** The fields of the structs, by the names of their [json] tags, and the
    decoding of one value into a field. *)
(* map: broker/parameters.go 67-69 ProvisionParameters *)
Definition set_provision_field (name : string) (p : ProvisionParameters) (v : json)
    : option ProvisionParameters :=
  if bool_decide (name = "restore_from_latest_snapshot_of") then
    (λ x, mkProvisionParameters x (prov_MaxMemoryPolicy p) (prov_PreferredMaintenanceWindow p))
    <$> decode_string_ptr (prov_RestoreFromLatestSnapshotOf p) v
  else if bool_decide (name = "maxmemory_policy") then
    (λ x, mkProvisionParameters (prov_RestoreFromLatestSnapshotOf p) x
            (prov_PreferredMaintenanceWindow p))
    <$> decode_string_ptr (prov_MaxMemoryPolicy p) v
  else
    (λ x, mkProvisionParameters (prov_RestoreFromLatestSnapshotOf p) (prov_MaxMemoryPolicy p) x)
    <$> decode_string (prov_PreferredMaintenanceWindow p) v.

(* map: broker/parameters.go 73-75 UpdateParameters *)
Definition set_update_field (name : string) (p : UpdateParameters) (v : json)
    : option UpdateParameters :=
  if bool_decide (name = "maxmemory_policy") then
    (λ x, mkUpdateParameters x (upd_PreferredMaintenanceWindow p) (upd_TestFailover p))
    <$> decode_string_ptr (upd_MaxMemoryPolicy p) v
  else if bool_decide (name = "preferred_maintenance_window") then
    (λ x, mkUpdateParameters (upd_MaxMemoryPolicy p) x (upd_TestFailover p))
    <$> decode_string (upd_PreferredMaintenanceWindow p) v
  else
    (λ x, mkUpdateParameters (upd_MaxMemoryPolicy p) (upd_PreferredMaintenanceWindow p) x)
    <$> decode_bool_ptr (upd_TestFailover p) v.

Definition provision_fields : list string :=
  ["restore_from_latest_snapshot_of"; "maxmemory_policy"; "preferred_maintenance_window"].
Definition update_fields : list string :=
  ["maxmemory_policy"; "preferred_maintenance_window"; "test_failover"].

(** The first key, in the order of the loop, that is not a valid one. *)
(* map: broker/parameters.go 51-62 unmarshalParameters *)
Fixpoint unknown_key (keys validKeys : list string) : option string :=
  match keys with
  | [] => None
  | key :: keys' =>
      if bool_decide (key ∈ validKeys) then unknown_key keys' validKeys else Some key
  end.

Section parameters.
Context {X : Type} `{Runtime X}.

(** [out] is a pointer to a zero value: its contents are returned.
    [unmarshal] is [json.Unmarshal(data, out)]. *)
(* map: broker/parameters.go 45-64 unmarshalParameters *)
Definition unmarshalParameters {T} (data : string) (unmarshal : string → T → T * option error)
    (out : T) (validKeys : list string) : M X (T * option error) :=
  match unmarshal_keys data with
  | inr err => ret (out, Some err)
  | inl mapParams =>
      let! keys := range_keys mapParams in
      match unknown_key keys validKeys with
      | Some key => ret (out, Some (ErrorString ("unknown parameter: " +:+ key)))
      | None => ret (unmarshal data out)
      end
  end.

(* map: broker/parameters.go 13-24 parseProvisionParameters *)
Definition parseProvisionParameters (data : string)
    : M X (option ProvisionParameters * option error) :=
  try! params := unmarshalParameters data
      (unmarshal_struct provision_fields set_provision_field) zero_ProvisionParameters
      [ParamRestoreLatestSnapshotOf; ParamMaxMemoryPolicy; ParamPreferredMaintenanceWindow]
    catch err => ret (None, Some err) in
  ret (Some params, None).

(* map: broker/parameters.go 32-43 parseUpdateParameters *)
Definition parseUpdateParameters (data : string)
    : M X (option UpdateParameters * option error) :=
  try! params := unmarshalParameters data
      (unmarshal_struct update_fields set_update_field) zero_UpdateParameters
      [ParamMaxMemoryPolicy; ParamPreferredMaintenanceWindow; TestFailover]
    catch err => ret (None, Some err) in
  ret (Some params, None).
End parameters.

(* map: broker/parameters.go 26-30 checkIfNoUpdateParametersAreSet *)
Definition checkIfNoUpdateParametersAreSet (params : UpdateParameters) : bool :=
  bool_decide (upd_MaxMemoryPolicy params = None) &&
  bool_decide (upd_PreferredMaintenanceWindow params = "") &&
  bool_decide (upd_TestFailover params = None).

(** ** What the parsers accept

    Written from the format of the requests, not from the decoder: which members
    a document may have, which values, and what they stand for. *)

(** The values of the members with this key, in the order of the document. *)
Definition values_of (key : string) (ms : list (string * json)) : list json :=
  (filter (λ m, m.1 = key) ms).*2.

Definition text_of (v : json) : option string := match v with JString s => Some s | _ => None end.
Definition flag_of (v : json) : option bool := match v with JBool b => Some b | _ => None end.

Definition text_or_null (v : json) : Prop := v = JNull ∨ is_Some (text_of v).
Definition flag_or_null (v : json) : Prop := v = JNull ∨ is_Some (flag_of v).

(** What a key stands for: the last value given for it, a [null] for none; for
    the window, which is no pointer, a [null] counts for nothing. *)
Definition pointer_value {A} (read : json → option A) (key : string) (ms : list (string * json))
    : option A := match list.last (values_of key ms) with Some v => read v | None => None end.
Definition plain_value (key : string) (ms : list (string * json)) : string :=
  default "" (list.last (omap text_of (values_of key ms))).

(** [document_parsed keys fit stands data r]: the document [data] has the result
    [r], where [keys] are the known keys, [fit] says which values a key may have
    and [stands] what the members stand for. *)
Inductive document_parsed {T} (keys : list string) (fit : string → json → Prop)
    (stands : list (string * json) → T → Prop) (empty : T) (data : string)
    : option T * option error → Prop :=
  | document_syntax :
      json_parse data = None → document_parsed keys fit stands empty data (None, Some JsonSyntaxError)
  | document_null :
      json_parse data = Some JNull → document_parsed keys fit stands empty data (Some empty, None)
  | document_no_object v :
      json_parse data = Some v → v ≠ JNull → (∀ ms, v ≠ JObject ms) →
      document_parsed keys fit stands empty data (None, Some (JsonTypeError ""))
  | document_overflow ms :
      json_parse data = Some (JObject ms) → has_overflow (JObject ms) = true →
      document_parsed keys fit stands empty data (None, Some (JsonTypeError ""))
  | document_unknown ms key :
      json_parse data = Some (JObject ms) → key ∈ ms.*1 → key ∉ keys →
      document_parsed keys fit stands empty data
        (None, Some (ErrorString ("unknown parameter: " +:+ key)))
  | document_type ms1 key v ms2 :
      json_parse data = Some (JObject (ms1 ++ (key, v) :: ms2)) →
      (∀ k, k ∈ (ms1 ++ (key, v) :: ms2).*1 → k ∈ keys) →
      (∀ k w, (k, w) ∈ ms1 → fit k w) → ¬ fit key v →
      document_parsed keys fit stands empty data (None, Some (JsonTypeError key))
  | document_ok ms t :
      json_parse data = Some (JObject ms) →
      (∀ k w, (k, w) ∈ ms → k ∈ keys ∧ fit k w) → stands ms t →
      document_parsed keys fit stands empty data (Some t, None).

Definition provision_keys : list string :=
  ["restore_from_latest_snapshot_of"; "maxmemory_policy"; "preferred_maintenance_window"].
Definition update_keys : list string :=
  ["maxmemory_policy"; "preferred_maintenance_window"; "test_failover"].

Definition provision_fit (key : string) (v : json) : Prop := text_or_null v.
Definition update_fit (key : string) (v : json) : Prop :=
  if bool_decide (key = "test_failover") then flag_or_null v else text_or_null v.

Record provision_stands (ms : list (string * json)) (p : ProvisionParameters) : Prop := {
  stands_restore : prov_RestoreFromLatestSnapshotOf p =
    pointer_value text_of "restore_from_latest_snapshot_of" ms;
  stands_policy : prov_MaxMemoryPolicy p = pointer_value text_of "maxmemory_policy" ms;
  stands_window : prov_PreferredMaintenanceWindow p = plain_value "preferred_maintenance_window" ms;
}.

Record update_stands (ms : list (string * json)) (p : UpdateParameters) : Prop := {
  stands_new_policy : upd_MaxMemoryPolicy p = pointer_value text_of "maxmemory_policy" ms;
  stands_new_window : upd_PreferredMaintenanceWindow p =
    plain_value "preferred_maintenance_window" ms;
  stands_failover : upd_TestFailover p = pointer_value flag_of "test_failover" ms;
}.

Definition provision_parsed : string → option ProvisionParameters * option error → Prop :=
  document_parsed provision_keys provision_fit provision_stands (mkProvisionParameters None None "").

Definition update_parsed : string → option UpdateParameters * option error → Prop :=
  document_parsed update_keys update_fit update_stands (mkUpdateParameters None "" None).

(** The documents that are accepted: [null], and the objects with known keys and
    values of the right types. *)
Definition acceptable (keys : list string) (fit : string → json → Prop) (data : string) : Prop :=
  json_parse data = Some JNull ∨
  ∃ ms, json_parse data = Some (JObject ms) ∧ ∀ k w, (k, w) ∈ ms → k ∈ keys ∧ fit k w.

(** ** Lemmas *)

(** A parser returns a nil pointer with an error, a struct without one. *)
Lemma document_parsed_result {T} keys fit stands (empty : T) data r :
  document_parsed keys fit stands empty data r → (∃ t, r = (Some t, None)) ∨ ∃ e, r = (None, Some e).
Proof. destruct 1; [right|left|right|right|right|right|left]; by eexists. Qed.

Lemma fit_no_overflow (keys : list string) (fit : string → json → Prop) (ms : list (string * json)) :
  (∀ k w, fit k w → has_overflow w = false) →
  (∀ k w, (k, w) ∈ ms → k ∈ keys ∧ fit k w) → has_overflow (JObject ms) = false.
Proof.
  intros Hfit Hms. cbn [has_overflow]. apply not_true_is_false. rewrite existsb_exists.
  intros ([k w] & Hin%list_elem_of_In & Ho). destruct (Hms k w Hin) as [_ Hw].
  cbn [snd] in Ho. by rewrite (Hfit k w Hw) in Ho.
Qed.

Lemma document_parsed_acceptable {T} keys fit stands (empty : T) data r :
  (∀ k w, fit k w → has_overflow w = false) →
  document_parsed keys fit stands empty data r → r.2 = None ↔ acceptable keys fit data.
Proof.
  intros Hfit [Hp|Hp|v Hp Hn Ho|ms Hp Ho|ms key Hp Hk Hkeys|ms1 key v ms2 Hp Hk H1 Hv|ms t Hp Hms _];
    cbn [snd]; (split; [try done; intros _|intros [Ha|(ms' & Ha & Hms')]; rewrite Hp in Ha; try done]).
  - by left.
  - by injection Ha as ->.
  - injection Ha as ->. by destruct (Ho ms').
  - injection Ha as <-. by rewrite (fit_no_overflow keys fit ms) in Ho.
  - injection Ha as <-. apply list_elem_of_fmap in Hk as ([k w] & -> & Hin). by destruct (Hms' k w Hin).
  - injection Ha as <-. destruct (Hms' key v) as [_ ?]; [|done].
    apply elem_of_app. right. by left.
  - right. by exists ms.
Qed.

Lemma text_no_overflow v : text_or_null v → has_overflow v = false.
Proof. by destruct v; intros [|[]]. Qed.

Lemma flag_no_overflow v : flag_or_null v → has_overflow v = false.
Proof. by destruct v; intros [|[]]. Qed.

Lemma unknown_key_spec keys validKeys :
  match unknown_key keys validKeys with
  | Some key => key ∈ keys ∧ key ∉ validKeys
  | None => ∀ key, key ∈ keys → key ∈ validKeys
  end.
Proof.
  induction keys as [|key keys IH]; simpl; [set_solver|]. case_bool_decide as Hk.
  - destruct (unknown_key keys validKeys); set_solver.
  - set_solver.
Qed.

(** The values of a key, member by member. *)
Lemma values_of_cons key k v ms :
  values_of key ((k, v) :: ms) = if bool_decide (k = key) then v :: values_of key ms else values_of key ms.
Proof. unfold values_of. rewrite filter_cons. cbn [fst]. by repeat case_decide; case_bool_decide. Qed.

(** A pointer and a string that have a value already. *)
Definition pointer_from {A} (read : json → option A) (old : option A) (vs : list json) : option A :=
  match list.last vs with Some v => read v | None => old end.
Definition plain_from (old : string) (vs : list json) : string := default old (list.last (omap text_of vs)).

Lemma pointer_from_cons {A} (read : json → option A) old v vs :
  pointer_from read old (v :: vs) = pointer_from read (read v) vs.
Proof. unfold pointer_from. rewrite last_cons. by destruct (list.last vs). Qed.

Lemma plain_from_cons old v vs :
  plain_from old (v :: vs) = plain_from (default old (text_of v)) vs.
Proof.
  unfold plain_from. cbn [omap list_omap]. destruct (text_of v) as [s|]; [|done].
  rewrite last_cons. by destruct (list.last _).
Qed.

Lemma decode_string_text old v :
  text_or_null v → decode_string old v = Some (default old (text_of v)).
Proof. by destruct v; intros [|[]]. Qed.

Lemma decode_string_ptr_text old v : text_or_null v → decode_string_ptr old v = Some (text_of v).
Proof. by destruct v; intros [|[]]. Qed.

Lemma decode_bool_ptr_flag old v : flag_or_null v → decode_bool_ptr old v = Some (flag_of v).
Proof. by destruct v; intros [|[]]. Qed.

Lemma decode_string_other old v : ¬ text_or_null v → decode_string old v = None.
Proof. unfold text_or_null. destruct v; try done; intros []; [by left|right; by eexists]. Qed.

Lemma decode_string_ptr_other old v : ¬ text_or_null v → decode_string_ptr old v = None.
Proof. unfold text_or_null. destruct v; try done; intros []; [by left|right; by eexists]. Qed.

Lemma decode_bool_ptr_other old v : ¬ flag_or_null v → decode_bool_ptr old v = None.
Proof. unfold flag_or_null. destruct v; try done; intros []; [by left|right; by eexists]. Qed.

#[export] Instance text_or_null_dec v : Decision (text_or_null v).
Proof.
  destruct v; try (by left; left); try (by left; right; eexists); right; by intros [|[]].
Defined.

#[export] Instance flag_or_null_dec v : Decision (flag_or_null v).
Proof.
  destruct v; try (by left; left); try (by left; right; eexists); right; by intros [|[]].
Defined.

#[export] Instance provision_fit_dec key v : Decision (provision_fit key v).
Proof. apply text_or_null_dec. Defined.

#[export] Instance update_fit_dec key v : Decision (update_fit key v).
Proof. unfold update_fit. case_bool_decide; [apply flag_or_null_dec|apply text_or_null_dec]. Defined.

(** The members of a struct whose keys are all known. *)
Section members.
Context {T : Type} (names : list string) (set : string → T → json → option T).
Variables (fit : string → json → Prop) (fill : string → json → T → T).
Context `{∀ k v, Decision (fit k v)}.
Hypothesis set_fit : ∀ k v t, k ∈ names → fit k v → set k t v = Some (fill k v t).
Hypothesis set_unfit : ∀ k v t, k ∈ names → ¬ fit k v → set k t v = None.

Definition fill_all (ms : list (string * json)) (t : T) : T := foldl (λ t m, fill m.1 m.2 t) t ms.

Lemma decode_members_spec ms t :
  (∀ k, k ∈ ms.*1 → k ∈ names) →
  match decode_members names set ms t with
  | (t', None) => (∀ k w, (k, w) ∈ ms → fit k w) ∧ t' = fill_all ms t
  | (_, Some e) => ∃ ms1 key v ms2, ms = ms1 ++ (key, v) :: ms2 ∧
      (∀ k w, (k, w) ∈ ms1 → fit k w) ∧ ¬ fit key v ∧ e = JsonTypeError key
  end.
Proof.
  revert t. induction ms as [|[k v] ms IH]; intros t Hk.
  { split; [|done]. by intros k w Hin%elem_of_nil. }
  cbn [decode_members]. assert (k ∈ names) as Hkn by (apply Hk; left).
  unfold select_field. rewrite bool_decide_true by done. cbn beta iota.
  assert (∀ k', k' ∈ ms.*1 → k' ∈ names) as Hms by (intros k' Hin; apply Hk; by right).
  destruct (decide (fit k v)) as [Hf|Hf].
  - rewrite set_fit by done. specialize (IH (fill k v t) Hms).
    destruct (decode_members names set ms (fill k v t)) as [t' [e|]].
    + destruct IH as (ms1 & key & w & ms2 & -> & H1 & Hw & ->).
      exists ((k, v) :: ms1), key, w, ms2. split; [done|]. split; [|done].
      intros k' w' [[= -> ->]|Hin]%elem_of_cons; [done|by apply H1].
    + destruct IH as [H1 ->]. split; [|done].
      intros k' w' [[= -> ->]|Hin]%elem_of_cons; [done|by apply H1].
  - rewrite set_unfit by done. destruct (decode_members names set ms t) as [t' e].
    exists [], k, v, ms. split; [done|]. split; [|done]. by intros k' w' Hin%elem_of_nil.
Qed.
End members.

(** Storing a value in the field of its key. *)
Definition fill_provision (key : string) (v : json) (p : ProvisionParameters) : ProvisionParameters :=
  mkProvisionParameters
    (if bool_decide (key = "restore_from_latest_snapshot_of") then text_of v
     else prov_RestoreFromLatestSnapshotOf p)
    (if bool_decide (key = "maxmemory_policy") then text_of v else prov_MaxMemoryPolicy p)
    (if bool_decide (key = "preferred_maintenance_window")
     then default (prov_PreferredMaintenanceWindow p) (text_of v)
     else prov_PreferredMaintenanceWindow p).

Definition fill_update (key : string) (v : json) (p : UpdateParameters) : UpdateParameters :=
  mkUpdateParameters
    (if bool_decide (key = "maxmemory_policy") then text_of v else upd_MaxMemoryPolicy p)
    (if bool_decide (key = "preferred_maintenance_window")
     then default (upd_PreferredMaintenanceWindow p) (text_of v)
     else upd_PreferredMaintenanceWindow p)
    (if bool_decide (key = "test_failover") then flag_of v else upd_TestFailover p).

Lemma set_provision_fit k v p :
  k ∈ provision_fields → provision_fit k v → set_provision_field k p v = Some (fill_provision k v p).
Proof.
  intros Hk Hv. destruct p as [r m w]. unfold set_provision_field, fill_provision.
  unfold provision_fields in Hk. rewrite !elem_of_cons, elem_of_nil in Hk.
  destruct Hk as [-> |[-> |[-> |[]]]]; cbn; by rewrite ?decode_string_ptr_text, ?decode_string_text.
Qed.

Lemma set_provision_unfit k v p :
  k ∈ provision_fields → ¬ provision_fit k v → set_provision_field k p v = None.
Proof.
  intros Hk Hv. unfold set_provision_field.
  repeat case_bool_decide; by rewrite ?decode_string_ptr_other, ?decode_string_other.
Qed.

Lemma set_update_fit k v p :
  k ∈ update_fields → update_fit k v → set_update_field k p v = Some (fill_update k v p).
Proof.
  intros Hk Hv. destruct p as [m w t]. unfold set_update_field, fill_update.
  unfold update_fields in Hk. rewrite !elem_of_cons, elem_of_nil in Hk.
  unfold update_fit in Hv. destruct Hk as [-> |[-> |[-> |[]]]]; repeat case_bool_decide; try done;
    by rewrite ?decode_string_ptr_text, ?decode_string_text, ?decode_bool_ptr_flag.
Qed.

Lemma set_update_unfit k v p :
  k ∈ update_fields → ¬ update_fit k v → set_update_field k p v = None.
Proof.
  intros Hk Hv. unfold set_update_field, update_fit in *.
  unfold update_fields in Hk. rewrite !elem_of_cons, elem_of_nil in Hk.
  destruct Hk as [-> |[-> |[-> |[]]]]; repeat case_bool_decide; try done;
    by rewrite ?decode_string_ptr_other, ?decode_string_other, ?decode_bool_ptr_other.
Qed.

Lemma fill_provision_all ms p :
  fill_all fill_provision ms p = mkProvisionParameters
    (pointer_from text_of (prov_RestoreFromLatestSnapshotOf p)
       (values_of "restore_from_latest_snapshot_of" ms))
    (pointer_from text_of (prov_MaxMemoryPolicy p) (values_of "maxmemory_policy" ms))
    (plain_from (prov_PreferredMaintenanceWindow p) (values_of "preferred_maintenance_window" ms)).
Proof.
  revert p. induction ms as [|[k v] ms IH]; intros p; [by destruct p|].
  unfold fill_all in *. cbn [foldl fst snd]. rewrite IH, !values_of_cons. unfold fill_provision.
  cbn [prov_RestoreFromLatestSnapshotOf prov_MaxMemoryPolicy prov_PreferredMaintenanceWindow].
  f_equal; case_bool_decide; by rewrite ?pointer_from_cons, ?plain_from_cons.
Qed.

Lemma fill_update_all ms p :
  fill_all fill_update ms p = mkUpdateParameters
    (pointer_from text_of (upd_MaxMemoryPolicy p) (values_of "maxmemory_policy" ms))
    (plain_from (upd_PreferredMaintenanceWindow p) (values_of "preferred_maintenance_window" ms))
    (pointer_from flag_of (upd_TestFailover p) (values_of "test_failover" ms)).
Proof.
  revert p. induction ms as [|[k v] ms IH]; intros p; [by destruct p|].
  unfold fill_all in *. cbn [foldl fst snd]. rewrite IH, !values_of_cons. unfold fill_update.
  cbn [upd_MaxMemoryPolicy upd_PreferredMaintenanceWindow upd_TestFailover].
  f_equal; case_bool_decide; by rewrite ?pointer_from_cons, ?plain_from_cons.
Qed.

(** An accepted document, as the parser reads it. *)
Lemma provision_parsed_accepted data up :
  provision_parsed data (Some up, None) →
  ∃ keys, unmarshal_keys data = inl keys ∧ (∀ k, k ∈ keys → k ∈ provision_fields) ∧
    unmarshal_struct provision_fields set_provision_field data zero_ProvisionParameters = (up, None).
Proof.
  unfold unmarshal_keys, unmarshal_struct. intros Hr. inversion Hr as [|Hp| | | | |ms t Hp Hms Hs]; subst;
    rewrite Hp; [by exists ∅|].
  rewrite (fit_no_overflow provision_keys provision_fit) by (done || (intros k w; apply text_no_overflow)).
  eexists. split; [done|].
  assert (∀ k, k ∈ ms.*1 → k ∈ provision_fields) as Hkeys.
  { intros k ([k' w] & -> & Hin)%list_elem_of_fmap. by destruct (Hms k' w Hin). }
  split; [intros k; rewrite elem_of_list_to_set; by apply Hkeys|].
  pose proof (decode_members_spec provision_fields set_provision_field provision_fit fill_provision
    set_provision_fit set_provision_unfit ms zero_ProvisionParameters Hkeys) as Hspec.
  destruct (decode_members _ _ _ _) as [t [e|]].
  - destruct Hspec as (ms1 & key & v & ms2 & -> & _ & Hv & _). destruct Hv.
    destruct (Hms key v) as [_ ?]; [|done]. apply elem_of_app. right. by left.
  - destruct Hspec as [_ ->]. f_equal. rewrite fill_provision_all. destruct up as [r m w], Hs as [Hr' Hm Hw].
    cbn in *. subst. unfold pointer_from, pointer_value. by repeat destruct (list.last _).
Qed.

Section parameters_lemmas.
Context {X : Type} `{RuntimeLaws X}.

(** [unmarshalParameters] on a type whose fields are the known keys. *)
Section unmarshal.
Context {T : Type} (keys : list string) (set : string → T → json → option T).
Variables (fit : string → json → Prop) (stands : list (string * json) → T → Prop) (zero : T).
Hypothesis members : ∀ ms,
  (∀ k, k ∈ ms.*1 → k ∈ keys) →
  match decode_members keys set ms zero with
  | (t', None) => (∀ k w, (k, w) ∈ ms → fit k w) ∧ stands ms t'
  | (_, Some e) => ∃ ms1 key v ms2, ms = ms1 ++ (key, v) :: ms2 ∧
      (∀ k w, (k, w) ∈ ms1 → fit k w) ∧ ¬ fit key v ∧ e = JsonTypeError key
  end.

Lemma runs_unmarshalParameters h data :
  runs h (unmarshalParameters data (unmarshal_struct keys set) zero keys : M X _) (λ o es h',
    es = [] ∧ h' = h ∧ ∃ t e, o = Ret (t, e) ∧ document_parsed keys fit stands zero data
      match e with Some e => (None, Some e) | None => (Some t, None) end).
Proof.
  unfold unmarshalParameters, unmarshal_keys, unmarshal_struct.
  destruct (json_parse data) as [[| | | | |ms]|] eqn:Hp; cbn [fst].
  all: try (go_step; split; [done|]; split; [done|]; eexists _, _; split; [done|];
    by first [apply document_syntax|eapply document_no_object]).
  - apply runs_bind, runs_range_keys. intros ks Hks. apply Permutation_nil_r in Hks as ->.
    cbn [unknown_key]. go_step. split; [done|]. split; [done|]. eexists _, _. split; [done|]. by apply document_null.
  - destruct (has_overflow (JObject ms)) eqn:Ho.
    { go_step. split; [done|]. split; [done|]. eexists _, _. split; [done|]. by eapply document_overflow. }
    apply runs_bind, runs_range_keys. intros ks Hks. cbn beta iota.
    pose proof (unknown_key_spec ks keys) as Hu.
    destruct (unknown_key ks keys) as [key|]; go_step; (split; [done|]; split; [done|]).
    + destruct Hu as [Hin Hv]. rewrite Hks, elem_of_elements, elem_of_list_to_set in Hin.
      eexists _, _. split; [done|]. by eapply document_unknown.
    + assert (∀ k, k ∈ ms.*1 → k ∈ keys) as Hkeys.
      { intros k Hin. apply Hu. by rewrite Hks, elem_of_elements, elem_of_list_to_set. }
      specialize (members ms Hkeys).
      destruct (decode_members keys set ms zero) as [t [e|]]; eexists _, _; (split; [done|]).
      * destruct members as (ms1 & key & v & ms2 & -> & H1 & Hv & ->). by eapply document_type.
      * destruct members as [Hf Hs]. eapply document_ok; [done| |done]. intros k w Hin.
        split; [|by apply Hf]. apply Hkeys, list_elem_of_fmap. by exists (k, w).
Qed.
End unmarshal.

Lemma runs_parseProvisionParameters h data :
  runs h (parseProvisionParameters data : M X _) (λ o es h',
    es = [] ∧ h' = h ∧ ∃ r, o = Ret r ∧ provision_parsed data r).
Proof.
  apply runs_bind. eapply runs_conseq.
  - apply (runs_unmarshalParameters provision_fields set_provision_field provision_fit provision_stands).
    intros ms Hms.
    pose proof (decode_members_spec provision_fields set_provision_field provision_fit fill_provision
      set_provision_fit set_provision_unfit ms zero_ProvisionParameters Hms) as Hspec.
    destruct (decode_members _ _ _ _) as [t [e|]]; [done|]. destruct Hspec as [Hf ->].
    split; [done|]. rewrite fill_provision_all. split; cbn; unfold pointer_from, pointer_value;
      by try destruct (list.last _).
  - intros o es h' (-> & -> & t & [e|] & -> & Hr); cbn beta iota; go_step;
      (split; [done|]; split; [done|]); by eexists.
Qed.

Lemma runs_parseUpdateParameters h data :
  runs h (parseUpdateParameters data : M X _) (λ o es h',
    es = [] ∧ h' = h ∧ ∃ r, o = Ret r ∧ update_parsed data r).
Proof.
  apply runs_bind. eapply runs_conseq.
  - apply (runs_unmarshalParameters update_fields set_update_field update_fit update_stands).
    intros ms Hms.
    pose proof (decode_members_spec update_fields set_update_field update_fit fill_update
      set_update_fit set_update_unfit ms zero_UpdateParameters Hms) as Hspec.
    destruct (decode_members _ _ _ _) as [t [e|]]; [done|]. destruct Hspec as [Hf ->].
    split; [done|]. rewrite fill_update_all. split; cbn; unfold pointer_from, pointer_value;
      by try destruct (list.last _).
  - intros o es h' (-> & -> & t & [e|] & -> & Hr); cbn beta iota; go_step;
      (split; [done|]; split; [done|]); by eexists.
Qed.
End parameters_lemmas.

(** ** Properties *)

(** C35: [parseProvisionParameters] accepts exactly [null] and the JSON objects
    whose keys are the three parameters of a provision request, spelt exactly,
    with strings or [null] as values.  Every accepted parameter is the last value
    given for its own key, an absent one or a [null] leaving the pointers nil and
    the window as it was; a key that is not known is named in the error, and so
    is that of the first value of a wrong type. *)
Theorem parse_provision_correct {X : Type} `{RuntimeLaws X} (data : string)
    (h : list (gmap string string)) :
  runs h (parseProvisionParameters data : M X _) (λ o es h',
    es = [] ∧ h' = h ∧ ∃ r, o = Ret r ∧ provision_parsed data r ∧
      (r.2 = None ↔ acceptable provision_keys provision_fit data)).
Proof.
  eapply runs_conseq; [apply runs_parseProvisionParameters|].
  intros o es h' (-> & -> & r & -> & Hr). split; [done|]. split; [done|]. exists r.
  split; [done|]. split; [done|]. eapply document_parsed_acceptable; [|exact Hr].
  intros k w. apply text_no_overflow.
Qed.

Lemma parse_provision_correct_witness :
  let data := marshal_strings [("maxmemory_policy", "noeviction"); ("MaxMemory_Policy", "x")] in
  runs [] (parseProvisionParameters data : M bench _) (λ o es h',
    es = [] ∧ h' = [] ∧ ∃ r, o = Ret r ∧ provision_parsed data r ∧
      (r.2 = None ↔ acceptable provision_keys provision_fit data)) ∧
  (parseProvisionParameters data (bench_start [] (mkBench 0 ec_empty sm_empty pv_empty))).1 =
    Ret (None, Some (ErrorString "unknown parameter: MaxMemory_Policy")).
Proof. split; [|by vm_compute]. apply (parse_provision_correct _ []). Defined.

(** [parseUpdateParameters] accepts exactly [null] and the JSON objects whose
    keys are the three parameters of an update, spelt exactly, with values of the
    right types. *)
Theorem parse_update_correct {X : Type} `{RuntimeLaws X} (data : string)
    (h : list (gmap string string)) :
  runs h (parseUpdateParameters data : M X _) (λ o es h',
    es = [] ∧ h' = h ∧ ∃ r, o = Ret r ∧ update_parsed data r ∧
      (r.2 = None ↔ acceptable update_keys update_fit data)).
Proof.
  eapply runs_conseq; [apply runs_parseUpdateParameters|].
  intros o es h' (-> & -> & r & -> & Hr). split; [done|]. split; [done|]. exists r.
  split; [done|]. split; [done|]. eapply document_parsed_acceptable; [|exact Hr].
  intros k w. unfold update_fit. case_bool_decide; [apply flag_no_overflow|apply text_no_overflow].
Qed.

Lemma parse_update_correct_witness :
  let data := marshal_strings [("maxmemory_policy", "noeviction")] in
  runs [] (parseUpdateParameters data : M bench _) (λ o es h',
    es = [] ∧ h' = [] ∧ ∃ r, o = Ret r ∧ update_parsed data r ∧
      (r.2 = None ↔ acceptable update_keys update_fit data)) ∧
  (parseUpdateParameters data (bench_start [] (mkBench 0 ec_empty sm_empty pv_empty))).1 =
    Ret (Some (mkUpdateParameters (Some "noeviction") "" None), None).
Proof. split; [|by vm_compute]. apply (parse_update_correct _ []). Defined.
