(* ===== verification/Broker.v ===== *)
(** * The broker

    broker/broker.go: the handlers of the Open Service Broker API, against the
    [Provider] interface. *)
From S2P Require Import Prelude GoBase Sdk Providers Go Interfaces Url Json Rfc3339 Config.
From S2P Require Import Parameters.
Local Open Scope Z_scope.
Local Open Scope go_scope.

(** The provider and the logger are the classes of the runtime model. *)
(* map: broker/broker.go 17-22 Broker *)
Record Broker := mkBroker { b_config : Config }.

(* map: broker/broker.go 39-46 New *)
Definition New (config : Config) : Broker := mkBroker config.

(** ** Operation data *)

(* map: broker/broker.go 26-32 Operation *)
Record Operation := mkOperation {
  op_Action : string;
  op_PrimaryNode : string;
  op_TimeOut : string;
}.

Definition zero_Operation : Operation := mkOperation "" "" "".

(* map: broker/broker.go 50-50 ActionProvisioning *)
Definition ActionProvisioning : string := "provisioning".
(* map: broker/broker.go 51-51 ActionDeprovisioning *)
Definition ActionDeprovisioning : string := "deprovisioning".
(* map: broker/broker.go 52-52 ActionUpdating *)
Definition ActionUpdating : string := "updating".
(* map: broker/broker.go 53-53 ActionFailover *)
Definition ActionFailover : string := "failover".
(* map: broker/broker.go 54-54 FailoverTimeout *)
Definition FailoverTimeout : Z := 45 * time_Minute.

(** The error of [json.Marshal], dropped by the code, cannot occur for a struct
    of strings. *)
(* map: broker/broker.go 34-37 String *)
Definition Operation_String (o : Operation) : string :=
  marshal_strings [("action", op_Action o); ("primaryNode", op_PrimaryNode o);
                   ("timeOut", op_TimeOut o)].

(* map: broker/broker.go 29-31 Operation *)
Definition set_operation_field (name : string) (o : Operation) (v : json) : option Operation :=
  if bool_decide (name = "action") then
    (λ x, mkOperation x (op_PrimaryNode o) (op_TimeOut o)) <$> decode_string (op_Action o) v
  else if bool_decide (name = "primaryNode") then
    (λ x, mkOperation (op_Action o) x (op_TimeOut o)) <$> decode_string (op_PrimaryNode o) v
  else
    (λ x, mkOperation (op_Action o) (op_PrimaryNode o) x) <$> decode_string (op_TimeOut o) v.

(** [json.Unmarshal([]byte(data), &operation)] *)
(* map: broker/broker.go 383-385 LastOperation *)
Definition unmarshal_operation (data : string) : Operation * option error :=
  unmarshal_struct ["action"; "primaryNode"; "timeOut"] set_operation_field data zero_Operation.

(** ** Results of the handlers *)

(* map: vendor/github.com/pivotal-cf/brokerapi/domain/service_broker.go 92-97 ProvisionedServiceSpec *)
Record ProvisionedServiceSpec := mkProvisionedServiceSpec {
  ps_IsAsync : bool;
  ps_OperationData : string;
}.

(* map: vendor/github.com/pivotal-cf/brokerapi/domain/service_broker.go 105-108 DeprovisionServiceSpec *)
Record DeprovisionServiceSpec := mkDeprovisionServiceSpec {
  ds_IsAsync : bool;
  ds_OperationData : string;
}.

(* map: vendor/github.com/pivotal-cf/brokerapi/domain/service_broker.go 133-137 UpdateServiceSpec *)
Record UpdateServiceSpec := mkUpdateServiceSpec {
  us_IsAsync : bool;
  us_OperationData : string;
}.

(* map: vendor/github.com/pivotal-cf/brokerapi/domain/service_broker.go 110-115 GetInstanceDetailsSpec *)
Record GetInstanceDetailsSpec := mkGetInstanceDetailsSpec {
  gi_ServiceID : string;
  gi_PlanID : string;
  gi_DashboardURL : string;
  gi_Parameters : option InstanceParameters;
}.

(* map: vendor/github.com/pivotal-cf/brokerapi/domain/service_broker.go 61-67 LastOperationState *)
Inductive LastOperationState := NoState | InProgress | Succeeded | Failed.

#[export] Instance LastOperationState_eq_dec : EqDecision LastOperationState.
Proof. solve_decision. Defined.

(* map: vendor/github.com/pivotal-cf/brokerapi/domain/service_broker.go 56-59 LastOperation *)
Record LastOperationResult := mkLastOperation {
  lo_State : LastOperationState;
  lo_Description : string;
}.

Definition zero_Provisioned : ProvisionedServiceSpec := mkProvisionedServiceSpec false "".
Definition zero_Deprovision : DeprovisionServiceSpec := mkDeprovisionServiceSpec false "".
Definition zero_Update : UpdateServiceSpec := mkUpdateServiceSpec false "".
Definition zero_GetInstance : GetInstanceDetailsSpec := mkGetInstanceDetailsSpec "" "" "" None.
Definition zero_LastOperation : LastOperationResult := mkLastOperation NoState "".

(** ** Snapshots *)

(** [ByCreateTime.Less]: the latest snapshot first. *)
(* map: broker/broker.go 57-62 ByCreateTime *)
Definition ByCreateTime_Less (a b : SnapshotInfo) : bool := si_CreateTime b <? si_CreateTime a.

(** The three comparisons with the tags of the latest snapshot. *)
(* map: broker/broker.go 137-148 Provision *)
Definition check_snapshot_tags (latestSnapshot : SnapshotInfo) (details : ProvisionDetails)
    : option error :=
  if negb (bool_decide (si_Tags latestSnapshot !! "space-id" = Some (pd_SpaceGUID details))) then
    Some (ErrorString
      "The service instance you are getting a snapshot from is not in the same org or space")
  else if negb (bool_decide
      (si_Tags latestSnapshot !! "organization-id" = Some (pd_OrganizationGUID details))) then
    Some (ErrorString
      "The service instance you are getting a snapshot from is not in the same org or space")
  else if negb (bool_decide (si_Tags latestSnapshot !! "plan-id" = Some (pd_PlanID details))) then
    Some (ErrorString
      "You must use the same plan as the service instance you are getting a snapshot from")
  else None.

(* map: broker/broker.go 436-452 ProviderStatesMapping *)
Definition ProviderStatesMapping (state : ServiceState) : LastOperationState * option error :=
  if bool_decide (state = Available) then (Succeeded, None)
  else if bool_decide (state = CreateFailed) then (Failed, None)
  else if bool_decide (state = Creating) then (InProgress, None)
  else if bool_decide (state = Modifying) then (InProgress, None)
  else if bool_decide (state = Deleting) then (InProgress, None)
  else if bool_decide (state = Snapshotting) then (InProgress, None)
  else (InProgress, Some (ErrorString ("Unknown service state: " +:+ state))).

(** The tags of a new instance. *)
(* map: broker/broker.go 177-185 Provision *)
Definition instance_tags (brokerName instanceID : string) (details : ProvisionDetails)
    : gmap string string :=
  {[ "created-by" := brokerName;
     "service-id" := pd_ServiceID details;
     "plan-id" := pd_PlanID details;
     "organization-id" := pd_OrganizationGUID details;
     "space-id" := pd_SpaceGUID details;
     "instance-id" := instanceID;
     "chargeable_entity" := instanceID ]}.

(** The parameters handed to the provider, [params] being the fresh map. *)
(* map: broker/broker.go 162-188 Provision *)
Definition provision_parameters (config : Config) (planConfig : PlanConfig) (instanceID : string)
    (details : ProvisionDetails) (userParameters : ProvisionParameters)
    (restoreFromSnapshotName : option string) (params : map_ref) : Providers.ProvisionParameters :=
  Providers.mkProvisionParameters
    (pc_InstanceType planConfig)
    (pc_CacheParameterGroupFamily planConfig)
    (cf_VpcSecurityGroupIds config)
    (cf_CacheSubnetGroupName config)
    (prov_PreferredMaintenanceWindow userParameters)
    (pc_ReplicasPerNodeGroup planConfig)
    (pc_ShardCount planConfig)
    (pc_SnapshotRetentionLimit planConfig)
    restoreFromSnapshotName
    (pc_AutomaticFailoverEnabled planConfig)
    (pc_MultiAZEnabled planConfig)
    "Cloud Foundry service"
    params
    (instance_tags (cf_BrokerName config) instanceID details)
    (pc_Engine planConfig)
    (pc_EngineVersion planConfig).

(** ** The handlers *)

Section broker.
Context {X : Type} `{Runtime X} `{Provider X}.

(* map: broker/broker.go 64-66 GetBinding *)
Definition GetBinding (b : Broker) (first second : string) : M X (() * option error) :=
  ret (tt, Some (ErrorString "GetBinding method not implemented")).

(* map: broker/broker.go 85-87 LastBindingOperation *)
Definition LastBindingOperation (b : Broker) (first second : string) (pollDetails : PollDetails)
    : M X (LastOperationResult * option error) :=
  ret (zero_LastOperation, Some (ErrorString "LastBindingOperation method not implemented")).

(* map: broker/broker.go 89-92 Services *)
Definition Services (b : Broker) : M X (list Service * option error) :=
  ret (cf_Catalog (b_config b), None).

(* map: broker/broker.go 68-83 GetInstance *)
Definition GetInstance (b : Broker) (ctx : context) (instanceID : string)
    : M X (GetInstanceDetailsSpec * option error) :=
  try! instanceParameters := pv_do (PvGetInstanceParameters ctx instanceID)
    catch err => ret (zero_GetInstance, Some err) in
  try! instanceTags := pv_do (PvGetInstanceTags ctx instanceID)
    catch err => ret (zero_GetInstance, Some err) in
  ret (mkGetInstanceDetailsSpec (default "" (instanceTags !! "service-id"))
         (default "" (instanceTags !! "plan-id")) "" (Some instanceParameters), None).

(** The user parameters of a request, or the zero value. *)
(* map: broker/broker.go 114-121 Provision *)
Definition provision_user_parameters (details : ProvisionDetails)
    : M X (option ProvisionParameters * option error) :=
  if bool_decide (0 < String.length (pd_RawParameters details))%nat
  then parseProvisionParameters (pd_RawParameters details)
  else ret (Some zero_ProvisionParameters, None).

(** The name of the snapshot to restore from, if one is asked for. *)
(* map: broker/broker.go 123-152 Provision *)
Definition find_restore_snapshot (providerCtx : context) (details : ProvisionDetails)
    (userParameters : ProvisionParameters) : M X (option string * option error) :=
  match prov_RestoreFromLatestSnapshotOf userParameters with
  | None => ret (None, None)
  | Some source =>
      try! snapshots := pv_do (PvFindSnapshots providerCtx source)
        catch err => ret (None, Some err) in
      if bool_decide (length snapshots = 0%nat) then
        ret (None, Some (ErrorString ("No snapshots found for: " +:+ source)))
      else
        let snapshots := rt_sort ByCreateTime_Less snapshots in
        let! latestSnapshot := index snapshots 0 in
        match check_snapshot_tags latestSnapshot details with
        | Some err => ret (None, Some err)
        | None => ret (Some (si_Name latestSnapshot), None)
        end
  end.

(** The fresh copy of the parameters of the plan, with the policy the user
    asks for. *)
(* map: broker/broker.go 154-160 Provision *)
Definition copy_parameters (planConfig : PlanConfig) (userParameters : ProvisionParameters)
    : M X map_ref :=
  let! params := alloc_map ∅ in
  let! planParameters := read_map (pc_Parameters planConfig) in
  let! entries := range_map planParameters in
  do! for_each entries tt (λ _ '(k, v), write_map params k v) in
  do! match prov_MaxMemoryPolicy userParameters with
      | Some policy => write_map params "maxmemory-policy" policy
      | None => ret tt
      end in
  ret params.

(* map: broker/broker.go 94-204 Provision *)
Definition Provision (b : Broker) (ctx : context) (instanceID : string)
    (details : ProvisionDetails) (asyncAllowed : bool)
    : M X (ProvisionedServiceSpec * option error) :=
  let data := [("instance-id", LString instanceID); ("details", LProvision details);
               ("accepts-incomplete", LBool asyncAllowed)] in
  do! log LDebug "provision-start" None data in
  if negb asyncAllowed then ret (zero_Provisioned, Some ErrAsyncRequired) else
  match GetPlanConfig (b_config b) (pd_PlanID details) with
  | (_, Some err) => ret (zero_Provisioned, Some (ErrorString
      ("service plan " +:+ pd_PlanID details +:+ ": " +:+ error_text err)))
  | (planConfig, None) =>
      with_timeout ctx timeout_30s (λ providerCtx,
        try! userParameters := provision_user_parameters details
          catch err => ret (zero_Provisioned, Some err) in
        let! userParameters := deref userParameters in
        try! restoreFromSnapshotName :=
            find_restore_snapshot providerCtx details userParameters
          catch err => ret (zero_Provisioned, Some err) in
        let! params := copy_parameters planConfig userParameters in
        check! pv_do (PvProvision providerCtx instanceID
                 (provision_parameters (b_config b) planConfig instanceID details userParameters
                    restoreFromSnapshotName params))
          catch err => ret (zero_Provisioned, Some (ErrorString
            ("provider redis for plan " +:+ pd_PlanID details +:+ ": " +:+ error_text err))) in
        do! log LDebug "provision-success" None data in
        ret (mkProvisionedServiceSpec true
               (Operation_String (mkOperation ActionProvisioning "" "")), None))
  end.

(* map: broker/broker.go 232-239 Update *)
Definition update_user_parameters (details : UpdateDetails)
    : M X (option UpdateParameters * option error) :=
  if bool_decide (0 < String.length (ud_RawParameters details))%nat
  then parseUpdateParameters (ud_RawParameters details)
  else ret (Some zero_UpdateParameters, None).

(** The part of [Update] for a failover test. *)
(* map: broker/broker.go 247-274 Update *)
Definition update_failover (b : Broker) (providerCtx : context) (instanceID : string)
    (details : UpdateDetails) (userParameters : UpdateParameters)
    : M X (UpdateServiceSpec * option error) :=
  match GetPlanConfig (b_config b) (ud_PlanID details) with
  | (_, Some err) => ret (zero_Update, Some (errors_wrap err "Failed to find service plan"))
  | (planConfig, None) =>
      let! parameters := read_map (pc_Parameters planConfig) in
      if bool_decide (parameters !! "cluster-enabled" = Some "yes") then
        ret (zero_Update, Some (ErrorString
          "Test failover is not supported for Redis instances in cluster mode"))
      else if bool_decide (pc_MultiAZEnabled planConfig = false) ||
              bool_decide (pc_AutomaticFailoverEnabled planConfig = false) then
        ret (zero_Update, Some (ErrorString
          "Test failover is not supported without MultiAZEnabled and AutomaticFailoverEnabled"))
      else if pc_ReplicasPerNodeGroup planConfig <? 1 then
        ret (zero_Update, Some (ErrorString "Test failover requires one or more replicas"))
      else if negb (bool_decide (upd_MaxMemoryPolicy userParameters = None)) ||
              negb (bool_decide (upd_PreferredMaintenanceWindow userParameters = "")) then
        ret (zero_Update, Some (ErrorString "Test failover must be used by itself"))
      else
        try! primaryNode := pv_do (PvStartFailoverTest providerCtx instanceID)
          catch err => ret (zero_Update, Some (errors_wrap err "Test failover failed: ")) in
        let! t := now in
        ret (mkUpdateServiceSpec true (Operation_String (mkOperation ActionFailover primaryNode
               (format_rfc3339 (t + FailoverTimeout) (rt_zone (t + FailoverTimeout))))), None)
  end.

(* map: broker/broker.go 276-288 Update *)
Definition update_window (providerCtx : context) (instanceID : string)
    (userParameters : UpdateParameters) (data : list (string * log_value)) : M X (option error) :=
  if bool_decide (upd_PreferredMaintenanceWindow userParameters = "") then ret None else
  check! pv_do (PvUpdateReplicationGroup providerCtx instanceID
           (mkUpdateReplicationGroupParameters (upd_PreferredMaintenanceWindow userParameters)))
    catch err => ret (Some (errors_wrap err "Updating preferred maintenance window failed")) in
  do! log LDebug "update-replication-group-success" None data in
  ret None.

(* map: broker/broker.go 290-306 Update *)
Definition update_policy (providerCtx : context) (instanceID : string)
    (userParameters : UpdateParameters) (data : list (string * log_value)) : M X (option error) :=
  match upd_MaxMemoryPolicy userParameters with
  | None => ret None
  | Some policy =>
      let! params := alloc_map ∅ in
      do! write_map params "maxmemory-policy" policy in
      check! pv_do (PvUpdateParamGroupParameters providerCtx instanceID
               (mkUpdateParamGroupParameters params))
        catch err => ret (Some (errors_wrap err "Updating maxmemory policy failed")) in
      do! log LDebug "update-parameter-group-success" None data in
      ret None
  end.

(* map: broker/broker.go 206-312 Update *)
Definition Update (b : Broker) (ctx : context) (instanceID : string) (details : UpdateDetails)
    (asyncAllowed : bool) : M X (UpdateServiceSpec * option error) :=
  let data := [("instance-id", LString instanceID); ("details", LUpdate details);
               ("accepts-incomplete", LBool asyncAllowed)] in
  do! log LDebug "update" None data in
  if negb asyncAllowed then ret (zero_Update, Some ErrAsyncRequired) else
  with_timeout ctx timeout_30s (λ providerCtx,
    if negb (bool_decide (ud_PlanID details = pv_PlanID (ud_PreviousValues details))) then
      ret (zero_Update, Some (ErrorString "changing plans is not currently supported"))
    else if negb (bool_decide (ud_ServiceID details = pv_ServiceID (ud_PreviousValues details))) then
      ret (zero_Update, Some (ErrorString "changing plans is not currently supported"))
    else
    try! userParameters := update_user_parameters details
      catch err => ret (zero_Update, Some err) in
    let! userParameters := deref userParameters in
    if checkIfNoUpdateParametersAreSet userParameters then
      ret (zero_Update, Some (ErrorString "no parameters provided"))
    else
    match upd_TestFailover userParameters with
    | Some _ => update_failover b providerCtx instanceID details userParameters
    | None =>
        check! update_window providerCtx instanceID userParameters data
          catch err => ret (zero_Update, Some err) in
        check! update_policy providerCtx instanceID userParameters data
          catch err => ret (zero_Update, Some err) in
        ret (mkUpdateServiceSpec true (Operation_String (mkOperation ActionUpdating "" "")), None)
    end).

(* map: broker/broker.go 314-344 Deprovision *)
Definition Deprovision (b : Broker) (ctx : context) (instanceID : string)
    (details : DeprovisionDetails) (asyncAllowed : bool)
    : M X (DeprovisionServiceSpec * option error) :=
  let data := [("instance-id", LString instanceID); ("details", LDeprovision details);
               ("accepts-incomplete", LBool asyncAllowed)] in
  do! log LDebug "deprovision-start" None data in
  if negb asyncAllowed then ret (zero_Deprovision, Some ErrAsyncRequired) else
  with_timeout ctx timeout_30s (λ providerCtx,
    check! pv_do (PvDeprovision providerCtx instanceID (mkDeprovisionParameters ""))
      catch err => ret (zero_Deprovision, Some (ErrorString
        ("provider redis for plan " +:+ dd_PlanID details +:+ ": " +:+ error_text err))) in
    do! log LDebug "deprovision-success" None data in
    ret (mkDeprovisionServiceSpec true
           (Operation_String (mkOperation ActionDeprovisioning "" "")), None)).

(* map: broker/broker.go 346-362 Bind *)
Definition Bind (b : Broker) (ctx : context) (instanceID bindingID : string)
    (details : BindDetails) (asyncAllowed : bool) : M X (option Credentials * option error) :=
  do! log LDebug "bind" None [("instance-id", LString instanceID);
        ("binding-id", LString bindingID); ("details", LBind details)] in
  try! credentials := pv_do (PvGenerateCredentials ctx instanceID bindingID)
    catch err => ret (None, Some err) in
  ret (credentials, None).

(* map: broker/broker.go 364-373 Unbind *)
Definition Unbind (b : Broker) (ctx : context) (instanceID bindingID : string)
    (details : UnbindDetails) (asyncAllowed : bool) : M X (option error) :=
  do! log LDebug "unbind" None [("instance-id", LString instanceID);
        ("binding-id", LString bindingID); ("details", LUnbind details)] in
  pv_do (PvRevokeCredentials ctx instanceID bindingID).

(** The operation a poll is about: no data is a zero operation. *)
(* map: broker/broker.go 382-392 LastOperation *)
Definition parse_operation (pollDetails : PollDetails) : Operation * option error :=
  let data := poll_OperationData pollDetails in
  if bool_decide (data = "") then (zero_Operation, None) else
  match unmarshal_operation data with
  | (_, Some _) => (zero_Operation, Some (ErrorString ("invalid operation data: " +:+ data)))
  | (operation, None) =>
      if bool_decide (op_Action operation = "") then
        (operation, Some (ErrorString
           ("invalid operation, action parameter is empty: " +:+ data)))
      else (operation, None)
  end.

(** The deadline of the operation, if it has one. *)
(* map: broker/broker.go 394-403 LastOperation *)
Definition check_timeout (operation : Operation) (instanceID : string) : M X (option error) :=
  if bool_decide (op_TimeOut operation = "") then ret None else
  match parse_rfc3339 (op_TimeOut operation) with
  | None => ret (Some (errors_wrap (TimeParseError (op_TimeOut operation))
                   "Failed to parse time out string"))
  | Some timeOutParsed =>
      let! t := now in
      if timeOutParsed <? t then
        ret (Some (ErrorString ("Operation " +:+ op_Action operation +:+ " timed out for "
                                +:+ instanceID)))
      else ret None
  end.

(** The answer of the provider, with the clean-up of a deleted instance. *)
(* map: broker/broker.go 408-433 LastOperation *)
Definition poll_state (providerCtx : context) (instanceID : string) (operation : Operation)
    : M X (LastOperationResult * option error) :=
  let! (state, stateDescription, err) :=
    pv_do (PvProgressState providerCtx instanceID (op_Action operation)
             (op_PrimaryNode operation)) in
  match err with
  | Some err => ret (zero_LastOperation, Some (ErrorString
      ("error getting state for " +:+ instanceID +:+ ": " +:+ error_text err)))
  | None =>
      if bool_decide (state = NonExisting) then
        check!
          (if bool_decide (op_Action operation = ActionDeprovisioning)
           then pv_do (PvDeleteCacheParameterGroup providerCtx instanceID)
           else ret None)
          catch err => ret (zero_LastOperation, Some (ErrorString
            ("error deleting parameter group " +:+ instanceID +:+ ": " +:+ error_text err))) in
        ret (zero_LastOperation, Some ErrInstanceDoesNotExist)
      else
        let (lastOperationState, err) := ProviderStatesMapping state in
        do! match err with
            | Some _ => log LError "last-operation" err [("instance-id", LString instanceID)]
            | None => ret tt
            end in
        ret (mkLastOperation lastOperationState stateDescription, None)
  end.

(* map: broker/broker.go 375-434 LastOperation *)
Definition LastOperation (b : Broker) (ctx : context) (instanceID : string)
    (pollDetails : PollDetails) : M X (LastOperationResult * option error) :=
  do! log LDebug "last-operation" None [("instance-id", LString instanceID);
        ("operation-data", LString (poll_OperationData pollDetails))] in
  match parse_operation pollDetails with
  | (_, Some err) => ret (zero_LastOperation, Some err)
  | (operation, None) =>
      check! check_timeout operation instanceID
        catch err => ret (zero_LastOperation, Some err) in
      with_timeout ctx timeout_30s (λ providerCtx, poll_state providerCtx instanceID operation)
  end.
End broker.
