(* ===== verification/BenchBroker.v ===== *)
(** * A configuration for the test bench

    A broker with one plan, highly available and with one replica, over the
    fake provider of the bench. *)
From S2P Require Import Prelude GoBase Sdk Providers Go Interfaces Bench Config Broker.
Local Open Scope Z_scope.

#[export] Existing Instances bench_Provider bench_ProviderLaws.

Definition bench_plan : PlanConfig :=
  mkPlanConfig "cache.t3.small" 1 1 7 true true (Some 0%nat) "redis" "6.x" "redis6.x".

(** The only map object: the parameters of the plan. *)
Definition bench_heap : list (gmap string string) := [ {[ "cluster-enabled" := "no" ]} ].

Definition bench_config : Config :=
  mkConfig "info" "user" "pass" "eu-west-1" "broker" "subnet" ["sg-1"]
    [mkService "service-1" [mkServicePlan "plan-1"]] {[ "plan-1" := bench_plan ]}
    "key" "path" "0.0.0.0" None.

Definition bench_broker : Broker := New bench_config.

Lemma bench_plans id plan :
  cf_PlanConfigs (b_config bench_broker) !! id = Some plan → id = "plan-1" ∧ plan = bench_plan.
Proof.
  change (cf_PlanConfigs (b_config bench_broker)) with ({[ "plan-1" := bench_plan ]} : gmap string PlanConfig).
  by intros [<- <-]%lookup_singleton_Some.
Qed.

(** A world at noon of 1 January 2024, with a script for the provider. *)
Definition bench_world (pv : ∀ c, pv_out c) : bench :=
  mkBench (1704110400 * time_Second) ec_empty sm_empty pv.

Definition bench_state (pv : ∀ c, pv_out c) : state bench := bench_start bench_heap (bench_world pv).

(** A provider that has two snapshots, with tags of the space. *)
Definition bench_tags : gmap string string :=
  {[ "space-id" := "space"; "organization-id" := "org"; "plan-id" := "plan-1" ]}.

Definition pv_snapshots (c : pv_call) : pv_out c :=
  match c return pv_out c with
  | PvFindSnapshots _ _ =>
      ([mkSnapshotInfo "old" 1 bench_tags; mkSnapshotInfo "new" 2 bench_tags], None)
  | c => pv_empty c
  end.
