(* ===== verification/BrokerOperation.v ===== *)
(** * Operation data and deadlines

    What the broker hands to the platform with an asynchronous operation comes
    back with every poll: the round trip of [Operation], and the deadline of a
    failover test. *)
From S2P Require Import Prelude GoBase Sdk Providers Go Interfaces Url Json Rfc3339 Config.
From S2P Require Import Parameters Broker Bench.
Local Open Scope Z_scope.

(** ** Lemmas *)

Definition operation_fields (o : Operation) : list (string * string) :=
  [("action", op_Action o); ("primaryNode", op_PrimaryNode o); ("timeOut", op_TimeOut o)].

Definition operation_utf8 (o : Operation) : Prop :=
  utf8_valid (op_Action o) = true ∧ utf8_valid (op_PrimaryNode o) = true ∧
  utf8_valid (op_TimeOut o) = true.

Lemma unmarshal_Operation_String o :
  operation_utf8 o → unmarshal_operation (Operation_String o) = (o, None).
Proof.
  intros (Ha & Hp & Ht). unfold unmarshal_operation, unmarshal_struct, Operation_String.
  rewrite json_parse_marshal; [|done|by repeat constructor].
  destruct o as [a p t]. reflexivity.
Qed.

Lemma parse_operation_string o serviceID planID :
  operation_utf8 o → op_Action o ≠ "" →
  parse_operation (mkPollDetails serviceID planID (Operation_String o)) = (o, None).
Proof.
  intros Hu Ha. unfold parse_operation. cbn [poll_OperationData].
  rewrite bool_decide_false by done. rewrite unmarshal_Operation_String by done.
  by rewrite bool_decide_false.
Qed.

(** Time stamps are ASCII. *)
Lemma string_forallb_utf8 s : string_forallb is_ascii s = true → utf8_valid s = true.
Proof.
  induction s as [|c s IH]; simpl; [done|]. rewrite andb_true_iff. intros [-> Hs]. by apply IH.
Qed.

Lemma digit_ascii d : 0 <= d < 10 → is_ascii (digit d) = true.
Proof.
  intros Hd. unfold is_ascii, digit. rewrite byte_val_of_val by (change (byte_val "0") with 48; lia).
  apply Z.ltb_lt. change (byte_val "0") with 48. lia.
Qed.

Lemma d2_ascii n : 0 <= n < 100 → string_forallb is_ascii (d2 n) = true.
Proof.
  intros Hn. unfold d2. cbn [string_forallb].
  by rewrite !digit_ascii by (Z.to_euclidean_division_equations; lia).
Qed.

Lemma format_zone_ascii offset : zone_ok offset → string_forallb is_ascii (format_zone offset) = true.
Proof.
  intros [Hm Hr]. unfold format_zone. destruct (offset =? 0); [done|]. cbv zeta.
  rewrite !string_forallb_app, !d2_ascii by (Z.to_euclidean_division_equations; lia).
  by destruct (Z.quot offset 60 <? 0).
Qed.

Lemma format_rfc3339_ascii t offset :
  0 <= (local_date t offset).1.1 < 10000 → zone_ok offset →
  string_forallb is_ascii (format_rfc3339 t offset) = true.
Proof.
  intros Hy Hz. unfold format_rfc3339.
  destruct (local_date t offset) as [[y mo] d] eqn:Hd. simpl in Hy.
  apply date_of_days_spec in Hd as (_ & Hmo & Hday). pose proof (days_in_le mo y Hmo).
  pose proof (Z.mod_pos_bound (local_seconds t offset) 86400 ltac:(lia)) as Hs.
  unfold d4. rewrite !string_forallb_app, format_zone_ascii by done.
  by rewrite !d2_ascii by (Z.to_euclidean_division_equations; lia).
Qed.

Lemma format_rfc3339_nonempty t offset : format_rfc3339 t offset ≠ "".
Proof. unfold format_rfc3339. by destruct (local_date t offset) as [[y mo] d]. Qed.

(** The operation of a failover test started at [t0] in a zone. *)
Definition failover_operation (primaryNode : string) (t0 offset : Z) : Operation :=
  mkOperation ActionFailover primaryNode (format_rfc3339 (t0 + FailoverTimeout) offset).

(** The deadline is the end of the time-out, cut to the second. *)
Definition failover_deadline (t0 : Z) : Z := (t0 + FailoverTimeout) / ns_per_s * ns_per_s.

(** The instants the format can express: a year of four digits, and an offset
    of whole minutes within a day. *)
Definition deadline_ok (t0 offset : Z) : Prop :=
  0 <= (local_date (t0 + FailoverTimeout) offset).1.1 < 10000 ∧ zone_ok offset.

(** ** Properties *)

(** C28: the operation data of the broker survive the round trip through the
    platform: what [Operation.String] writes, [LastOperation] decodes to the
    same operation, for all fields that are well-formed UTF-8 (quotes,
    backslashes, control characters and HTML characters included). *)
Theorem operation_roundtrip (o : Operation) (serviceID planID : string) :
  operation_utf8 o → op_Action o ≠ "" →
  parse_operation (mkPollDetails serviceID planID (Operation_String o)) = (o, None).
Proof. apply parse_operation_string. Qed.

Lemma operation_roundtrip_witness :
  let o := mkOperation "failover" ("node-" +:+ chr 34 +:+ "<é>" +:+ chr 10) "2023-11-14T22:13:20Z" in
  parse_operation (mkPollDetails "s" "p" (Operation_String o)) = (o, None).
Proof.
  apply (operation_roundtrip
    (mkOperation "failover" ("node-" +:+ chr 34 +:+ "<é>" +:+ chr 10) "2023-11-14T22:13:20Z") "s" "p").
  - vm_compute. auto.
  - discriminate.
Defined.

(** C29: the deadline of a failover test: the operation data written at time [t0]
    make a poll at time [t] fail with the time-out error exactly when [t] is
    after [t0] plus 45 minutes, cut to the second; the time zone of the broker
    does not matter. *)
Theorem failover_times_out {X : Type} `{RuntimeLaws X} (primaryNode instanceID : string)
    (t0 offset : Z) (h : list (gmap string string)) :
  deadline_ok t0 offset →
  runs h (check_timeout (failover_operation primaryNode t0 offset) instanceID : M X _)
    (λ o es h', h' = h ∧ ∃ t, es = [EvNow t] ∧
      o = Ret (if failover_deadline t0 <? t
               then Some (ErrorString ("Operation failover timed out for " +:+ instanceID))
               else None)).
Proof.
  intros [Hy Hz]. unfold check_timeout. cbn [failover_operation op_TimeOut op_Action].
  rewrite bool_decide_false by apply format_rfc3339_nonempty.
  rewrite parse_format by done. fold (failover_deadline t0).
  apply runs_bind, runs_now. intros t. cbn beta iota.
  destruct (failover_deadline t0 <? t) eqn:Ht; go_step; (split; [done|]); exists t; by rewrite Ht.
Qed.

(** A failover test started at noon of 1 January 2024, at UTC plus one hour. *)
Definition bench_start_time : Z := 1704110400 * time_Second.

Lemma failover_times_out_witness :
  runs [] (check_timeout (failover_operation "node-1" bench_start_time 3600) "instance" : M bench _)
    (λ o es h', h' = [] ∧ ∃ t, es = [EvNow t] ∧
      o = Ret (if failover_deadline bench_start_time <? t
               then Some (ErrorString "Operation failover timed out for instance") else None)) ∧
  op_TimeOut (failover_operation "node-1" bench_start_time 3600) = "2024-01-01T13:45:00+01:00".
Proof.
  split; [|by vm_compute].
  apply (failover_times_out "node-1" "instance" bench_start_time 3600 []).
  split; [|split]; vm_compute; (split; [discriminate|done]) || done.
Defined.
