(* ===== verification/BrokerProvision.v ===== *)
(** * The broker: provisioning

    What [Broker.Provision] does, for every provider that keeps the laws: the
    calls to the provider, the parameters it is given, the result, and the maps
    of the configuration. *)
From S2P Require Import Prelude GoBase Sdk Providers Go Interfaces Json Config Parameters Broker.
From S2P Require Import Bench BenchBroker.
Local Open Scope Z_scope.

(** ** What [Provision] promises *)

(** The parameters of an instance: those of the plan, with the policy of the
    user. *)
Definition merged_parameters (planParameters : gmap string string) (user : ProvisionParameters)
    : gmap string string :=
  match prov_MaxMemoryPolicy user with
  | Some policy => <["maxmemory-policy" := policy]> planParameters
  | None => planParameters
  end.

Definition latest_snapshot (s : SnapshotInfo) (l : list SnapshotInfo) : Prop :=
  s ∈ l ∧ ∀ s', s' ∈ l → si_CreateTime s' <= si_CreateTime s.

Definition user_parameters_parsed (details : ProvisionDetails)
    (r : option ProvisionParameters * option error) : Prop :=
  (pd_RawParameters details = "" ∧ r = (Some zero_ProvisionParameters, None)) ∨
  (pd_RawParameters details ≠ "" ∧ provision_parsed (pd_RawParameters details) r).

(** A snapshot can be used when its tags name the space, the organization and
    the plan of the request; otherwise the first difference is the error. *)
Record snapshot_usable (s : SnapshotInfo) (details : ProvisionDetails) : Prop := {
  usable_space : si_Tags s !! "space-id" = Some (pd_SpaceGUID details);
  usable_organization : si_Tags s !! "organization-id" = Some (pd_OrganizationGUID details);
  usable_plan : si_Tags s !! "plan-id" = Some (pd_PlanID details);
}.

Inductive snapshot_refusal (s : SnapshotInfo) (details : ProvisionDetails) : error → Prop :=
  | refused_place :
      si_Tags s !! "space-id" ≠ Some (pd_SpaceGUID details) ∨
      si_Tags s !! "organization-id" ≠ Some (pd_OrganizationGUID details) →
      snapshot_refusal s details (ErrorString
        "The service instance you are getting a snapshot from is not in the same org or space")
  | refused_plan :
      si_Tags s !! "space-id" = Some (pd_SpaceGUID details) →
      si_Tags s !! "organization-id" = Some (pd_OrganizationGUID details) →
      si_Tags s !! "plan-id" ≠ Some (pd_PlanID details) →
      snapshot_refusal s details (ErrorString
        "You must use the same plan as the service instance you are getting a snapshot from").

(** The choice of the snapshot: the calls and the name or the error. *)
Inductive restore_run (pctx : context) (details : ProvisionDetails) (user : ProvisionParameters)
    : list event → option string * option error → Prop :=
  | restore_none :
      prov_RestoreFromLatestSnapshotOf user = None →
      restore_run pctx details user [] (None, None)
  | restore_error source l e :
      prov_RestoreFromLatestSnapshotOf user = Some source →
      restore_run pctx details user
        [EvProvider (PvFindSnapshots pctx source) [] (l, Some e)] (None, Some e)
  | restore_empty source :
      prov_RestoreFromLatestSnapshotOf user = Some source →
      restore_run pctx details user [EvProvider (PvFindSnapshots pctx source) [] ([], None)]
        (None, Some (ErrorString ("No snapshots found for: " +:+ source)))
  | restore_refused source l s e :
      prov_RestoreFromLatestSnapshotOf user = Some source →
      latest_snapshot s l → snapshot_refusal s details e →
      restore_run pctx details user
        [EvProvider (PvFindSnapshots pctx source) [] (l, None)] (None, Some e)
  | restore_found source l s :
      prov_RestoreFromLatestSnapshotOf user = Some source →
      latest_snapshot s l → snapshot_usable s details →
      restore_run pctx details user
        [EvProvider (PvFindSnapshots pctx source) [] (l, None)] (Some (si_Name s), None).

(** The request for an instance that the provider is given: the configuration of
    the plan, the network settings of the broker, the wishes of the user, the map
    object [l] for the parameters, and the tags. *)
Record instance_request (config : Config) (plan : PlanConfig) (instanceID : string)
    (details : ProvisionDetails) (user : ProvisionParameters) (snapshot : option string) (l : nat)
    (q : Providers.ProvisionParameters) : Prop := {
  request_type : pp_InstanceType q = pc_InstanceType plan;
  request_family : pp_CacheParameterGroupFamily q = pc_CacheParameterGroupFamily plan;
  request_replicas : pp_ReplicasPerNodeGroup q = pc_ReplicasPerNodeGroup plan;
  request_shards : pp_ShardCount q = pc_ShardCount plan;
  request_retention : pp_SnapshotRetentionLimit q = pc_SnapshotRetentionLimit plan;
  request_failover : pp_AutomaticFailoverEnabled q = pc_AutomaticFailoverEnabled plan;
  request_multi_az : pp_MultiAZEnabled q = pc_MultiAZEnabled plan;
  request_engine : pp_Engine q = pc_Engine plan;
  request_version : pp_EngineVersion q = pc_EngineVersion plan;
  request_security_groups : pp_SecurityGroupIds q = cf_VpcSecurityGroupIds config;
  request_subnets : pp_CacheSubnetGroupName q = cf_CacheSubnetGroupName config;
  request_window : pp_PreferredMaintenanceWindow q = prov_PreferredMaintenanceWindow user;
  request_snapshot : pp_RestoreFromSnapshot q = snapshot;
  request_description : pp_Description q = "Cloud Foundry service";
  request_parameters : pp_Parameters q = Some l;
  request_tags : ∀ key value, pp_Tags q !! key = Some value ↔ (key, value) ∈
    [("created-by", cf_BrokerName config); ("service-id", pd_ServiceID details);
     ("plan-id", pd_PlanID details); ("organization-id", pd_OrganizationGUID details);
     ("space-id", pd_SpaceGUID details); ("instance-id", instanceID);
     ("chargeable_entity", instanceID)];
}.

Section provision_run.
Variables (b : Broker) (ctx : context) (instanceID : string).
Variables (details : ProvisionDetails) (asyncAllowed : bool) (h : list (gmap string string)).
Abbreviation config := (b_config b).
Abbreviation pctx := (TimeoutContext ctx timeout_30s).

Inductive provision_run : list event → ProvisionedServiceSpec * option error → Prop :=
  | provision_sync :
      asyncAllowed = false → provision_run [] (zero_Provisioned, Some ErrAsyncRequired)
  | provision_no_plan :
      asyncAllowed = true → cf_PlanConfigs config !! pd_PlanID details = None →
      provision_run [] (zero_Provisioned, Some (ErrorString
        ("service plan " +:+ pd_PlanID details +:+ ": no plan found")))
  | provision_bad_parameters plan e :
      asyncAllowed = true → cf_PlanConfigs config !! pd_PlanID details = Some plan →
      user_parameters_parsed details (None, Some e) →
      provision_run [] (zero_Provisioned, Some e)
  | provision_no_restore plan user pes s e :
      asyncAllowed = true → cf_PlanConfigs config !! pd_PlanID details = Some plan →
      user_parameters_parsed details (Some user, None) →
      restore_run pctx details user pes (s, Some e) →
      provision_run pes (zero_Provisioned, Some e)
  | provision_called plan planParameters user pes snapshot l q err :
      asyncAllowed = true → cf_PlanConfigs config !! pd_PlanID details = Some plan →
      deref_map h (pc_Parameters plan) = Some planParameters →
      user_parameters_parsed details (Some user, None) →
      restore_run pctx details user pes (snapshot, None) →
      (length h ≤ l)%nat → instance_request config plan instanceID details user snapshot l q →
      provision_run
        (pes ++ [EvProvider (PvProvision pctx instanceID q)
                 [merged_parameters planParameters user] err])
        match err with
        | Some e => (zero_Provisioned, Some (ErrorString
            ("provider redis for plan " +:+ pd_PlanID details +:+ ": " +:+ error_text e)))
        | None => (mkProvisionedServiceSpec true
            (Operation_String (mkOperation ActionProvisioning "" "")), None)
        end.
End provision_run.

(** The maps of the plans exist. *)
Definition plan_maps_ok (b : Broker) (h : list (gmap string string)) : Prop :=
  ∀ id plan, cf_PlanConfigs (b_config b) !! id = Some plan →
    is_Some (deref_map h (pc_Parameters plan)).

(** ** Lemmas *)

Lemma ByCreateTime_strict_weak : strict_weak ByCreateTime_Less.
Proof.
  unfold ByCreateTime_Less. split; intros *; rewrite ?Z.ltb_lt, ?Z.ltb_ge; lia.
Qed.

(** Writing entries one by one. *)
Lemma foldl_insert_union (entries : list (string * string)) (m : gmap string string) :
  NoDup entries.*1 → foldl (λ m '(k, v), <[k := v]> m) m entries = list_to_map entries ∪ m.
Proof.
  revert m. induction entries as [|[k v] entries IH]; intros m; simpl.
  { by rewrite map_empty_union. }
  intros Hnd. inversion_clear Hnd as [|? ? Hk Hnd']. rewrite IH by done.
  rewrite <-insert_union_l, <-insert_union_r; [done|].
  by apply not_elem_of_list_to_map.
Qed.

Lemma foldl_insert_map (entries : list (string * string)) (m : gmap string string) :
  entries ≡ₚ map_to_list m → foldl (λ m '(k, v), <[k := v]> m) ∅ entries = m.
Proof.
  intros He. assert (NoDup entries.*1) as Hnd.
  { rewrite He. apply NoDup_fst_map_to_list. }
  rewrite foldl_insert_union, map_union_empty by done.
  rewrite (list_to_map_proper entries (map_to_list m)) by done.
  apply list_to_map_to_list.
Qed.

Lemma instance_tags_lookup brokerName instanceID details key value :
  instance_tags brokerName instanceID details !! key = Some value ↔ (key, value) ∈
    [("created-by", brokerName); ("service-id", pd_ServiceID details);
     ("plan-id", pd_PlanID details); ("organization-id", pd_OrganizationGUID details);
     ("space-id", pd_SpaceGUID details); ("instance-id", instanceID);
     ("chargeable_entity", instanceID)].
Proof.
  set (entries := _ :: _).
  assert (instance_tags brokerName instanceID details = list_to_map entries) as -> by done.
  symmetry. apply elem_of_list_to_map. apply (bool_decide_eq_true (NoDup _)). by vm_compute.
Qed.

Lemma provision_parameters_request config plan instanceID details user snapshot l :
  instance_request config plan instanceID details user snapshot l
    (provision_parameters config plan instanceID details user snapshot (Some l)).
Proof. split; try done. intros key value. apply instance_tags_lookup. Qed.

Lemma check_snapshot_tags_spec s details :
  match check_snapshot_tags s details with
  | None => snapshot_usable s details
  | Some e => snapshot_refusal s details e
  end.
Proof.
  unfold check_snapshot_tags. repeat (case_bool_decide; cbn [negb]); [done|..].
  - by apply refused_plan.
  - apply refused_place. by right.
  - apply refused_place. by left.
Qed.

Section lemmas.
Context {X : Type} `{RuntimeLaws X} `{Provider X} `{!ProviderLaws X}.
Implicit Types h : list (gmap string string).

Lemma runs_write_entries h l m (entries : list (string * string)) :
  h !! l = Some m →
  runs h (for_each entries tt (λ _ '(k, v), write_map (Some l) k v) : M X _) (λ o es h',
    o = Ret tt ∧ es = [] ∧ h' = <[l := foldl (λ m '(k, v), <[k := v]> m) m entries]> h).
Proof.
  revert h m. induction entries as [|[k v] entries IH]; intros h m Hl; simpl.
  { apply runs_ret. by rewrite list_insert_id. }
  assert (l < length h)%nat by (by eapply lookup_lt_Some).
  apply runs_bind, (runs_write_map _ _ m); [done|].
  eapply runs_conseq; [apply (IH _ (<[k := v]> m)); by apply list_lookup_insert_eq|].
  intros o es h' (-> & -> & ->). by rewrite list_insert_insert_eq.
Qed.

(** The provider gets a fresh copy: the map of the plan is only read. *)
Lemma runs_copy_parameters h plan user planParameters :
  deref_map h (pc_Parameters plan) = Some planParameters →
  runs h (copy_parameters plan user : M X _) (λ o es h',
    es = [] ∧ o = Ret (Some (length h)) ∧ h' = h ++ [merged_parameters planParameters user]).
Proof.
  intros Hp. unfold copy_parameters. apply runs_bind, runs_alloc_map. cbn beta iota.
  apply runs_bind, (runs_read_deref _ _ planParameters).
  { by eapply frame_deref; [apply frame_alloc|]. }
  cbn beta iota. apply runs_bind, runs_range_map. intros entries He. cbn beta iota.
  assert (∀ m : gmap string string, (h ++ [m]) !! length h = Some m) as Hlook.
  { intros m. by rewrite lookup_app_r, Nat.sub_diag. }
  assert (∀ m m' : gmap string string, <[length h := m']> (h ++ [m]) = h ++ [m']) as Hset.
  { intros m m'. by rewrite insert_app_r_alt, Nat.sub_diag. }
  apply runs_bind. eapply runs_conseq; [apply (runs_write_entries _ _ ∅); apply Hlook|].
  intros o es h' (-> & -> & ->). cbn beta iota. rewrite (foldl_insert_map _ planParameters), Hset by done.
  unfold merged_parameters. destruct (prov_MaxMemoryPolicy user) as [policy|].
  - apply runs_bind, (runs_write_map _ _ planParameters); [done|]. cbn beta iota. go_step.
    by rewrite Hset.
  - go_steps. done.
Qed.

Lemma runs_provision_user_parameters h details :
  runs h (provision_user_parameters details : M X _) (λ o es h',
    es = [] ∧ h' = h ∧ ∃ r, o = Ret r ∧ user_parameters_parsed details r).
Proof.
  unfold provision_user_parameters, user_parameters_parsed. case_bool_decide as Hl.
  - eapply runs_conseq; [apply runs_parseProvisionParameters|].
    intros o es h' (-> & -> & r & -> & Hr). split; [done|]. split; [done|]. exists r.
    split; [done|]. right. split; [|done]. intros He. rewrite He in Hl. simpl in Hl. lia.
  - go_step. split; [done|]. split; [done|]. eexists. split; [done|]. left. split; [|done].
    destruct (pd_RawParameters details); [done|]. simpl in Hl. lia.
Qed.

Lemma sorted_head_latest (l : list SnapshotInfo) s l' :
  rt_sort ByCreateTime_Less l = s :: l' → latest_snapshot s l.
Proof.
  intros Hs. pose proof (rt_sort_perm _ ByCreateTime_Less l) as Hp.
  pose proof (rt_sort_sorted _ ByCreateTime_Less l ByCreateTime_strict_weak) as Hsort.
  rewrite Hs in *. split; [rewrite <-Hp; apply list_elem_of_here|].
  intros s' Hs'. rewrite <-Hp in Hs'. apply elem_of_cons in Hs' as [->|Hin]; [done|].
  apply StronglySorted_inv in Hsort as [_ Hall]. rewrite list.Forall_forall in Hall.
  specialize (Hall s' Hin). unfold ByCreateTime_Less in Hall. apply Z.ltb_ge in Hall. done.
Qed.

Lemma runs_find_restore_snapshot h pctx details user :
  runs h (find_restore_snapshot pctx details user : M X _) (λ o es h',
    frame [] h h' ∧
    match o with
    | Ret r => restore_run pctx details user (broker_events es) r
    | Panic p => provider_panics X p
    end).
Proof.
  unfold find_restore_snapshot.
  destruct (prov_RestoreFromLatestSnapshotOf user) as [source|] eqn:Hsrc.
  2: { go_step. split; [apply frame_refl|]. by constructor. }
  apply runs_bind, runs_pv_do; [by constructor| |].
  2: { intros p es h' Hp Hes Hfr. done. }
  intros [l [e|]] es h' Hes Hfr; cbn beta iota.
  { go_step. split; [done|]. rewrite app_nil_r, broker_events_app, Hes. by econstructor. }
  case_bool_decide as Hl.
  { go_step. split; [done|]. rewrite app_nil_r, broker_events_app, Hes.
    destruct l; [|done]. by econstructor. }
  cbv zeta. apply runs_bind, runs_index.
  destruct (rt_sort ByCreateTime_Less l) as [|s l'] eqn:Hsort.
  { pose proof (rt_sort_perm _ ByCreateTime_Less l) as Hp. rewrite Hsort in Hp.
    apply Permutation_length in Hp. simpl in Hp. congruence. }
  cbn [lookup list_lookup]. pose proof (sorted_head_latest _ _ _ Hsort).
  pose proof (check_snapshot_tags_spec s details) as Hc.
  destruct (check_snapshot_tags s details) as [e|]; go_step; (split; [done|]);
    rewrite !app_nil_r, broker_events_app, Hes.
  - by eapply restore_refused.
  - by eapply restore_found.
Qed.

Lemma user_parameters_result details r :
  user_parameters_parsed details r →
  (∃ user, r = (Some user, None)) ∨ ∃ e, r = (None, Some e).
Proof.
  intros [[_ ->]|[_ Hr]]; [by left; eexists|]. by eapply document_parsed_result.
Qed.

(** The handler, on every branch. *)
Lemma runs_broker_Provision h b ctx instanceID details asyncAllowed :
  plan_maps_ok b h →
  runs h (Provision b ctx instanceID details asyncAllowed : M X _)
    (handled (TimeoutContext ctx timeout_30s) h
      (provision_run b ctx instanceID details asyncAllowed h)).
Proof.
  intros Hmaps. unfold Provision. cbv zeta. do 2 go_step.
  destruct asyncAllowed; cbn [negb].
  2: { go_step. apply handled_quiet. by constructor. }
  unfold GetPlanConfig. destruct (cf_PlanConfigs (b_config b) !! pd_PlanID details)
    as [plan|] eqn:Hplan.
  2: { go_step. apply handled_quiet. by constructor. }
  destruct (Hmaps _ _ Hplan) as [planParameters Hpp].
  go_step. apply runs_bind. eapply runs_conseq; [apply runs_provision_user_parameters|].
  intros o es h' (-> & -> & r & -> & Huser). cbn beta iota.
  destruct (user_parameters_result _ _ Huser) as [[user ->]|[e ->]].
  2: { go_step. apply handled_cancel; [apply frame_refl|]. by econstructor. }
  do 2 go_step. apply runs_bind.
  eapply runs_conseq; [apply runs_find_restore_snapshot|].
  intros [[snapshot [e|]]|p] es h' [Hfr Hrestore]; cbn beta iota.
  { go_step. apply handled_cancel; [done|]. rewrite ?app_nil_r. by eapply provision_no_restore. }
  2: { by apply handled_panic. }
  apply runs_bind. eapply runs_conseq; [apply runs_copy_parameters; by eapply frame_deref|].
  intros o es' h'' (-> & -> & ->). cbn beta iota.
  set (params := provision_parameters _ _ _ _ _ _ _).
  assert (length h ≤ length h')%nat as Hlen by apply Hfr.
  apply runs_bind, runs_pv_do.
  { simpl. repeat constructor. rewrite length_app. simpl. lia. }
  - intros r es'' h'' Hes Hfr'. simpl in Hes, Hfr', r.
    assert (frame [] h h'') as Hfr2 by (eapply frame_trans; [done|by apply frame_fresh in Hfr']).
    assert (provision_run b ctx instanceID details true h
      (broker_events es ++ [EvProvider (PvProvision (TimeoutContext ctx timeout_30s) instanceID
          params) [merged_parameters planParameters user] r]) _) as Hrun
      by (eapply provision_called; [done..|apply provision_parameters_request]).
    assert (omap (λ l, (h' ++ [merged_parameters planParameters user]) !! l) [length h'] =
      [merged_parameters planParameters user]) as Hpeek.
    { simpl. by rewrite lookup_app_r, Nat.sub_diag. }
    simpl pv_maps. unfold option_list. rewrite Hpeek.
    destruct r as [e|]; cbn beta iota; go_steps; apply handled_cancel; try done;
      rewrite ?broker_events_app, Hes; simpl; rewrite ?app_nil_r; exact Hrun.
  - intros p es'' h'' Hp Hes Hfr'. apply handled_panic; [|done].
    eapply frame_trans; [done|]. by apply frame_fresh in Hfr'.
Qed.
End lemmas.

Lemma bench_plan_maps_ok : plan_maps_ok bench_broker bench_heap.
Proof. intros id plan [_ ->]%bench_plans. by eexists. Qed.

(** The raw parameters of the request name an instance to restore. *)
Definition asks_restore_of (details : ProvisionDetails) (source : string) : Prop :=
  ∃ ms, json_parse (pd_RawParameters details) = Some (JObject ms) ∧
    pointer_value text_of "restore_from_latest_snapshot_of" ms = Some source.

(** A snapshot handed to the provider is the latest one that was found for the
    instance named in the request, with the tags of the space, the organization
    and the plan of the request. *)
Definition restore_allowed (ctx : context) (details : ProvisionDetails) (name : string)
    (pes : list event) : Prop :=
  ∃ source l s, asks_restore_of details source ∧
    EvProvider (PvFindSnapshots (TimeoutContext ctx timeout_30s) source) [] (l, None) ∈ pes ∧
    latest_snapshot s l ∧ si_Name s = name ∧
    si_Tags s !! "space-id" = Some (pd_SpaceGUID details) ∧
    si_Tags s !! "organization-id" = Some (pd_OrganizationGUID details) ∧
    si_Tags s !! "plan-id" = Some (pd_PlanID details).

Lemma user_asks_restore details user source :
  user_parameters_parsed details (Some user, None) →
  prov_RestoreFromLatestSnapshotOf user = Some source → asks_restore_of details source.
Proof.
  intros [[_ [= ->]]|[_ Hr]] Hsrc; [done|].
  inversion Hr as [|Hp He| | | | |ms t Hp Hms Hst]; subst; [done|].
  exists ms. split; [done|]. by rewrite <-(stands_restore _ _ Hst).
Qed.

Lemma restore_run_events pctx details user pes r c maps res :
  restore_run pctx details user pes r → EvProvider c maps res ∈ pes →
  ∃ source, c = PvFindSnapshots pctx source.
Proof.
  destruct 1; intros Hin; [by apply elem_of_nil in Hin|..];
    apply list_elem_of_singleton in Hin; inversion Hin; subst; by eexists.
Qed.

Lemma restore_run_allowed ctx details user pes name :
  user_parameters_parsed details (Some user, None) →
  restore_run (TimeoutContext ctx timeout_30s) details user pes (Some name, None) →
  restore_allowed ctx details name pes.
Proof.
  intros Huser. inversion 1 as [| | | |source l s Hsrc ? []]; subst.
  exists source, l, s. rewrite list_elem_of_singleton.
  split; [by eapply user_asks_restore|done].
Qed.

Lemma provision_run_restore b ctx instanceID details asyncAllowed h pes r ctx' id' params maps res name :
  provision_run b ctx instanceID details asyncAllowed h pes r →
  EvProvider (PvProvision ctx' id' params) maps res ∈ pes →
  pp_RestoreFromSnapshot params = Some name → restore_allowed ctx details name pes.
Proof.
  intros Hrun Hin Hname. destruct Hrun as [| | |????? ??? Hr|???????? ??? Huser Hr ? Hq];
    try by apply elem_of_nil in Hin.
  - by destruct (restore_run_events _ _ _ _ _ _ _ _ Hr Hin).
  - apply elem_of_app in Hin as [Hin|Hin]; [by destruct (restore_run_events _ _ _ _ _ _ _ _ Hr Hin)|].
    apply list_elem_of_singleton in Hin. inversion Hin; subst.
    rewrite (request_snapshot _ _ _ _ _ _ _ _ Hq) in Hname. subst.
    apply (restore_run_allowed ctx) in Hr as (source & l' & s & ? & ? & ?); [|done].
    exists source, l', s. split; [done|]. split; [apply elem_of_app; by left|done].
Qed.

(** ** Properties *)

(** C1: [Broker.Provision] refines [provision_run], for every provider that
    keeps the laws: it refuses a synchronous request, an unknown plan, invalid
    parameters and an unusable snapshot without a call that changes anything;
    otherwise the provider gets one call, whose every field is that of
    [instance_request]: the configuration of the plan, the network of the broker,
    the wishes of the user, the seven tags of the instance and a fresh map of
    parameters; the result is that of the call. No map of the configuration changes, every call is made in the
    30 s context, which is cancelled at the end, and a panic can only come from
    the provider. *)
Theorem provision_correct {X : Type} `{RuntimeLaws X} `{Provider X} `{!ProviderLaws X}
    (b : Broker) (ctx : context) (instanceID : string) (details : ProvisionDetails)
    (asyncAllowed : bool) (h : list (gmap string string)) :
  plan_maps_ok b h →
  runs h (Broker.Provision b ctx instanceID details asyncAllowed : M X _)
    (handled (TimeoutContext ctx timeout_30s) h
      (provision_run b ctx instanceID details asyncAllowed h)).
Proof. apply runs_broker_Provision. Qed.

Definition bench_provision : ProvisionDetails :=
  mkProvisionDetails "service-1" "plan-1" "org" "space"
    (marshal_strings [("restore_from_latest_snapshot_of", "source")]).

Lemma provision_correct_witness :
  runs bench_heap (Broker.Provision bench_broker RequestContext "instance" bench_provision true : M bench _)
    (handled (TimeoutContext RequestContext timeout_30s) bench_heap
      (provision_run bench_broker RequestContext "instance" bench_provision true bench_heap)) ∧
  (Broker.Provision bench_broker RequestContext "instance" bench_provision true
     (bench_state pv_snapshots)).1 =
    Ret (mkProvisionedServiceSpec true
           (Operation_String (mkOperation ActionProvisioning "" "")), None).
Proof.
  split; [|by vm_compute].
  apply (provision_correct bench_broker RequestContext "instance" bench_provision true bench_heap).
  apply bench_plan_maps_ok.
Defined.

(** C16: a restore stays in its space: when [Broker.Provision] hands the provider
    a snapshot to restore from, it is the latest of the snapshots the
    provider found, in the 30 s context of the request, for the instance that the
    parameters of the request name, and its tags name the space, the organization
    and the plan of the request. *)
Theorem restore_stays_in_space {X : Type} `{RuntimeLaws X} `{Provider X} `{!ProviderLaws X}
    (b : Broker) (ctx : context) (instanceID : string) (details : ProvisionDetails)
    (asyncAllowed : bool) (h : list (gmap string string)) :
  plan_maps_ok b h →
  runs h (Broker.Provision b ctx instanceID details asyncAllowed : M X _) (λ o es _,
    ∀ r, o = Ret r → ∀ ctx' id' params maps res name,
      EvProvider (PvProvision ctx' id' params) maps res ∈ broker_events es →
      pp_RestoreFromSnapshot params = Some name →
      restore_allowed ctx details name (broker_events es)).
Proof.
  intros Hmaps. eapply runs_conseq; [by apply runs_broker_Provision|].
  intros o es h' (_ & _ & Hr) r -> ctx' id' params maps res name. by eapply provision_run_restore.
Qed.

Lemma restore_stays_in_space_witness :
  runs bench_heap (Broker.Provision bench_broker RequestContext "instance" bench_provision true : M bench _)
    (λ o es _, ∀ r, o = Ret r → ∀ ctx' id' params maps res name,
      EvProvider (PvProvision ctx' id' params) maps res ∈ broker_events es →
      pp_RestoreFromSnapshot params = Some name →
      restore_allowed RequestContext bench_provision name (broker_events es)) ∧
  existsb (λ e, match e with
                | EvProvider (PvProvision _ _ params) _ _ =>
                    bool_decide (pp_RestoreFromSnapshot params = Some "new")
                | _ => false
                end)
    (st_trace (Broker.Provision bench_broker RequestContext "instance" bench_provision true
                 (bench_state pv_snapshots)).2) = true.
Proof.
  split; [|by vm_compute].
  apply (restore_stays_in_space bench_broker RequestContext "instance" bench_provision true bench_heap).
  apply bench_plan_maps_ok.
Defined.
