(* ===== verification/BrokerUpdate.v ===== *)
(** * The broker: updates

    What [Broker.Update] does, for every provider that keeps the laws: which
    requests it refuses, the order of the two changes, the start of a failover
    test and the deadline it is given. *)
From S2P Require Import Prelude GoBase Sdk Providers Go Interfaces Json Rfc3339 Config Parameters.
From S2P Require Import Broker Bench BenchBroker BrokerProvision.
Local Open Scope Z_scope.

(** ** What [Update] promises *)

Definition update_parameters_parsed (details : UpdateDetails)
    (r : option UpdateParameters * option error) : Prop :=
  (ud_RawParameters details = "" ∧ r = (Some zero_UpdateParameters, None)) ∨
  (ud_RawParameters details ≠ "" ∧ update_parsed (ud_RawParameters details) r).

(** Nothing else is asked for in a request with a failover test. *)
Definition only_failover (user : UpdateParameters) : Prop :=
  upd_MaxMemoryPolicy user = None ∧ upd_PreferredMaintenanceWindow user = "".

Definition highly_available (plan : PlanConfig) : Prop :=
  pc_MultiAZEnabled plan = true ∧ pc_AutomaticFailoverEnabled plan = true.

Definition not_clustered (planParameters : gmap string string) : Prop :=
  planParameters !! "cluster-enabled" ≠ Some "yes".

Definition update_refused (text : string) : UpdateServiceSpec * option error :=
  (zero_Update, Some (ErrorString text)).

Definition update_accepted (operation : Operation) : UpdateServiceSpec * option error :=
  (mkUpdateServiceSpec true (Operation_String operation), None).

Section update_run.
Variables (b : Broker) (ctx : context) (instanceID : string).
Variables (details : UpdateDetails) (asyncAllowed : bool) (h : list (gmap string string)).
Abbreviation pctx := (TimeoutContext ctx timeout_30s).

(** A failover test, for a known plan. *)
Inductive failover_run (plan : PlanConfig) (planParameters : gmap string string)
    (user : UpdateParameters) : list event → UpdateServiceSpec * option error → Prop :=
  | failover_clustered :
      ¬ not_clustered planParameters →
      failover_run plan planParameters user []
        (update_refused "Test failover is not supported for Redis instances in cluster mode")
  | failover_not_available :
      not_clustered planParameters → ¬ highly_available plan →
      failover_run plan planParameters user []
        (update_refused
          "Test failover is not supported without MultiAZEnabled and AutomaticFailoverEnabled")
  | failover_no_replica :
      not_clustered planParameters → highly_available plan → pc_ReplicasPerNodeGroup plan < 1 →
      failover_run plan planParameters user []
        (update_refused "Test failover requires one or more replicas")
  | failover_mixed :
      not_clustered planParameters → highly_available plan → 1 <= pc_ReplicasPerNodeGroup plan →
      ¬ only_failover user →
      failover_run plan planParameters user []
        (update_refused "Test failover must be used by itself")
  | failover_error node e :
      not_clustered planParameters → highly_available plan → 1 <= pc_ReplicasPerNodeGroup plan →
      only_failover user →
      failover_run plan planParameters user
        [EvProvider (PvStartFailoverTest pctx instanceID) [] (node, Some e)]
        (zero_Update, Some (errors_wrap e "Test failover failed: "))
  | failover_started node t offset :
      not_clustered planParameters → highly_available plan → 1 <= pc_ReplicasPerNodeGroup plan →
      only_failover user →
      failover_run plan planParameters user
        [EvProvider (PvStartFailoverTest pctx instanceID) [] (node, None); EvNow t]
        (update_accepted (mkOperation ActionFailover node
           (format_rfc3339 (t + FailoverTimeout) offset))).

Definition window_event (user : UpdateParameters) (err : option error) : list event :=
  if bool_decide (upd_PreferredMaintenanceWindow user = "") then [] else
  [EvProvider (PvUpdateReplicationGroup pctx instanceID
     (mkUpdateReplicationGroupParameters (upd_PreferredMaintenanceWindow user))) [] err].

Definition policy_event (user : UpdateParameters) (l : nat) (err : option error) : list event :=
  match upd_MaxMemoryPolicy user with
  | None => []
  | Some policy =>
      [EvProvider (PvUpdateParamGroupParameters pctx instanceID
         (mkUpdateParamGroupParameters (Some l))) [{[ "maxmemory-policy" := policy ]}] err]
  end.

(** The two changes: the maintenance window first, and the policy only if the
    first one did not fail. *)
Inductive changes_run (user : UpdateParameters)
    : list event → UpdateServiceSpec * option error → Prop :=
  | changes_window_error e :
      upd_PreferredMaintenanceWindow user ≠ "" →
      changes_run user (window_event user (Some e))
        (zero_Update, Some (errors_wrap e "Updating preferred maintenance window failed"))
  | changes_policy_error l e :
      upd_MaxMemoryPolicy user ≠ None → (length h ≤ l)%nat →
      changes_run user (window_event user None ++ policy_event user l (Some e))
        (zero_Update, Some (errors_wrap e "Updating maxmemory policy failed"))
  | changes_done l :
      (length h ≤ l)%nat →
      changes_run user (window_event user None ++ policy_event user l None)
        (update_accepted (mkOperation ActionUpdating "" "")).

Definition same_plan : Prop :=
  ud_PlanID details = pv_PlanID (ud_PreviousValues details) ∧
  ud_ServiceID details = pv_ServiceID (ud_PreviousValues details).

Inductive update_run : list event → UpdateServiceSpec * option error → Prop :=
  | update_sync :
      asyncAllowed = false → update_run [] (zero_Update, Some ErrAsyncRequired)
  | update_plan_changed :
      asyncAllowed = true → ¬ same_plan →
      update_run [] (update_refused "changing plans is not currently supported")
  | update_bad_parameters e :
      asyncAllowed = true → same_plan → update_parameters_parsed details (None, Some e) →
      update_run [] (zero_Update, Some e)
  | update_nothing user :
      asyncAllowed = true → same_plan → update_parameters_parsed details (Some user, None) →
      only_failover user → upd_TestFailover user = None →
      update_run [] (update_refused "no parameters provided")
  | update_failover_no_plan user v :
      asyncAllowed = true → same_plan → update_parameters_parsed details (Some user, None) →
      upd_TestFailover user = Some v →
      cf_PlanConfigs (b_config b) !! ud_PlanID details = None →
      update_run [] (zero_Update,
        Some (errors_wrap ErrNoSuchPlan "Failed to find service plan"))
  | update_failover_run user v plan planParameters pes r :
      asyncAllowed = true → same_plan → update_parameters_parsed details (Some user, None) →
      upd_TestFailover user = Some v →
      cf_PlanConfigs (b_config b) !! ud_PlanID details = Some plan →
      deref_map h (pc_Parameters plan) = Some planParameters →
      failover_run plan planParameters user pes r →
      update_run pes r
  | update_changes user pes r :
      asyncAllowed = true → same_plan → update_parameters_parsed details (Some user, None) →
      upd_TestFailover user = None → ¬ only_failover user →
      changes_run user pes r →
      update_run pes r.
End update_run.

(** ** Lemmas *)

Lemma update_parameters_result details r :
  update_parameters_parsed details r →
  (∃ user, r = (Some user, None)) ∨ ∃ e, r = (None, Some e).
Proof.
  intros [[_ ->]|[_ Hr]]; [by left; eexists|]. by eapply document_parsed_result.
Qed.

Lemma checkIfNoUpdateParametersAreSet_spec user :
  checkIfNoUpdateParametersAreSet user = true ↔
  only_failover user ∧ upd_TestFailover user = None.
Proof.
  unfold checkIfNoUpdateParametersAreSet, only_failover.
  rewrite !andb_true_iff, !bool_decide_eq_true. done.
Qed.

Section lemmas.
Context {X : Type} `{RuntimeLaws X} `{Provider X} `{!ProviderLaws X}.
Variables (b : Broker) (ctx : context) (instanceID : string) (details : UpdateDetails).
Implicit Types h : list (gmap string string).
Abbreviation pctx := (TimeoutContext ctx timeout_30s).

Lemma runs_update_user_parameters h :
  runs h (update_user_parameters details : M X _) (λ o es h',
    es = [] ∧ h' = h ∧ ∃ r, o = Ret r ∧ update_parameters_parsed details r).
Proof.
  unfold update_user_parameters, update_parameters_parsed. case_bool_decide as Hl.
  - eapply runs_conseq; [apply runs_parseUpdateParameters|].
    intros o es h' (-> & -> & r & -> & Hr). split; [done|]. split; [done|]. exists r.
    split; [done|]. right. split; [|done]. intros He. rewrite He in Hl. simpl in Hl. lia.
  - go_step. split; [done|]. split; [done|]. eexists. split; [done|]. left. split; [|done].
    destruct (ud_RawParameters details); [done|]. simpl in Hl. lia.
Qed.

Lemma runs_update_failover h user plan planParameters :
  cf_PlanConfigs (b_config b) !! ud_PlanID details = Some plan →
  deref_map h (pc_Parameters plan) = Some planParameters →
  runs h (update_failover b pctx instanceID details user : M X _)
    (part_of h (failover_run ctx instanceID plan planParameters user)).
Proof.
  intros Hplan Hpp. unfold update_failover, GetPlanConfig. rewrite Hplan.
  apply runs_bind, (runs_read_deref _ _ planParameters); [done|]. cbn beta iota.
  case_bool_decide as Hc.
  { go_step. split; [apply frame_refl|]. apply failover_clustered. unfold not_clustered. tauto. }
  destruct (bool_decide (pc_MultiAZEnabled plan = false) ||
            bool_decide (pc_AutomaticFailoverEnabled plan = false)) eqn:Hha.
  { go_step. split; [apply frame_refl|]. apply failover_not_available; [done|].
    unfold highly_available. rewrite orb_true_iff, !bool_decide_eq_true in Hha.
    destruct (pc_MultiAZEnabled plan), (pc_AutomaticFailoverEnabled plan); naive_solver. }
  assert (highly_available plan) as Hha'.
  { rewrite orb_false_iff, !bool_decide_eq_false in Hha. unfold highly_available.
    destruct (pc_MultiAZEnabled plan), (pc_AutomaticFailoverEnabled plan); naive_solver. }
  destruct (pc_ReplicasPerNodeGroup plan <? 1) eqn:Hr.
  { go_step. split; [apply frame_refl|]. apply failover_no_replica; [done..|].
    by apply Z.ltb_lt. }
  apply Z.ltb_ge in Hr.
  destruct (negb _ || negb _) eqn:Hmix.
  { go_step. split; [apply frame_refl|]. apply failover_mixed; [done..|].
    intros [Hp Hw]. rewrite Hp, Hw in Hmix. done. }
  rewrite orb_false_iff, !negb_false_iff, !bool_decide_eq_true in Hmix.
  apply runs_bind, runs_pv_do; [by constructor| |].
  2: { intros p es h' Hp _ Hfr. done. }
  intros [node [e|]] es h' Hes Hfr; cbn beta iota; go_steps; (split; [done|]);
    rewrite !broker_events_app, Hes.
  - by apply failover_error.
  - by apply failover_started.
Qed.

Lemma runs_update_window h user data :
  runs h (update_window pctx instanceID user data : M X _)
    (part_of h (λ pes r, ∃ err, pes = window_event ctx instanceID user err ∧
      match err with
      | Some e => upd_PreferredMaintenanceWindow user ≠ "" ∧
          r = Some (errors_wrap e "Updating preferred maintenance window failed")
      | None => r = None
      end)).
Proof.
  unfold update_window, window_event. case_bool_decide as Hw.
  { go_step. split; [apply frame_refl|]. by exists None. }
  apply runs_bind, runs_pv_do; [by constructor| |].
  2: { intros p es h' Hp _ Hfr. done. }
  intros [e|] es h' Hes Hfr; cbn beta iota; go_steps; (split; [done|]);
    rewrite ?app_nil_r, !broker_events_app, Hes; [by exists (Some e)|by exists None].
Qed.

Lemma runs_update_policy h user data :
  runs h (update_policy pctx instanceID user data : M X _)
    (part_of h (λ pes r, ∃ err, pes = policy_event ctx instanceID user (length h) err ∧
      match err with
      | Some e => upd_MaxMemoryPolicy user ≠ None ∧
          r = Some (errors_wrap e "Updating maxmemory policy failed")
      | None => r = None
      end)).
Proof.
  unfold update_policy, policy_event. destruct (upd_MaxMemoryPolicy user) as [policy|].
  2: { go_step. split; [apply frame_refl|]. by exists None. }
  assert (∀ m : gmap string string, (h ++ [m]) !! length h = Some m) as Hlook.
  { intros m. by rewrite lookup_app_r, Nat.sub_diag. }
  do 2 go_step. apply runs_bind, (runs_write_map _ _ ∅); [done|]. cbn beta iota.
  rewrite insert_app_r_alt, Nat.sub_diag by done. cbn [insert list_insert].
  assert (∀ m h', frame [] (h ++ [m]) h' → frame [] h h') as Ht.
  { intros m h' Hfr. eapply frame_trans; [apply frame_alloc|done]. }
  apply runs_bind, runs_pv_do.
  { repeat constructor. rewrite length_app. simpl. lia. }
  2: { intros p es h' Hp _ Hfr. split; [by eapply Ht|done]. }
  simpl pv_maps. simpl pv_refs. cbn [omap list_omap option_list]. rewrite insert_empty, Hlook.
  intros [e|] es h' Hes Hfr; cbn beta iota; go_steps; (split; [by eapply Ht|]);
    rewrite ?app_nil_r, !broker_events_app, Hes; [by exists (Some e)|by exists None].
Qed.

Lemma runs_changes h user data :
  runs h (
    bind (update_window pctx instanceID user data) (λ r,
      match r with
      | Some err => ret (zero_Update, Some err)
      | None => bind (update_policy pctx instanceID user data) (λ r,
          match r with
          | Some err => ret (zero_Update, Some err)
          | None => ret (mkUpdateServiceSpec true
              (Operation_String (mkOperation ActionUpdating "" "")), None)
          end)
      end) : M X _)
    (part_of h (changes_run ctx instanceID h user)).
Proof.
  apply runs_bind. eapply runs_conseq; [apply runs_update_window|].
  intros [r|p] es h' [Hfr Hw]; [|done].
  destruct Hw as ([e|] & Hes & Hr); cbn beta iota.
  { destruct Hr as [Hne ->]. go_step. split; [done|]. rewrite app_nil_r, Hes.
    by apply changes_window_error. }
  subst r. apply runs_bind. eapply runs_conseq; [apply runs_update_policy|].
  assert (length h ≤ length h')%nat as Hlen by apply Hfr.
  intros [r|p] es' h'' [Hfr' Hp]; [|split; [by eapply frame_trans|done]].
  destruct Hp as ([e|] & Hes' & Hr); cbn beta iota.
  - destruct Hr as [Hne ->]. go_step. split; [by eapply frame_trans|].
    rewrite app_nil_r, broker_events_app, Hes, Hes'. by apply changes_policy_error.
  - subst r. go_step. split; [by eapply frame_trans|].
    rewrite app_nil_r, broker_events_app, Hes, Hes'. by apply changes_done.
Qed.

(** The handler, on every branch. *)
Lemma runs_Update h asyncAllowed :
  plan_maps_ok b h →
  runs h (Update b ctx instanceID details asyncAllowed : M X _)
    (handled pctx h (update_run b ctx instanceID details asyncAllowed h)).
Proof.
  intros Hmaps. unfold Update. cbv zeta. do 2 go_step.
  destruct asyncAllowed; cbn [negb].
  2: { go_step. apply handled_quiet. by constructor. }
  apply runs_with_timeout, part_handled.
  case_bool_decide as Hplan; cbn [negb].
  2: { go_step. split; [apply frame_refl|]. apply update_plan_changed; [done|]. by intros []. }
  case_bool_decide as Hservice; cbn [negb].
  2: { go_step. split; [apply frame_refl|]. apply update_plan_changed; [done|]. by intros []. }
  assert (same_plan details) as Hsame by done.
  apply runs_bind. eapply runs_conseq; [apply runs_update_user_parameters|].
  intros o es h' (-> & -> & r & -> & Huser). cbn beta iota.
  destruct (update_parameters_result _ _ Huser) as [[user ->]|[e ->]].
  2: { go_step. split; [apply frame_refl|]. by eapply update_bad_parameters. }
  do 2 go_step. cbn [app].
  destruct (checkIfNoUpdateParametersAreSet user) eqn:Hset.
  { apply checkIfNoUpdateParametersAreSet_spec in Hset as [Ho Hn].
    go_step. split; [apply frame_refl|]. by eapply update_nothing. }
  destruct (upd_TestFailover user) as [v|] eqn:Hv.
  - destruct (cf_PlanConfigs (b_config b) !! ud_PlanID details) as [plan|] eqn:Hp.
    + destruct (Hmaps _ _ Hp) as [planParameters Hpp].
      eapply runs_conseq; [by eapply runs_update_failover|].
      intros [r|p] es h' [Hfr Hr]; (split; [done|]); [|done].
      by eapply update_failover_run.
    + unfold update_failover, GetPlanConfig. rewrite Hp. go_step. split; [apply frame_refl|].
      by eapply update_failover_no_plan.
  - eapply runs_conseq; [apply runs_changes|].
    intros [r|p] es h' [Hfr Hr]; (split; [done|]); [|done].
    eapply update_changes; [done..| |done]. intros Ho.
    assert (checkIfNoUpdateParametersAreSet user = true) as Hc; [|congruence].
    by apply checkIfNoUpdateParametersAreSet_spec.
Qed.
End lemmas.

(** ** Properties *)

(** C4: [Broker.Update] refines [update_run], for every provider that keeps the
    laws: it refuses a synchronous request, a change of plan or service,
    invalid or no parameters; a failover test needs a known, highly available,
    not clustered plan with a replica and no other change, and its operation
    data carry the primary node and a deadline 45 minutes after the reading of
    the clock; otherwise the maintenance window is changed first and the policy
    second, each only if asked for, and a failure stops the update. No map of
    the configuration changes, and every call is made in the 30 s context. *)
Theorem update_correct {X : Type} `{RuntimeLaws X} `{Provider X} `{!ProviderLaws X}
    (b : Broker) (ctx : context) (instanceID : string) (details : UpdateDetails)
    (asyncAllowed : bool) (h : list (gmap string string)) :
  plan_maps_ok b h →
  runs h (Broker.Update b ctx instanceID details asyncAllowed : M X _)
    (handled (TimeoutContext ctx timeout_30s) h
      (update_run b ctx instanceID details asyncAllowed h)).
Proof. apply runs_Update. Qed.

Definition bench_update : UpdateDetails :=
  mkUpdateDetails "service-1" "plan-1"
    (marshal_strings [("maxmemory_policy", "noeviction");
                      ("preferred_maintenance_window", "sun:23:00-mon:01:30")])
    (mkPreviousValues "plan-1" "service-1" "org" "space").

(** The calls of a trace to the two methods of an update. *)
Definition update_calls (es : list event) : list string :=
  omap (λ e, match e with
             | EvProvider (PvUpdateReplicationGroup _ _ _) _ _ => Some "window"
             | EvProvider (PvUpdateParamGroupParameters _ _ _) _ _ => Some "policy"
             | _ => None
             end) es.

Lemma update_correct_witness :
  runs bench_heap (Broker.Update bench_broker RequestContext "instance" bench_update true : M bench _)
    (handled (TimeoutContext RequestContext timeout_30s) bench_heap
      (update_run bench_broker RequestContext "instance" bench_update true bench_heap)) ∧
  update_calls (st_trace (Broker.Update bench_broker RequestContext "instance" bench_update true
     (bench_state pv_empty)).2) = ["window"; "policy"].
Proof.
  split; [|by vm_compute].
  apply (update_correct bench_broker RequestContext "instance" bench_update true bench_heap).
  apply bench_plan_maps_ok.
Defined.
