(* ===== verification/BrokerPoll.v ===== *)
(** * The broker: polls and the synchronous handlers

    What [Broker.LastOperation], [Deprovision], [Bind], [Unbind] and
    [GetInstance] do, for every provider that keeps the laws. *)
From S2P Require Import Prelude GoBase Sdk Providers Go Interfaces Json Rfc3339 Config Parameters.
From S2P Require Import Broker Bench BenchBroker.
Local Open Scope Z_scope.

(** ** What the handlers promise *)

(** The decoded operation of a poll, or the error. *)
Inductive operation_parsed (data : string) : Operation * option error → Prop :=
  | parsed_empty : data = "" → operation_parsed data (zero_Operation, None)
  | parsed_invalid op e :
      data ≠ "" → unmarshal_operation data = (op, Some e) →
      operation_parsed data (zero_Operation, Some (ErrorString ("invalid operation data: " +:+ data)))
  | parsed_no_action op :
      data ≠ "" → unmarshal_operation data = (op, None) → op_Action op = "" →
      operation_parsed data
        (op, Some (ErrorString ("invalid operation, action parameter is empty: " +:+ data)))
  | parsed_ok op :
      data ≠ "" → unmarshal_operation data = (op, None) → op_Action op ≠ "" →
      operation_parsed data (op, None).

(** The deadline of an operation: read only if there is one. *)
Inductive deadline_run (op : Operation) (instanceID : string) : list event → option error → Prop :=
  | deadline_none : op_TimeOut op = "" → deadline_run op instanceID [] None
  | deadline_invalid :
      op_TimeOut op ≠ "" → parse_rfc3339 (op_TimeOut op) = None →
      deadline_run op instanceID []
        (Some (errors_wrap (TimeParseError (op_TimeOut op)) "Failed to parse time out string"))
  | deadline_passed deadline t :
      parse_rfc3339 (op_TimeOut op) = Some deadline → deadline < t →
      deadline_run op instanceID [EvNow t]
        (Some (ErrorString ("Operation " +:+ op_Action op +:+ " timed out for " +:+ instanceID)))
  | deadline_ahead deadline t :
      parse_rfc3339 (op_TimeOut op) = Some deadline → t <= deadline →
      deadline_run op instanceID [EvNow t] None.

(** The state of an operation for a status of the group, as AWS names it: done
    when the group is available, failed when it could not be created, and in
    progress otherwise, whatever the status. *)
Inductive reported : string → LastOperationState → Prop :=
  | reported_done : reported "available" Succeeded
  | reported_failed : reported "create-failed" Failed
  | reported_busy status :
      status ≠ "available" → status ≠ "create-failed" → reported status InProgress.

Section poll_run.
Variables (ctx : context) (instanceID : string).
Abbreviation pctx := (TimeoutContext ctx timeout_30s).

Definition progress_event (op : Operation) (r : ServiceState * string * option error) : event :=
  EvProvider (PvProgressState pctx instanceID (op_Action op) (op_PrimaryNode op)) [] r.

(** The state of the instance, once asked for. *)
Inductive state_run (op : Operation) : list event → LastOperationResult * option error → Prop :=
  | state_error state description e :
      state_run op [progress_event op (state, description, Some e)]
        (zero_LastOperation, Some (ErrorString
           ("error getting state for " +:+ instanceID +:+ ": " +:+ error_text e)))
  | state_gone description :
      op_Action op ≠ "deprovisioning" →
      state_run op [progress_event op ("non-existing", description, None)]
        (zero_LastOperation, Some ErrInstanceDoesNotExist)
  | state_deprovisioned description err :
      op_Action op = "deprovisioning" →
      state_run op [progress_event op ("non-existing", description, None);
                    EvProvider (PvDeleteCacheParameterGroup pctx instanceID) [] err]
        (zero_LastOperation, Some
           match err with
           | Some e => ErrorString
               ("error deleting parameter group " +:+ instanceID +:+ ": " +:+ error_text e)
           | None => ErrInstanceDoesNotExist
           end)
  | state_known status description state :
      status ≠ "non-existing" → reported status state →
      state_run op [progress_event op (status, description, None)]
        (mkLastOperation state description, None).

Inductive poll_run (data : string)
    : list event → LastOperationResult * option error → Prop :=
  | poll_invalid op e :
      operation_parsed data (op, Some e) → poll_run data [] (zero_LastOperation, Some e)
  | poll_late op tes e :
      operation_parsed data (op, None) → deadline_run op instanceID tes (Some e) →
      poll_run data tes (zero_LastOperation, Some e)
  | poll_answered op tes pes r :
      operation_parsed data (op, None) → deadline_run op instanceID tes None →
      state_run op pes r →
      poll_run data (tes ++ pes) r.

Inductive deprovision_handled (details : DeprovisionDetails) (asyncAllowed : bool)
    : list event → DeprovisionServiceSpec * option error → Prop :=
  | deprovision_sync :
      asyncAllowed = false →
      deprovision_handled details asyncAllowed [] (zero_Deprovision, Some ErrAsyncRequired)
  | deprovision_called err :
      asyncAllowed = true →
      deprovision_handled details asyncAllowed
        [EvProvider (PvDeprovision pctx instanceID (mkDeprovisionParameters "")) [] err]
        match err with
        | Some e => (zero_Deprovision, Some (ErrorString
            ("provider redis for plan " +:+ dd_PlanID details +:+ ": " +:+ error_text e)))
        | None => (mkDeprovisionServiceSpec true
            (Operation_String (mkOperation ActionDeprovisioning "" "")), None)
        end.

(** The ids of the service and the plan come from the tags. *)
Inductive get_instance_run
    : list event → GetInstanceDetailsSpec * option error → Prop :=
  | get_parameters_error ps e :
      get_instance_run [EvProvider (PvGetInstanceParameters ctx instanceID) [] (ps, Some e)]
        (zero_GetInstance, Some e)
  | get_tags_error ps tags e :
      get_instance_run [EvProvider (PvGetInstanceParameters ctx instanceID) [] (ps, None);
                        EvProvider (PvGetInstanceTags ctx instanceID) [] (tags, Some e)]
        (zero_GetInstance, Some e)
  | get_done ps tags :
      get_instance_run [EvProvider (PvGetInstanceParameters ctx instanceID) [] (ps, None);
                        EvProvider (PvGetInstanceTags ctx instanceID) [] (tags, None)]
        (mkGetInstanceDetailsSpec (default "" (tags !! "service-id"))
           (default "" (tags !! "plan-id")) "" (Some ps), None).
End poll_run.

(** ** Lemmas *)

Lemma parse_operation_spec serviceID planID data :
  operation_parsed data (parse_operation (mkPollDetails serviceID planID data)).
Proof.
  unfold parse_operation. cbn [poll_OperationData].
  case_bool_decide as Hd; [by constructor|].
  destruct (unmarshal_operation data) as [op [e|]] eqn:Hu; [by econstructor|].
  case_bool_decide as Ha; [by constructor|by constructor].
Qed.

Lemma ProviderStatesMapping_reported status : reported status (ProviderStatesMapping status).1.
Proof.
  unfold ProviderStatesMapping. case_bool_decide as Ha; [subst; constructor|].
  case_bool_decide as Hf; [subst; constructor|].
  repeat case_bool_decide; by constructor.
Qed.

Section lemmas.
Context {X : Type} `{RuntimeLaws X} `{Provider X} `{!ProviderLaws X}.
Variables (b : Broker) (ctx : context) (instanceID : string).
Implicit Types h : list (gmap string string).
Abbreviation pctx := (TimeoutContext ctx timeout_30s).

Lemma runs_check_timeout h op :
  runs h (check_timeout op instanceID : M X _)
    (λ o es h', h' = h ∧ ∃ r, o = Ret r ∧ deadline_run op instanceID es r).
Proof.
  unfold check_timeout. case_bool_decide as Ht.
  { go_step. split; [done|]. eexists. split; [done|]. by constructor. }
  destruct (parse_rfc3339 (op_TimeOut op)) as [deadline|] eqn:Hp.
  2: { go_step. split; [done|]. eexists. split; [done|]. by constructor. }
  do 2 go_step. destruct (deadline <? t) eqn:Hl; go_step; (split; [done|]); eexists; (split; [done|]).
  - eapply deadline_passed; [done|]. by apply Z.ltb_lt.
  - eapply deadline_ahead; [done|]. by apply Z.ltb_ge.
Qed.

Lemma runs_poll_state h op :
  runs h (poll_state pctx instanceID op : M X _)
    (part_of h (state_run ctx instanceID op)).
Proof.
  unfold poll_state. apply runs_bind, runs_pv_do; [by constructor| |done].
  intros [[state description] [e|]] es h' Hes Hfr; cbn beta iota.
  { go_step. split; [done|]. rewrite app_nil_r, broker_events_app, Hes. apply state_error. }
  case_bool_decide as Hn; [subst state|].
  - case_bool_decide as Ha.
    + apply runs_bind, runs_pv_do; [by constructor| |].
      2: { intros p es' h'' Hp _ Hfr'. split; [by eapply frame_trans|done]. }
      intros err es' h'' Hes' Hfr'.
      pose proof (state_deprovisioned ctx instanceID op description err Ha) as Hrun.
      destruct err as [e|]; cbn beta iota; go_step; (split; [by eapply frame_trans|]);
        by rewrite app_nil_r, !broker_events_app, Hes, Hes'.
    + go_steps. split; [done|]. rewrite !app_nil_r, broker_events_app, Hes. by apply state_gone.
  - assert (state_run ctx instanceID op [progress_event ctx instanceID op (state, description, None)]
      (mkLastOperation (ProviderStatesMapping state).1 description, None)) as Hrun
      by (apply state_known; [done|apply ProviderStatesMapping_reported]).
    destruct (ProviderStatesMapping state) as [st [e|]]; go_steps; (split; [done|]);
      by rewrite !broker_events_app, Hes.
Qed.

Lemma deadline_events op es r :
  deadline_run op instanceID es r →
  broker_events es = es ∧ existsb is_provider_event es = false.
Proof. by destruct 1. Qed.

(** The handler, on every branch. *)
Lemma runs_LastOperation h serviceID planID data :
  runs h (LastOperation b ctx instanceID (mkPollDetails serviceID planID data) : M X _)
    (handled pctx h (poll_run ctx instanceID data)).
Proof.
  unfold LastOperation. do 2 go_step.
  pose proof (parse_operation_spec serviceID planID data) as Hparsed.
  destruct (parse_operation _) as [op [e|]].
  { go_step. apply handled_quiet. by eapply poll_invalid. }
  apply runs_bind. eapply runs_conseq; [apply runs_check_timeout|].
  intros o tes h' (-> & r & -> & Hd). destruct (deadline_events _ _ _ Hd) as [Htes Hno].
  destruct r as [e|]; cbn beta iota; go_step.
  { rewrite app_nil_r. apply handled_no_call; rewrite Htes; [done|]. by eapply poll_late. }
  eapply runs_conseq; [apply runs_poll_state|]. intros [r|p] es h' [Hfr Hr];
    rewrite (app_assoc tes).
  - apply handled_cancel; [done|]. rewrite broker_events_app, Htes. by eapply poll_answered.
  - by apply handled_panic.
Qed.

Lemma runs_broker_Deprovision h details asyncAllowed :
  runs h (Deprovision b ctx instanceID details asyncAllowed : M X _)
    (handled pctx h (deprovision_handled ctx instanceID details asyncAllowed)).
Proof.
  unfold Deprovision. cbv zeta. do 2 go_step. destruct asyncAllowed; cbn [negb].
  2: { go_step. apply handled_quiet. by constructor. }
  apply runs_with_timeout, part_handled, runs_bind, runs_pv_do; [by constructor| |done].
  intros err es h' Hes Hfr.
  pose proof (deprovision_called ctx instanceID details true err eq_refl) as Hrun.
  destruct err as [e|]; cbn beta iota; go_steps; (split; [done|]);
    by rewrite ?app_nil_r, !broker_events_app, Hes.
Qed.

Lemma runs_Bind h bindingID details asyncAllowed :
  runs h (Bind b ctx instanceID bindingID details asyncAllowed : M X _)
    (part_of h (λ pes r, ∃ credentials err,
      pes = [EvProvider (PvGenerateCredentials ctx instanceID bindingID) [] (credentials, err)] ∧
      r = match err with Some e => (None, Some e) | None => (credentials, None) end)).
Proof.
  unfold Bind. do 2 go_step. apply runs_bind, runs_pv_do; [by constructor| |done].
  intros [credentials [e|]] es h' Hes Hfr; cbn beta iota; go_step; (split; [done|]);
    rewrite app_nil_r, !broker_events_app, Hes; [by exists credentials, (Some e)|].
  by exists credentials, None.
Qed.

Lemma runs_Unbind h bindingID details asyncAllowed :
  runs h (Unbind b ctx instanceID bindingID details asyncAllowed : M X _)
    (part_of h (λ pes r,
      pes = [EvProvider (PvRevokeCredentials ctx instanceID bindingID) [] r])).
Proof.
  unfold Unbind. do 2 go_step.
  apply (runs_pv_do _ (PvRevokeCredentials ctx instanceID bindingID)); [by constructor| |done].
  intros err es h' Hes Hfr. split; [done|]. by rewrite !broker_events_app, Hes.
Qed.

Lemma runs_GetInstance h :
  runs h (GetInstance b ctx instanceID : M X _) (part_of h (get_instance_run ctx instanceID)).
Proof.
  unfold GetInstance. apply runs_bind, runs_pv_do; [by constructor| |done].
  intros [ps [e|]] es h' Hes Hfr; cbn beta iota.
  { go_step. split; [done|]. rewrite app_nil_r, !broker_events_app, Hes. by constructor. }
  apply runs_bind, runs_pv_do; [by constructor| |].
  2: { intros p es' h'' Hp _ Hfr'. split; [by eapply frame_trans|done]. }
  intros [tags [e|]] es' h'' Hes' Hfr'; cbn beta iota; go_step;
    (split; [by eapply frame_trans|]); rewrite app_nil_r, !broker_events_app, Hes, Hes';
    by constructor.
Qed.
End lemmas.

(** ** Properties *)

(** C5: [Broker.LastOperation] refines [poll_run], for every provider that keeps
    the laws: invalid operation data, an invalid or passed deadline are errors
    before any call; then the state of the instance is asked for once; an
    instance that does not exist is reported gone, after the removal of its
    parameter group if the operation is a deprovisioning; of every other
    one the operation has succeeded if the group is available, failed if it could
    not be created, and is in progress otherwise. *)
Theorem last_operation_correct {X : Type} `{RuntimeLaws X} `{Provider X} `{!ProviderLaws X}
    (b : Broker) (ctx : context) (instanceID serviceID planID data : string)
    (h : list (gmap string string)) :
  runs h (LastOperation b ctx instanceID (mkPollDetails serviceID planID data) : M X _)
    (handled (TimeoutContext ctx timeout_30s) h (poll_run ctx instanceID data)).
Proof. apply runs_LastOperation. Qed.

Definition pv_gone (c : pv_call) : pv_out c :=
  match c return pv_out c with
  | PvProgressState _ _ _ _ => (NonExisting, "gone", None)
  | c => pv_empty c
  end.

Lemma last_operation_correct_witness :
  let data := Operation_String (mkOperation ActionDeprovisioning "" "") in
  runs bench_heap (LastOperation bench_broker RequestContext "instance"
      (mkPollDetails "service-1" "plan-1" data) : M bench _)
    (handled (TimeoutContext RequestContext timeout_30s) bench_heap
      (poll_run RequestContext "instance" data)) ∧
  (LastOperation bench_broker RequestContext "instance" (mkPollDetails "service-1" "plan-1" data)
     (bench_state pv_gone)).1 = Ret (zero_LastOperation, Some ErrInstanceDoesNotExist).
Proof.
  split; [|by vm_compute].
  apply (last_operation_correct bench_broker RequestContext "instance" "service-1" "plan-1").
Defined.

(** [Broker.Deprovision] makes one call, in the 30 s context, and its result
    is that of the call; a synchronous request is refused without a call. *)
Theorem deprovision_correct {X : Type} `{RuntimeLaws X} `{Provider X} `{!ProviderLaws X}
    (b : Broker) (ctx : context) (instanceID : string) (details : DeprovisionDetails)
    (asyncAllowed : bool) (h : list (gmap string string)) :
  runs h (Broker.Deprovision b ctx instanceID details asyncAllowed : M X _)
    (handled (TimeoutContext ctx timeout_30s) h
      (deprovision_handled ctx instanceID details asyncAllowed)).
Proof. apply runs_broker_Deprovision. Qed.

Lemma deprovision_correct_witness :
  let details := mkDeprovisionDetails "plan-1" "service-1" false in
  runs bench_heap (Broker.Deprovision bench_broker RequestContext "instance" details true : M bench _)
    (handled (TimeoutContext RequestContext timeout_30s) bench_heap
      (deprovision_handled RequestContext "instance" details true)).
Proof. apply (deprovision_correct bench_broker RequestContext "instance"). Defined.

(** [Broker.GetInstance] asks for the parameters and then for the tags, stops
    at the first error, and takes the ids of the service and the plan from the
    tags. *)
Theorem get_instance_correct {X : Type} `{RuntimeLaws X} `{Provider X} `{!ProviderLaws X}
    (b : Broker) (ctx : context) (instanceID : string) (h : list (gmap string string)) :
  runs h (GetInstance b ctx instanceID : M X _) (part_of h (get_instance_run ctx instanceID)).
Proof. apply runs_GetInstance. Qed.

Lemma get_instance_correct_witness :
  runs bench_heap (GetInstance bench_broker RequestContext "instance" : M bench _)
    (part_of bench_heap (get_instance_run RequestContext "instance")).
Proof. apply (get_instance_correct bench_broker RequestContext "instance"). Defined.
