(* ===== verification/BrokerService.v ===== *)
(** * The broker as a service

    The methods of [brokerapi.ServiceBroker] in one type, and what holds of all
    of them, for every provider that keeps the laws. *)
From S2P Require Import Prelude GoBase Sdk Providers Go Interfaces Config Parameters Broker Bench.
From S2P Require Import BenchBroker BrokerProvision BrokerUpdate BrokerPoll.
Local Open Scope Z_scope.

(* map: vendor/github.com/pivotal-cf/brokerapi/domain/service_broker.go 13-54 ServiceBroker *)
Inductive method :=
  | MServices
  | MProvision (instanceID : string) (details : ProvisionDetails) (asyncAllowed : bool)
  | MDeprovision (instanceID : string) (details : DeprovisionDetails) (asyncAllowed : bool)
  | MGetInstance (instanceID : string)
  | MUpdate (instanceID : string) (details : UpdateDetails) (asyncAllowed : bool)
  | MLastOperation (instanceID : string) (details : PollDetails)
  | MBind (instanceID bindingID : string) (details : BindDetails) (asyncAllowed : bool)
  | MUnbind (instanceID bindingID : string) (details : UnbindDetails) (asyncAllowed : bool)
  | MGetBinding (instanceID bindingID : string)
  | MLastBindingOperation (instanceID bindingID : string) (details : PollDetails).

Definition method_out (m : method) : Type :=
  match m with
  | MServices => list Service * option error
  | MProvision _ _ _ => ProvisionedServiceSpec * option error
  | MDeprovision _ _ _ => DeprovisionServiceSpec * option error
  | MGetInstance _ => GetInstanceDetailsSpec * option error
  | MUpdate _ _ _ => UpdateServiceSpec * option error
  | MLastOperation _ _ => LastOperationResult * option error
  | MBind _ _ _ _ => option Credentials * option error
  | MUnbind _ _ _ _ => option error
  | MGetBinding _ _ => () * option error
  | MLastBindingOperation _ _ _ => LastOperationResult * option error
  end.

Definition serve {X : Type} `{Runtime X} `{Provider X} (b : Broker) (ctx : context) (m : method)
    : M X (method_out m) :=
  match m with
  | MServices => Services b
  | MProvision i d a => Broker.Provision b ctx i d a
  | MDeprovision i d a => Broker.Deprovision b ctx i d a
  | MGetInstance i => GetInstance b ctx i
  | MUpdate i d a => Update b ctx i d a
  | MLastOperation i d => LastOperation b ctx i d
  | MBind i bd d a => Bind b ctx i bd d a
  | MUnbind i bd d a => Unbind b ctx i bd d a
  | MGetBinding i bd => GetBinding b i bd
  | MLastBindingOperation i bd d => LastBindingOperation b i bd d
  end.

(** The context a method makes its calls in. *)
Definition method_context (ctx : context) (m : method) : context :=
  match m with
  | MProvision _ _ _ | MDeprovision _ _ _ | MUpdate _ _ _ | MLastOperation _ _ =>
      TimeoutContext ctx timeout_30s
  | _ => ctx
  end.

Definition pv_context (c : pv_call) : context :=
  match c with
  | PvProvision ctx _ _ | PvUpdateReplicationGroup ctx _ _ | PvUpdateParamGroupParameters ctx _ _
  | PvDeprovision ctx _ _ | PvProgressState ctx _ _ _ | PvGetInstanceParameters ctx _
  | PvGetInstanceTags ctx _ | PvGenerateCredentials ctx _ _ | PvRevokeCredentials ctx _ _
  | PvDeleteCacheParameterGroup ctx _ | PvFindSnapshots ctx _ | PvStartFailoverTest ctx _ => ctx
  end.

(** A call in the context [ctx], or an event that is not a call. *)
Definition in_context (ctx : context) (e : event) : Prop :=
  match e with EvProvider c _ _ => pv_context c = ctx | _ => True end.

(** ** Lemmas *)

#[local] Hint Constructors Forall : core.
#[local] Hint Resolve Forall_app_2 : core.

Section contexts.
Variables (b : Broker) (ctx : context) (i : string) (h : list (gmap string string)).
Abbreviation pctx := (TimeoutContext ctx timeout_30s).

Lemma restore_run_context details user pes r :
  restore_run pctx details user pes r → Forall (in_context pctx) pes.
Proof. destruct 1; repeat constructor. Qed.

Lemma provision_run_context details a pes r :
  provision_run b ctx i details a h pes r → Forall (in_context pctx) pes.
Proof.
  destruct 1; eauto using restore_run_context.
  apply Forall_app_2; [by eapply restore_run_context|]. repeat constructor.
Qed.

Lemma failover_run_context plan ps user pes r :
  failover_run ctx i plan ps user pes r → Forall (in_context pctx) pes.
Proof. destruct 1; repeat constructor. Qed.

Lemma changes_run_context user pes r :
  changes_run ctx i h user pes r → Forall (in_context pctx) pes.
Proof.
  assert (∀ err, Forall (in_context pctx) (window_event ctx i user err)) as Hw.
  { intros err. unfold window_event. case_bool_decide; repeat constructor. }
  assert (∀ l err, Forall (in_context pctx) (policy_event ctx i user l err)) as Hp.
  { intros l err. unfold policy_event. destruct (upd_MaxMemoryPolicy user); repeat constructor. }
  destruct 1; eauto using Forall_app_2.
Qed.

Lemma update_run_context details a pes r :
  update_run b ctx i details a h pes r → Forall (in_context pctx) pes.
Proof. destruct 1; eauto using failover_run_context, changes_run_context. Qed.

Lemma poll_run_context data pes r : poll_run ctx i data pes r → Forall (in_context pctx) pes.
Proof.
  assert (∀ op es r, deadline_run op i es r → Forall (in_context pctx) es) as Hd.
  { destruct 1; repeat constructor. }
  destruct 1 as [|op tes e _ Hr|op tes es r _ Hr Hs]; eauto.
  apply Forall_app_2; [by eapply Hd|]. destruct Hs; repeat constructor.
Qed.
End contexts.

(** What holds of a method that worked in [mctx] for a request in [ctx]. *)
Definition contained {X : Type} `{Provider X} {A} (ctx mctx : context)
    (h : list (gmap string string)) (o : outcome A) (es : list event)
    (h' : list (gmap string string)) : Prop :=
  frame [] h h' ∧
  match o with
  | Ret _ => Forall (in_context mctx) (broker_events es)
  | Panic p => provider_panics X p
  end ∧
  (mctx ≠ ctx → existsb is_provider_event (broker_events es) = true →
   list.last es = Some (EvCancel mctx)).

Section contained.
Context {X : Type} `{RuntimeLaws X} `{Provider X} `{!ProviderLaws X}.
Implicit Types h : list (gmap string string).

Lemma handled_contained {A} ctx mctx h (m : M X A) spec :
  (∀ pes r, spec pes r → Forall (in_context mctx) pes) →
  runs h m (handled mctx h spec) → runs h m (contained ctx mctx h).
Proof.
  intros Hs Hm. eapply runs_conseq; [exact Hm|]. intros o es h' (Hfr & Hc & Ho).
  split; [done|]. split; [|auto]. destruct o; [by eapply Hs|by destruct Ho].
Qed.

Lemma part_contained {A} ctx h (m : M X A) spec :
  (∀ pes r, spec pes r → Forall (in_context ctx) pes) →
  runs h m (part_of h spec) → runs h m (contained ctx ctx h).
Proof.
  intros Hs Hm. eapply runs_conseq; [exact Hm|]. intros o es h' (Hfr & Ho).
  split; [done|]. split; [|done]. destruct o; [by eapply Hs|done].
Qed.

Lemma ret_contained {A} ctx h (a : A) : runs h (ret a : M X A) (contained ctx ctx h).
Proof. apply runs_ret. split; [apply frame_refl|]. split; [constructor|done]. Qed.

Lemma runs_serve (b : Broker) ctx m h :
  plan_maps_ok b h →
  runs h (serve b ctx m : M X _) (contained ctx (method_context ctx m) h).
Proof.
  intros Hmaps. destruct m; cbn [serve method_context]; try apply ret_contained.
  - eapply handled_contained; [|by apply runs_broker_Provision]. apply provision_run_context.
  - eapply handled_contained; [|apply runs_broker_Deprovision]. destruct 1; repeat constructor.
  - eapply part_contained; [|apply runs_GetInstance]. destruct 1; repeat constructor.
  - eapply handled_contained; [|by apply runs_Update]. apply update_run_context.
  - destruct details as [s p data].
    eapply handled_contained; [|apply runs_LastOperation]. apply poll_run_context.
  - eapply part_contained; [|apply runs_Bind]. intros pes r (? & ? & -> & _). repeat constructor.
  - eapply part_contained; [|apply runs_Unbind]. intros pes r ->. repeat constructor.
Qed.
End contained.

(** ** Properties *)

(** C13: every method of the service is contained, for every provider that keeps
    the laws: it changes no map of the configuration; [Provision], [Update],
    [Deprovision] and [LastOperation] make all their calls in a context of 30 s
    derived from that of the request, which is cancelled when they are done,
    and the other methods in the context of the request; a panic can only come
    from the provider. *)
Theorem service_contained {X : Type} `{RuntimeLaws X} `{Provider X} `{!ProviderLaws X}
    (b : Broker) (ctx : context) (m : method) (h : list (gmap string string)) :
  plan_maps_ok b h →
  runs h (serve b ctx m : M X _) (contained ctx (method_context ctx m) h).
Proof. apply runs_serve. Qed.

Lemma service_contained_witness :
  runs bench_heap (serve bench_broker RequestContext (MUpdate "instance" bench_update true) : M bench _)
    (contained RequestContext (TimeoutContext RequestContext timeout_30s) bench_heap).
Proof.
  apply (service_contained bench_broker RequestContext (MUpdate "instance" bench_update true)).
  apply bench_plan_maps_ok.
Defined.
