(* ===== verification/Panics.v ===== *)
(** * What can panic

    The references the program holds are valid: no request ends in a reference
    that the heap does not have, in a write to a nil map, in an index out of
    range or in a slice of negative length.  What is left are nil pointers in
    answers of AWS, and a random source that fails. *)
From S2P Require Import Prelude GoBase Sdk Providers Go Interfaces Bench Naming Random.
From S2P Require Import RedisBase RedisProvision RedisQuery RedisFailover RedisService.
From S2P Require Import Config Parameters Broker BenchBroker BrokerProvision BrokerService.
Local Open Scope Z_scope.
Local Open Scope go_scope.

(** ** Programs with a bound on their panics *)

Definition raises {X A} (P : panic_reason → Prop) (m : M X A) : Prop :=
  ∀ s q, (m s).1 = Panic q → P q.

Section raises.
Context {X : Type} `{Runtime X} `{ElastiCache X} `{SecretsManager X}.
Variable P : panic_reason → Prop.

Lemma raises_ret {A} (a : A) : raises P (ret a : M X A).
Proof. by intros s q. Qed.

Lemma raises_bind {A B} (m : M X A) (k : A → M X B) :
  raises P m → (∀ a, raises P (k a)) → raises P (bind m k).
Proof.
  intros Hm Hk s q. unfold bind. specialize (Hm s). destruct (m s) as [[a|r] s']; [apply Hk|].
  intros [= ->]. by apply Hm.
Qed.

Lemma raises_timeout {A} ctx d (body : context → M X A) :
  raises P (body (TimeoutContext ctx d)) → raises P (with_timeout ctx d body).
Proof.
  intros Hb s q. unfold with_timeout. specialize (Hb s).
  destruct (body (TimeoutContext ctx d) s) as [o s']. apply Hb.
Qed.

Lemma raises_deref {A} (o : option A) : P NilDereference → raises P (deref o : M X A).
Proof. intros HP. destruct o; [apply raises_ret|]. by intros s q [= <-]. Qed.

Lemma raises_emit e : raises P (emit e : M X ()).
Proof. by intros s q. Qed.

Lemma raises_external {A} (f : X → A * X) : raises P (external f).
Proof. by intros s q. Qed.

Lemma raises_alloc m : raises P (alloc_map m : M X _).
Proof. by intros s q. Qed.

Lemma raises_peek refs : raises P (peek_maps refs : M X _).
Proof. by intros s q. Qed.

Lemma raises_read r : P DanglingReference → raises P (read_map r : M X _).
Proof.
  intros HP s q. destruct r as [l|]; simpl; [|done].
  destruct (st_maps s !! l); [done|]. by intros [= <-].
Qed.

Lemma raises_write r k v :
  P DanglingReference → P NilMapWrite → raises P (write_map r k v : M X _).
Proof.
  intros Hd Hn s q. destruct r as [l|]; simpl; [|by intros [= <-]].
  destruct (st_maps s !! l); [done|]. by intros [= <-].
Qed.

Lemma raises_for_each {A B} (l : list A) (acc : B) (body : B → A → M X B) :
  (∀ b a, raises P (body b a)) → raises P (for_each l acc body).
Proof.
  intros Hb. revert acc. induction l as [|x l IH]; intros acc; [apply raises_ret|].
  apply raises_bind; [apply Hb|apply IH].
Qed.

Lemma raises_ec c : raises P (ec_do c : M X _).
Proof. by intros s q. Qed.

Lemma raises_sm c : raises P (sm_do c : M X _).
Proof. by intros s q. Qed.

Lemma raises_range_map {V} (m : gmap string V) : raises P (range_map m : M X _).
Proof. apply raises_bind; [apply raises_external|]. intros ks. apply raises_ret. Qed.

Lemma raises_now : raises P (now : M X _).
Proof. by intros s q. Qed.

Lemma raises_pv `{Provider X} c : raises P (pv_serve c) → raises P (pv_do c).
Proof.
  intros Hc. apply raises_bind; [apply raises_peek|]. intros maps. apply raises_bind; [done|].
  intros r. apply raises_bind; [apply raises_emit|]. intros _. apply raises_ret.
Qed.
End raises.

(** From the shape of the program, as for footprints; the facts about [P] are
    left to the context. *)
Create HintDb raises.

Ltac raises_step :=
  lazymatch goal with
  | |- raises _ (bind _ _) => apply raises_bind
  | |- raises _ (with_timeout _ _ _) => apply raises_timeout
  | |- raises _ (ret _) => apply raises_ret
  | |- raises _ (deref _) => apply raises_deref; assumption
  | |- raises _ (log _ _ _ _) => apply raises_emit
  | |- raises _ (alloc_map _) => apply raises_alloc
  | |- raises _ (read_map _) => apply raises_read; assumption
  | |- raises _ (write_map _ _ _) => apply raises_write; assumption
  | |- raises _ (range_keys _) => apply raises_external
  | |- raises _ (range_map _) => apply raises_range_map
  | |- raises _ (for_each _ _ _) => apply raises_for_each
  | |- raises _ (ec_do _) => apply raises_ec
  | |- raises _ (sm_do _) => apply raises_sm
  | |- raises _ now => apply raises_now
  | |- raises _ (pv_do _) => apply raises_pv
  | |- raises _ (match ?x with _ => _ end) => destruct x
  | |- raises _ (let _ := _ in _) => cbv zeta
  | |- raises _ _ => solve [eauto 3 with raises]
  | |- ∀ _, _ => intros ?
  end; cbn beta.
Ltac raises_auto := repeat raises_step.

(** ** The methods of the provider *)

Section provider.
Context {X : Type} `{RuntimeLaws X} `{ElastiCache X} `{SecretsManager X}.
Variables (P : panic_reason → Prop) (p : RedisProvider).

Lemma raises_Deprovision ctx i params : raises P (RedisProvision.Deprovision p ctx i params : M X _).
Proof. unfold RedisProvision.Deprovision, DeleteAuthTokenSecret. raises_auto. Qed.

Lemma raises_DeleteCacheParameterGroup ctx i : raises P (DeleteCacheParameterGroup ctx i : M X _).
Proof. unfold DeleteCacheParameterGroup. raises_auto. Qed.

Lemma raises_UpdateReplicationGroup ctx i params :
  raises P (UpdateReplicationGroup ctx i params : M X _).
Proof. unfold UpdateReplicationGroup, modifyReplicationGroup. raises_auto. Qed.

Lemma raises_RevokeCredentials ctx i b : raises P (RevokeCredentials ctx i b : M X _).
Proof. unfold RevokeCredentials. raises_auto. Qed.

Hypothesis P_nil : P NilDereference.

Lemma raises_group ctx id : raises P (describeReplicationGroup ctx id : M X _).
Proof. unfold describeReplicationGroup. raises_auto. Qed.

Lemma raises_cluster ctx id : raises P (describeCacheCluster ctx id : M X _).
Proof. unfold describeCacheCluster. raises_auto. Qed.

Lemma raises_parameters ctx id : raises P (describeCacheParameters ctx id : M X _).
Proof. unfold describeCacheParameters. raises_auto. Qed.

Lemma raises_tags l : raises P (tagsValues l : M X _).
Proof. unfold tagsValues. raises_auto. Qed.

Lemma raises_nodes rg : raises P (GetPrimaryAndReplicaCacheClusterIds rg : M X _).
Proof. unfold GetPrimaryAndReplicaCacheClusterIds, note_role. raises_auto. Qed.
Hint Resolve raises_group raises_cluster raises_parameters raises_tags raises_nodes : raises.

Lemma raises_message ctx rg st : raises P (getMessage ctx rg st : M X _).
Proof. unfold getMessage, message_body, parameter_lines. raises_auto. Qed.
Hint Resolve raises_message : raises.

Lemma raises_snapshots ctx i l acc : raises P (collect_snapshots p ctx i l acc : M X _).
Proof.
  revert acc. induction l as [|x l IH]; intros acc; [apply raises_ret|]. cbn [collect_snapshots].
  raises_auto; apply IH.
Qed.
Hint Resolve raises_snapshots : raises.

Lemma raises_ProgressState ctx i op old : raises P (ProgressState ctx i op old : M X _).
Proof. unfold ProgressState, failover_step. raises_auto. Qed.

Lemma raises_StartFailoverTest ctx i : raises P (StartFailoverTest ctx i : M X _).
Proof. unfold StartFailoverTest. raises_auto. Qed.

Lemma raises_GenerateCredentials ctx i b : raises P (GenerateCredentials p ctx i b : M X _).
Proof. unfold GenerateCredentials, choose_endpoint. raises_auto. Qed.

Lemma raises_GetInstanceParameters ctx i : raises P (GetInstanceParameters ctx i : M X _).
Proof. unfold GetInstanceParameters, maintenance_window, add_node, add_parameter. raises_auto. Qed.

Lemma raises_GetInstanceTags ctx i : raises P (GetInstanceTags p ctx i : M X _).
Proof. unfold GetInstanceTags. raises_auto. Qed.

Lemma raises_FindSnapshots ctx i : raises P (FindSnapshots p ctx i : M X _).
Proof. unfold FindSnapshots. raises_auto. Qed.
End provider.
#[export] Hint Resolve raises_Deprovision raises_DeleteCacheParameterGroup
  raises_UpdateReplicationGroup raises_RevokeCredentials raises_ProgressState
  raises_StartFailoverTest raises_GenerateCredentials raises_GetInstanceParameters
  raises_GetInstanceTags raises_FindSnapshots : raises.

(** The maps a valid call hands over can be read, and only a creation can fail
    otherwise than on a nil pointer. *)
Definition panic_ok (q : panic_reason) : Prop := q = NilDereference ∨ ∃ e, q = PanicError e.

Section methods.
Context {X : Type} `{RuntimeLaws X} `{ElastiCache X} `{SecretsManager X}.
Variables (b : Broker) (p : RedisProvider).

#[local] Instance redis : Provider X := RedisProvider_Provider p.

Lemma valid_deref h (r : map_ref) :
  Forall (λ l, l < length h)%nat (option_list r) → ∃ m, deref_map h r = Some m.
Proof.
  destruct r as [l|]; [|by eexists]. intros Hl%Forall_inv. by apply lookup_lt_is_Some_2.
Qed.

(** A run that cannot panic in the ways of [P], by its specification. *)
Lemma runs_panic_in {A} (m : M X A) s (Q : outcome A → list event → list (gmap string string) → Prop) q :
  runs (st_maps s) m Q → (m s).1 = Panic q → ∃ es h', Q (Panic q) es h'.
Proof. intros Hm Hq. destruct (Hm s eq_refl) as (es & _ & HQ). rewrite Hq in HQ. by eauto. Qed.

Lemma provider_panic_ok q : provider_panics X q → panic_ok q.
Proof.
  intros (c & s & Hvalid & Hq). unfold pv_serve, redis in Hq.
  assert (∀ A (m : M X A), raises panic_ok m → (m s).1 = Panic q → panic_ok q) as Hr
    by (intros A m Hm; apply Hm).
  assert (panic_ok NilDereference) by by left.
  destruct c; cbn [RedisProvider_Provider] in Hq;
    try (eapply Hr; [|exact Hq]; by eauto 2 with raises).
  - destruct (valid_deref _ _ Hvalid) as [m Hm].
    destruct (runs_panic_in _ _ _ _ (runs_Provision _ _ _ _ _ _ Hm) Hq)
      as (es & h' & _ & _ & e & entries & -> & _). right. by eexists.
  - destruct (valid_deref _ _ Hvalid) as [m Hm].
    destruct (runs_panic_in _ _ _ _ (runs_modifyCacheParameterGroup _ _ _ _ _ Hm) Hq)
      as (es & h' & _ & Ho). by destruct Ho as [(_ & _ & ?)|(_ & entries & err & _ & _ & ?)].
Qed.

(** ** The methods of the broker *)

Definition method_panic (m : method) (q : panic_reason) : Prop :=
  match m with
  | MProvision _ _ _ => panic_ok q
  | MGetInstance _ | MUpdate _ _ _ | MLastOperation _ _ | MBind _ _ _ _ => q = NilDereference
  | _ => False
  end.

(** What [Update] could do with references it should not have. *)
Definition reference_panic (q : panic_reason) : Prop :=
  q = NilDereference ∨ q = DanglingReference ∨ q = NilMapWrite.

Lemma raises_parseUpdate P data : raises P (parseUpdateParameters data : M X _).
Proof. unfold parseUpdateParameters, unmarshalParameters. raises_auto. Qed.
Hint Resolve raises_parseUpdate : raises.

Lemma raises_pv_method P c :
  P NilDereference →
  match c with
  | PvProvision _ _ _ | PvUpdateParamGroupParameters _ _ _ => False
  | _ => True
  end → raises P (pv_serve c).
Proof.
  intros HP Hc. unfold pv_serve, redis. destruct c; try done; cbn [RedisProvider_Provider];
    by eauto 2 with raises.
Qed.
Hint Extern 1 (raises _ (pv_serve _)) => apply raises_pv_method; [assumption|exact I] : raises.

Lemma raises_Update ctx i details a : raises reference_panic (Update b ctx i details a : M X _).
Proof.
  assert (reference_panic NilDereference) by by left.
  assert (reference_panic DanglingReference) by (right; by left).
  assert (reference_panic NilMapWrite) by (right; by right).
  unfold Update, update_user_parameters, update_failover, update_window, update_policy.
  raises_auto. unfold pv_serve, redis. cbn [RedisProvider_Provider].
  unfold RedisProvision.UpdateParamGroupParameters, modifyCacheParameterGroup. raises_auto.
Qed.

Lemma raises_LastOperation ctx i poll :
  raises (eq NilDereference) (LastOperation b ctx i poll : M X _).
Proof. unfold LastOperation, check_timeout, poll_state. raises_auto. Qed.

Lemma raises_broker_Deprovision ctx i details a :
  raises (λ _, False) (Broker.Deprovision b ctx i details a : M X _).
Proof. unfold Broker.Deprovision. raises_auto. Qed.

Lemma runs_method_panic ctx m h :
  plan_maps_ok b h →
  runs h (serve b ctx m : M X _) (λ o _ _, ∀ q, o = Panic q → method_panic m q).
Proof.
  intros Hmaps s Hs. destruct (runs_serve b ctx m h Hmaps s Hs) as (es & Htr & _ & Ho & _).
  exists es. split; [done|]. intros q Hq.
  assert (panic_ok q) as Hok by (rewrite Hq in Ho; by apply provider_panic_ok).
  assert (∀ P, raises P (serve b ctx m) → P q) as Hr by (intros P Hm; by eapply Hm).
  destruct m; cbn [method_panic serve] in *; [| done | | | | | | | |].
  - by apply (Hr (λ _, False)).
  - by apply (Hr (λ _, False)), raises_broker_Deprovision.
  - symmetry. apply Hr. unfold GetInstance. raises_auto.
  - destruct (Hr _ (raises_Update _ _ _ _)) as [?|[->| ->]]; [done|..]; by destruct Hok as [|[]].
  - symmetry. apply Hr, raises_LastOperation.
  - symmetry. apply Hr. unfold Bind. raises_auto.
  - apply (Hr (λ _, False)). unfold Unbind. raises_auto.
  - by apply (Hr (λ _, False)).
  - by apply (Hr (λ _, False)).
Qed.
End methods.

(** ** Properties *)

(** C14: the references of the program are sound: over the Redis provider, whatever
    AWS answers, no method of the broker reads a map that does not exist, writes
    to a nil map or indexes out of range.  [Provision] can panic on a nil pointer
    or when the random source fails; [Update], [LastOperation], [Bind] and
    [GetInstance] on a nil pointer only; all other methods cannot panic. *)
Theorem panics_bounded {X : Type} `{RuntimeLaws X} `{ElastiCache X} `{SecretsManager X}
    (b : Broker) (p : RedisProvider) (ctx : context) (m : method) (h : list (gmap string string)) :
  plan_maps_ok b h →
  runs h (@serve X _ (RedisProvider_Provider p) b ctx m)
    (λ o _ _, ∀ q, o = Panic q → method_panic m q).
Proof. apply runs_method_panic. Qed.

(** The description of the group is missing in the answer. *)
Definition ec_nil (c : ec_call) : ec_out c * option error :=
  match c return ec_out c * option error with
  | DescribeReplicationGroupsWithContext _ _ => (Some [None], None)
  | c => ec_empty c
  end.

Lemma panics_bounded_witness :
  let serve := @serve bench _ (RedisProvider_Provider bench_provider) bench_broker RequestContext
    (MUpdate "instance" (mkUpdateDetails "service-1" "plan-1"
       ("{" +:+ Json.json_string "test_failover" +:+ ":true}")
       (mkPreviousValues "plan-1" "service-1" "" "")) true) in
  runs bench_heap serve (λ o _ _, ∀ q, o = Panic q → q = NilDereference) ∧
  (serve (bench_start bench_heap (mkBench 0 ec_nil sm_empty pv_empty))).1 = Panic NilDereference.
Proof.
  split; [|by vm_compute].
  apply (panics_bounded bench_broker bench_provider RequestContext (MUpdate "instance" _ true)).
  apply bench_plan_maps_ok.
Defined.
