(* ===== verification/Isolation.v ===== *)
(** * Isolation of the instances

    The broker over the Redis provider: a request about one instance names no
    replication group, parameter group, secret or list of tags of another one.
    Every name in a call is the one computed from the id of the instance, or was
    given by AWS in an earlier answer about the instance. *)
From S2P Require Import Prelude GoBase Sdk Providers Go Interfaces Footprint Bench Naming Random.
From S2P Require Import RedisBase RedisProvision RedisQuery RedisFailover RedisService.
From S2P Require Import Config Parameters Broker BenchBroker BrokerService.
Local Open Scope Z_scope.
Local Open Scope go_scope.

(** ** The calls for an instance *)

Definition is_name (name : string) (o : option string) : bool := bool_decide (o = Some name).

(** What a call can name. *)
Inductive resource :=
  | ReplicationGroupName (name : option string)
  | ParameterGroupName (name : option string)
  | SecretName (name : option string)
  | NodeName (id : option string)
  | TagsOf (arn : option string).

(** The resources a call names; the list of all snapshots names none. *)
Definition call_resources (c : aws_call) : list resource :=
  match c with
  | AwsEc (CreateCacheParameterGroupWithContext _ input) =>
      [ParameterGroupName (ccpg_CacheParameterGroupName input)]
  | AwsEc (CreateReplicationGroupWithContext _ input) =>
      [ReplicationGroupName (crg_ReplicationGroupId input);
       ParameterGroupName (crg_CacheParameterGroupName input)]
  | AwsEc (DeleteCacheParameterGroupWithContext _ name) => [ParameterGroupName name]
  | AwsEc (DeleteReplicationGroupWithContext _ input) =>
      [ReplicationGroupName (drg_ReplicationGroupId input)]
  | AwsEc (DescribeReplicationGroupsWithContext _ name) => [ReplicationGroupName name]
  | AwsEc (ModifyReplicationGroupWithContext _ input) =>
      ReplicationGroupName (mrg_ReplicationGroupId input) ::
      match mrg_PrimaryClusterId input with Some id => [NodeName (Some id)] | None => [] end
  | AwsEc (ModifyCacheParameterGroupWithContext _ input) =>
      [ParameterGroupName (mcpg_CacheParameterGroupName input)]
  | AwsEc (DescribeCacheParametersWithContext _ name) => [ParameterGroupName name]
  | AwsEc (DescribeCacheClustersWithContext _ id) => [NodeName id]
  | AwsEc (ListTagsForResourceWithContext _ arn) => [TagsOf arn]
  | AwsEc (DescribeSnapshotsPagesWithContext _) => []
  | AwsSm (CreateSecretWithContext _ input) => [SecretName (cs_Name input)]
  | AwsSm (GetSecretValueWithContext _ name) => [SecretName name]
  | AwsSm (DeleteSecretWithContext _ input) => [SecretName (ds_SecretId input)]
  end.

(** What a call can name that AWS has named before: nodes, lists of tags, and the
    parameter group whose parameters are read. *)
Definition from_answers (c : aws_call) (r : resource) : bool :=
  match c, r with
  | AwsEc (DescribeCacheParametersWithContext _ _), ParameterGroupName _ => true
  | _, NodeName _ | _, TagsOf _ => true
  | _, _ => false
  end.

(** A call that creates or deletes a replication group or a secret. *)
Definition is_lifecycle (c : aws_call) : bool :=
  match c with
  | AwsEc (CreateReplicationGroupWithContext _ _) | AwsEc (DeleteReplicationGroupWithContext _ _)
  | AwsSm (CreateSecretWithContext _ _) | AwsSm (DeleteSecretWithContext _ _) => true
  | _ => false
  end.

Section instance.
Variables (p : RedisProvider) (instanceID : string).
Abbreviation group := (GenerateReplicationGroupName instanceID).
Abbreviation path := (getAuthTokenPath p instanceID).

(** A resource of the instance. *)
Definition owns (r : resource) : bool :=
  match r with
  | ReplicationGroupName name | ParameterGroupName name => is_name group name
  | SecretName name => is_name path name
  | TagsOf arn => is_name (replicationGroupARN p group) arn
  | NodeName _ => false
  end.

(** The calls that name nothing else, those that may also name what AWS has named
    before, and those that name something of the instance. *)
Definition only_own (c : aws_call) : bool := forallb owns (call_resources c).
Definition own_call (c : aws_call) : bool :=
  forallb (λ r, owns r || from_answers c r) (call_resources c).
Definition touches (c : aws_call) : bool := existsb owns (call_resources c).

(** The same that neither create nor delete. *)
Definition calm_call (c : aws_call) : bool := only_own c && negb (is_lifecycle c).
Definition quiet_call (c : aws_call) : bool := own_call c && negb (is_lifecycle c).
End instance.

Lemma is_name_spec name o : is_name name o = true ↔ o = Some name.
Proof. apply bool_decide_eq_true. Qed.

Lemma is_name_self name : is_name name (Some name) = true.
Proof. by apply is_name_spec. Qed.
#[export] Hint Resolve is_name_self : footprint.

Lemma quiet_own p i c : quiet_call p i c = true → own_call p i c = true.
Proof. by intros [Ho _]%andb_true_iff. Qed.

Lemma only_own_own p i c : only_own p i c = true → own_call p i c = true.
Proof. unfold only_own, own_call. rewrite !forallb_forall. intros Ho r Hr. by rewrite Ho. Qed.

Lemma calm_only p i c : calm_call p i c = true → only_own p i c = true.
Proof. by intros [Ho _]%andb_true_iff. Qed.

Lemma calm_quiet p i c : calm_call p i c = true → quiet_call p i c = true.
Proof.
  intros [Ho Hl]%andb_true_iff. unfold quiet_call. by rewrite only_own_own.
Qed.

(** A call that creates or deletes names nothing that AWS has named. *)
Lemma lifecycle_own p i c : is_lifecycle c = true → own_call p i c = only_own p i c.
Proof.
  unfold own_call, only_own. destruct c as [[]|[]]; try done; intros _; cbn; by rewrite !orb_false_r.
Qed.

Lemma getAuthTokenPath_inj p i j : getAuthTokenPath p i = getAuthTokenPath p j → i = j.
Proof.
  unfold getAuthTokenPath. intros Heq%string_app_inj_l%string_app_inj_l.
  assert (String.length i = String.length j).
  { apply (f_equal String.length) in Heq. rewrite !string_length_app in Heq. lia. }
  by apply string_app_inj_length in Heq as [].
Qed.

Lemma replicationGroupARN_inj p g g' :
  replicationGroupARN p g = replicationGroupARN p g' → g = g'.
Proof.
  unfold replicationGroupARN, elasticache_arn. do 9 (intros Heq%string_app_inj_l; revert Heq). done.
Qed.

Lemma snapshotARN_apart p name g : snapshotARN p name ≠ replicationGroupARN p g.
Proof.
  unfold snapshotARN, replicationGroupARN, elasticache_arn.
  do 7 (intros Heq%string_app_inj_l; revert Heq). done.
Qed.

(** No resource is that of two instances, unless their groups have the same
    name. *)
Lemma owns_inj p i j r :
  owns p i r = true → owns p j r = true →
  GenerateReplicationGroupName i = GenerateReplicationGroupName j.
Proof.
  destruct r; cbn; rewrite ?is_name_spec; try done; intros -> Heq%(inj Some); try done.
  - by apply getAuthTokenPath_inj in Heq as ->.
  - by apply replicationGroupARN_inj in Heq.
Qed.

Lemma only_own_apart p i j c :
  GenerateReplicationGroupName i ≠ GenerateReplicationGroupName j →
  only_own p i c = true → touches p j c = false.
Proof.
  intros Hne Hi. apply not_true_is_false. unfold touches. rewrite existsb_exists.
  intros (r & Hr & Hj). unfold only_own in Hi. rewrite forallb_forall in Hi.
  by apply Hne, (owns_inj p i j r), Hj; apply Hi.
Qed.

(** ** The footprint of the provider *)

(** A call of the instance, recognised by its name. *)
Ltac own_step :=
  match goal with
  | |- calm_call _ _ _ = true => unfold calm_call, only_own; cbn; by rewrite ?is_name_self
  | |- only_own _ _ _ = true => unfold only_own; cbn; by rewrite ?is_name_self
  | |- quiet_call _ _ _ = true => unfold quiet_call, own_call; cbn; by rewrite ?is_name_self, ?orb_true_r
  | |- own_call _ _ _ = true => unfold own_call; cbn; by rewrite ?is_name_self, ?orb_true_r
  end.
Ltac footprint := built_auto; try own_step.

Section any_footprint.
Context {X : Type} `{Runtime X} `{ElastiCache X} `{SecretsManager X}.
Variable K : aws_call → bool.

Lemma built_tagsValues l : built K (tagsValues l).
Proof. unfold tagsValues. footprint. Qed.

Lemma built_GetPrimary rg : built K (GetPrimaryAndReplicaCacheClusterIds rg).
Proof. unfold GetPrimaryAndReplicaCacheClusterIds, note_role. footprint. Qed.

Lemma built_GenerateAuthToken : built K GenerateAuthToken.
Proof. unfold GenerateAuthToken, RandomAlphaNum, randChar. footprint. Qed.

Lemma built_choose_endpoint rg : built K (choose_endpoint rg).
Proof. unfold choose_endpoint. footprint. Qed.
End any_footprint.
#[export] Hint Resolve built_tagsValues built_GetPrimary built_GenerateAuthToken
  built_choose_endpoint : footprint.

Section operations.
Context {X : Type} `{Runtime X} `{ElastiCache X} `{SecretsManager X}.
Variables (p : RedisProvider) (i : string).
Abbreviation quiet := (quiet_call p i).
Abbreviation calm := (calm_call p i).
Abbreviation own := (own_call p i).
Abbreviation group := (GenerateReplicationGroupName i).

Lemma built_calm_quiet {A} (m : M X A) : built calm m → built quiet m.
Proof. apply built_weaken, calm_quiet. Qed.

Lemma built_calm_only {A} (m : M X A) : built calm m → built (only_own p i) m.
Proof. apply built_weaken, calm_only. Qed.

Lemma built_only_own {A} (m : M X A) : built (only_own p i) m → built own m.
Proof. apply built_weaken, only_own_own. Qed.

Lemma built_quiet_own {A} (m : M X A) : built quiet m → built own m.
Proof. apply built_weaken, quiet_own. Qed.
Hint Resolve built_calm_quiet built_calm_only built_only_own built_quiet_own : footprint.

Lemma built_describe_group ctx : built calm (describeReplicationGroup ctx group).
Proof. unfold describeReplicationGroup. footprint. Qed.

Lemma built_describe_cluster ctx id : built quiet (describeCacheCluster ctx id).
Proof. unfold describeCacheCluster. footprint. Qed.

Lemma built_describe_parameters ctx id : built quiet (describeCacheParameters ctx id).
Proof. unfold describeCacheParameters. footprint. Qed.

Lemma built_describe_own_parameters ctx : built calm (describeCacheParameters ctx group).
Proof. unfold describeCacheParameters. footprint. Qed.
Hint Resolve built_describe_group built_describe_cluster built_describe_parameters : footprint.

Lemma built_parameter_lines K msgs param : built K (parameter_lines msgs param : M X _).
Proof. unfold parameter_lines. footprint. Qed.
Hint Resolve built_parameter_lines : footprint.

Lemma built_getMessage ctx rg st : built quiet (getMessage ctx rg st).
Proof. unfold getMessage, message_body. footprint. Qed.
Hint Resolve built_getMessage : footprint.

Lemma built_modify_parameters ctx r : built calm (modifyCacheParameterGroup ctx group r).
Proof. unfold modifyCacheParameterGroup. footprint. Qed.
Hint Resolve built_modify_parameters : footprint.

Lemma built_create_parameters ctx params : built calm (createCacheParameterGroup ctx group params).
Proof. unfold createCacheParameterGroup. footprint. Qed.

Lemma built_delete_parameters ctx : built calm (DeleteCacheParameterGroup ctx i).
Proof. unfold DeleteCacheParameterGroup. footprint. Qed.
Hint Resolve built_create_parameters built_delete_parameters : footprint.

Lemma built_create_secret ctx token : built (only_own p i) (CreateAuthTokenSecret p ctx i token).
Proof. unfold CreateAuthTokenSecret. footprint. Qed.

Lemma built_delete_secret ctx days : built (only_own p i) (DeleteAuthTokenSecret p ctx i days).
Proof. unfold DeleteAuthTokenSecret. footprint. Qed.
Hint Resolve built_create_secret built_delete_secret : footprint.

Lemma built_collect_snapshots ctx j l acc : built quiet (collect_snapshots p ctx j l acc).
Proof.
  revert acc. induction l as [|x l IH]; intros acc; [constructor|]. cbn [collect_snapshots].
  footprint; apply IH.
Qed.

Lemma built_failover_step ctx old rg n1 n2 : built quiet (failover_step ctx i old rg n1 n2).
Proof. unfold failover_step. footprint. Qed.
Hint Resolve built_collect_snapshots built_failover_step : footprint.

(** Each method of the provider, for the instance it is given. *)
Lemma built_GenerateCredentials ctx bindingID : built calm (GenerateCredentials p ctx i bindingID).
Proof. unfold GenerateCredentials. footprint. Qed.

Lemma built_add_node K ip m : built K (add_node ip m : M X _).
Proof. unfold add_node. footprint. Qed.

Lemma built_add_parameter K ip param : built K (add_parameter ip param : M X _).
Proof. unfold add_parameter. footprint. Qed.
Hint Resolve built_add_node built_add_parameter : footprint.

Lemma built_GetInstanceParameters ctx : built quiet (GetInstanceParameters ctx i).
Proof. unfold GetInstanceParameters, maintenance_window. footprint. Qed.

Lemma built_GetInstanceTags ctx : built calm (GetInstanceTags p ctx i).
Proof. unfold GetInstanceTags. footprint. Qed.

Lemma built_ProgressState ctx op old : built quiet (ProgressState ctx i op old).
Proof. unfold ProgressState. footprint. Qed.

Lemma built_StartFailoverTest ctx : built calm (StartFailoverTest ctx i).
Proof. unfold StartFailoverTest. footprint. Qed.

Lemma built_UpdateReplicationGroup ctx params : built calm (UpdateReplicationGroup ctx i params).
Proof. unfold UpdateReplicationGroup, modifyReplicationGroup. footprint. Qed.

(** The snapshots of every instance are only listed. *)
Lemma built_FindSnapshots ctx j : built quiet (FindSnapshots p ctx j).
Proof. unfold FindSnapshots. footprint. Qed.

Lemma built_redis_Provision ctx params : built (only_own p i) (RedisProvision.Provision p ctx i params).
Proof. unfold RedisProvision.Provision. footprint. Qed.

Lemma built_redis_Deprovision ctx params :
  built (only_own p i) (RedisProvision.Deprovision p ctx i params).
Proof. unfold RedisProvision.Deprovision. footprint. Qed.
End operations.
#[export] Hint Resolve built_calm_quiet built_calm_only built_only_own built_quiet_own
  built_create_parameters built_delete_parameters built_describe_group
  built_describe_own_parameters built_parameter_lines built_add_node built_add_parameter
  built_GenerateCredentials built_GetInstanceParameters built_GetInstanceTags built_ProgressState
  built_StartFailoverTest built_UpdateReplicationGroup built_modify_parameters built_FindSnapshots
  built_redis_Provision built_redis_Deprovision : footprint.

(** ** The footprint of the broker *)

(** The instance a method is about. *)
Definition method_instance (m : method) : option string :=
  match m with
  | MServices => None
  | MProvision i _ _ | MDeprovision i _ _ | MGetInstance i | MUpdate i _ _ | MLastOperation i _
  | MBind i _ _ _ | MUnbind i _ _ _ | MGetBinding i _ | MLastBindingOperation i _ _ => Some i
  end.

(** The methods that create or delete. *)
Definition is_lifecycle_method (m : method) : bool :=
  match m with MProvision _ _ _ | MDeprovision _ _ _ => true | _ => false end.

Section broker.
Context {X : Type} `{Runtime X} `{ElastiCache X} `{SecretsManager X}.
Variables (b : Broker) (p : RedisProvider) (i : string).
Abbreviation quiet := (quiet_call p i).
Abbreviation calm := (calm_call p i).
Abbreviation own := (own_call p i).

#[local] Instance redis : Provider X := RedisProvider_Provider p.

Lemma built_parseProvision K data : built K (parseProvisionParameters data).
Proof. unfold parseProvisionParameters, unmarshalParameters. footprint. Qed.

Lemma built_parseUpdate K data : built K (parseUpdateParameters data).
Proof. unfold parseUpdateParameters, unmarshalParameters. footprint. Qed.
Hint Resolve built_parseProvision built_parseUpdate : footprint.

(** The calls of the broker to its provider, for this instance: those that name
    nothing that AWS has named, and the others. *)
Definition calm_pv (c : pv_call) : bool :=
  match c with
  | PvUpdateReplicationGroup _ j _ | PvUpdateParamGroupParameters _ j _ | PvGetInstanceTags _ j
  | PvGenerateCredentials _ j _ | PvRevokeCredentials _ j _ | PvDeleteCacheParameterGroup _ j
  | PvStartFailoverTest _ j => bool_decide (j = i)
  | _ => false
  end.

Definition quiet_pv (c : pv_call) : bool :=
  match c with
  | PvFindSnapshots _ _ => true
  | PvProgressState _ j _ _ | PvGetInstanceParameters _ j => bool_decide (j = i)
  | c => calm_pv c
  end.

Lemma built_calm_pv c : calm_pv c = true → built calm (pv_serve c).
Proof.
  unfold pv_serve, redis. destruct c; cbn [calm_pv RedisProvider_Provider]; intros Hc; try done;
    apply bool_decide_eq_true in Hc as ->;
    unfold UpdateParamGroupParameters, RevokeCredentials; footprint.
Qed.

Lemma built_quiet_pv c : quiet_pv c = true → built quiet (pv_serve c).
Proof.
  destruct c; cbn [quiet_pv]; intros Hc; try (by apply built_calm_quiet, built_calm_pv);
    unfold pv_serve, redis; cbn [RedisProvider_Provider];
    try apply bool_decide_eq_true in Hc as ->; footprint.
Qed.

Hint Extern 1 (built (calm_call _ _) (pv_serve _)) =>
  apply built_calm_pv; first [reflexivity | by apply bool_decide_eq_true] : footprint.
Hint Extern 1 (built (quiet_call _ _) (pv_serve _)) =>
  apply built_quiet_pv; first [reflexivity | by apply bool_decide_eq_true] : footprint.

Lemma built_copy_parameters K plan user : built K (copy_parameters plan user : M X _).
Proof. unfold copy_parameters. footprint. Qed.

Lemma built_provision_user K details : built K (provision_user_parameters details : M X _).
Proof. unfold provision_user_parameters. footprint. Qed.

Lemma built_check_timeout K op : built K (check_timeout op i : M X _).
Proof. unfold check_timeout. footprint. Qed.
Hint Resolve built_copy_parameters built_provision_user built_check_timeout : footprint.

Lemma built_find_restore ctx details user : built quiet (find_restore_snapshot ctx details user).
Proof. unfold find_restore_snapshot. footprint. Qed.
Hint Resolve built_find_restore : footprint.

Lemma built_Provision ctx details a : built own (Broker.Provision b ctx i details a).
Proof. unfold Broker.Provision. footprint. Qed.

Lemma built_Deprovision ctx details a : built (only_own p i) (Broker.Deprovision b ctx i details a).
Proof. unfold Broker.Deprovision. footprint. Qed.

Lemma built_Update ctx details a : built calm (Update b ctx i details a).
Proof.
  unfold Update, update_user_parameters, update_failover, update_window, update_policy. footprint.
Qed.

Lemma built_LastOperation ctx poll : built quiet (LastOperation b ctx i poll).
Proof. unfold LastOperation, poll_state. footprint. Qed.
Hint Resolve built_Provision built_Deprovision built_Update built_LastOperation : footprint.

(** A method that neither provisions nor deprovisions creates and deletes
    nothing. *)
Lemma built_serve_quiet ctx m :
  method_instance m = Some i → is_lifecycle_method m = false → built quiet (serve b ctx m).
Proof.
  destruct m; cbn [method_instance is_lifecycle_method serve]; intros [= ->] Hm; try done;
    eauto 3 with footprint;
    unfold GetInstance, Bind, Unbind, GetBinding, LastBindingOperation; footprint.
Qed.

Lemma built_serve ctx m : method_instance m = Some i → built own (serve b ctx m).
Proof.
  intros Hi. destruct (is_lifecycle_method m) eqn:Hm.
  - destruct m; try done; injection Hi as ->; eauto 3 with footprint.
  - by apply built_quiet_own, built_serve_quiet.
Qed.
End broker.
#[export] Hint Resolve built_find_restore built_copy_parameters built_provision_user
  built_check_timeout : footprint.

(** ** Where the names come from

    A call may name what belongs to the instance, and what AWS has named in the
    trace [past] before it: in a description of the group of the instance, its
    first node and the name of its parameters, and the replica that can take
    over; in the list of all snapshots, a snapshot whose tags are read. *)

Section heeds.
Context {X : Type} `{Runtime X} `{ElastiCache X} `{SecretsManager X}.
Variables (p : RedisProvider) (i : string).
Abbreviation group := (GenerateReplicationGroupName i).
Abbreviation strict := (only_own p i).

Definition described (past : list event) (rg : ReplicationGroup) : Prop :=
  ∃ ctx rest, EvElastiCache (DescribeReplicationGroupsWithContext ctx (Some group))
    (Some (Some rg :: rest), None) ∈ past.

Definition listed (past : list event) (name : string) : Prop :=
  ∃ ctx pages page sn, EvElastiCache (DescribeSnapshotsPagesWithContext ctx) (pages, None) ∈ past ∧
    page ∈ pages ∧ Some sn ∈ page ∧ sn_SnapshotName sn = Some name.

Inductive may_call (past : list event) : aws_call → Prop :=
  | may_own c : only_own p i c = true → may_call past c
  | may_read_parameters ctx rg name :
      described past rg → rg_ReplicationGroupId rg = Some name →
      may_call past (AwsEc (DescribeCacheParametersWithContext ctx (Some name)))
  | may_read_node ctx rg id rest :
      described past rg → rg_MemberClusters rg = Some id :: rest →
      may_call past (AwsEc (DescribeCacheClustersWithContext ctx (Some id)))
  | may_cut_over ctx rg primary replica input :
      described past rg → chosen_nodes rg = (primary, replica, None) →
      mrg_ReplicationGroupId input = Some group → mrg_PrimaryClusterId input = Some replica →
      may_call past (AwsEc (ModifyReplicationGroupWithContext ctx input))
  | may_read_tags ctx name :
      listed past name →
      may_call past (AwsEc (ListTagsForResourceWithContext ctx (Some (snapshotARN p name)))).

Definition may_event (past : list event) (e : event) : Prop :=
  match e with
  | EvElastiCache c _ => may_call past (AwsEc c)
  | EvSecretsManager c _ => may_call past (AwsSm c)
  | _ => True
  end.

(** Every call of a trace may be made after the events before it. *)
Fixpoint informed (past es : list event) : Prop :=
  match es with
  | [] => True
  | e :: es' => may_event past e ∧ informed (past ++ [e]) es'
  end.

Lemma described_app past es rg : described past rg → described (past ++ es) rg.
Proof. intros (ctx & rest & Hin). exists ctx, rest. apply elem_of_app. by left. Qed.

Lemma listed_app past es name : listed past name → listed (past ++ es) name.
Proof.
  intros (ctx & pages & page & sn & Hin & Hp). exists ctx, pages, page, sn.
  split; [apply elem_of_app; by left|done].
Qed.

Lemma informed_app past es es' :
  informed past es → informed (past ++ es) es' → informed past (es ++ es').
Proof.
  revert past. induction es as [|e es IH]; intros past; cbn [informed app].
  - by rewrite app_nil_r.
  - intros [He Hes] Hes'. split; [done|]. apply IH; [done|]. by rewrite <-app_assoc.
Qed.

Lemma informed_strict past es : Forall (within strict) es → informed past es.
Proof.
  intros Hes. revert past. induction Hes as [|e es He _ IH]; intros past; cbn [informed]; [done|].
  split; [|apply IH]. destruct e; try done; by apply may_own.
Qed.

(** [heeds past m Q]: after the events [past], whatever AWS answers, [m] makes
    calls that it may make; if it returns [a] after the events [es], then
    [Q a es]. *)
Definition heeds {A} (past : list event) (m : M X A) (Q : A → list event → Prop) : Prop :=
  ∀ s, ∃ es, st_trace (m s).2 = st_trace s ++ es ∧ informed past es ∧
    match (m s).1 with Ret a => Q a es | Panic _ => True end.

Definition any {A} (a : A) (es : list event) : Prop := True.

Definition mindful {A} (m : M X A) : Prop := ∀ past, heeds past m any.

Lemma heeds_ret {A} past (a : A) (Q : A → list event → Prop) : Q a [] → heeds past (ret a) Q.
Proof. intros HQ s. exists []. by rewrite app_nil_r. Qed.

Lemma heeds_bind {A B} past (m : M X A) (k : A → M X B) Q R :
  heeds past m Q → (∀ a es, Q a es → heeds (past ++ es) (k a) (λ b es', R b (es ++ es'))) →
  heeds past (bind m k) R.
Proof.
  intros Hm Hk s. destruct (Hm s) as (es & Htr & Hes & HQ). unfold bind.
  destruct (m s) as [[a|q] s1]; simpl in *; [|by exists es].
  destruct (Hk a _ HQ s1) as (es' & Htr' & Hes' & HR). exists (es ++ es').
  rewrite Htr', Htr, app_assoc. split; [done|]. split; [by apply informed_app|done].
Qed.

Lemma heeds_deref {A B} past (o : option A) (k : A → M X B) Q :
  (∀ a, o = Some a → heeds past (k a) Q) → heeds past (bind (deref o) k) Q.
Proof. intros Hk. destruct o as [a|]; [by apply Hk|]. intros s. exists []. by rewrite app_nil_r. Qed.

Lemma heeds_timeout {A} past ctx d (body : context → M X A) :
  heeds past (body (TimeoutContext ctx d)) any → heeds past (with_timeout ctx d body) any.
Proof.
  intros Hb s. destruct (Hb s) as (es & Htr & Hes & _). unfold with_timeout.
  destruct (body (TimeoutContext ctx d) s) as [o s']. simpl in *.
  exists (es ++ [EvCancel (TimeoutContext ctx d)]). rewrite Htr, app_assoc. split; [done|].
  split; [by apply informed_app|by destruct o].
Qed.

(** Parts that name only what belongs to the instance. *)
Lemma heeds_strict {A} past (m : M X A) : built strict m → heeds past m any.
Proof.
  intros Hm s. destruct (built_runs _ (st_maps s) m Hm s eq_refl) as (es & Htr & Hes).
  exists es. split; [done|]. split; [by apply informed_strict|by destruct (m s).1].
Qed.

Lemma heeds_seq {A B} past (m : M X A) (k : A → M X B) :
  built strict m → (∀ a es, heeds (past ++ es) (k a) any) → heeds past (bind m k) any.
Proof. intros Hm Hk. eapply heeds_bind; [by apply heeds_strict|]. intros a es _. apply Hk. Qed.

Lemma heeds_end {A B} past (m : M X A) (k : A → M X B) :
  heeds past m any → (∀ a, built strict (k a)) → heeds past (bind m k) any.
Proof. intros Hm Hk. eapply heeds_bind; [exact Hm|]. intros a es _. by apply heeds_strict. Qed.

Lemma mindful_strict {A} (m : M X A) : built strict m → mindful m.
Proof. intros Hm past. by apply heeds_strict. Qed.

Lemma mindful_pv `{Provider X} c : mindful (pv_serve c) → mindful (pv_do c).
Proof.
  intros Hc past. apply heeds_seq; [constructor|]. intros maps es.
  apply heeds_end; [apply Hc|]. intros r. footprint.
Qed.

Lemma heeds_ec past c (Q : _ → list event → Prop) :
  may_call past (AwsEc c) → (∀ r, Q r [EvElastiCache c r]) → heeds past (ec_do c) Q.
Proof.
  intros Hc HQ s. exists [EvElastiCache c (ec_serve c (st_world s)).1].
  split; [done|]. split; [done|apply HQ].
Qed.

(** ** The operations that use names of AWS *)

Lemma heeds_describe_group past ctx :
  heeds past (describeReplicationGroup ctx group) (λ r es, ∀ rg, r = (Some rg, None) → described es rg).
Proof.
  unfold describeReplicationGroup. eapply heeds_bind.
  - apply (heeds_ec past (DescribeReplicationGroupsWithContext ctx (Some group))
      (λ r es, es = [EvElastiCache (DescribeReplicationGroupsWithContext ctx (Some group)) r]));
      [apply may_own; unfold only_own; cbn; by rewrite is_name_self|done].
  - intros [out [e|]] es ->; cbn beta iota; [by apply heeds_ret|].
    apply heeds_deref. intros [|g rest] ->; apply heeds_ret; [done|].
    intros rg [= ->]. exists ctx, rest. by left.
Qed.

Lemma heeds_describe_cluster past ctx rg id rest :
  described past rg → rg_MemberClusters rg = Some id :: rest →
  heeds past (describeCacheCluster ctx id) any.
Proof.
  intros Hrg Hid. unfold describeCacheCluster. apply heeds_end; [|intros [out err]; footprint].
  apply (heeds_ec past (DescribeCacheClustersWithContext ctx (Some id))); [by eapply may_read_node|done].
Qed.

Lemma heeds_describe_parameters past ctx rg name :
  described past rg → rg_ReplicationGroupId rg = Some name →
  heeds past (describeCacheParameters ctx name) any.
Proof.
  intros Hrg Hid. unfold describeCacheParameters. apply heeds_end; [|intros [out err]; footprint].
  apply (heeds_ec past (DescribeCacheParametersWithContext ctx (Some name)));
    [by eapply may_read_parameters|done].
Qed.

Lemma heeds_message_body past ctx rg msgs : described past rg → heeds past (message_body ctx rg msgs) any.
Proof.
  intros Hrg. unfold message_body. destruct (rg_MemberClusters rg) as [|[id|] rest] eqn:Hid;
    [by apply heeds_ret| |by apply heeds_ret].
  eapply heeds_bind; [by eapply heeds_describe_cluster|]. intros [cluster [e|]] es _; [by apply heeds_ret|].
  apply heeds_deref. intros c _. apply heeds_seq; [footprint|]. intros msgs1 es1.
  apply heeds_end; [|intros msgs2; footprint].
  destruct (rg_ReplicationGroupId rg) as [name|] eqn:Hname; [|by apply heeds_ret].
  apply heeds_end; [|intros [params [e|]]; footprint].
  eapply heeds_describe_parameters; [by do 2 apply described_app|done].
Qed.

Lemma heeds_getMessage past ctx rg st : described past rg → heeds past (getMessage ctx rg st) any.
Proof.
  intros Hrg. unfold getMessage. cbv zeta. apply heeds_end; [by apply heeds_message_body|].
  intros msgs. footprint.
Qed.

Lemma heeds_failover_step past ctx old rg primary replica :
  described past rg → chosen_nodes rg = (primary, replica, None) →
  heeds past (failover_step ctx i old rg primary replica) any.
Proof.
  intros Hrg Hnodes. unfold failover_step. cbv zeta.
  eapply heeds_bind; [by apply heeds_getMessage|]. intros message es _.
  case_match; (apply heeds_seq; [footprint|]); intros [] es1; (apply heeds_end; [|intros [[] err]; footprint]).
  - eapply heeds_ec; [|done]. eapply may_cut_over; [by do 2 apply described_app|done|done|done].
  - eapply heeds_ec; [|done]. apply may_own. unfold only_own. cbn. by rewrite is_name_self.
Qed.

Lemma heeds_nodes past rg :
  heeds past (GetPrimaryAndReplicaCacheClusterIds (Some rg)) (λ r _, r = chosen_nodes rg).
Proof.
  intros s. destruct (runs_GetPrimaryAndReplica (X:=X) (st_maps s) rg s eq_refl) as (es & Htr & -> & _ & Ho).
  exists []. split; [done|]. split; [done|].
  destruct (GetPrimaryAndReplicaCacheClusterIds (Some rg) s).1; [by destruct Ho|done].
Qed.

Lemma mindful_ProgressState ctx op old : mindful (ProgressState ctx i op old).
Proof.
  intros past. unfold ProgressState. cbv zeta. eapply heeds_bind; [apply heeds_describe_group|].
  intros [rg [e|]] es Hrg; cbn beta iota; [destruct (has_aws_code _ e); by apply heeds_ret|].
  apply heeds_deref. intros rg' ->. specialize (Hrg rg' eq_refl).
  assert (described (past ++ es) rg') as Hd.
  { destruct Hrg as (ctx' & rest & Hin). exists ctx', rest. apply elem_of_app. by right. }
  destruct (rg_Status rg') as [status|]; [|by apply heeds_ret].
  assert (∀ es', heeds ((past ++ es) ++ es') (let! message := getMessage ctx rg' "" in
    ret (status, message, None) : M X (ServiceState * string * option error)) any) as Hreport.
  { intros es'. apply heeds_end; [by apply heeds_getMessage, described_app|]. intros m. footprint. }
  pose proof (Hreport []) as Hreport0. rewrite app_nil_r in Hreport0.
  destruct (_ && _); [|done]. eapply heeds_bind; [apply heeds_nodes|].
  intros r es1 ->. destruct (chosen_nodes rg') as [[a b] [e|]] eqn:Hc; [by apply heeds_ret|].
  apply heeds_deref. intros af _. case_bool_decide; [|apply Hreport].
  apply heeds_failover_step; [by apply described_app|done].
Qed.

Lemma mindful_GetInstanceParameters ctx : mindful (GetInstanceParameters ctx i).
Proof.
  intros past. unfold GetInstanceParameters. cbv zeta. eapply heeds_bind; [apply heeds_describe_group|].
  intros [rg [e|]] es Hrg; cbn beta iota; [destruct (has_aws_code _ e); by apply heeds_ret|].
  apply heeds_deref. intros rg' ->. specialize (Hrg rg' eq_refl).
  assert (described (past ++ es) rg') as Hd.
  { destruct Hrg as (ctx' & rest & Hin). exists ctx', rest. apply elem_of_app. by right. }
  destruct (rg_MemberClusters rg') as [|[id|] rest] eqn:Hid; [by apply heeds_ret| |by apply heeds_ret].
  apply heeds_end.
  - unfold maintenance_window. apply heeds_end; [by eapply heeds_describe_cluster|].
    intros [c err]. footprint.
  - intros window. footprint.
Qed.

Lemma heeds_collect_snapshots past ctx j l acc :
  (∀ sn name, Some sn ∈ l → sn_SnapshotName sn = Some name → listed past name) →
  heeds past (collect_snapshots p ctx j l acc) any.
Proof.
  revert past acc. induction l as [|sn l IH]; intros past acc Hl; cbn [collect_snapshots]; [by apply heeds_ret|].
  apply heeds_deref. intros sn' ->. cbv zeta.
  destruct (sn_SnapshotName sn') as [name|] eqn:Hname; [|by apply heeds_ret].
  destruct (sn_NodeSnapshots sn') as [|ns rest]; [by apply heeds_ret|].
  apply heeds_deref. intros ns' _. destruct (ns_SnapshotCreateTime ns') as [t|]; [|by apply heeds_ret].
  eapply heeds_bind.
  - apply (heeds_ec past (ListTagsForResourceWithContext ctx (Some (snapshotARN p name))) any); [|done].
    eapply may_read_tags, Hl; [by left|done].
  - intros [tags [e|]] es _; [by apply heeds_ret|]. apply heeds_deref. intros tags' _.
    apply heeds_seq; [footprint|]. intros m es'. apply IH. intros sn name' Hin Hn.
    do 2 apply listed_app. eapply Hl; [by right|done].
Qed.

Lemma mindful_FindSnapshots ctx j : mindful (FindSnapshots p ctx j).
Proof.
  intros past. unfold FindSnapshots. eapply heeds_bind.
  - apply (heeds_ec past (DescribeSnapshotsPagesWithContext ctx)
      (λ r es, es = [EvElastiCache (DescribeSnapshotsPagesWithContext ctx) r])); [by apply may_own|done].
  - intros [pages [e|]] es ->; [by apply heeds_ret|]. cbv zeta. apply heeds_collect_snapshots.
    intros sn name Hin Hname.
    assert (∀ acc, Some sn ∈ foldl (λ snapshots page, snapshots ++ page) acc pages →
      Some sn ∈ acc ∨ ∃ page, page ∈ pages ∧ Some sn ∈ page) as Hpages.
    { clear. induction pages as [|page pages IH]; intros acc; cbn [foldl]; [by left|].
      intros [[Hacc|Hpage]%elem_of_app|(page' & ? & ?)]%IH; [by left|right|right].
      - exists page. split; [left|done].
      - exists page'. by split; [right|]. }
    destruct (Hpages [] Hin) as [[]%elem_of_nil|(page & Hp & Hsn)].
    exists ctx, pages, page, sn. split; [|done]. apply elem_of_app. right. by left.
Qed.
End heeds.

(** ** The broker on top *)

Section mindful_broker.
Context {X : Type} `{Runtime X} `{ElastiCache X} `{SecretsManager X}.
Variables (b : Broker) (p : RedisProvider) (i : string).

#[local] Instance heeding_redis : Provider X := RedisProvider_Provider p.

Hint Extern 1 (built (calm_call _ _) (pv_serve _)) =>
  apply (built_calm_pv p i); first [reflexivity | by apply bool_decide_eq_true] : footprint.

Lemma mindful_Provision ctx details a : mindful p i (Broker.Provision b ctx i details a).
Proof.
  intros past. unfold Broker.Provision. cbv zeta. apply heeds_seq; [footprint|]. intros [] es.
  destruct a; cbn [negb]; [|by apply heeds_ret].
  destruct (GetPlanConfig (b_config b) (pd_PlanID details)) as [plan [e|]]; [by apply heeds_ret|].
  apply heeds_timeout, heeds_seq; [footprint|]. intros [user [e|]] es1; [by apply heeds_ret|].
  apply heeds_seq; [footprint|]. intros u es2. apply heeds_bind with any.
  - unfold find_restore_snapshot. destruct (prov_RestoreFromLatestSnapshotOf u) as [source|];
      [|by apply heeds_ret].
    apply heeds_end; [by apply mindful_pv, mindful_FindSnapshots|]. intros [l err]. footprint.
  - intros [snapshot [e|]] es3 _; [by apply heeds_ret|]. apply heeds_strict. footprint.
Qed.

Lemma mindful_LastOperation ctx poll : mindful p i (LastOperation b ctx i poll).
Proof.
  intros past. unfold LastOperation. apply heeds_seq; [footprint|]. intros [] es.
  destruct (parse_operation poll) as [op [e|]]; [by apply heeds_ret|].
  apply heeds_seq; [footprint|]. intros [e|] es1; [by apply heeds_ret|].
  apply heeds_timeout. unfold poll_state. apply heeds_end.
  - by apply mindful_pv, mindful_ProgressState.
  - intros [[state description] err]. footprint.
Qed.

Lemma mindful_GetInstance ctx : mindful p i (GetInstance b ctx i).
Proof.
  intros past. unfold GetInstance. apply heeds_end; [by apply mindful_pv, mindful_GetInstanceParameters|].
  intros [ps err]. footprint.
Qed.

(** Every method of the broker. *)
Lemma mindful_serve ctx m : method_instance m = Some i → mindful p i (serve b ctx m).
Proof.
  intros Hi. destruct m; cbn [method_instance serve] in *; try done; injection Hi as ->;
    first [apply mindful_Provision|apply mindful_LastOperation|apply mindful_GetInstance
          |apply mindful_strict];
    eauto 3 using built_Update, built_Deprovision with footprint;
    unfold Bind, Unbind, GetBinding, LastBindingOperation; footprint.
Qed.
End mindful_broker.

(** AWS describes a group under its own name. *)
Definition true_name (i : string) (es : list event) : Prop :=
  ∀ rg name, described i es rg → rg_ReplicationGroupId rg = Some name →
    name = GenerateReplicationGroupName i.

Lemma may_call_apart p i j past c :
  GenerateReplicationGroupName i ≠ GenerateReplicationGroupName j → true_name i past →
  may_call p i past c → touches p j c = false.
Proof.
  intros Hne Hname. destruct 1 as [c Hc|ctx rg name Hrg Hid|ctx rg id rest Hrg Hid|
    ctx rg primary replica input Hrg Hnodes Hg Hp|ctx name Hl].
  - by eapply only_own_apart.
  - rewrite (Hname rg name Hrg Hid). unfold touches. cbn. rewrite orb_false_r.
    unfold is_name. apply bool_decide_eq_false. by intros Heq%(inj Some).
  - done.
  - unfold touches. cbn. rewrite Hg, Hp. cbn. rewrite !orb_false_r.
    unfold is_name. apply bool_decide_eq_false. by intros Heq%(inj Some).
  - unfold touches. cbn. rewrite orb_false_r. unfold is_name. apply bool_decide_eq_false.
    intros Heq%(inj Some). by apply snapshotARN_apart in Heq.
Qed.

Lemma informed_apart p i j past es :
  GenerateReplicationGroupName i ≠ GenerateReplicationGroupName j → true_name i (past ++ es) →
  informed p i past es → Forall (within (λ c, negb (touches p j c))) es.
Proof.
  intros Hne. revert past. induction es as [|e es IH]; intros past Hname; [constructor|].
  intros [He Hes]. constructor.
  - assert (true_name i past) as Hpast.
    { intros rg name Hrg. apply Hname. by apply described_app. }
    destruct e; try done; unfold within; by rewrite (may_call_apart p i j past).
  - apply (IH (past ++ [e])); [by rewrite <-app_assoc|done].
Qed.

(** ** Properties *)

(** C11: requests about one instance leave the others alone: whatever AWS answers,
    every call made for a method of the broker, over the Redis provider, names
    either what belongs to the instance of the request (its replication group,
    parameter group, secret and tags), or, for reading and for the cutover, what
    an answer of AWS before it has named: the first node, the parameters and the
    replica of the group described for the instance, and the snapshots of the
    list of all of them. So, when AWS describes that group under its own name,
    no call names the group, the parameter group, the secret or the tags of an
    instance whose group has another name. *)
Theorem instances_isolated {X : Type} `{Runtime X} `{ElastiCache X} `{SecretsManager X}
    (b : Broker) (p : RedisProvider) (ctx : context) (m : method) (i : string)
    (h : list (gmap string string)) :
  method_instance m = Some i →
  runs h (@serve X _ (RedisProvider_Provider p) b ctx m) (λ _ es _,
    informed p i [] es ∧
    (true_name i es → ∀ j, GenerateReplicationGroupName i ≠ GenerateReplicationGroupName j →
      Forall (within (λ c, negb (touches p j c))) es)).
Proof.
  intros Hi s Hs. destruct (mindful_serve b p i ctx m Hi [] s) as (es & Htr & Hes & _).
  exists es. unfold redis in *. destruct (serve b ctx m s) as [o s']. simpl in *.
  split; [done|]. split; [done|]. intros Hname j Hne. by eapply (informed_apart p i j []).
Qed.

(** A group with one node, which is read for a poll. *)
Definition ec_named_group (c : ec_call) : ec_out c * option error :=
  match c return ec_out c * option error with
  | DescribeReplicationGroupsWithContext _ name => (Some [Some (mkReplicationGroup name
      (Some "creating") [Some "node-1"] [] None None None)], None)
  | DescribeCacheClustersWithContext _ _ => (Some [Some (mkCacheCluster None None)], None)
  | c => ec_empty c
  end.

Lemma instances_isolated_witness :
  let serve := @serve bench _ (RedisProvider_Provider bench_provider) bench_broker RequestContext
    (MLastOperation "instance" (mkPollDetails "service-1" "plan-1" "")) in
  runs bench_heap serve (λ _ es _,
    informed bench_provider "instance" [] es ∧
    (true_name "instance" es → ∀ j,
      GenerateReplicationGroupName "instance" ≠ GenerateReplicationGroupName j →
      Forall (within (λ c, negb (touches bench_provider j c))) es)) ∧
  length (aws_events (st_trace
    (serve (bench_start bench_heap (mkBench 0 ec_named_group sm_empty pv_empty))).2)) = 3%nat.
Proof.
  split; [|by vm_compute].
  by apply (instances_isolated bench_broker bench_provider RequestContext (MLastOperation "instance" _)).
Defined.
