(* ===== verification/Password.v ===== *)
(** * The password of an instance

    The auth token a replication group is created with, and the one kept in
    Secrets Manager for its bindings, against an AWS account that stores what it
    accepts.  Requests about all instances may come in any order, and may fail
    or panic at any point.

    An error does not say that nothing happened: the answer to a call that was
    carried out can be lost, and a call that is sent again is refused.  A group
    whose creation was reported as failed is kept apart, as not confirmed: the
    broker gives up its secret, and nothing is promised of its password. *)
From S2P Require Import Prelude GoBase Sdk Providers Go Interfaces Footprint Bench Naming Random Url.
From S2P Require Import RedisBase RedisProvision RedisQuery RedisService RedisCredentials.
From S2P Require Import Config Parameters Broker BenchBroker BrokerService Isolation.
Local Open Scope Z_scope.
Local Open Scope go_scope.

(** ** The account

    Every replication group that is not being deleted, with its auth token and
    whether the call that created it was answered without an error, and the text
    of every secret that is not scheduled for deletion, by their names. *)
Record live_group := Live { lg_token : string; lg_confirmed : bool }.

Class Account (X : Type) := {
  ac_group : string → X → option live_group;
  ac_secret : string → X → option string;
}.

(** What a call does to the group [name]: a creation that succeeds found no group;
    after an error it is not known whether a creation or a deletion took place,
    but a group that is there is not created again. *)
Definition group_step (name : string) (c : ec_call) (err : option error)
    (old new : option live_group) : Prop :=
  match c with
  | CreateReplicationGroupWithContext _ input =>
      if is_name name (crg_ReplicationGroupId input) then
        match err with
        | None => old = None ∧ new = (λ t, Live t true) <$> crg_AuthToken input
        | Some _ => new = old ∨ (old = None ∧ new = (λ t, Live t false) <$> crg_AuthToken input)
        end
      else new = old
  | DeleteReplicationGroupWithContext _ input =>
      if is_name name (drg_ReplicationGroupId input) then new = None ∨ (is_Some err ∧ new = old)
      else new = old
  | _ => new = old
  end.

(** The same for the secret [name]; a secret is created only once. *)
Definition secret_step (name : string) (c : sm_call)
    : sm_out c * option error → option string → option string → Prop :=
  match c return sm_out c * option error → _ with
  | CreateSecretWithContext _ input => λ r old new,
      if is_name name (cs_Name input) then
        (old = None ∧ new = cs_SecretString input) ∨ (is_Some r.2 ∧ new = old)
      else new = old
  | GetSecretValueWithContext _ id => λ r old new,
      new = old ∧ (is_name name id = true → ∀ value, r = (Some value, None) → value = old)
  | DeleteSecretWithContext _ input => λ r old new,
      if is_name name (ds_SecretId input) then new = None ∨ (is_Some r.2 ∧ new = old)
      else new = old
  end.

(** The same group [group] and the same secret [path]. *)
Definition same_account {X} `{Account X} (group path : string) (x y : X) : Prop :=
  ac_group group y = ac_group group x ∧ ac_secret path y = ac_secret path x.

(** What AWS promises for the group and the secret of one instance.  Nothing is
    said of other names: what else goes on in the account at the same time is
    part of the outside world. *)
Class AccountLaws (X : Type) (group path : string) `{Account X} `{Runtime X} `{ElastiCache X}
    `{SecretsManager X} : Prop := {
  ec_group_step : ∀ c x,
    group_step group c (ec_serve c x).1.2 (ac_group group x) (ac_group group (ec_serve c x).2);
  ec_secret_same : ∀ c x, ac_secret path (ec_serve c x).2 = ac_secret path x;
  sm_secret_step : ∀ c x,
    secret_step path c (sm_serve c x).1 (ac_secret path x) (ac_secret path (sm_serve c x).2);
  sm_group_same : ∀ c x, ac_group group (sm_serve c x).2 = ac_group group x;
  now_same : ∀ x, same_account group path x (rt_now x).2;
  rand_same : ∀ n x, same_account group path x (rt_rand n x).2;
  range_same : ∀ ks x, same_account group path x (rt_range ks x).2;
}.

Section password.
Context {X : Type} `{RuntimeLaws X} `{ElastiCache X} `{SecretsManager X} `{Account X}.
Variables (p : RedisProvider) (i : string).
Abbreviation group := (GenerateReplicationGroupName i).
Abbreviation path := (getAuthTokenPath p i).
Context `{!AccountLaws X group path}.

(** What the account keeps for the instance. *)
Definition entry : Type := option live_group * option string.
Definition kept (x : X) : entry := (ac_group group x, ac_secret path x).

(** A group has a token of the broker's own, and if it is confirmed the secret
    has the same. *)
Definition entry_ok (e : entry) : Prop :=
  ∀ g, e.1 = Some g →
    valid_token (lg_token g) = true ∧ (lg_confirmed g = true → e.2 = Some (lg_token g)).

(** There is no group that is confirmed. *)
Definition unconfirmed (e : entry) : Prop :=
  ∀ g, e.1 = Some g → valid_token (lg_token g) = true ∧ lg_confirmed g = false.

(** ** Assertions about the entry

    [triple P m Q]: from an entry with [P], [m] ends with [Q] if it returns, and
    with a sound entry if it panics. *)
Definition triple {A} (P : entry → Prop) (m : M X A) (Q : A → entry → Prop) : Prop :=
  ∀ s, P (kept (st_world s)) →
    match m s with
    | (Ret a, s') => Q a (kept (st_world s'))
    | (Panic _, s') => entry_ok (kept (st_world s'))
    end.

Lemma triple_conseq {A} (P P' : entry → Prop) (m : M X A) (Q Q' : A → entry → Prop) :
  triple P' m Q' → (∀ e, P e → P' e) → (∀ a e, Q' a e → Q a e) → triple P m Q.
Proof.
  intros Hm HP HQ s Hs. specialize (Hm s (HP _ Hs)). destruct (m s) as [[a|q] s']; auto.
Qed.

Lemma triple_ret {A} (P : entry → Prop) (a : A) (Q : A → entry → Prop) :
  (∀ e, P e → Q a e) → triple P (ret a) Q.
Proof. intros HQ s Hs. by apply HQ. Qed.

Lemma triple_bind {A B} (P : entry → Prop) (m : M X A) (k : A → M X B) Q (R : B → entry → Prop) :
  triple P m Q → (∀ a, triple (Q a) (k a) R) → triple P (bind m k) R.
Proof.
  intros Hm Hk s Hs. specialize (Hm s Hs). unfold bind. destruct (m s) as [[a|q] s']; [|done].
  by apply Hk.
Qed.

(** A fact in the assertion can be used outside. *)
Lemma triple_pure {A} (P : entry → Prop) (φ : Prop) (m : M X A) Q :
  (φ → triple P m Q) → triple (λ e, P e ∧ φ) m Q.
Proof. intros Hm s [Hs Hφ]. by apply Hm. Qed.

Lemma triple_timeout {A} P ctx d (body : context → M X A) Q :
  triple P (body (TimeoutContext ctx d)) Q → triple P (with_timeout ctx d body) Q.
Proof.
  intros Hb s Hs. specialize (Hb s Hs). unfold with_timeout.
  by destruct (body (TimeoutContext ctx d) s) as [[a|q] s'].
Qed.

Lemma triple_emit P e : triple P (emit e) (λ _, P).
Proof. by intros s Hs. Qed.

(** A call that creates and deletes nothing of the instance leaves the entry
    alone. *)
Definition spares (c : aws_call) : bool := negb (touches p i c && is_lifecycle c).

Lemma quiet_spares c : quiet_call p i c = true → spares c = true.
Proof. unfold quiet_call, spares. destruct (is_lifecycle c); by rewrite ?andb_false_r. Qed.

Lemma other_spares j c :
  GenerateReplicationGroupName j ≠ group → own_call p j c = true → spares c = true.
Proof.
  intros Hne Hc. unfold spares. destruct (is_lifecycle c) eqn:Hl; [|by rewrite andb_false_r].
  rewrite lifecycle_own in Hc by done. by rewrite (only_own_apart p j i c).
Qed.

Lemma ec_keeps c x : spares (AwsEc c) = true → kept (ec_serve c x).2 = kept x.
Proof.
  intros Hc. unfold kept. rewrite ec_secret_same. f_equal.
  pose proof (ec_group_step c x) as Hs. unfold spares, touches in Hc.
  destruct c; try done; cbn in Hc, Hs; revert Hc Hs;
    by destruct (is_name group _).
Qed.

Lemma sm_keeps c x : spares (AwsSm c) = true → kept (sm_serve c x).2 = kept x.
Proof.
  intros Hc. unfold kept. rewrite sm_group_same. f_equal.
  pose proof (sm_secret_step c x) as Hs. unfold spares, touches in Hc.
  destruct c as [ctx input|ctx id|ctx input]; cbn in Hc, Hs.
  - by destruct (is_name path (cs_Name input)).
  - by destruct Hs.
  - by destruct (is_name path (ds_SecretId input)).
Qed.

Lemma same_kept x y : same_account group path x y → kept y = kept x.
Proof. intros [Ht Hs]. unfold kept. by rewrite Ht, Hs. Qed.

Definition same_entry (x y : X) : Prop := kept y = kept x.

#[local] Instance same_entry_preorder : PreOrder same_entry.
Proof. split; [by intros x|]. intros x y z Hxy Hyz. unfold same_entry in *. congruence. Qed.

Lemma built_keeps {A} (m : M X A) s : built spares m → kept (st_world (m s).2) = kept (st_world s).
Proof.
  intros Hm. apply (built_world spares same_entry); [..|exact Hm].
  - intros x. apply same_kept, now_same.
  - intros n x. apply same_kept, rand_same.
  - intros ks x. apply same_kept, range_same.
  - intros c x. apply ec_keeps.
  - intros c x. apply sm_keeps.
Qed.

Lemma triple_built {A} (P : entry → Prop) (m : M X A) :
  (∀ e, P e → entry_ok e) → built spares m → triple P m (λ _, P).
Proof.
  intros HP Hm s Hs. pose proof (built_keeps m s Hm) as Hk.
  destruct (m s) as [[a|q] s']; simpl in Hk; rewrite Hk; auto.
Qed.

Lemma triple_quiet {A} (P : entry → Prop) (m : M X A) :
  (∀ e, P e → entry_ok e) → built (quiet_call p i) m → triple P m (λ _, P).
Proof. intros HP Hm. apply triple_built; [done|]. by eapply built_weaken; [apply quiet_spares|]. Qed.

(** ** The calls that create and delete *)

Lemma no_group_unconfirmed (e : entry) : e.1 = None → unconfirmed e.
Proof. intros He g Hg. congruence. Qed.

Lemma unconfirmed_ok e : unconfirmed e → entry_ok e.
Proof. intros He g Hg. destruct (He g Hg) as [Hv Hc]. split; [done|]. congruence. Qed.

Lemma unconfirmed_group (e e' : entry) : unconfirmed e → e'.1 = e.1 → unconfirmed e'.
Proof. intros He Heq g Hg. apply He. congruence. Qed.

Lemma same_token_ok token : valid_token token = true → entry_ok (Some (Live token true), Some token).
Proof. by intros Hv g [= <-]. Qed.
#[local] Hint Resolve no_group_unconfirmed unconfirmed_ok same_token_ok : core.

(** The secret is there, and no confirmed group. *)
Definition prepared (token : string) (e : entry) : Prop := e.2 = Some token ∧ unconfirmed e.

Lemma prepared_ok token e : prepared token e → entry_ok e.
Proof. intros [_ Hu]. by apply unconfirmed_ok. Qed.

Lemma triple_ec (P : entry → Prop) c (Q : _ → entry → Prop) :
  (∀ r old new secret, P (old, secret) → group_step group c r.2 old new → Q r (new, secret)) →
  triple P (ec_do c) Q.
Proof.
  intros HQ s Hs. simpl. unfold kept. rewrite ec_secret_same.
  eapply HQ; [exact Hs|apply ec_group_step].
Qed.

Lemma triple_sm (P : entry → Prop) c (Q : _ → entry → Prop) :
  (∀ r token old new, P (token, old) → secret_step path c r old new → Q r (token, new)) →
  triple P (sm_do c) Q.
Proof.
  intros HQ s Hs. simpl. unfold kept. rewrite sm_group_same.
  eapply HQ; [exact Hs|apply sm_secret_step].
Qed.

Lemma triple_token :
  triple entry_ok GenerateAuthToken (λ token e, entry_ok e ∧ valid_token token = true).
Proof.
  intros s Hs. pose proof (triple_built entry_ok GenerateAuthToken) as Hk.
  specialize (Hk (λ _ He, He) (built_GenerateAuthToken _) s Hs).
  destruct (runs_GenerateAuthToken (X:=X) (st_maps s) s eq_refl) as (es & _ & _ & _ & Hv).
  by destruct (GenerateAuthToken s) as [[token|q] s'].
Qed.

(** A secret that can be created was not there, so there was no confirmed group. *)
Lemma triple_create_secret ctx token :
  triple entry_ok (CreateAuthTokenSecret p ctx i token) (λ err e,
    match err with None => prepared token e | Some _ => entry_ok e end).
Proof.
  set (input := mkCreateSecretInput (Some path) (Some token) (Some (p_kmsKeyID p))
    [mkSmTag (Some "chargeable_entity") (Some i)]).
  apply triple_bind with (λ r e, match r.2 with
    | None => prepared token e | Some _ => entry_ok e end).
  2: { intros [[] err]. by apply triple_ret. }
  apply (triple_sm _ (CreateSecretWithContext ctx input)).
  intros [[] err] g old new Hok. cbn. rewrite is_name_self.
  intros [[-> ->]|[[e ->] ->]]; [|done].
  assert (unconfirmed (g, Some token)) as Hu.
  { intros g' Hg. destruct (Hok g' Hg) as [Hv Hc]. split; [done|].
    destruct (lg_confirmed g'); [by specialize (Hc eq_refl)|done]. }
  destruct err; [by apply unconfirmed_ok|by split].
Qed.

(** A creation that is reported as failed may have left a group. *)
Lemma triple_create_group ctx token params tags :
  valid_token token = true →
  triple (prepared token)
    (ec_do (CreateReplicationGroupWithContext ctx (replication_group_input group token params tags)))
    (λ r e, match r.2 with None => e = (Some (Live token true), Some token) | Some _ => unconfirmed e end).
Proof.
  intros Hv. apply (triple_ec _ (CreateReplicationGroupWithContext ctx _)).
  intros [[] err] old new secret [Hs Hu]. cbn in Hs. subst secret. cbn. rewrite is_name_self.
  destruct err; [|by intros [_ ->]]. intros [->|[_ ->]]; [done|]. by intros g [= <-].
Qed.

Lemma triple_delete_group ctx input :
  drg_ReplicationGroupId input = Some group →
  triple entry_ok (ec_do (DeleteReplicationGroupWithContext ctx input))
    (λ r e, match r.2 with None => unconfirmed e | Some _ => entry_ok e end).
Proof.
  intros Hid. apply (triple_ec _ (DeleteReplicationGroupWithContext ctx _)).
  intros [[] err] old new secret Hok. cbn. rewrite Hid, is_name_self.
  intros [->|[[e ->] ->]]; [|done]. destruct err; auto.
Qed.

Lemma triple_delete_secret ctx days :
  triple unconfirmed (DeleteAuthTokenSecret p ctx i days) (λ _, unconfirmed).
Proof.
  set (input := mkDeleteSecretInput (Some path) (Some days)).
  apply triple_bind with (λ _, unconfirmed); [|intros [[] err]; by apply triple_ret].
  apply (triple_sm _ (DeleteSecretWithContext ctx input)). intros r g old new Hu _.
  by eapply unconfirmed_group.
Qed.

(** ** The provider and the broker *)

(** [keeps m]: the entry stays sound, whatever happens in [m]. *)
Definition keeps {A} (m : M X A) : Prop := triple entry_ok m (λ _, entry_ok).

Lemma keeps_built {A} (m : M X A) : built spares m → keeps m.
Proof. by apply triple_built. Qed.

Lemma keeps_quiet {A} (m : M X A) : built (quiet_call p i) m → keeps m.
Proof. by apply triple_quiet. Qed.

Lemma keeps_seq {A B} (m : M X A) (k : A → M X B) :
  keeps m → (∀ a, keeps (k a)) → keeps (bind m k).
Proof. intros Hm Hk. by eapply triple_bind; [exact Hm|]. Qed.

Lemma keeps_pv_do `{Provider X} c : keeps (pv_serve c) → keeps (pv_do c).
Proof.
  intros Hc. apply keeps_seq; [apply keeps_built, built_peek|]. intros maps.
  apply keeps_seq; [done|]. intros r. apply keeps_built. footprint.
Qed.

(** The end of [Provision], once the secret is there: the clean-up removes it
    again only when no group is confirmed. *)
Lemma keeps_creation (ctx : context) params token :
  valid_token token = true →
  triple (prepared token) (
    let! entries := range_map (pp_Tags params) in
    let! tags := for_each entries [] (λ tags '(tagName, tagValue),
      ret (tags ++ [mkTag (Some tagName) (Some tagValue)])) in
    let! (_, createErr) := ec_do (CreateReplicationGroupWithContext ctx
      (replication_group_input group token params tags)) in
    do! match createErr with
        | None => ret tt
        | Some _ =>
            let! err := DeleteCacheParameterGroup ctx i in
            do! match err with
                | Some _ => log LError "delete-cache-parameter-group" err []
                | None => ret tt
                end in
            let! err := DeleteAuthTokenSecret p ctx i 7 in
            match err with
            | Some _ => log LError "delete-auth-token-secret" err []
            | None => ret tt
            end
        end in
    ret createErr) (λ _, entry_ok).
Proof.
  intros Hv. pose proof (prepared_ok token) as Hpre.
  eapply triple_bind; [apply triple_quiet; [done|footprint]|]. intros entries.
  eapply triple_bind; [apply triple_quiet; [done|footprint]|]. intros tags.
  eapply triple_bind; [by apply triple_create_group|]. intros [[] [e|]]; cbn [snd].
  2: { apply triple_conseq with (λ e, e = (Some (Live token true), Some token))
         (λ _ e, e = (Some (Live token true), Some token));
         [|done|by intros _ e ->; apply same_token_ok].
       apply triple_quiet; [by intros e ->; apply same_token_ok|footprint]. }
  apply triple_bind with (λ _, unconfirmed).
  2: { intros []. apply triple_ret. auto. }
  eapply triple_bind; [apply triple_quiet; [auto|footprint]|]. intros err.
  eapply triple_bind; [apply triple_quiet; [auto|footprint]|]. intros [].
  eapply triple_bind; [apply triple_delete_secret|]. intros err'.
  apply triple_quiet; [auto|footprint].
Qed.

Lemma keeps_redis_Provision ctx params : keeps (RedisProvision.Provision p ctx i params).
Proof.
  unfold RedisProvision.Provision. cbv zeta. apply keeps_seq; [apply keeps_quiet; footprint|].
  intros [e|]; [apply keeps_quiet; footprint|].
  eapply triple_bind; [apply triple_token|]. intros token.
  apply triple_pure. intros Hv.
  eapply triple_bind; [apply triple_create_secret|]. intros [e|]; [apply keeps_quiet; footprint|].
  by apply keeps_creation.
Qed.

Lemma keeps_redis_Deprovision ctx params : keeps (RedisProvision.Deprovision p ctx i params).
Proof.
  unfold RedisProvision.Deprovision. cbv zeta.
  eapply triple_bind; [by apply triple_delete_group|]. intros [[] [e|]]; cbn [snd].
  { by apply triple_ret. }
  eapply triple_bind; [apply triple_delete_secret|].
  intros [e|]; apply triple_ret; auto.
Qed.

#[local] Instance redis : Provider X := RedisProvider_Provider p.
Variable b : Broker.

Lemma keeps_Provision ctx details a : keeps (Broker.Provision b ctx i details a).
Proof.
  unfold Broker.Provision. cbv zeta. apply keeps_seq; [apply keeps_quiet; footprint|]. intros [].
  destruct a; cbn [negb]; [|apply keeps_quiet; footprint].
  destruct (GetPlanConfig (b_config b) (pd_PlanID details)) as [plan [e|]]; [apply keeps_quiet; footprint|].
  apply triple_timeout. apply keeps_seq; [apply keeps_quiet; footprint|].
  intros [user [e|]]; [apply keeps_quiet; footprint|].
  apply keeps_seq; [apply keeps_quiet; footprint|]. intros u.
  apply keeps_seq; [apply keeps_quiet; footprint|].
  intros [snapshot [e|]]; [apply keeps_quiet; footprint|].
  apply keeps_seq; [apply keeps_quiet; footprint|]. intros params.
  apply keeps_seq; [apply keeps_pv_do, keeps_redis_Provision|].
  intros err. apply keeps_quiet. footprint.
Qed.

Lemma keeps_Deprovision ctx details a : keeps (Broker.Deprovision b ctx i details a).
Proof.
  unfold Broker.Deprovision. cbv zeta. apply keeps_seq; [apply keeps_quiet; footprint|]. intros [].
  destruct a; cbn [negb]; [|apply keeps_quiet; footprint].
  apply triple_timeout. apply keeps_seq; [apply keeps_pv_do, keeps_redis_Deprovision|].
  intros err. apply keeps_quiet. footprint.
Qed.

(** Every request, about this instance or about another one. *)
Lemma keeps_serve ctx m j :
  method_instance m = Some j → j = i ∨ GenerateReplicationGroupName j ≠ group →
  keeps (serve b ctx m).
Proof.
  intros Hm [->|Hne].
  - destruct (is_lifecycle_method m) eqn:Hl; [|by apply keeps_quiet, built_serve_quiet].
    destruct m; try done; injection Hm as ->; [apply keeps_Provision|apply keeps_Deprovision].
  - apply keeps_built. eapply built_weaken; [|by apply built_serve]. intros c.
    by apply other_spares.
Qed.

(** ** Bindings *)

Definition has_token (token : string) (e : entry) : Prop :=
  e.1 = Some (Live token true) ∧ entry_ok e.

Lemma has_token_ok token e : has_token token e → entry_ok e.
Proof. by intros []. Qed.

(** The result of [GenerateCredentials], if there is one, has this token. *)
Definition binds_with (token : string) (r : option Credentials * option error) : Prop :=
  ∀ c, r = (Some c, None) → ∃ host port, c = credentials i host port token.

Lemma triple_read_secret token ctx :
  triple (has_token token) (sm_do (GetSecretValueWithContext ctx (Some path)))
    (λ r e, has_token token e ∧ ∀ value, r = (Some value, None) → value = Some token).
Proof.
  apply (triple_sm _ (GetSecretValueWithContext ctx (Some path))).
  intros r g old new [Ht Hok]. cbn. intros [-> Hr]. split; [done|]. intros value Hv.
  rewrite (Hr (is_name_self _) value Hv). simpl in Ht. subst g. by apply (Hok (Live token true)).
Qed.

(** The end of [GenerateCredentials]. *)
Lemma triple_credentials token ctx host port :
  triple (has_token token) (
    try! authTokenSecret := sm_do (GetSecretValueWithContext ctx (Some path))
      catch err => ret (None, Some err) in
    let! authTokenSecret := deref authTokenSecret in
    let authToken := StringValue authTokenSecret in
    ret (Some (mkCredentials host port group authToken
           (url_string "rediss" "" authToken (host +:+ ":" +:+ pretty port)) true), None))
    (λ r _, binds_with token r).
Proof.
  eapply triple_bind; [apply triple_read_secret|]. intros [[value|] [e|]]; cbn beta iota.
  - by apply triple_ret.
  - intros s [Ht Hr]. rewrite (Hr value eq_refl). intros c [= <-]. by exists host, port.
  - by apply triple_ret.
  - intros s [[_ Hok] _]. done.
Qed.

Lemma triple_Bind token ctx bindingID details a :
  triple (has_token token) (Bind b ctx i bindingID details a) (λ r _, binds_with token r).
Proof.
  assert (∀ A (m : M X A), built (quiet_call p i) m → triple (has_token token) m (λ _, has_token token))
    as Hquiet by (intros A m; apply triple_quiet, has_token_ok).
  assert (∀ r, (∀ c, r ≠ (Some c, None)) → triple (has_token token) (ret r) (λ r _, binds_with token r))
    as Hnone by (intros r Hr; apply triple_ret; intros e _ c ->; by destruct (Hr c)).
  unfold Bind. eapply triple_bind; [apply Hquiet; footprint|]. intros [].
  apply triple_bind with (λ r _, binds_with token r).
  2: { intros [c [e|]]; by apply triple_ret. }
  unfold pv_do. eapply triple_bind; [apply Hquiet, built_peek|]. intros maps.
  apply triple_bind with (λ r _, binds_with token r).
  2: { intros r. eapply triple_bind; [apply triple_emit|]. intros []. by apply triple_ret. }
  unfold pv_serve, redis, RedisProvider_Provider, GenerateCredentials. cbv zeta.
  eapply triple_bind; [apply Hquiet; footprint|].
  intros [rg [e|]]; cbn beta iota; [by destruct (has_aws_code _ e); apply Hnone|].
  eapply triple_bind; [apply Hquiet; footprint|]. intros rg'.
  eapply triple_bind; [apply Hquiet; footprint|]. intros [ep|]; [|by apply Hnone].
  eapply triple_bind; [apply Hquiet; footprint|]. intros host.
  eapply triple_bind; [apply Hquiet; footprint|]. intros port.
  apply triple_credentials.
Qed.

(** ** A creation whose answer is lost

    What the clean-up does to a group that was created after all: with a Secrets
    Manager that carries out its deletions, the secret is gone. *)
Section lost.
Hypothesis deletes : ∀ ctx input x, (sm_serve (DeleteSecretWithContext ctx input) x).1.2 = None.

Definition forgotten (err : option error) (e : entry) : Prop :=
  is_Some err → is_Some e.1 → e.2 = None.

Lemma triple_forget_secret ctx days :
  triple unconfirmed (DeleteAuthTokenSecret p ctx i days) (λ _ e, unconfirmed e ∧ e.2 = None).
Proof.
  set (input := mkDeleteSecretInput (Some path) (Some days)).
  apply triple_bind with (λ _ e, unconfirmed e ∧ e.2 = None); [|intros [[] err]; by apply triple_ret].
  intros s Hu. pose proof (sm_secret_step (DeleteSecretWithContext ctx input) (st_world s)) as Hs.
  cbn in Hs. rewrite is_name_self in Hs. simpl. split.
  - eapply unconfirmed_group; [exact Hu|]. exact (sm_group_same (DeleteSecretWithContext ctx input) _).
  - destruct Hs as [Hs|[[e He] _]]; [done|].
    pose proof (deletes ctx input (st_world s)) as Hd. cbn in Hd, He. congruence.
Qed.

Lemma triple_lost_Provision ctx params :
  triple (λ e, e.1 = None) (RedisProvision.Provision p ctx i params) forgotten.
Proof.
  assert (∀ e : entry, e.1 = None → entry_ok e) as Hpre by auto.
  assert (∀ (err : option error) (e : entry), e.1 = None → forgotten err e) as Hnone
    by (intros err e He _ [g Hg]; congruence).
  unfold RedisProvision.Provision. cbv zeta.
  eapply triple_bind; [apply triple_quiet; [done|footprint]|].
  intros [e|]; [by apply triple_ret; auto|].
  eapply triple_bind with (λ token e, e.1 = None ∧ valid_token token = true).
  { intros s Hs. pose proof (triple_quiet (λ e, e.1 = None) GenerateAuthToken Hpre
      (built_GenerateAuthToken _) s Hs) as Hk.
    destruct (runs_GenerateAuthToken (X:=X) (st_maps s) s eq_refl) as (es & _ & _ & _ & Hv).
    by destruct (GenerateAuthToken s) as [[token|q] s']. }
  intros token. apply triple_pure. intros Hv.
  eapply triple_bind with (λ err e, e.1 = None ∧ (err = None → e.2 = Some token)).
  { set (input := mkCreateSecretInput (Some path) (Some token) (Some (p_kmsKeyID p))
      [mkSmTag (Some "chargeable_entity") (Some i)]).
    apply triple_bind with (λ r e, e.1 = None ∧ (r.2 = None → e.2 = Some token));
      [|intros [[] err]; by apply triple_ret].
    apply (triple_sm _ (CreateSecretWithContext ctx input)).
    intros [[] err] g old new Hg. cbn in Hg |- *. rewrite is_name_self.
    intros [[_ ->]|[[e ->] _]]; done. }
  intros [e|]; [apply triple_ret; intros e' [He _]; auto|].
  apply triple_conseq with (λ e, prepared token e) forgotten; [|intros e [He Hs]; split; auto|done].
  pose proof (prepared_ok token) as Hok.
  eapply triple_bind; [apply triple_quiet; [done|footprint]|]. intros entries.
  eapply triple_bind; [apply triple_quiet; [done|footprint]|]. intros tags.
  eapply triple_bind; [by apply triple_create_group|]. intros [[] [e|]]; cbn [snd].
  2: { apply triple_conseq with (λ e, e = (Some (Live token true), Some token))
         (λ r _, r = None); [|done|by intros r e -> [e' He']].
       intros s _. by eexists. }
  apply triple_bind with (λ _ e, e.2 = None).
  2: { intros []. apply triple_ret. by intros e' He _ _. }
  eapply triple_bind; [apply triple_quiet; [auto|footprint]|]. intros err.
  eapply triple_bind; [apply triple_quiet; [auto|footprint]|]. intros [].
  eapply triple_bind; [apply triple_forget_secret|]. intros err'.
  apply triple_conseq with (λ e, unconfirmed e ∧ e.2 = None) (λ _ e, unconfirmed e ∧ e.2 = None);
    [|done|by intros a e' [_ He']].
  apply triple_quiet; [|footprint]. intros e' [Hu _]. auto.
Qed.
End lost.

(** ** Sequences of requests *)

(** The states of a broker that has served requests about this instance and
    about others whose groups have other names. Between two requests groups may
    go away by themselves, and a creation that was reported as failed may still
    take place. *)
Inductive served (s0 : state X) : state X → Prop :=
  | served_none : served s0 s0
  | served_request s ctx m j :
      served s0 s → method_instance m = Some j → j = i ∨ GenerateReplicationGroupName j ≠ group →
      served s0 (serve b ctx m s).2
  | served_time s x :
      served s0 s →
      ac_group group x = ac_group group (st_world s) ∨ ac_group group x = None ∨
        (ac_group group (st_world s) = None ∧
         ∃ token, valid_token token = true ∧ ac_group group x = Some (Live token false)) →
      ac_secret path x = ac_secret path (st_world s) →
      served s0 (mkState (st_maps s) (st_trace s) x).

Lemma served_entry_ok s0 s :
  ac_group group (st_world s0) = None → served s0 s → entry_ok (kept (st_world s)).
Proof.
  intros Hnew. induction 1 as [|s ctx m j _ IH Hm Hj|s x _ IH Ht Hsec].
  - by apply unconfirmed_ok, no_group_unconfirmed.
  - pose proof (keeps_serve ctx m j Hm Hj s IH) as Hk. by destruct (serve b ctx m s) as [[r|q] s'].
  - unfold kept in *. cbn [st_world]. rewrite Hsec.
    destruct Ht as [->|[->|(_ & token & Hv & ->)]]; [done|..]; apply unconfirmed_ok.
    + by apply no_group_unconfirmed.
    + by intros g [= <-].
Qed.
End password.

(** ** An account

    It stores what it is told, refuses a name that is taken, and describes a
    group with an endpoint. *)
Record vault := mkVault {
  v_groups : gmap string live_group;
  v_secrets : gmap string string;
  v_draws : Z;   (** draws from the random source *)
  v_loses : bool;   (** the answers to creations of groups are lost *)
}.

#[local] Instance vault_Account : Account vault := {
  ac_group name v := v_groups v !! name;
  ac_secret name v := v_secrets v !! name;
}.

Definition with_groups (v : vault) (groups : gmap string live_group) : vault :=
  mkVault groups (v_secrets v) (v_draws v) (v_loses v).
Definition with_secrets (v : vault) (secrets : gmap string string) : vault :=
  mkVault (v_groups v) secrets (v_draws v) (v_loses v).

#[local] Instance vault_Runtime : Runtime vault := {
  rt_now v := (1704110400 * time_Second, v);
  rt_zone _ := 0;
  rt_rand n v := ((v_draws v mod n, None),
    mkVault (v_groups v) (v_secrets v) (v_draws v + 7) (v_loses v));
  rt_range ks v := (elements ks, v);
  rt_sort := @bench_sort;
}.

#[local] Instance vault_RuntimeLaws : RuntimeLaws vault.
Proof.
  split.
  - done.
  - intros n v r Hn [= <-]. by apply Z.mod_pos_bound.
  - intros A less l. apply sorting.merge_sort_Permutation.
  - intros A less l. apply bench_sort_sorted.
Qed.

(** Storing [value] under a name that is free. *)
Definition store {V} (name : option string) (value : option V) (m : gmap string V)
    : option (gmap string V) :=
  match name with
  | None => None
  | Some n => match m !! n with Some _ => None | None => Some (partial_alter (λ _, value) n m) end
  end.

Definition forget {V} (name : option string) (m : gmap string V) : gmap string V :=
  match name with None => m | Some n => delete n m end.

Definition vault_group : ReplicationGroup :=
  mkReplicationGroup (Some "group") (Some "available") [] [] None None
    (Some (mkEndpoint (Some "cache.example.com") (Some 6379))).

Definition refused : error := AwsError "Refused" "refused".

#[local] Instance vault_ElastiCache : ElastiCache vault := λ c v,
  match c return (ec_out c * option error) * vault with
  | CreateReplicationGroupWithContext _ input =>
      match store (crg_ReplicationGroupId input)
              ((λ t, Live t (negb (v_loses v))) <$> crg_AuthToken input) (v_groups v) with
      | Some groups => ((tt, if v_loses v then Some refused else None), with_groups v groups)
      | None => ((tt, Some refused), v)
      end
  | DeleteReplicationGroupWithContext _ input =>
      ((tt, None), with_groups v (forget (drg_ReplicationGroupId input) (v_groups v)))
  | DescribeReplicationGroupsWithContext _ _ => ((Some [Some vault_group], None), v)
  | DescribeCacheClustersWithContext _ _ => ((Some [], None), v)
  | DescribeCacheParametersWithContext _ _ => ((Some [], None), v)
  | DescribeSnapshotsPagesWithContext _ => (([], None), v)
  | ListTagsForResourceWithContext _ _ => ((Some [], None), v)
  | _ => ((tt, None), v)
  end.

#[local] Instance vault_SecretsManager : SecretsManager vault := λ c v,
  match c return (sm_out c * option error) * vault with
  | CreateSecretWithContext _ input =>
      match store (cs_Name input) (cs_SecretString input) (v_secrets v) with
      | Some secrets => ((tt, None), with_secrets v secrets)
      | None => ((tt, Some refused), v)
      end
  | GetSecretValueWithContext _ id =>
      match id ≫= λ n, v_secrets v !! n with
      | Some value => ((Some (Some value), None), v)
      | None => ((None, Some refused), v)
      end
  | DeleteSecretWithContext _ input =>
      ((tt, None), with_secrets v (forget (ds_SecretId input) (v_secrets v)))
  end.

Lemma store_step {V} name id (value : option V) m m' :
  store id value m = Some m' →
  if is_name name id then m !! name = None ∧ m' !! name = value else m' !! name = m !! name.
Proof.
  destruct id as [n|]; simpl; [|done]. unfold is_name. destruct (m !! n) eqn:Hn; [done|].
  intros [= <-]. case_bool_decide as Hname.
  - injection Hname as ->. by rewrite lookup_partial_alter_eq.
  - rewrite lookup_partial_alter_ne; [done|congruence].
Qed.

Lemma forget_step {V} name id (m : gmap string V) :
  if is_name name id then forget id m !! name = None else forget id m !! name = m !! name.
Proof.
  unfold is_name. case_bool_decide as Hname; [subst; apply lookup_delete_eq|].
  destruct id as [n|]; [|done]. simpl. rewrite lookup_delete_ne; [done|congruence].
Qed.

#[local] Instance vault_AccountLaws group path : AccountLaws vault group path.
Proof.
  split; try done.
  - intros c v. destruct c; try done; cbn.
    + destruct (store _ _ _) as [m'|] eqn:Hs; cbn; [|by destruct (is_name _ _); [left|]].
      apply (store_step group) in Hs. destruct (is_name _ _); [|done].
      destruct Hs as [Hold Hnew]. by destruct (v_loses v); [right|].
    + pose proof (forget_step group (drg_ReplicationGroupId input) (v_groups v)).
      destruct (is_name _ _); [by left|done].
  - intros c v. destruct c; try done; cbn. by destruct (store _ _ _).
  - intros c v. destruct c as [ctx input|ctx id|ctx input]; cbn.
    + destruct (store _ _ _) as [m'|] eqn:Hs; cbn.
      * apply (store_step path) in Hs. destruct (is_name _ _); [by left|done].
      * destruct (is_name _ _); [|done]. right. by split; [eexists|].
    + destruct id as [n|]; [|done]. cbn.
      destruct (v_secrets v !! n) as [s|] eqn:Hs; cbn; (split; [done|]);
        [|by intros _ value].
      intros Hn%is_name_spec value [= <-]. by injection Hn as ->.
    + pose proof (forget_step path (ds_SecretId input) (v_secrets v)).
      destruct (is_name _ _); [by left|done].
  - intros c v. destruct c as [ctx input|ctx id|ctx input]; cbn; [|by destruct (id ≫= _)|done].
    by destruct (store _ _ _).
Qed.

(** ** Properties *)

(** The broker never loses the password of a group that AWS confirmed: after any
    requests, about this instance and others, refused, failing or panicking at any
    point, a group that was created for the instance and is not being deleted has
    a valid token, and if its creation was not reported as failed, Secrets Manager
    keeps the same token for its bindings. *)
Theorem password_kept {X : Type} `{RuntimeLaws X} `{ElastiCache X} `{SecretsManager X}
    `{Account X} (p : RedisProvider) (i : string)
    `{!AccountLaws X (GenerateReplicationGroupName i) (getAuthTokenPath p i)} (b : Broker)
    (s0 s : state X) (token : string) (confirmed : bool) :
  ac_group (GenerateReplicationGroupName i) (st_world s0) = None →
  served p i b s0 s →
  ac_group (GenerateReplicationGroupName i) (st_world s) = Some (Live token confirmed) →
  valid_token token = true ∧
  (confirmed = true → ac_secret (getAuthTokenPath p i) (st_world s) = Some token).
Proof.
  intros Hnew Hs Ht. by apply (served_entry_ok p i b s0 s Hnew Hs (Live token confirmed)).
Qed.

(** The clean-up of a failed creation takes the password from a group that was
    created after all: when the creation is reported as failed although it took
    place, and Secrets Manager carries out the deletion, the group is there and its
    secret is not. *)
Theorem lost_creation_forgets_password {X : Type} `{RuntimeLaws X} `{ElastiCache X}
    `{SecretsManager X} `{Account X} (p : RedisProvider) (i : string)
    `{!AccountLaws X (GenerateReplicationGroupName i) (getAuthTokenPath p i)} (ctx : context)
    (params : Providers.ProvisionParameters) (s s' : state X) (e : error) :
  (∀ ctx input x, (sm_serve (DeleteSecretWithContext ctx input) x).1.2 = None) →
  ac_group (GenerateReplicationGroupName i) (st_world s) = None →
  RedisProvision.Provision p ctx i params s = (Ret (Some e), s') →
  is_Some (ac_group (GenerateReplicationGroupName i) (st_world s')) →
  ac_secret (getAuthTokenPath p i) (st_world s') = None.
Proof.
  intros Hdel Hnew Hrun Hgroup.
  pose proof (triple_lost_Provision p i Hdel ctx params s Hnew) as Ht. rewrite Hrun in Ht.
  by apply Ht.
Qed.

(** C8: what is bound is what was provisioned: after any such requests, if
    [Broker.Bind] returns credentials for a group that is not being deleted and
    whose creation was not reported as failed, their password is the token the
    group was created with, and the URI carries it unescaped.  What is asked of
    AWS is [AccountLaws]: every failed call may or may not have taken place. *)
Theorem bind_password_correct {X : Type} `{RuntimeLaws X} `{ElastiCache X} `{SecretsManager X}
    `{Account X} (p : RedisProvider) (i : string)
    `{!AccountLaws X (GenerateReplicationGroupName i) (getAuthTokenPath p i)} (b : Broker) (ctx : context)
    (bindingID : string) (details : BindDetails) (a : bool) (s0 s s' : state X)
    (token : string) (c : Credentials) :
  ac_group (GenerateReplicationGroupName i) (st_world s0) = None →
  served p i b s0 s →
  ac_group (GenerateReplicationGroupName i) (st_world s) = Some (Live token true) →
  @Bind X (RedisProvider_Provider p) b ctx i bindingID details a s = (Ret (Some c, None), s') →
  cr_Password c = token ∧ ∃ host port, cr_Host c = host ∧ cr_Port c = port ∧
    cr_URI c = "rediss://:" +:+ token +:+ "@" +:+ url_escape EncodeHost (host +:+ ":" +:+ pretty port).
Proof.
  intros Hnew Hs Ht Hbind. pose proof (served_entry_ok p i b s0 s Hnew Hs) as Hok.
  pose proof (triple_Bind p i b token ctx bindingID details a s (conj Ht Hok)) as Hb.
  unfold redis in Hb. rewrite Hbind in Hb. destruct (Hb c eq_refl) as (host & port & ->).
  split; [done|]. exists host, port. split; [done|]. split; [done|].
  destruct (Hok (Live token true) Ht) as [Hv _]. unfold valid_token in Hv.
  rewrite !andb_true_iff in Hv. destruct Hv as [[_ Hv] _]. cbn [lg_token] in Hv.
  unfold credentials, url_string. cbn [cr_URI]. by rewrite (url_escape_alnum _ token Hv).
Qed.

(** An instance is provisioned and bound, next to another one. *)
Definition vault_requests : list (context * method) :=
  let details := mkProvisionDetails "service-1" "plan-1" "org" "space" "" in
  [(RequestContext, MProvision "other" details true);
   (RequestContext, MProvision "instance" details true);
   (RequestContext, MProvision "instance" details true);
   (RequestContext, MDeprovision "other" (mkDeprovisionDetails "plan-1" "service-1" false) true)].

Definition vault_start : state vault := mkState bench_heap [] (mkVault ∅ ∅ 3 false).

Definition vault_serve (s : state vault) (r : context * method) : state vault :=
  (@serve vault _ (RedisProvider_Provider bench_provider) bench_broker r.1 r.2 s).2.

Definition vault_state : state vault := foldl vault_serve vault_start vault_requests.
Definition vault_token : string :=
  default "" (lg_token <$> ac_group (GenerateReplicationGroupName "instance") (st_world vault_state)).

Lemma vault_served : served bench_provider "instance" bench_broker vault_start vault_state.
Proof.
  unfold vault_state, vault_requests. cbn [foldl].
  do 4 (eapply served_request; [|reflexivity|first [by left | right; by vm_compute]]).
  apply served_none.
Qed.

Lemma password_kept_witness :
  String.length vault_token = 32%nat ∧ valid_token vault_token = true ∧
  ac_secret (getAuthTokenPath bench_provider "instance") (st_world vault_state) = Some vault_token.
Proof.
  split; [by vm_compute|].
  destruct (password_kept bench_provider "instance" bench_broker vault_start vault_state vault_token true)
    as [Hv Hs]; [by vm_compute|apply vault_served|by vm_compute|]. by split; [|apply Hs].
Defined.

(** An account that loses the answers to creations of groups. *)
Definition losing_start : state vault := mkState bench_heap [] (mkVault ∅ ∅ 3 true).

Definition losing_params : Providers.ProvisionParameters :=
  provision_parameters (b_config bench_broker) bench_plan "instance"
    (mkProvisionDetails "service-1" "plan-1" "org" "space" "") zero_ProvisionParameters None (Some 0%nat).

Lemma lost_creation_forgets_password_witness :
  let run := RedisProvision.Provision bench_provider RequestContext "instance" losing_params losing_start in
  is_Some (ac_group (GenerateReplicationGroupName "instance") (st_world run.2)) ∧
  ac_secret (getAuthTokenPath bench_provider "instance") (st_world run.2) = None.
Proof.
  intros run. assert (is_Some (ac_group (GenerateReplicationGroupName "instance") (st_world run.2))) as Hg.
  { vm_compute. by eexists. }
  split; [done|]. assert (run = (Ret (Some refused), run.2)) as Hrun.
  { assert (run.1 = Ret (Some refused)) as <- by (vm_compute; reflexivity). apply surjective_pairing. }
  by apply (lost_creation_forgets_password bench_provider "instance" RequestContext losing_params
    losing_start run.2 refused).
Defined.

Lemma bind_password_correct_witness :
  let s := vault_state in
  ∃ c s', @Bind vault (RedisProvider_Provider bench_provider) bench_broker RequestContext "instance"
      "binding" (mkBindDetails "app" "plan-1" "service-1" "") false s = (Ret (Some c, None), s') ∧
    cr_Password c = vault_token ∧
    ∃ host port, cr_Host c = host ∧ cr_Port c = port ∧
      cr_URI c = "rediss://:" +:+ vault_token +:+ "@" +:+ url_escape EncodeHost (host +:+ ":" +:+ pretty port).
Proof.
  intros s.
  set (run := @Bind vault (RedisProvider_Provider bench_provider) bench_broker RequestContext "instance"
    "binding" (mkBindDetails "app" "plan-1" "service-1" "") false s).
  assert (∃ c, run.1 = Ret (Some c, None)) as [c Hc].
  { eexists. vm_compute. reflexivity. }
  exists c, run.2. split; [rewrite <-Hc; apply surjective_pairing|].
  apply (bind_password_correct bench_provider "instance" bench_broker RequestContext "binding"
    (mkBindDetails "app" "plan-1" "service-1" "") false vault_start s run.2 vault_token c).
  - by vm_compute.
  - apply vault_served.
  - by vm_compute.
  - rewrite <-Hc. apply surjective_pairing.
Defined.
