(* ===== verification/Interleaving.v ===== *)
(** * Requests at the same time

    The server handles requests concurrently: while a request about one instance
    is served, the calls of requests about other instances reach AWS in between.
    An interleaved world performs any such calls before each operation of the
    request that is followed; what it keeps for the instance is as lawful as
    what AWS keeps, errors that hide what took place included. *)
From S2P Require Import Prelude GoBase Sdk Providers Go Interfaces Footprint Bench Naming Random.
From S2P Require Import RedisBase RedisProvision RedisService Config Parameters Broker BenchBroker.
From S2P Require Import BrokerService Isolation Password.
Local Open Scope Z_scope.

(** ** The calls in between *)

(** A call that creates and deletes nothing of the instance. *)
Definition foreign_call (p : RedisProvider) (i : string) : Type :=
  {c : aws_call | spares p i c = true}.

(** The calls of a request about another instance. *)
Program Definition other_call (p : RedisProvider) (i j : string) (c : aws_call)
    (Hne : GenerateReplicationGroupName j ≠ GenerateReplicationGroupName i)
    (Hc : own_call p j c = true) : foreign_call p i := c.
Next Obligation. intros p i j c Hne Hc. by apply (other_spares p i j c). Defined.

Section interleaving.
Context {X : Type} `{RuntimeLaws X} `{ElastiCache X} `{SecretsManager X} `{Account X}.
Variables (p : RedisProvider) (i : string).
Abbreviation group := (GenerateReplicationGroupName i).
Abbreviation path := (getAuthTokenPath p i).

(** What a call does to the world; its answer goes to the other request. *)
Definition perform (x : X) (c : foreign_call p i) : X :=
  match `c with
  | AwsEc c => (ec_serve c x).2
  | AwsSm c => (sm_serve c x).2
  end.

(** A world with the calls to come: those before the next operation, those
    before the one after it, and so on. *)
Definition interleaved : Type := X * list (list (foreign_call p i)).

(** The others have their turn. *)
Definition meanwhile (w : interleaved) : interleaved :=
  (foldl perform w.1 (default [] (head w.2)), tail w.2).

(** An operation of the world, after their turn. *)
Definition after_turn {A} (f : X → A * X) (w : interleaved) : A * interleaved :=
  ((f (meanwhile w).1).1, ((f (meanwhile w).1).2, (meanwhile w).2)).

#[export] Instance interleaved_Runtime : Runtime interleaved := {
  rt_now := after_turn rt_now;
  rt_zone := rt_zone (X:=X);
  rt_rand n := after_turn (rt_rand n);
  rt_range ks := after_turn (rt_range ks);
  rt_sort := @rt_sort X _;
}.
#[export] Instance interleaved_ElastiCache : ElastiCache interleaved := λ c, after_turn (ec_serve c).
#[export] Instance interleaved_SecretsManager : SecretsManager interleaved :=
  λ c, after_turn (sm_serve c).
#[export] Instance interleaved_Account : Account interleaved := {
  ac_group name w := ac_group name w.1;
  ac_secret name w := ac_secret name w.1;
}.

#[export] Instance interleaved_RuntimeLaws : RuntimeLaws interleaved.
Proof.
  split.
  - intros ks w. apply (rt_range_perm (X:=X)).
  - intros n w v Hn Hv. exact (rt_rand_range n (meanwhile w).1 v Hn Hv).
  - intros A less l. apply (rt_sort_perm (X:=X)).
  - intros A less l. apply (rt_sort_sorted (X:=X)).
Qed.

Context `{!AccountLaws X group path}.

Lemma perform_keeps x c : kept p i (perform x c) = kept p i x.
Proof.
  destruct c as [c Hc]. destruct c as [c|c]; [by apply ec_keeps|by apply sm_keeps].
Qed.

Lemma meanwhile_keeps w : kept p i (meanwhile w).1 = kept p i w.1.
Proof.
  unfold meanwhile. cbn [fst]. generalize w.1. induction (default [] (head w.2)) as [|c l IH];
    intros x; [done|]. cbn [foldl]. by rewrite IH, perform_keeps.
Qed.

Lemma meanwhile_group w : ac_group group (meanwhile w).1 = ac_group group w.1.
Proof. exact (f_equal fst (meanwhile_keeps w)). Qed.

Lemma meanwhile_secret w : ac_secret path (meanwhile w).1 = ac_secret path w.1.
Proof. exact (f_equal snd (meanwhile_keeps w)). Qed.

(** The others cannot be told from time that passes. *)
#[export] Instance interleaved_AccountLaws : AccountLaws interleaved group path.
Proof.
  split.
  - intros c w. unfold ac_group, interleaved_Account. rewrite <-(meanwhile_group w).
    apply (ec_group_step (X:=X)).
  - intros c w. unfold ac_secret, interleaved_Account. rewrite <-(meanwhile_secret w).
    apply (ec_secret_same (X:=X)).
  - intros c w. unfold ac_secret, interleaved_Account. rewrite <-(meanwhile_secret w).
    apply (sm_secret_step (X:=X)).
  - intros c w. unfold ac_group, interleaved_Account. rewrite <-(meanwhile_group w).
    apply (sm_group_same (X:=X)).
  - intros w. unfold same_account, ac_group, ac_secret, interleaved_Account.
    rewrite <-(meanwhile_group w), <-(meanwhile_secret w). apply (now_same (X:=X)).
  - intros n w. unfold same_account, ac_group, ac_secret, interleaved_Account.
    rewrite <-(meanwhile_group w), <-(meanwhile_secret w). apply (rand_same (X:=X)).
  - intros ks w. unfold same_account, ac_group, ac_secret, interleaved_Account.
    rewrite <-(meanwhile_group w), <-(meanwhile_secret w). apply (range_same (X:=X)).
Qed.
End interleaving.

(** ** A request of another instance, in between *)

Lemma other_apart : GenerateReplicationGroupName "other" ≠ GenerateReplicationGroupName "instance".
Proof. by vm_compute. Qed.

(** A call of the provisioning of the other instance. *)
Definition of_other (c : aws_call) (Hc : own_call bench_provider "other" c = true) :
    foreign_call bench_provider "instance" :=
  other_call bench_provider "instance" "other" c other_apart Hc.

Definition other_secret : foreign_call bench_provider "instance" :=
  of_other (AwsSm (CreateSecretWithContext RequestContext (mkCreateSecretInput
    (Some (getAuthTokenPath bench_provider "other")) (Some "another token") (Some "kms") [])))
    ltac:(vm_compute; reflexivity).

Definition other_deletion : foreign_call bench_provider "instance" :=
  of_other (AwsEc (DeleteReplicationGroupWithContext RequestContext
    (mkDeleteReplicationGroupInput (Some (GenerateReplicationGroupName "other")) None)))
    ltac:(vm_compute; reflexivity).

(** ** Properties *)

(** C10: concurrent requests about other instances do no harm: whatever calls of
    theirs reach AWS before each operation of the requests about this one, and
    whatever is refused, fails or panics, a group of the instance that is not being
    deleted has a valid token.  If its creation was not reported as failed, Secrets
    Manager keeps the same token, and credentials that [Broker.Bind] returns carry
    it.  A failed call may or may not have taken place. *)
Theorem password_kept_interleaved {X : Type} `{RuntimeLaws X} `{ElastiCache X} `{SecretsManager X}
    `{Account X} (p : RedisProvider) (i : string)
    `{!AccountLaws X (GenerateReplicationGroupName i) (getAuthTokenPath p i)} (b : Broker)
    (s0 s : state (interleaved p i)) (token : string) (confirmed : bool) :
  ac_group (GenerateReplicationGroupName i) (st_world s0) = None →
  served p i b s0 s →
  ac_group (GenerateReplicationGroupName i) (st_world s) = Some (Live token confirmed) →
  valid_token token = true ∧
  (confirmed = true →
    ac_secret (getAuthTokenPath p i) (st_world s) = Some token ∧
    ∀ ctx bindingID details a c s',
      @Bind _ (RedisProvider_Provider p) b ctx i bindingID details a s = (Ret (Some c, None), s') →
      cr_Password c = token).
Proof.
  intros Hnew Hs Ht. pose proof (served_entry_ok p i b s0 s Hnew Hs) as Hok.
  destruct (Hok (Live token confirmed) Ht) as [Hv Hsec]. split; [done|]. intros ->.
  split; [by apply Hsec|]. intros ctx bindingID details a c s' Hbind.
  pose proof (triple_Bind p i b token ctx bindingID details a s (conj Ht Hok)) as Hb.
  unfold Password.redis in Hb. rewrite Hbind in Hb. by destruct (Hb c eq_refl) as (host & port & ->).
Qed.

#[local] Existing Instances vault_Account vault_Runtime vault_RuntimeLaws vault_ElastiCache
  vault_SecretsManager vault_AccountLaws.

Abbreviation busy_vault := (@interleaved vault bench_provider "instance").

(** The other instance gets its secret and is deleted while this one is
    provisioned. *)
Definition busy_start : state busy_vault :=
  mkState bench_heap [] (mkVault ∅ ∅ 3 false, [[]; [other_secret]; [other_deletion; other_secret]]).

Definition busy_state : state busy_vault :=
  (@serve busy_vault _ (RedisProvider_Provider bench_provider) bench_broker RequestContext
    (MProvision "instance" (mkProvisionDetails "service-1" "plan-1" "org" "space" "") true)
    busy_start).2.

Definition busy_token : string :=
  default "" (lg_token <$> ac_group (GenerateReplicationGroupName "instance") (st_world busy_state)).

Lemma password_kept_interleaved_witness :
  ac_secret (getAuthTokenPath bench_provider "other") (st_world busy_state) = Some "another token" ∧
  ac_secret (getAuthTokenPath bench_provider "instance") (st_world busy_state) = Some busy_token ∧
  valid_token busy_token = true.
Proof.
  split; [by vm_compute|].
  destruct (password_kept_interleaved bench_provider "instance" bench_broker busy_start busy_state
    busy_token true) as (Hvalid & Hsecret);
    [by vm_compute| |by vm_compute|by split; [apply Hsecret|]].
  eapply served_request; [apply served_none|reflexivity|by left].
Defined.
