(* ===== verification/Concurrent.v ===== *)
(** * Simultaneous requests about the same instance

    The server runs every request in a goroutine of its own, and several copies
    of the broker can serve the same platform: nothing in the program stops two
    requests about one instance from running at the same time.  What keeps them
    apart is AWS: a secret is created only when its name is free.  Here the
    requests in flight are a list of what is left of their traces, AWS takes their
    calls one by one in any order, and any request may be cut off at any point.
    An error leaves open whether the call took place; the runs in which a group
    was created although its creation was reported as failed are told apart, since
    the clean-up of the request then removes the group's secret.

    The proof gives every request a mode, an abstract lock: the request that
    created the secret holds the name until its replication group is there or
    until it has removed the secret again, and the one that deleted the group
    holds it until it has removed the secret. *)
From S2P Require Import Prelude GoBase Sdk Providers Go Interfaces Footprint Bench Naming Random.
From S2P Require Import RedisBase RedisProvision RedisQuery RedisService.
From S2P Require Import Config Parameters Broker BenchBroker BrokerService Isolation Password.
Local Open Scope Z_scope.
Local Open Scope go_scope.

(** ** The mode of a request *)

Inductive mode :=
  | Idle                      (** holds nothing *)
  | Holding (token : string)  (** its secret is there, its group is not yet *)
  | Removing.                 (** is to remove the secret *)

#[export] Instance mode_eq_dec : EqDecision mode.
Proof. solve_decision. Defined.

Section mode.
Variables (p : RedisProvider) (i : string).
Abbreviation group := (GenerateReplicationGroupName i).
Abbreviation path := (getAuthTokenPath p i).

(** The next mode after a call with an answer; [None] when the call may not be
    made in this mode. *)
Definition next_ec (c : ec_call) (err : option error) (md : mode) : option mode :=
  match c with
  | CreateReplicationGroupWithContext _ input =>
      if is_name group (crg_ReplicationGroupId input) then
        match md with
        | Holding token =>
            if bool_decide (crg_AuthToken input = Some token)
            then Some (match err with None => Idle | Some _ => Removing end) else None
        | _ => None
        end
      else Some md
  | DeleteReplicationGroupWithContext _ input =>
      if is_name group (drg_ReplicationGroupId input) then
        match md with
        | Idle => Some (match err with None => Removing | Some _ => Idle end)
        | _ => None
        end
      else Some md
  | _ => Some md
  end.

Definition next_sm (c : sm_call) (err : option error) (md : mode) : option mode :=
  match c with
  | CreateSecretWithContext _ input =>
      if is_name path (cs_Name input) then
        match md, cs_SecretString input with
        | Idle, Some token =>
            if valid_token token
            then Some (match err with None => Holding token | Some _ => Idle end) else None
        | _, _ => None
        end
      else Some md
  | DeleteSecretWithContext _ input =>
      if is_name path (ds_SecretId input) then
        match md with Removing => Some Idle | _ => None end
      else Some md
  | _ => Some md
  end.

Definition next (e : event) (md : mode) : option mode :=
  match e with
  | EvElastiCache c r => next_ec c r.2 md
  | EvSecretsManager c r => next_sm c r.2 md
  | _ => Some md
  end.

Fixpoint follows (md : mode) (es : list event) : option mode :=
  match es with
  | [] => Some md
  | e :: es' => next e md ≫= λ md', follows md' es'
  end.

Lemma follows_app md es es' : follows md (es ++ es') = follows md es ≫= λ md', follows md' es'.
Proof.
  revert md. induction es as [|e es IH]; intros md; [done|]. simpl.
  destruct (next e md); [apply IH|done].
Qed.

(** A call that creates and deletes nothing of the instance changes no mode. *)
Lemma next_spares e md : within (spares p i) e → next e md = Some md.
Proof.
  unfold spares, touches. destruct e as [c r|c r| | | |]; try done; cbn.
  - destruct c; try done; cbn; rewrite ?orb_false_r, ?andb_true_r; by destruct (is_name _ _).
  - destruct c; try done; cbn; rewrite ?orb_false_r, ?andb_true_r; by destruct (is_name _ _).
Qed.

Lemma follows_spares es md : Forall (within (spares p i)) es → follows md es = Some md.
Proof.
  induction 1 as [|e es He _ IH]; [done|]. simpl. by rewrite next_spares.
Qed.
End mode.

(** ** The requests of the program *)

Section tracks.
Context {X : Type} `{RuntimeLaws X} `{ElastiCache X} `{SecretsManager X}.
Variables (p : RedisProvider) (i : string).
Abbreviation group := (GenerateReplicationGroupName i).
Abbreviation path := (getAuthTokenPath p i).

(** [tracks md m Q]: started in the mode [md], whatever AWS answers, [m] makes
    the calls that its modes allow; if it returns, then with [Q]. *)
Definition tracks {A} (md : mode) (m : M X A) (Q : A → mode → Prop) : Prop :=
  ∀ s, ∃ es md', st_trace (m s).2 = st_trace s ++ es ∧ follows p i md es = Some md' ∧
    match (m s).1 with Ret a => Q a md' | Panic _ => True end.

Lemma tracks_ret {A} md (a : A) (Q : A → mode → Prop) : Q a md → tracks md (ret a) Q.
Proof. intros HQ s. exists [], md. by rewrite app_nil_r. Qed.

Lemma tracks_bind {A B} md (m : M X A) (k : A → M X B) Q R :
  tracks md m Q → (∀ a md', Q a md' → tracks md' (k a) R) → tracks md (bind m k) R.
Proof.
  intros Hm Hk s. destruct (Hm s) as (es & md1 & Htr & Hf & HQ). unfold bind.
  destruct (m s) as [[a|q] s1]; simpl in *; [|by exists es, md1].
  destruct (Hk a md1 HQ s1) as (es' & md2 & Htr' & Hf' & HR).
  exists (es ++ es'), md2. rewrite Htr', Htr, app_assoc, follows_app, Hf. done.
Qed.

Lemma tracks_timeout {A} md ctx d (body : context → M X A) Q :
  tracks md (body (TimeoutContext ctx d)) Q → tracks md (with_timeout ctx d body) Q.
Proof.
  intros Hb s. destruct (Hb s) as (es & md' & Htr & Hf & HQ). unfold with_timeout.
  destruct (body (TimeoutContext ctx d) s) as [o s']. simpl in *.
  exists (es ++ [EvCancel (TimeoutContext ctx d)]), md'.
  by rewrite Htr, app_assoc, follows_app, Hf.
Qed.

Lemma tracks_built {A} md (m : M X A) : built (spares p i) m → tracks md m (λ _ md', md' = md).
Proof.
  intros Hm s. destruct (built_runs _ (st_maps s) m Hm s eq_refl) as (es & Htr & Hes).
  exists es, md. split; [done|]. split; [by apply follows_spares|]. by destruct (m s).1.
Qed.

Lemma tracks_quiet {A} md (m : M X A) : built (quiet_call p i) m → tracks md m (λ _ md', md' = md).
Proof. intros Hm. apply tracks_built. by eapply built_weaken; [apply quiet_spares|]. Qed.

(** A part that neither creates nor deletes, and the rest. *)
Lemma tracks_seq {A B} md (m : M X A) (k : A → M X B) Q :
  built (quiet_call p i) m → (∀ a, tracks md (k a) Q) → tracks md (bind m k) Q.
Proof. intros Hm Hk. eapply tracks_bind; [by apply tracks_quiet|]. by intros a md' ->. Qed.

Lemma tracks_sm md c (Q : _ → mode → Prop) :
  (∀ r, ∃ md', next_sm p i c r.2 md = Some md' ∧ Q r md') → tracks md (sm_do c) Q.
Proof.
  intros HQ s. destruct (HQ (sm_serve c (st_world s)).1) as (md' & Hn & Hq).
  exists [EvSecretsManager c (sm_serve c (st_world s)).1], md'.
  split; [done|]. simpl. by rewrite Hn.
Qed.

Lemma tracks_ec md c (Q : _ → mode → Prop) :
  (∀ r, ∃ md', next_ec i c r.2 md = Some md' ∧ Q r md') → tracks md (ec_do c) Q.
Proof.
  intros HQ s. destruct (HQ (ec_serve c (st_world s)).1) as (md' & Hn & Hq).
  exists [EvElastiCache c (ec_serve c (st_world s)).1], md'.
  split; [done|]. simpl. by rewrite Hn.
Qed.

(** [minds m]: from no lock to no lock. *)
Definition minds {A} (m : M X A) : Prop := tracks Idle m (λ _ md, md = Idle).

Lemma minds_quiet {A} (m : M X A) : built (quiet_call p i) m → minds m.
Proof. apply tracks_quiet. Qed.

Lemma minds_pv_do `{Provider X} c : minds (pv_serve c) → minds (pv_do c).
Proof.
  intros Hc. unfold pv_do. apply tracks_seq; [apply built_peek|]. intros maps.
  eapply tracks_bind; [exact Hc|]. intros r md ->. apply minds_quiet. footprint.
Qed.

Lemma tracks_token :
  tracks Idle GenerateAuthToken (λ token md, md = Idle ∧ valid_token token = true).
Proof.
  intros s. destruct (runs_GenerateAuthToken (X:=X) (st_maps s) s eq_refl) as (es & Htr & -> & _ & Ho).
  exists [], Idle. split; [done|]. split; [done|]. by destruct (GenerateAuthToken s).1.
Qed.

Lemma tracks_create_secret ctx token :
  valid_token token = true →
  tracks Idle (CreateAuthTokenSecret p ctx i token)
    (λ err md, md = match err with None => Holding token | Some _ => Idle end).
Proof.
  intros Hv. unfold CreateAuthTokenSecret. cbv zeta. set (input := mkCreateSecretInput _ _ _ _).
  eapply tracks_bind.
  - apply (tracks_sm Idle (CreateSecretWithContext ctx input)
      (λ r md, md = match r.2 with None => Holding token | Some _ => Idle end)).
    intros r. unfold next_sm, input. cbn [cs_Name cs_SecretString]. rewrite is_name_self, Hv. by eexists.
  - intros [[] err] md ->. by apply tracks_ret.
Qed.

Lemma tracks_create_group ctx token params tags :
  tracks (Holding token)
    (ec_do (CreateReplicationGroupWithContext ctx (replication_group_input group token params tags)))
    (λ r md, md = match r.2 with None => Idle | Some _ => Removing end).
Proof.
  set (input := replication_group_input group token params tags).
  apply (tracks_ec _ (CreateReplicationGroupWithContext ctx input)). intros r.
  unfold next_ec, input, replication_group_input. cbn [crg_ReplicationGroupId crg_AuthToken].
  rewrite is_name_self, bool_decide_true by done. by eexists.
Qed.

Lemma tracks_delete_group ctx input :
  drg_ReplicationGroupId input = Some group →
  tracks Idle (ec_do (DeleteReplicationGroupWithContext ctx input))
    (λ r md, md = match r.2 with None => Removing | Some _ => Idle end).
Proof.
  intros Hid. apply (tracks_ec _ (DeleteReplicationGroupWithContext ctx input)). intros r.
  unfold next_ec. rewrite Hid, is_name_self. by eexists.
Qed.

Lemma tracks_delete_secret ctx days :
  tracks Removing (DeleteAuthTokenSecret p ctx i days) (λ _ md, md = Idle).
Proof.
  unfold DeleteAuthTokenSecret. cbv zeta. set (input := mkDeleteSecretInput _ _). eapply tracks_bind.
  - apply (tracks_sm Removing (DeleteSecretWithContext ctx input) (λ _ md, md = Idle)). intros r.
    unfold next_sm, input. cbn [ds_SecretId]. rewrite is_name_self. by eexists.
  - intros [[] err] md ->. by apply tracks_ret.
Qed.

Lemma minds_redis_Provision ctx params : minds (RedisProvision.Provision p ctx i params).
Proof.
  unfold RedisProvision.Provision. cbv zeta. apply tracks_seq; [footprint|].
  intros [e|]; [apply minds_quiet; footprint|].
  eapply tracks_bind; [apply tracks_token|]. intros token md [-> Hv].
  eapply tracks_bind; [by apply tracks_create_secret|]. intros [e|] md ->; [apply minds_quiet; footprint|].
  apply tracks_seq; [footprint|]. intros entries. apply tracks_seq; [footprint|]. intros tags.
  eapply tracks_bind; [apply tracks_create_group|]. intros [[] [e|]] md ->; cbn [snd].
  2: { apply minds_quiet. footprint. }
  eapply tracks_bind with (Q := λ _ md, md = Idle); [|intros [] md ->; by apply tracks_ret].
  apply tracks_seq; [footprint|]. intros err. apply tracks_seq; [footprint|]. intros [].
  eapply tracks_bind; [apply tracks_delete_secret|]. intros err' md ->. apply minds_quiet. footprint.
Qed.

Lemma minds_redis_Deprovision ctx params : minds (RedisProvision.Deprovision p ctx i params).
Proof.
  unfold RedisProvision.Deprovision. cbv zeta.
  eapply tracks_bind; [by apply tracks_delete_group|]. intros [[] [e|]] md ->; cbn [snd].
  { by apply tracks_ret. }
  eapply tracks_bind; [apply tracks_delete_secret|]. intros [e|] md ->; by apply tracks_ret.
Qed.

#[local] Instance redis : Provider X := RedisProvider_Provider p.
Variable b : Broker.

Lemma minds_Provision ctx details a : minds (Broker.Provision b ctx i details a).
Proof.
  unfold Broker.Provision. cbv zeta. apply tracks_seq; [footprint|]. intros [].
  destruct a; cbn [negb]; [|apply minds_quiet; footprint].
  destruct (GetPlanConfig (b_config b) (pd_PlanID details)) as [plan [e|]]; [apply minds_quiet; footprint|].
  apply tracks_timeout. apply tracks_seq; [footprint|].
  intros [user [e|]]; [apply minds_quiet; footprint|].
  apply tracks_seq; [footprint|]. intros u. apply tracks_seq; [footprint|].
  intros [snapshot [e|]]; [apply minds_quiet; footprint|].
  apply tracks_seq; [footprint|]. intros params.
  eapply tracks_bind; [apply minds_pv_do, minds_redis_Provision|].
  intros err md ->. apply minds_quiet. footprint.
Qed.

Lemma minds_Deprovision ctx details a : minds (Broker.Deprovision b ctx i details a).
Proof.
  unfold Broker.Deprovision. cbv zeta. apply tracks_seq; [footprint|]. intros [].
  destruct a; cbn [negb]; [|apply minds_quiet; footprint].
  apply tracks_timeout. eapply tracks_bind; [apply minds_pv_do, minds_redis_Deprovision|].
  intros err md ->. apply minds_quiet. footprint.
Qed.

(** Every request, about this instance or about another one. *)
Lemma minds_serve ctx m j :
  method_instance m = Some j → j = i ∨ GenerateReplicationGroupName j ≠ group →
  minds (serve b ctx m).
Proof.
  intros Hm [->|Hne].
  - destruct (is_lifecycle_method m) eqn:Hl; [|by apply minds_quiet, built_serve_quiet].
    destruct m; try done; injection Hm as ->; [apply minds_Provision|apply minds_Deprovision].
  - apply tracks_built. eapply built_weaken; [|by apply built_serve]. intros c.
    by apply other_spares.
Qed.
End tracks.

(** ** The system *)

Section system.
Variables (p : RedisProvider) (i : string) (b : Broker).
Abbreviation group := (GenerateReplicationGroupName i).
Abbreviation path := (getAuthTokenPath p i).

(** A deletion is accepted only for a group that is there and not already being
    deleted. *)
Definition deletion_step (c : ec_call) (err : option error) (old : option live_group) : Prop :=
  match c with
  | DeleteReplicationGroupWithContext _ input =>
      drg_ReplicationGroupId input = Some group → err = None → is_Some old
  | _ => True
  end.

(** What a call with its answer does to the account. *)
Definition account_step (e : event) (old new : entry) : Prop :=
  match e with
  | EvElastiCache c r => group_step group c r.2 old.1 new.1 ∧ deletion_step c r.2 old.1 ∧ new.2 = old.2
  | EvSecretsManager c r => secret_step path c r old.2 new.2 ∧ new.1 = old.1
  | _ => new = old
  end.

(** A trace of a request: what some method of the broker, over the Redis provider,
    did in some world, with some maps on the heap.  The world stands for all that
    the request cannot see, the other requests among it. *)
Definition request (es : list event) : Prop :=
  ∃ (X : Type) (_ : Runtime X) (_ : RuntimeLaws X) (_ : ElastiCache X) (_ : SecretsManager X)
    (s : state X) (ctx : context) (m : method) (j : string),
    method_instance m = Some j ∧ (j = i ∨ GenerateReplicationGroupName j ≠ group) ∧
    st_trace (@serve X _ (RedisProvider_Provider p) b ctx m s).2 = st_trace s ++ es.

Definition has_unconfirmed (a : entry) : bool :=
  match a.1 with Some g => negb (lg_confirmed g) | None => false end.

(** The requests in flight, as what is left of their traces, and the account.  The
    flag says whether some creation of the group was reported as failed although
    it took place. *)
Inductive concurrent (a0 : entry) : bool → list (list event) → entry → Prop :=
  | concurrent_start : concurrent a0 false [] a0
  | concurrent_arrival lost ts a es :
      concurrent a0 lost ts a → request es → concurrent a0 lost (ts ++ [es]) a
  | concurrent_call lost ts a k e es a' :
      concurrent a0 lost ts a → ts !! k = Some (e :: es) → account_step e a a' →
      concurrent a0 (lost || has_unconfirmed a') (<[k := es]> ts) a'
  | concurrent_crash lost ts a k :
      concurrent a0 lost ts a → concurrent a0 lost (<[k := []]> ts) a
  | concurrent_gone lost ts a :
      (** groups may go away by themselves *)
      concurrent a0 lost ts a → concurrent a0 lost ts (None, a.2)
  | concurrent_late lost ts a token :
      (** a creation that was reported as failed takes place after all *)
      concurrent a0 lost ts a → a.1 = None → valid_token token = true →
      concurrent a0 true ts (Some (Live token false), a.2).

(** ** The lock *)

(** A group is confirmed and has its token in Secrets Manager. *)
Definition settled (a : entry) : Prop :=
  ∀ g, a.1 = Some g →
    lg_confirmed g = true ∧ valid_token (lg_token g) = true ∧ a.2 = Some (lg_token g).

Lemma no_group_settled a : a.1 = None → settled a.
Proof. intros Ha g Hg. congruence. Qed.

Definition busy_only (ms : list mode) (o : option nat) : Prop :=
  ∀ k md, ms !! k = Some md → md ≠ Idle → o = Some k.

(** At most one request is busy; it holds a secret that is there, and there is
    no group; when none is busy, a group has its token in Secrets Manager. *)
Record lock (ms : list mode) (a : entry) (o : option nat) : Prop := {
  lock_busy : busy_only ms o;
  lock_holding : ∀ k token, ms !! k = Some (Holding token) →
    a.2 = Some token ∧ valid_token token = true;
  lock_account : match o with None => settled a | Some _ => a.1 = None ∧ is_Some a.2 end;
}.

Lemma lock_settled ms a o : lock ms a o → settled a.
Proof. intros [_ _ Ha]. destruct o; [|done]. apply no_group_settled. by destruct Ha. Qed.

Lemma lock_same ms a o k md : lock ms a o → ms !! k = Some md → lock (<[k := md]> ms) a o.
Proof. intros Hl Hk. by rewrite list_insert_id. Qed.

(** A request becomes busy when none is. *)
Lemma lock_take ms a a' k md :
  lock ms a None → a'.1 = None → is_Some a'.2 →
  (∀ token, md = Holding token → a'.2 = Some token ∧ valid_token token = true) →
  lock (<[k := md]> ms) a' (Some k).
Proof.
  intros [Hb _ _] Ht Hs Hmd.
  assert (∀ j md', <[k := md]> ms !! j = Some md' → md' ≠ Idle → j = k ∧ md' = md) as Hin.
  { intros j md' [(-> & -> & _)|[Hne Hj]]%list_lookup_insert_Some Hidle; [done|].
    by specialize (Hb j md' Hj Hidle). }
  split; [|intros j token Hj; by destruct (Hin j _ Hj ltac:(done)) as [-> <-]; apply Hmd|done].
  intros j md' Hj Hidle. by destruct (Hin j md' Hj Hidle) as [-> _].
Qed.

(** The busy request goes on, or becomes idle. *)
Lemma lock_keep ms a k md md' o :
  lock ms a o → ms !! k = Some md → md ≠ Idle → (∀ token, md' ≠ Holding token) →
  lock (<[k := md']> ms) a o.
Proof.
  intros [Hb Hh Ha] Hk Hidle Hmd'. split; [| |done].
  - intros j md2 [(-> & -> & _)|[Hne Hj]]%list_lookup_insert_Some Hj2; [by eapply Hb|by eapply Hb].
  - intros j token [(-> & Heq & _)|[Hne Hj]]%list_lookup_insert_Some; [by destruct (Hmd' token)|].
    by eapply Hh.
Qed.

Lemma lock_release ms a a' k md o :
  lock ms a o → ms !! k = Some md → md ≠ Idle → settled a' →
  lock (<[k := Idle]> ms) a' None.
Proof.
  intros [Hb _ _] Hk Hidle Ha'.
  assert (∀ j md', <[k := Idle]> ms !! j = Some md' → md' = Idle) as Hin.
  { intros j md' [(-> & -> & _)|[Hne Hj]]%list_lookup_insert_Some; [done|].
    destruct (decide (md' = Idle)) as [|Hn]; [done|].
    pose proof (Hb k md Hk Hidle). pose proof (Hb j md' Hj Hn). congruence. }
  split; [|intros j token Hj; by apply Hin in Hj|done].
  intros j md' Hj Hn. by apply Hin in Hj.
Qed.

(** The account changes while nobody is busy, or the group goes away. *)
Lemma lock_update ms a a' o :
  lock ms a o → a'.1 = None → a'.2 = a.2 → lock ms a' o.
Proof.
  intros [Hb Hh Ha] Ht Hs. split; [done|by rewrite Hs|].
  destruct o; [|by apply no_group_settled]. by rewrite Hs; destruct Ha.
Qed.

Lemma lock_idle ms a a' : lock ms a None → settled a' → lock ms a' None.
Proof.
  intros [Hb Hh Ha] Ha'. split; [done| |done].
  intros k token Hk. by specialize (Hb k _ Hk ltac:(done)).
Qed.

(** The four calls that matter, made by request [k]. *)
Lemma stepped_create_secret ms a a' o k md md' ctx input r :
  lock ms a o → ms !! k = Some md →
  is_name path (cs_Name input) = true →
  next_sm p i (CreateSecretWithContext ctx input) r.2 md = Some md' →
  account_step (EvSecretsManager (CreateSecretWithContext ctx input) r) a a' →
  ∃ o', lock (<[k := md']> ms) a' o'.
Proof.
  destruct r as [out err]. intros Hlock Hk Hid Hnext [Hs Ht]. cbn in Hnext, Hs, Ht. rewrite Hid in Hnext, Hs.
  destruct md; [|done..]. destruct (cs_SecretString input) as [token|]; [|done].
  destruct (valid_token token) eqn:Hv; [|done]. injection Hnext as <-.
  destruct Hs as [[Hold Hnew]|[[e He] Hnew]].
  2: { exists o. cbn in He. rewrite He. replace a' with a by (destruct a, a'; simpl in *; congruence).
       by apply lock_same. }
  assert (o = None) as ->.
  { destruct o; [|done]. destruct (lock_account _ _ _ Hlock) as [_ [t Ht']]. congruence. }
  assert (a'.1 = None) as Ha'.
  { rewrite Ht. destruct a.1 as [g|] eqn:Ha; [|done].
    destruct (lock_settled _ _ _ Hlock g Ha) as (_ & _ & Ha2). congruence. }
  destruct err as [e|].
  - exists None. apply lock_same; [|done]. eapply lock_idle; [exact Hlock|]. by apply no_group_settled.
  - exists (Some k). eapply lock_take; [exact Hlock|done|by rewrite Hnew|]. by intros t [= <-].
Qed.

Lemma stepped_delete_secret ms a a' o k md md' ctx input r :
  lock ms a o → ms !! k = Some md →
  is_name path (ds_SecretId input) = true →
  next_sm p i (DeleteSecretWithContext ctx input) r.2 md = Some md' →
  account_step (EvSecretsManager (DeleteSecretWithContext ctx input) r) a a' →
  ∃ o', lock (<[k := md']> ms) a' o'.
Proof.
  destruct r as [out err]. intros Hlock Hk Hid Hnext [_ Ht]. cbn in Hnext. rewrite Hid in Hnext. destruct md; [done..|].
  injection Hnext as <-. exists None. eapply lock_release; [exact Hlock|exact Hk|done|].
  apply no_group_settled. rewrite Ht. pose proof (lock_busy _ _ _ Hlock k _ Hk ltac:(done)) as Ho.
  subst o. by destruct (lock_account _ _ _ Hlock).
Qed.

Lemma stepped_create_group ms a a' o k md md' ctx input r :
  lock ms a o → ms !! k = Some md →
  is_name group (crg_ReplicationGroupId input) = true →
  next_ec i (CreateReplicationGroupWithContext ctx input) r.2 md = Some md' →
  account_step (EvElastiCache (CreateReplicationGroupWithContext ctx input) r) a a' →
  has_unconfirmed a' = false →
  ∃ o', lock (<[k := md']> ms) a' o'.
Proof.
  destruct r as [out err]. intros Hlock Hk Hid Hnext (Ht & _ & Hs) Hu. cbn in Hnext, Ht. rewrite Hid in Hnext, Ht.
  destruct md as [|token|]; [done| |done].
  case_bool_decide as Htok; [|done]. injection Hnext as <-.
  destruct (lock_holding _ _ _ Hlock k token Hk) as [Hsec Hv].
  destruct err as [e|].
  - exists o. destruct Ht as [Ht|[_ Hnew]].
    2: { unfold has_unconfirmed in Hu. by rewrite Hnew, Htok in Hu. }
    replace a' with a by (destruct a, a'; simpl in *; congruence).
    by eapply lock_keep; [exact Hlock|exact Hk|..].
  - exists None. eapply lock_release; [exact Hlock|exact Hk|done|].
    destruct Ht as [_ Hnew]. intros g Ha. rewrite Hs, Hsec. rewrite Hnew, Htok in Ha.
    by injection Ha as <-.
Qed.

Lemma stepped_delete_group ms a a' o k md md' ctx input r :
  lock ms a o → ms !! k = Some md →
  is_name group (drg_ReplicationGroupId input) = true →
  next_ec i (DeleteReplicationGroupWithContext ctx input) r.2 md = Some md' →
  account_step (EvElastiCache (DeleteReplicationGroupWithContext ctx input) r) a a' →
  ∃ o', lock (<[k := md']> ms) a' o'.
Proof.
  destruct r as [out err]. intros Hlock Hk Hid Hnext (Ht & Hd & Hs). cbn in Hnext, Ht, Hd. rewrite Hid in Hnext, Ht.
  apply is_name_spec in Hid. destruct md; [|done..]. injection Hnext as <-.
  destruct err as [e|].
  - exists o. apply lock_same; [|done]. destruct Ht as [Ht|[_ Ht]].
    + by eapply lock_update; [exact Hlock|..].
    + by replace a' with a by (destruct a, a'; simpl in *; congruence).
  - destruct (Hd Hid eq_refl) as [t Ha].
    assert (o = None) as ->.
    { destruct o; [|done]. destruct (lock_account _ _ _ Hlock). congruence. }
    destruct (lock_settled _ _ _ Hlock t Ha) as (_ & _ & Hsec).
    destruct Ht as [Ht|[[e He] _]]; [|done].
    exists (Some k). eapply lock_take; [exact Hlock|done|by rewrite Hs, Hsec|done].
Qed.
Lemma account_spares e a a' : within (spares p i) e → account_step e a a' → a' = a.
Proof.
  unfold spares, touches. destruct e as [c r|c r| | | |]; try done; cbn.
  - intros Hw (Ht & _ & Hs). destruct a, a'. simpl in *. subst. f_equal.
    destruct c; try done; cbn in Hw, Ht; revert Hw Ht; by destruct (is_name group _).
  - intros Hw [Hs Ht]. destruct a, a'. simpl in *. subst. f_equal.
    destruct c; cbn in Hw, Hs; [|by destruct Hs|]; revert Hw Hs; by destruct (is_name path _).
Qed.

Lemma lock_step ms a a' o k md md' e :
  lock ms a o → ms !! k = Some md → next p i e md = Some md' → account_step e a a' →
  has_unconfirmed a' = false →
  ∃ o', lock (<[k := md']> ms) a' o'.
Proof.
  intros Hl Hk Hn Ha Hu.
  assert (within (spares p i) e → ∃ o', lock (<[k := md']> ms) a' o') as Hspared.
  { intros Hw. rewrite (next_spares p i e md Hw) in Hn. injection Hn as <-.
    rewrite (account_spares e a a' Hw Ha). exists o. by apply lock_same. }
  destruct e as [c r|c r| | | |]; try by apply Hspared.
  - destruct c as [| ctx input | | ctx input| | | | | | |];
      try (apply Hspared; unfold within, spares; cbn; by rewrite ?andb_false_r).
    + destruct (is_name group (crg_ReplicationGroupId input)) eqn:Hid.
      * by eapply stepped_create_group.
      * replace md' with md by (cbn in Hn; rewrite Hid in Hn; congruence).
        exists o. apply lock_same; [|done].
        destruct Ha as (Ht & _ & Hs). cbn in Ht. rewrite Hid in Ht.
        by replace a' with a by (destruct a, a'; simpl in *; congruence).
    + destruct (is_name group (drg_ReplicationGroupId input)) eqn:Hid.
      * by eapply stepped_delete_group.
      * apply Hspared. unfold within, spares, touches. cbn. by rewrite Hid.
  - destruct c as [ctx input|ctx id|ctx input].
    + destruct (is_name path (cs_Name input)) eqn:Hid; [by eapply stepped_create_secret|].
      apply Hspared. unfold within, spares, touches. cbn. by rewrite Hid.
    + apply Hspared. unfold within, spares. cbn. by rewrite andb_false_r.
    + destruct (is_name path (ds_SecretId input)) eqn:Hid; [by eapply stepped_delete_secret|].
      apply Hspared. unfold within, spares, touches. cbn. by rewrite Hid.
Qed.
(** ** The invariant *)

Definition in_modes (ms : list mode) (ts : list (list event)) : Prop :=
  Forall2 (λ md es, is_Some (follows p i md es)) ms ts.

(** The tokens that are held and the token of the group are the broker's own. *)
Definition valid_mode (md : mode) : Prop :=
  match md with Holding token => valid_token token = true | _ => True end.
Definition valid_group (a : entry) : Prop :=
  ∀ g, a.1 = Some g → valid_token (lg_token g) = true.

Record system_ok (lost : bool) (ts : list (list event)) (a : entry) (ms : list mode) : Prop := {
  so_modes : in_modes ms ts;
  so_valid_modes : Forall valid_mode ms;
  so_valid_group : valid_group a;
  so_lock : lost = false → ∃ o, lock ms a o;
}.

Lemma no_group_valid a : a.1 = None → valid_group a.
Proof. intros Ha g Hg. congruence. Qed.

Lemma valid_mode_step e md md' : next p i e md = Some md' → valid_mode md → valid_mode md'.
Proof.
  destruct e as [c [out err]|c [out err]| | | |]; cbn; try by intros [= <-].
  - destruct c; cbn; try by intros [= <-].
    + destruct (is_name _ _); [|by intros [= <-]]. destruct md; try done.
      case_bool_decide; [|done]. by destruct err; intros [= <-].
    + destruct (is_name _ _); [|by intros [= <-]]. destruct md; try done. by destruct err; intros [= <-].
  - destruct c; cbn; try by intros [= <-].
    + destruct (is_name _ _); [|by intros [= <-]]. destruct md; try done.
      destruct (cs_SecretString _); [|done]. destruct (valid_token _) eqn:Hv; [|done].
      by destruct err; intros [= <-].
    + destruct (is_name _ _); [|by intros [= <-]]. destruct md; try done. by intros [= <-].
Qed.

Lemma valid_group_same (a a' : entry) : valid_group a → a'.1 = a.1 → valid_group a'.
Proof. intros Ha Heq g Hg. apply Ha. congruence. Qed.

Lemma valid_group_step e md md' a a' :
  next p i e md = Some md' → valid_mode md → account_step e a a' → valid_group a → valid_group a'.
Proof.
  destruct e as [c [out err]|c [out err]| | | |]; cbn; try by intros _ _ ->.
  2: { intros _ _ [_ Ht] Ha. by eapply valid_group_same. }
  intros Hn Hmd (Ht & _ & _) Ha.
  destruct c; cbn in Hn, Ht; try by eapply valid_group_same.
  - destruct (is_name _ _); [|by eapply valid_group_same]. destruct md as [|token|]; try done.
    case_bool_decide as Htok; [|done]. rewrite Htok in Ht.
    assert (a'.1 = a.1 ∨ ∃ ok, a'.1 = Some (Live token ok)) as [Heq|[ok Heq]].
    { destruct err; [destruct Ht as [Ht|[_ Ht]]; [by left|]|destruct Ht as [_ Ht]];
        right; rewrite Ht; by eexists. }
    + by eapply valid_group_same.
    + intros g Hg. rewrite Heq in Hg. by injection Hg as <-.
  - destruct (is_name _ _); [|by eapply valid_group_same].
    destruct Ht as [Ht|[_ Ht]]; [by apply no_group_valid|by eapply valid_group_same].
Qed.

Lemma lock_arrival ms a o : lock ms a o → lock (ms ++ [Idle]) a o.
Proof.
  intros [Hb Hh Ha].
  assert (∀ k md, (ms ++ [Idle]) !! k = Some md → md ≠ Idle → ms !! k = Some md) as Hin.
  { intros k md [Hk|[_ Hk]]%lookup_app_Some Hidle; [done|].
    by apply list_lookup_singleton_Some in Hk as [_ <-]. }
  split; [|intros k token Hk; by apply (Hh k), Hin|done].
  intros k md Hk Hidle. by eapply Hb; [apply Hin|].
Qed.

Lemma lock_crash ms a o k : lock ms a o → ∃ o', lock (<[k := Idle]> ms) a o'.
Proof.
  intros Hl. destruct (ms !! k) as [md|] eqn:Hk.
  2: { exists o. rewrite list_insert_ge; [done|by apply lookup_ge_None]. }
  destruct (decide (md = Idle)) as [->|Hidle].
  - exists o. by apply lock_same.
  - exists None. eapply lock_release; [exact Hl|exact Hk|done|]. by eapply lock_settled.
Qed.

Lemma request_follows es : request es → is_Some (follows p i Idle es).
Proof.
  intros (X & ? & ? & ? & ? & s & ctx & m & j & Hm & Hj & Htr).
  destruct (minds_serve p i b ctx m j Hm Hj s) as (es' & md & Htr' & Hf & _).
  unfold redis in Htr'. rewrite Htr in Htr'. apply app_inv_head in Htr' as ->. by exists md.
Qed.

Lemma system_ok_start a0 : a0.1 = None → system_ok false [] a0 [].
Proof.
  intros H0. split; [constructor|constructor|by apply no_group_valid|]. intros _. exists None.
  split; [by intros k md Hk|by intros k token Hk|]. by apply no_group_settled.
Qed.

Lemma system_ok_arrival lost ts a ms es :
  system_ok lost ts a ms → request es → system_ok lost (ts ++ [es]) a (ms ++ [Idle]).
Proof.
  intros [Hms Hv Hg Hl] Hreq. split; [| |done|].
  - apply Forall2_app; [done|]. constructor; [by apply request_follows|constructor].
  - apply Forall_app. by split; [|repeat constructor].
  - intros Hlost. destruct (Hl Hlost) as [o Ho]. exists o. by apply lock_arrival.
Qed.

Lemma system_ok_call lost ts a ms k e es a' :
  system_ok lost ts a ms → ts !! k = Some (e :: es) → account_step e a a' →
  ∃ md, system_ok (lost || has_unconfirmed a') (<[k := es]> ts) a' (<[k := md]> ms).
Proof.
  intros [Hms Hv Hg Hl] Hk Ha.
  destruct (Forall2_lookup_r _ _ _ _ _ Hms Hk) as (md & Hmd & [md2 Hf]). simpl in Hf.
  destruct (next p i e md) as [md1|] eqn:Hn; [|done]. exists md1.
  assert (valid_mode md) as Hvmd by by eapply Forall_lookup_1.
  split.
  - apply Forall2_insert; [done|]. by exists md2.
  - apply Forall_insert; [done|]. by eapply valid_mode_step.
  - by eapply valid_group_step.
  - intros [Hlost Hu]%orb_false_iff. destruct (Hl Hlost) as [o Ho].
    by apply (lock_step ms a a' o k md md1 e).
Qed.

Lemma system_ok_crash lost ts a ms k :
  system_ok lost ts a ms → system_ok lost (<[k := []]> ts) a (<[k := Idle]> ms).
Proof.
  intros [Hms Hv Hg Hl]. split; [| |done|].
  - apply Forall2_insert; [done|]. by exists Idle.
  - by apply Forall_insert.
  - intros Hlost. destruct (Hl Hlost) as [o Ho]. by apply (lock_crash ms a o).
Qed.

Lemma concurrent_ok a0 lost ts a :
  a0.1 = None → concurrent a0 lost ts a → ∃ ms, system_ok lost ts a ms.
Proof.
  intros H0. induction 1 as [|lost ts a es _ [ms Hok] Hreq|lost ts a k e es a' _ [ms Hok] Hk Ha
    |lost ts a k _ [ms Hok]|lost ts a _ [ms [Hms Hv Hg Hl]]|lost ts a token _ [ms [Hms Hv Hg Hl]] Ha Htok].
  - exists []. by apply system_ok_start.
  - exists (ms ++ [Idle]). by apply system_ok_arrival.
  - destruct (system_ok_call lost ts a ms k e es a' Hok Hk Ha) as [md Hmd]. by eexists.
  - exists (<[k := Idle]> ms). by apply system_ok_crash.
  - exists ms. split; [done|done|by apply no_group_valid|]. intros Hlost.
    destruct (Hl Hlost) as [o Ho]. exists o. by eapply lock_update.
  - exists ms. split; [done|done| |done]. by intros g [= <-].
Qed.

(** ** Requests one after the other

    The calls of a request in a lawful account are calls of the system. *)

Fixpoint account_run (es : list event) (a a' : entry) : Prop :=
  match es with
  | [] => a' = a
  | e :: es' => ∃ a1, account_step e a a1 ∧ account_run es' a1 a'
  end.

Lemma account_run_app es es' a a1 a' :
  account_run es a a1 → account_run es' a1 a' → account_run (es ++ es') a a'.
Proof.
  revert a. induction es as [|e es IH]; intros a; simpl; [by intros ->|].
  intros (a2 & He & Hes) Hes'. exists a2. split; [done|]. by apply IH.
Qed.

Lemma concurrent_run a0 lost ts es a a' :
  account_run es a a' → concurrent a0 lost (ts ++ [es]) a →
  ∃ lost', concurrent a0 lost' (ts ++ [[]]) a'.
Proof.
  revert lost a. induction es as [|e es IH]; intros lost a; [intros ->; by exists lost|].
  intros (a1 & He & Hes) Hc. apply (IH (lost || has_unconfirmed a1) a1 Hes).
  replace (ts ++ [es]) with (<[length ts := es]> (ts ++ [e :: es]))
    by by rewrite insert_app_r_alt, Nat.sub_diag.
  eapply concurrent_call; [exact Hc| |exact He].
  by rewrite lookup_app_r, Nat.sub_diag.
Qed.

Section lawful.
Context {X : Type} `{RuntimeLaws X} `{ElastiCache X} `{SecretsManager X} `{Account X}.
Context `{!AccountLaws X group path}.
Hypothesis deletion_law : ∀ c x, deletion_step c (ec_serve c x).1.2 (ac_group group x).
Abbreviation kept := (kept p i).

Definition logs {A} (m : M X A) : Prop := ∀ s, ∃ es,
  st_trace (m s).2 = st_trace s ++ es ∧
  account_run es (kept (st_world s)) (kept (st_world (m s).2)).

Lemma logs_silent {A} (m : M X A) :
  (∀ s, st_trace (m s).2 = st_trace s) → (∀ s, kept (st_world (m s).2) = kept (st_world s)) → logs m.
Proof. intros Htr Hk s. exists []. rewrite Htr, Hk, app_nil_r. done. Qed.

Lemma built_logs {A} K (m : M X A) : built K m → logs m.
Proof.
  induction 1 as [A a|A q|A B m k _ IHm _ IHk|A ctx d body _ IH|e He| |n|ks|m|r|r k v|refs|c Hc|c Hc].
  - by apply logs_silent.
  - by apply logs_silent.
  - intros s. destruct (IHm s) as (es & Htr & Hes). unfold bind.
    destruct (m s) as [[a|q] s1]; simpl in *; [|by exists es].
    destruct (IHk a s1) as (es' & Htr' & Hes'). exists (es ++ es').
    rewrite Htr', Htr, app_assoc. split; [done|]. by eapply account_run_app.
  - intros s. destruct (IH s) as (es & Htr & Hes). unfold with_timeout.
    destruct (body (TimeoutContext ctx d) s) as [o s']. simpl in *.
    exists (es ++ [EvCancel (TimeoutContext ctx d)]). rewrite Htr, app_assoc. split; [done|].
    eapply account_run_app; [exact Hes|]. by eexists.
  - intros s. exists [e]. split; [done|]. destruct e; try done; by eexists.
  - apply logs_silent; [done|]. intros s. apply same_kept, now_same.
  - apply logs_silent; [done|]. intros s. apply same_kept, rand_same.
  - apply logs_silent; [done|]. intros s. apply same_kept, range_same.
  - by apply logs_silent.
  - apply logs_silent; intros s; (destruct r as [l|]; [|done]); unfold read_map;
      by destruct (st_maps s !! l).
  - apply logs_silent; intros s; (destruct r as [l|]; [|done]); unfold write_map;
      by destruct (st_maps s !! l).
  - by apply logs_silent.
  - intros s. exists [EvElastiCache c (ec_serve c (st_world s)).1]. split; [done|].
    eexists. split; [|done]. split; [apply ec_group_step|]. split; [apply deletion_law|].
    apply ec_secret_same.
  - intros s. exists [EvSecretsManager c (sm_serve c (st_world s)).1]. split; [done|].
    eexists. split; [|done]. split; [apply sm_secret_step|apply sm_group_same].
Qed.

(** A request in a lawful account, from a state of the system. *)
Lemma lawful_concurrent a0 lost ts s ctx m j :
  method_instance m = Some j → j = i ∨ GenerateReplicationGroupName j ≠ group →
  concurrent a0 lost ts (kept (st_world s)) →
  ∃ lost', concurrent a0 lost' (ts ++ [[]])
    (kept (st_world (@serve X _ (RedisProvider_Provider p) b ctx m s).2)).
Proof.
  intros Hm Hj Hc. assert (built (own_call p j) (@serve X _ (RedisProvider_Provider p) b ctx m)) as Hb
    by by apply built_serve.
  destruct (built_logs _ _ Hb s) as (es & Htr & Hes). eapply concurrent_run; [exact Hes|].
  apply concurrent_arrival; [done|]. by exists X, _, _, _, _, s, ctx, m, j.
Qed.
End lawful.
End system.

(** ** Executions by a schedule *)

Section schedule.
Variables (p : RedisProvider) (i : string) (b : Broker).
Abbreviation group := (GenerateReplicationGroupName i).
Abbreviation path := (getAuthTokenPath p i).

(** The account after a call that AWS can answer like this. *)
Definition next_group (c : ec_call) (err : option error) (old : option live_group)
    : option (option live_group) :=
  match c with
  | CreateReplicationGroupWithContext _ input =>
      if is_name group (crg_ReplicationGroupId input) then
        match err, old with
        | None, None => Some ((λ t, Live t true) <$> crg_AuthToken input)
        | None, Some _ => None
        | Some _, _ => Some old
        end
      else Some old
  | DeleteReplicationGroupWithContext _ input =>
      if is_name group (drg_ReplicationGroupId input) then
        match err, old with
        | None, Some _ => Some None
        | None, None => None
        | Some _, _ => Some old
        end
      else Some old
  | _ => Some old
  end.

Definition next_secret (c : sm_call) (err : option error) (old : option string) : option (option string) :=
  match c with
  | CreateSecretWithContext _ input =>
      if is_name path (cs_Name input) then
        match err, old with
        | None, None => Some (cs_SecretString input)
        | None, Some _ => None
        | Some _, _ => Some old
        end
      else Some old
  | DeleteSecretWithContext _ input =>
      if is_name path (ds_SecretId input) then
        Some (match err with None => None | Some _ => old end)
      else Some old
  | GetSecretValueWithContext _ id => None
  end.

Definition account_next (e : event) (a : entry) : option entry :=
  match e with
  | EvElastiCache c r => (λ t, (t, a.2)) <$> next_group c r.2 a.1
  | EvSecretsManager c r => (λ t, (a.1, t)) <$> next_secret c r.2 a.2
  | _ => Some a
  end.

Lemma account_next_step e a a' : account_next e a = Some a' → account_step p i e a a'.
Proof.
  destruct a as [t s]. destruct e as [c r|c r| | | |]; cbn; try by intros [= <-].
  - intros (t' & Ht & ->)%fmap_Some. cbn.
    destruct c; destruct r as [out err]; cbn in Ht |- *; try by injection Ht as <-.
    + destruct (is_name group _); [|by injection Ht as <-].
      destruct err, t; try done; injection Ht as <-; (split; [by try left|done]).
    + destruct (is_name group _) eqn:Hid.
      * apply is_name_spec in Hid. destruct err as [e|], t as [t|]; try done; injection Ht as <-;
          (split; [try (right; split; [by eexists|done]); by left|]); (split; [|done]); by intros.
      * injection Ht as <-. split; [done|]. split; [|done]. intros Hid'.
        by rewrite Hid', is_name_self in Hid.
  - intros (s' & Hs & ->)%fmap_Some. cbn. destruct c as [ctx input|ctx id|ctx input]; cbn in Hs |- *; [|done|].
    + destruct r as [out err]. destruct (is_name path _); [|by injection Hs as <-].
      destruct err as [e|], s; try done; injection Hs as <-; (split; [|done]); cbn;
        [right; by split; [eexists|]..|by left].
    + destruct r as [out err]. destruct (is_name path _); [|by injection Hs as <-].
      destruct err as [e|]; injection Hs as <-; (split; [|done]); cbn; [right; by split; [eexists|]|by left].
Qed.

(** A call answered like this leaves no group that is not confirmed. *)
Lemma account_next_confirmed e a a' :
  account_next e a = Some a' → has_unconfirmed a = false → has_unconfirmed a' = false.
Proof.
  destruct a as [t s]. unfold has_unconfirmed.
  destruct e as [c [out err]|c [out err]| | | |]; cbn; try by intros [= <-].
  - intros (t' & Ht & ->)%fmap_Some. cbn.
    destruct c; cbn in Ht; try (by injection Ht as <-);
      (destruct (is_name _ _); [|by injection Ht as <-]);
      destruct err, t; try done; injection Ht as <-; try done.
    by destruct (crg_AuthToken _).
  - by intros (s' & _ & ->)%fmap_Some.
Qed.

(** Whose call comes next. *)
Fixpoint run_schedule (schedule : list nat) (ts : list (list event)) (a : entry)
    : option (list (list event) * entry) :=
  match schedule with
  | [] => Some (ts, a)
  | k :: schedule' =>
      match ts !! k with
      | Some (e :: es) => account_next e a ≫= run_schedule schedule' (<[k := es]> ts)
      | _ => None
      end
  end.

Lemma run_schedule_concurrent schedule a0 ts a ts' a' :
  run_schedule schedule ts a = Some (ts', a') → has_unconfirmed a = false →
  concurrent p i b a0 false ts a → concurrent p i b a0 false ts' a'.
Proof.
  revert ts a. induction schedule as [|k schedule IH]; intros ts a; simpl; [by intros [= <- <-]|].
  destruct (ts !! k) as [[|e es]|] eqn:Hk; try done.
  intros (a1 & He & Hrun)%bind_Some Hu Hc.
  pose proof (account_next_confirmed e a a1 He Hu) as Hu1.
  eapply IH; [exact Hrun|exact Hu1|]. rewrite <-Hu1. change (has_unconfirmed a1) with (false || has_unconfirmed a1).
  eapply concurrent_call; [exact Hc|exact Hk|by apply account_next_step].
Qed.
End schedule.

(** ** Properties *)

(** C9: simultaneous requests about one instance cannot cost it its password:
    however many requests about the instance and others are in flight, in whatever
    order AWS takes their calls, and wherever any of them is cut off, a group of
    the instance that is not being deleted has a valid token; and unless some
    creation of the group was reported as failed although it took place, Secrets
    Manager keeps the same token for its bindings.  A failed call may or may not
    have taken place.  What is asked of AWS is that it takes one call at a time,
    creates no group and no secret under a name that is taken, carries out what it
    does not refuse, and accepts to delete only a group that is there. *)
Theorem password_kept_concurrent (p : RedisProvider) (i : string) (b : Broker) (a0 a : entry)
    (lost : bool) (ts : list (list event)) (token : string) (confirmed : bool) :
  a0.1 = None → concurrent p i b a0 lost ts a → a.1 = Some (Live token confirmed) →
  valid_token token = true ∧ (lost = false → confirmed = true ∧ a.2 = Some token).
Proof.
  intros H0 Hc Ht. destruct (concurrent_ok p i b a0 lost ts a H0 Hc) as [ms [_ _ Hv Hl]].
  split; [by apply (Hv _ Ht)|]. intros Hlost. destruct (Hl Hlost) as [o Ho].
  by destruct (lock_settled ms a o Ho _ Ht) as (Hc' & _ & Hs).
Qed.

(** Two requests to create the instance; AWS refuses the second its secret. *)
Definition sm_taken (c : sm_call) : sm_out c * option error :=
  match c with
  | CreateSecretWithContext _ _ => ((), Some (AwsError "ResourceExistsException" "taken"))
  | c => sm_empty c
  end.

Definition two_worlds : list bench :=
  [mkBench 5 ec_empty sm_empty pv_empty; mkBench 11 ec_empty sm_taken pv_empty].

Definition trace_in (w : bench) (m : method) : list event :=
  st_trace (@serve bench _ (RedisProvider_Provider bench_provider) bench_broker RequestContext m
    (bench_start bench_heap w)).2.

Definition two_provisionings : list (list event) :=
  (λ w, trace_in w (MProvision "instance"
          (mkProvisionDetails "service-1" "plan-1" "org" "space" "") true)) <$> two_worlds.

Lemma bench_request w m j :
  method_instance m = Some j → j = "instance" →
  request bench_provider "instance" bench_broker (trace_in w m).
Proof.
  intros Hm Hj. exists bench, _, _, _, _, (bench_start bench_heap w), RequestContext, m, j.
  split; [done|]. split; [by left|done].
Qed.

(** Both have got as far as the secret; the first one gets it, the second one is
    refused and ends, the first one creates the group. *)
Definition two_schedule : list nat := [0; 1; 0; 1; 0; 1; 0; 1; 1; 0; 1]%nat.

Definition two_end : list (list event) * entry :=
  default ([], (None, None))
    (run_schedule bench_provider "instance" two_schedule two_provisionings (None, None)).

Lemma two_concurrent :
  concurrent bench_provider "instance" bench_broker (None, None) false two_end.1 two_end.2.
Proof.
  apply (run_schedule_concurrent bench_provider "instance" bench_broker two_schedule (None, None)
    two_provisionings (None, None)); [by vm_compute|done|].
  change two_provisionings with (([] ++ [default [] (head two_provisionings)]) ++
    [default [] (head (tail two_provisionings))]).
  do 2 (apply concurrent_arrival; [|by eapply bench_request]). apply concurrent_start.
Qed.

Lemma password_kept_concurrent_witness :
  ∃ token, two_end.2.1 = Some (Live token true) ∧ two_end.2.2 = Some token ∧ valid_token token = true.
Proof.
  exists (default "" (lg_token <$> two_end.2.1)). split; [by vm_compute|].
  destruct (password_kept_concurrent bench_provider "instance" bench_broker (None, None) two_end.2
    false two_end.1 (default "" (lg_token <$> two_end.2.1)) true) as [Hv Hs];
    [done|apply two_concurrent|by vm_compute|]. split; [by apply Hs|done].
Defined.
