(* ===== verification/FailoverCycle.v ===== *)
(** * A failover test from end to end

    The broker and the Redis provider together, against a cloud that carries
    out what it accepts: a failover test asked for with [Broker.Update] is
    completed by the polls of [Broker.LastOperation].  What AWS has to do for
    this are the hypotheses of the section; they concern a group of one primary
    and one replica. *)
From S2P Require Import Prelude GoBase Sdk Providers Go Interfaces Bench Naming Json Rfc3339.
From S2P Require Import RedisBase RedisProvision RedisQuery Progress RedisFailover RedisService.
From S2P Require Import Config Parameters Broker BenchBroker BrokerOperation.
Local Open Scope Z_scope.
Local Open Scope go_scope.

(** ** The cloud *)

(** What can be seen of the group: its nodes, whether high availability is on,
    and for how many more polls it is being modified. *)
Record cloud := mkCloud {
  cl_primary : string;
  cl_replica : string;
  cl_failover : bool;
  cl_busy : nat;
}.

(** A described group shows the state [c]. *)
Record shows (c : cloud) (rg : ReplicationGroup) : Prop := {
  shows_status : rg_Status rg =
    Some (if bool_decide (cl_busy c = 0%nat) then "available" else "modifying");
  shows_failover : rg_AutomaticFailover rg =
    Some (if cl_failover c then "enabled" else "disabled");
  shows_roles : roles_ok rg;
  shows_nodes : chosen_nodes rg = (cl_primary c, cl_replica c, None);
}.

(** A request AWS accepts while the group is available: only a replica can take
    over, and only with automatic failover switched off. *)
Definition acceptable (input : ModifyReplicationGroupInput) (c : cloud) : Prop :=
  cl_busy c = 0%nat ∧
  ∀ node, mrg_PrimaryClusterId input = Some node → node = cl_replica c ∧ cl_failover c = false.

(** The state after a request that takes [latency] polls. *)
Definition modified (latency : nat) (input : ModifyReplicationGroupInput) (c : cloud) : cloud :=
  let swap := bool_decide (mrg_PrimaryClusterId input ≠ None) in
  mkCloud (if swap then cl_replica c else cl_primary c) (if swap then cl_primary c else cl_replica c)
    (default (cl_failover c) (mrg_AutomaticFailoverEnabled input)) latency.

(** Time passes between two polls. *)
Definition tick (c : cloud) : cloud :=
  mkCloud (cl_primary c) (cl_replica c) (cl_failover c) (pred (cl_busy c)).

(** ** The nodes are found without a call *)

Lemma leaves_GetPrimary {X} rg : leaves_state (GetPrimaryAndReplicaCacheClusterIds (Some rg) : M X _).
Proof.
  apply leaves_bind; [apply leaves_deref|]. intros rg'. apply leaves_bind.
  - apply leaves_for_each. intros nodes g. apply leaves_bind; [apply leaves_deref|]. intros g'.
    apply leaves_for_each. intros [p r] m. apply leaves_bind; [apply leaves_deref|]. intros x.
    apply leaves_bind; [apply leaves_deref|]. intros role.
    repeat case_bool_decide; try done; (apply leaves_bind; [apply leaves_deref|done]).
  - intros [p r]. by repeat case_bool_decide.
Qed.

Section cycle.
Context {X : Type} `{RuntimeLaws X} `{ElastiCache X} `{SecretsManager X}.
Variables (view : X → cloud) (settle : X → X) (latency : nat) (instanceID : string).
Abbreviation id := (GenerateReplicationGroupName instanceID).

Hypothesis describes_group : ∀ ctx x, ∃ rg rest,
  (ec_serve (DescribeReplicationGroupsWithContext ctx (Some id)) x).1 = (Some (Some rg :: rest), None)
  ∧ shows (view x) rg.
Hypothesis describes_cluster : ∀ ctx node x,
  clusters_ok (ec_serve (DescribeCacheClustersWithContext ctx node) x).1.
Hypothesis describes_parameters : ∀ ctx group x,
  parameters_ok (ec_serve (DescribeCacheParametersWithContext ctx group) x).1.
Hypothesis describe_keeps : ∀ c x, is_describe c = true → view (ec_serve c x).2 = view x.
Hypothesis modify_accepted : ∀ ctx input x,
  mrg_ReplicationGroupId input = Some id → acceptable input (view x) →
  (ec_serve (ModifyReplicationGroupWithContext ctx input) x).1 = (tt, None) ∧
  view (ec_serve (ModifyReplicationGroupWithContext ctx input) x).2 = modified latency input (view x).
Hypothesis settles : ∀ x, view (settle x) = tick (view x).

Abbreviation ends := (ends view).
Abbreviation stays := (stays view).

(** ** Reading *)

Abbreviation message_stays := (stays_message view describe_keeps describes_cluster describes_parameters).
Abbreviation describe_stays := (stays_describe view describe_keeps).

Lemma stays_group s ctx :
  stays s (describeReplicationGroup ctx id) (λ r, ∃ rg, r = (Some rg, None) ∧
    shows (view (st_world s)) rg).
Proof.
  destruct (describes_group ctx (st_world s)) as (rg & rest & Hans & Hshows).
  unfold describeReplicationGroup. eapply stays_bind.
  - by apply (describe_stays s (DescribeReplicationGroupsWithContext ctx (Some id))
      (λ r, r = (Some (Some rg :: rest), None))).
  - intros r s' ->. cbn beta iota. apply stays_ret. by exists rg.
Qed.

(** The nodes are found as soon as the group is described. *)
Lemma stays_nodes s rg c :
  shows c rg →
  stays s (GetPrimaryAndReplicaCacheClusterIds (Some rg)) (λ r, r = (cl_primary c, cl_replica c, None)).
Proof.
  intros [_ _ Hroles Hnodes].
  destruct (runs_GetPrimaryAndReplica (X:=X) (st_maps s) rg s eq_refl) as (es & Htr & _ & Hmaps & Ho).
  pose proof (leaves_GetPrimary rg s) as Hs.
  destruct (GetPrimaryAndReplicaCacheClusterIds (Some rg) s) as [[r|q] s'] eqn:Hrun; simpl in *.
  - destruct Ho as [_ ->]. exists (chosen_nodes rg), s'. by subst.
  - by destruct Ho as [_ []].
Qed.

Lemma ends_modify {B} s ctx input (k : () * option error → M X B) Q c :
  mrg_ReplicationGroupId input = Some id → acceptable input (view (st_world s)) →
  (∀ s', view (st_world s') = modified latency input (view (st_world s)) →
     ends s' (k (tt, None)) Q c) →
  ends s (bind (ec_do (ModifyReplicationGroupWithContext ctx input)) k) Q c.
Proof.
  intros Hid Hacc Hk. destruct (modify_accepted ctx input _ Hid Hacc) as [Hr Hv].
  eapply (ends_bind view _ _ _ (λ r, r = (tt, None))); [|intros r s' -> Hs' _; by apply Hk].
  eexists _, _. split; [reflexivity|]. by rewrite Hr.
Qed.

(** ** The two operations of the provider *)

Lemma ends_start s ctx :
  cl_busy (view (st_world s)) = 0%nat →
  ends s (StartFailoverTest ctx instanceID) (λ r, r = (cl_primary (view (st_world s)), None))
    (mkCloud (cl_primary (view (st_world s))) (cl_replica (view (st_world s))) false latency).
Proof.
  intros Hb. unfold StartFailoverTest. cbv zeta.
  eapply ends_bind; [apply stays_group|]. intros r s1 (rg & -> & Hsh) Hv1 _. cbn beta iota.
  eapply ends_bind; [by eapply stays_nodes|]. intros r s2 -> Hv2 _. cbn beta iota.
  apply ends_emit. intros s3 Hv3 _. rewrite Hv1 in Hv2. rewrite <-Hv3 in Hv2.
  apply ends_modify; [done| |].
  - split; [congruence|]. by intros node [=].
  - intros s4 Hv4. cbn beta iota. apply ends_ret; [done|]. by rewrite Hv4, Hv2.
Qed.

(** What a poll of the test reports and does, on the state of the cloud. *)
Definition progressed (old : string) (c : cloud) : ServiceState * cloud :=
  if negb (bool_decide (cl_busy c = 0%nat)) then (Modifying, c)
  else if cl_failover c then (Available, c)
  else if bool_decide (cl_primary c = old) then
    (Modifying, mkCloud (cl_replica c) (cl_primary c) false latency)
  else (Modifying, mkCloud (cl_primary c) (cl_replica c) true latency).

Definition reports (state : ServiceState) (r : ServiceState * string * option error) : Prop :=
  ∃ message, r = (state, message, None).

Lemma ends_step s ctx old rg c :
  view (st_world s) = c → old ≠ "" → cl_busy c = 0%nat → cl_failover c = false →
  ends s (failover_step ctx instanceID old rg (cl_primary c) (cl_replica c))
    (reports (progressed old c).1) (progressed old c).2.
Proof.
  intros Hc Hold Hb Hf. unfold failover_step, progressed. rewrite Hf, Hb. cbv zeta.
  eapply ends_bind; [apply message_stays|]. intros message s1 _ Hv1 _. rewrite Hc in Hv1.
  rewrite (bool_decide_false (old = "")) by done. cbn [negb andb].
  case_bool_decide as Hp; apply ends_emit; intros s2 Hv2 _; rewrite <-Hv2 in Hv1;
    (apply ends_modify; [done| |]).
  - split; [congruence|]. intros node [= <-]. by rewrite Hv1.
  - intros s3 Hv3. cbn beta iota. apply ends_ret; [by eexists|]. rewrite Hv3, Hv1.
    unfold modified. simpl. by rewrite Hf.
  - split; [congruence|]. by intros node [=].
  - intros s3 Hv3. cbn beta iota. apply ends_ret; [by eexists|]. by rewrite Hv3, Hv1.
Qed.

Lemma ends_progress s ctx old c :
  view (st_world s) = c → old ≠ "" →
  ends s (ProgressState ctx instanceID ActionFailover old)
    (reports (progressed old c).1) (progressed old c).2.
Proof.
  intros Hc Hold. unfold ProgressState. cbv zeta.
  eapply ends_bind; [apply stays_group|]. intros r s1 (rg & -> & Hsh) Hv1 _. cbn beta iota.
  rewrite Hc in Hv1, Hsh. pose proof Hsh as [Hstatus Hfail _ _].
  assert (∀ s' status, view (st_world s') = c → ends s' (bind (getMessage ctx rg "")
    (λ message, ret (status, message, None))) (reports status) c) as Hreport.
  { intros s' status Hv'. eapply ends_bind; [apply message_stays|]. intros message s'' _ Hv'' _.
    apply ends_ret; [by eexists|congruence]. }
  apply (ends_bind view s1 (deref (Some rg)) _ (λ y, y = rg) _ c); [by apply ends_ret|].
  intros y s2 -> Hv2 _. rewrite Hstatus. unfold progressed.
  case_bool_decide as Hb; cbn [negb]; [|by apply Hreport].
  rewrite (bool_decide_true (ActionFailover = "failover")) by done. cbn [andb].
  rewrite bool_decide_true by done.
  eapply ends_bind; [by eapply stays_nodes|]. intros r s3 -> Hv3 _. cbn beta iota.
  rewrite Hfail. eapply (ends_bind view s3 (deref (Some _)) _ (λ y, y = _) _ c); [by apply ends_ret; [|congruence]|].
  intros y s4 -> Hv4 _. destruct (cl_failover c) eqn:Hf.
  - rewrite bool_decide_false by done. by apply Hreport.
  - rewrite bool_decide_true by done. pose proof (ends_step s4 ctx old rg c Hv4 Hold Hb Hf) as Hs.
    unfold progressed in Hs. by rewrite Hf, Hb in Hs.
Qed.

(** ** The cycle on the cloud alone *)

(** Polls until the group is available, time passing in between. *)
Fixpoint cycle (n : nat) (old : string) (c : cloud) : option cloud :=
  match n with
  | O => None
  | S n' =>
      let (state, c') := progressed old c in
      if bool_decide (state = Available) then Some c' else cycle n' old (tick c')
  end.

Lemma cycle_busy k n old c :
  cl_busy c = k →
  cycle (k + n) old c = cycle n old (mkCloud (cl_primary c) (cl_replica c) (cl_failover c) 0).
Proof.
  revert c. induction k as [|k IH]; intros [p r f busy] Hb; simpl in Hb; subst busy; [done|].
  rewrite Nat.add_succ_l. cbn [cycle]. unfold progressed at 1. rewrite bool_decide_false by done.
  cbn [negb]. rewrite bool_decide_false by done. rewrite IH; [done|]. by simpl.
Qed.

(** The number of polls a test takes. *)
Definition rounds : nat := (3 * pred latency + 3)%nat.

Lemma cycle_completes primary replica :
  primary ≠ replica →
  cycle rounds primary (tick (mkCloud primary replica false latency)) =
    Some (mkCloud replica primary true 0).
Proof.
  intros Hne. unfold rounds.
  replace (3 * pred latency + 3)%nat with
    (pred latency + S (pred latency + S (pred latency + 1)))%nat by lia.
  rewrite cycle_busy by done. cbn [cycle]. unfold progressed at 1. simpl.
  rewrite (bool_decide_true (primary = primary)) by done. cbn [fst snd].
  rewrite bool_decide_false by done. rewrite cycle_busy by done. cbn [cycle]. unfold progressed at 1.
  simpl. rewrite (bool_decide_false (replica = primary)) by done.
  rewrite bool_decide_false by done. rewrite cycle_busy by done. done.
Qed.

(** ** The broker on top *)

Variables (b : Broker) (p : RedisProvider) (ctx : context).
Variables (serviceID planID : string) (plan : PlanConfig) (planParameters : gmap string string).

Hypothesis runtime_keeps : ∀ x ks,
  view (rt_now x).2 = view x ∧ view (rt_range ks x).2 = view x.
(** The clock shows years of four digits. *)
Hypothesis time_ok : ∀ x,
  deadline_ok (rt_now x).1 (rt_zone ((rt_now x).1 + FailoverTimeout)).

#[local] Instance redis : Provider X := RedisProvider_Provider p.

Lemma ends_now s : ends s now (λ t, t = (rt_now (st_world s)).1) (view (st_world s)).
Proof.
  eexists _, _. split; [reflexivity|]. split; [done|]. split; [|done].
  by apply (runtime_keeps _ ∅).
Qed.

(** The time-out in the operation data can be read and has not passed when the
    clock is read in [x]. *)
Definition before_deadline (poll : PollDetails) (x : X) : Prop :=
  ∃ deadline, parse_rfc3339 (op_TimeOut (parse_operation poll).1) = Some deadline ∧
    (rt_now x).1 <= deadline.

Definition failover_poll (old : string) (t0 : Z) : PollDetails :=
  mkPollDetails serviceID planID
    (Operation_String (failover_operation old t0 (rt_zone (t0 + FailoverTimeout)))).

Definition answers (state : LastOperationState) (r : LastOperationResult * option error) : Prop :=
  ∃ message, r = (mkLastOperation state message, None).

Lemma progressed_state old c :
  (progressed old c).1 = Available ∨ (progressed old c).1 = Modifying.
Proof. unfold progressed. repeat case_match; auto. Qed.

Lemma ends_check s op deadline :
  parse_rfc3339 (op_TimeOut op) = Some deadline → (rt_now (st_world s)).1 <= deadline →
  stays s (check_timeout op instanceID) (λ r, r = None).
Proof.
  intros Hp Ht. unfold check_timeout. case_bool_decide as He; [by apply stays_ret|]. rewrite Hp.
  eapply ends_bind; [apply ends_now|]. intros t s' -> Hv _.
  rewrite (proj2 (Z.ltb_ge _ _)) by done. by apply ends_ret.
Qed.

Lemma ends_poll s old x0 c :
  view (st_world s) = c → old ≠ "" → utf8_valid old = true →
  before_deadline (failover_poll old (rt_now x0).1) (st_world s) →
  ends s (LastOperation b ctx instanceID (failover_poll old (rt_now x0).1))
    (answers (if bool_decide ((progressed old c).1 = Available) then Succeeded else InProgress))
    (progressed old c).2.
Proof.
  intros Hc Hold Hutf (deadline & Hdl & Ht). unfold LastOperation, failover_poll in *.
  apply ends_emit. intros s1 Hv1 _. rewrite <-Hv1 in Hc, Ht.
  set (op := failover_operation old _ _) in *.
  assert (parse_operation (mkPollDetails serviceID planID (Operation_String op)) = (op, None)) as Hparse.
  { apply parse_operation_string; [|done]. split; [done|]. split; [done|].
    apply string_forallb_utf8, format_rfc3339_ascii; apply time_ok. }
  rewrite Hparse in Hdl |- *. cbn [fst] in Hdl.
  eapply (ends_bind view s1 _ _ (λ r, r = None)); [by eapply ends_check|].
  intros r s2 -> Hv2 _. cbn beta iota. apply ends_timeout. rewrite Hc in Hv2.
  unfold poll_state. cbn [op op_Action op_PrimaryNode failover_operation].
  eapply ends_bind; [apply ends_pv; by apply (ends_progress s2 _ old c)|].
  intros r s3 [message ->] Hv3 _. cbn beta iota.
  destruct (progressed_state old c) as [Hst|Hst]; rewrite Hst in *.
  all: apply ends_ret; [by exists message|done].
Qed.

(** The polls of the platform, time passing in between, until the operation has
    succeeded. *)
Fixpoint polls (n : nat) (poll : PollDetails) (s : state X) : option (state X) :=
  match n with
  | O => None
  | S n' =>
      match LastOperation b ctx instanceID poll s with
      | (Ret (r, None), s') =>
          if bool_decide (lo_State r = Succeeded) then Some s'
          else polls n' poll (mkState (st_maps s') (st_trace s') (settle (st_world s')))
      | _ => None
      end
  end.

(** No poll of the run comes after the deadline. *)
Fixpoint timely (n : nat) (poll : PollDetails) (s : state X) : Prop :=
  match n with
  | O => True
  | S n' =>
      before_deadline poll (st_world s) ∧
      match LastOperation b ctx instanceID poll s with
      | (Ret (r, None), s') =>
          lo_State r = Succeeded ∨
          timely n' poll (mkState (st_maps s') (st_trace s') (settle (st_world s')))
      | _ => True
      end
  end.

Lemma polls_cycle n s old x0 c :
  old ≠ "" → utf8_valid old = true → timely n (failover_poll old (rt_now x0).1) s → cycle n old (view (st_world s)) = Some c →
  ∃ s', polls n (failover_poll old (rt_now x0).1) s = Some s' ∧ view (st_world s') = c.
Proof.
  intros Hold Hutf. revert s. induction n as [|n IH]; intros s Htime Hc; [done|].
  cbn [cycle polls timely] in *. destruct Htime as [Hd Htime].
  destruct (ends_poll s old x0 _ eq_refl Hold Hutf Hd) as (r & s' & Hrun & [message ->] & Hv & _).
  rewrite Hrun in Htime |- *. cbn [lo_State] in *. destruct (progressed old (view (st_world s))) as [state c'] eqn:Hp.
  cbn [fst snd] in *. case_bool_decide as Ha.
  - rewrite bool_decide_true by done. injection Hc as <-. by exists s'.
  - rewrite bool_decide_false by done. destruct Htime as [|Htime]; [done|].
    apply IH; [done|]. cbn [st_world]. by rewrite settles, Hv.
Qed.

(** The request: a document with the member [test_failover], set to true. *)
Definition failover_request : UpdateDetails :=
  mkUpdateDetails serviceID planID
    ("{" +:+ json_string "test_failover" +:+ ":true}")
    (mkPreviousValues planID serviceID "" "").

Lemma ends_parse s :
  stays s (update_user_parameters failover_request)
    (λ r, r = (Some (mkUpdateParameters None "" (Some true)), None)).
Proof.
  unfold update_user_parameters. cbn [failover_request ud_RawParameters].
  rewrite bool_decide_true by (vm_compute; lia).
  unfold parseUpdateParameters, unmarshalParameters.
  assert (unmarshal_keys ("{" +:+ json_string "test_failover" +:+ ":true}") =
    inl {[ "test_failover" ]}) as -> by (vm_compute; reflexivity).
  eapply stays_bind with (λ r, r = (mkUpdateParameters None "" (Some true), None));
    [|intros r s' ->; by apply stays_ret].
  eapply stays_bind with (λ ks, ks = ["test_failover"]).
  - eexists _, _. split; [reflexivity|]. split; [|split; [|done]].
    + apply Permutation_singleton_r. rewrite rt_range_perm. by rewrite elements_singleton.
    + by apply runtime_keeps.
  - intros ks s' ->. apply stays_ret. vm_compute. reflexivity.
Qed.

Hypothesis plan_known : cf_PlanConfigs (b_config b) !! planID = Some plan.
Hypothesis plan_available :
  pc_MultiAZEnabled plan = true ∧ pc_AutomaticFailoverEnabled plan = true ∧
  1 <= pc_ReplicasPerNodeGroup plan.
Hypothesis plan_not_clustered : planParameters !! "cluster-enabled" ≠ Some "yes".

Lemma ends_request s primary replica :
  deref_map (st_maps s) (pc_Parameters plan) = Some planParameters →
  view (st_world s) = mkCloud primary replica true 0 →
  ends s (Update b ctx instanceID failover_request true)
    (λ r, ∃ x, r = (mkUpdateServiceSpec true (poll_OperationData (failover_poll primary (rt_now x).1)), None))
    (mkCloud primary replica false latency).
Proof.
  intros Hmap Hc. destruct plan_available as (Hmulti & Hauto & Hreplicas).
  unfold Update. cbn [negb]. cbv zeta. apply ends_emit. intros s1 Hv1 Hm1.
  apply ends_timeout. cbn [failover_request ud_PlanID ud_ServiceID ud_PreviousValues pv_PlanID pv_ServiceID].
  rewrite (bool_decide_true (planID = planID)), (bool_decide_true (serviceID = serviceID)) by done.
  cbn [negb]. eapply ends_bind; [apply ends_parse|]. intros r s2 -> Hv2 Hm2. cbn beta iota.
  apply (ends_bind view s2 (deref _) _ (λ u, u = mkUpdateParameters None "" (Some true)) _ (view (st_world s2)));
    [by apply stays_ret|].
  intros u s3 -> Hv3 Hm3. change (checkIfNoUpdateParametersAreSet _) with false. cbn iota.
  cbn [upd_TestFailover]. unfold update_failover, GetPlanConfig. cbn [failover_request ud_PlanID].
  rewrite plan_known. rewrite <-Hm1, <-Hm2, <-Hm3 in Hmap.
  apply (ends_bind view s3 (read_map _) _ (λ m, m = planParameters) _ (view (st_world s3))).
  { eexists planParameters, s3. split; [|done].
    destruct (pc_Parameters plan) as [l|]; simpl in *; [by rewrite Hmap|by injection Hmap as ->]. }
  intros m s4 -> Hv4 _. rewrite (bool_decide_false (_ = Some "yes")) by done.
  rewrite Hmulti, Hauto. rewrite !bool_decide_false by done. cbn [orb].
  rewrite (proj2 (Z.ltb_ge _ _)) by lia. cbn [upd_MaxMemoryPolicy upd_PreferredMaintenanceWindow].
  rewrite !bool_decide_true by done. cbn [negb orb].
  assert (view (st_world s4) = mkCloud primary replica true 0) as Hc4 by congruence.
  pose proof (ends_start s4 (TimeoutContext ctx timeout_30s)) as Hstart. rewrite Hc4 in Hstart.
  eapply ends_bind; [apply ends_pv, Hstart; reflexivity|].
  intros r s5 -> Hv5 _. cbn beta iota.
  eapply ends_bind; [apply ends_now|]. intros t s6 -> Hv6 _.
  apply ends_ret; [by eexists|]. by rewrite Hv6, Hv5.
Qed.

(** ** Properties *)

(** C7: a failover test is completed: against a cloud that carries out the
    requests it accepts within [latency] polls, a failover test asked for with
    [Broker.Update], over the Redis provider, is accepted, and then at most
    [3 * (latency - 1) + 3] polls of [Broker.LastOperation] with the operation
    data of the request report success, provided none of them reads the clock
    after the deadline in the data; the replica is then the primary, the old
    primary the replica, and high availability is on again. *)
Theorem failover_completes (s : state X) (primary replica : string) :
  deref_map (st_maps s) (pc_Parameters plan) = Some planParameters →
  view (st_world s) = mkCloud primary replica true 0 →
  primary ≠ replica → primary ≠ "" → utf8_valid primary = true →
  ∃ data s1, Update b ctx instanceID failover_request true s =
      (Ret (mkUpdateServiceSpec true data, None), s1) ∧
    let poll := mkPollDetails serviceID planID data in
    let s1' := mkState (st_maps s1) (st_trace s1) (settle (st_world s1)) in
    (timely rounds poll s1' →
     ∃ s2, polls rounds poll s1' = Some s2 ∧ view (st_world s2) = mkCloud replica primary true 0).
Proof.
  intros Hmap Hc Hne Hold Hutf.
  destruct (ends_request s primary replica Hmap Hc) as (r & s1 & Hupd & [x ->] & Hv & _).
  eexists _, s1. split; [exact Hupd|]. intros poll s1' Htime.
  eapply polls_cycle; [done|done|exact Htime|]. subst s1'. cbn [st_world]. rewrite settles, Hv. by apply cycle_completes.
Qed.
End cycle.

(** ** A cloud that works

    Two nodes, two polls for every modification, a minute between two polls, and
    a clock that moves on by a second whenever it is read; it runs for a day. *)
Record small_world := mkSmall {
  sw_swapped : bool; sw_failover : bool; sw_busy : nat; sw_seconds : Z;
}.

Definition small_view (w : small_world) : cloud :=
  mkCloud (if sw_swapped w then "node-2" else "node-1") (if sw_swapped w then "node-1" else "node-2")
    (sw_failover w) (sw_busy w).

Definition small_later (seconds : Z) (w : small_world) : small_world :=
  mkSmall (sw_swapped w) (sw_failover w) (sw_busy w) (sw_seconds w + seconds).

Definition small_settle (w : small_world) : small_world :=
  small_later 60 (mkSmall (sw_swapped w) (sw_failover w) (pred (sw_busy w)) (sw_seconds w)).

#[local] Instance small_Runtime : Runtime small_world := {|
  rt_now w := ((1704110400 + sw_seconds w mod 86400) * time_Second, small_later 1 w);
  rt_zone _ := 0;
  rt_rand _ w := ((0, None), w);
  rt_range ks w := (elements ks, w);
  rt_sort := @bench_sort;
|}.

#[local] Instance small_RuntimeLaws : RuntimeLaws small_world.
Proof.
  split.
  - done.
  - intros n w v Hn [= <-]. lia.
  - intros A less l. apply sorting.merge_sort_Permutation.
  - intros A less l. apply bench_sort_sorted.
Qed.

Definition small_group (c : cloud) : ReplicationGroup :=
  mkReplicationGroup (Some "group")
    (Some (if bool_decide (cl_busy c = 0%nat) then "available" else "modifying"))
    [Some (cl_primary c); Some (cl_replica c)]
    [Some (mkNodeGroup [Some (mkNodeGroupMember (Some "primary") (Some (cl_primary c)));
                        Some (mkNodeGroupMember (Some "replica") (Some (cl_replica c)))] None)]
    (Some (if cl_failover c then "enabled" else "disabled")) None None.

Definition small_modified (input : ModifyReplicationGroupInput) (w : small_world) : small_world :=
  mkSmall (xorb (sw_swapped w) (bool_decide (mrg_PrimaryClusterId input ≠ None)))
    (default (sw_failover w) (mrg_AutomaticFailoverEnabled input)) 2 (sw_seconds w).

#[local] Instance small_ElastiCache : ElastiCache small_world := λ c w,
  match c return (ec_out c * option error) * small_world with
  | DescribeReplicationGroupsWithContext _ _ => ((Some [Some (small_group (small_view w))], None), w)
  | DescribeCacheClustersWithContext _ _ => ((Some [Some (mkCacheCluster None None)], None), w)
  | DescribeCacheParametersWithContext _ _ => ((Some [], None), w)
  | ModifyReplicationGroupWithContext _ input => ((tt, None), small_modified input w)
  | DescribeSnapshotsPagesWithContext _ => (([], None), w)
  | ListTagsForResourceWithContext _ _ => ((Some [], None), w)
  | _ => ((tt, None), w)
  end.

#[local] Instance small_SecretsManager : SecretsManager small_world := λ c w, (sm_empty c, w).

Lemma small_roles c : roles_ok (small_group c).
Proof.
  assert (∀ role id, member_ok (Some (mkNodeGroupMember (Some role) (Some id)))) as Hm.
  { intros role id. eexists _, role. split; [done|]. split; [done|]. intros _. by exists id. }
  unfold roles_ok. cbn. constructor; [|constructor]. eexists. split; [done|].
  cbn. by repeat (constructor; [apply Hm|]).
Qed.

Lemma small_shows w : shows (small_view w) (small_group (small_view w)).
Proof. split; [done|done|apply small_roles|]. by destruct w as [[] f n t]. Qed.

Lemma small_time w : deadline_ok (rt_now w).1 (rt_zone ((rt_now w).1 + FailoverTimeout)).
Proof.
  split; [|by vm_compute]. unfold local_date. apply date_of_days_year. unfold local_seconds.
  assert (((rt_now w).1 + FailoverTimeout) / ns_per_s = 1704113100 + sw_seconds w mod 86400) as ->.
  { rewrite <-(Z.div_mul (1704113100 + _) ns_per_s) by done. f_equal. cbn [rt_now small_Runtime fst].
    unfold FailoverTimeout, time_Minute, time_Second, ns_per_s. lia. }
  pose proof (Z.mod_pos_bound (sw_seconds w) 86400 ltac:(lia)). cbn [rt_zone small_Runtime].
  unfold unix_epoch_days. Z.to_euclidean_division_equations. lia.
Qed.

Definition small_start : state small_world := mkState bench_heap [] (mkSmall false true 0 0).

Lemma failover_completes_witness :
  ∃ data s1,
    @Update small_world _ (RedisProvider_Provider bench_provider) bench_broker RequestContext "instance"
      (failover_request "service-1" "plan-1") true small_start =
      (Ret (mkUpdateServiceSpec true data, None), s1) ∧
    ∃ s2, polls small_settle "instance" bench_broker bench_provider RequestContext (rounds 2)
        (mkPollDetails "service-1" "plan-1" data)
        (mkState (st_maps s1) (st_trace s1) (small_settle (st_world s1))) = Some s2 ∧
      small_view (st_world s2) = mkCloud "node-2" "node-1" true 0.
Proof.
  assert (∃ data s1,
    @Update small_world _ (RedisProvider_Provider bench_provider) bench_broker RequestContext "instance"
      (failover_request "service-1" "plan-1") true small_start =
      (Ret (mkUpdateServiceSpec true data, None), s1) ∧
    let poll := mkPollDetails "service-1" "plan-1" data in
    let s1' := mkState (st_maps s1) (st_trace s1) (small_settle (st_world s1)) in
    (timely small_settle "instance" bench_broker bench_provider RequestContext (rounds 2) poll s1' →
     ∃ s2, polls small_settle "instance" bench_broker bench_provider RequestContext (rounds 2)
         poll s1' = Some s2 ∧ small_view (st_world s2) = mkCloud "node-2" "node-1" true 0))
    as (data & s1 & Hupd & Hpolls).
  { apply (failover_completes small_view small_settle 2 "instance") with
      (plan := bench_plan) (planParameters := {[ "cluster-enabled" := "no" ]});
      first [apply small_time|try (vm_compute; done)].
    - intros ctx w. exists (small_group (small_view w)), []. split; [done|apply small_shows].
    - intros ctx node w. right. by exists [Some (mkCacheCluster None None)].
    - intros ctx group w. right. by exists [].
    - intros [] w; by intros.
    - intros ctx input [[] f n t] _ [_ Hnode]; (split; [done|]);
        unfold modified, small_view, small_modified; cbn; by case_bool_decide. }
  exists data, s1. split; [done|]. apply Hpolls. clear Hpolls. vm_compute in Hupd.
  injection Hupd as <- <-. vm_compute.
  by repeat (split; [eexists; split; [reflexivity|done]|right]).
Defined.
