(* ===== verification/Polling.v ===== *)
(** * Polls that only look

    A poll of [Broker.LastOperation], over the Redis provider, for an operation
    in which the code makes no step of its own: it reports the state of the
    replication group.  What AWS answers are the hypotheses of the section; the
    view of the world only has to say what the status of the group is. *)
From S2P Require Import Prelude GoBase Sdk Providers Go Interfaces Naming.
From S2P Require Import RedisBase RedisProvision RedisQuery Progress RedisFailover RedisService.
From S2P Require Import Config Parameters Broker.
Local Open Scope Z_scope.
Local Open Scope go_scope.

(** The description of a group with a status, or of a group that is not there. *)
Definition described (status : option string)
    (r : option (list (option ReplicationGroup)) * option error) : Prop :=
  match status with
  | None => ∃ text, r.2 = Some (AwsError ErrCodeReplicationGroupNotFoundFault text)
  | Some status => ∃ rg rest, r = (Some (Some rg :: rest), None) ∧ rg_Status rg = Some status
  end.

(** The group the code works with, or the error. *)
Definition found (status : option string) (r : option ReplicationGroup * option error) : Prop :=
  match status with
  | None => ∃ text, r = (None, Some (AwsError ErrCodeReplicationGroupNotFoundFault text))
  | Some status => ∃ rg, r = (Some rg, None) ∧ rg_Status rg = Some status
  end.

(** What a poll is told by the provider. *)
Definition told (status : option string) : ServiceState := default NonExisting status.

Section polling.
Context {X V : Type} `{Runtime X} `{ElastiCache X} `{SecretsManager X}.
Variables (view : X → V) (status : V → option string).
Variables (b : Broker) (p : RedisProvider) (ctx : context) (instanceID : string).
Abbreviation id := (GenerateReplicationGroupName instanceID).

Hypothesis describes_group : ∀ ctx x,
  described (status (view x)) (ec_serve (DescribeReplicationGroupsWithContext ctx (Some id)) x).1.
Hypothesis describes_cluster : ∀ ctx node x,
  clusters_ok (ec_serve (DescribeCacheClustersWithContext ctx node) x).1.
Hypothesis describes_parameters : ∀ ctx group x,
  parameters_ok (ec_serve (DescribeCacheParametersWithContext ctx group) x).1.
Hypothesis describe_keeps : ∀ c x, is_describe c = true → view (ec_serve c x).2 = view x.

#[local] Instance redis : Provider X := RedisProvider_Provider p.
Abbreviation ends := (ends view).
Abbreviation stays := (stays view).

Lemma stays_described s pctx :
  stays s (describeReplicationGroup pctx id) (found (status (view (st_world s)))).
Proof.
  unfold describeReplicationGroup. eapply stays_bind.
  - by apply (stays_describe view describe_keeps s (DescribeReplicationGroupsWithContext pctx (Some id))
      (described (status (view (st_world s))))).
  - intros [out err] s' Hd. destruct (status (view (st_world s))) as [st|]; cbn in Hd.
    + destruct Hd as (rg & rest & [= -> ->] & Hs). apply stays_ret. by exists rg.
    + destruct Hd as [text ->]. apply stays_ret. by exists text.
Qed.

Lemma stays_report s pctx rg (st : ServiceState) :
  stays s (let! message := getMessage pctx rg "" in ret (st, message, None : option error))
    (λ r, ∃ message, r = (st, message, None)).
Proof.
  eapply stays_bind; [apply (stays_message view describe_keeps describes_cluster describes_parameters)|].
  intros message s' _. apply stays_ret. by exists message.
Qed.

Lemma stays_ProgressState s pctx action node :
  action ≠ "failover" →
  stays s (ProgressState pctx instanceID action node)
    (λ r, ∃ message, r = (told (status (view (st_world s))), message, None)).
Proof.
  intros Ha. unfold ProgressState. cbv zeta. eapply stays_bind; [apply stays_described|].
  intros r s' Hr. destruct (status (view (st_world s))) as [st|]; cbn [found] in Hr.
  - destruct Hr as (rg & -> & Hs); cbn beta iota.
    (eapply stays_bind with (P := λ y, y = rg); [by apply stays_ret|]).
    intros y s1 ->. rewrite Hs, (bool_decide_false (action = "failover")) by done.
    rewrite andb_false_r. apply stays_report.
  - destruct Hr as [text ->]. cbn beta iota. cbn [has_aws_code]. rewrite bool_decide_true by done.
    apply stays_ret. by eexists.
Qed.

(** The rest of a poll, when there is a group. *)
Lemma stays_poll_state s pctx operation st :
  op_Action operation ≠ "failover" → status (view (st_world s)) = Some st → st ≠ NonExisting →
  stays s (poll_state pctx instanceID operation)
    (λ a, ∃ message, a = (mkLastOperation (ProviderStatesMapping st).1 message, None)).
Proof.
  intros Ha Hst Hne. unfold poll_state.
  eapply stays_bind; [by apply (ends_pv view s (PvProgressState _ _ _ _)), stays_ProgressState|].
  intros r s1 [message ->]. cbn beta iota. rewrite Hst. change (told (Some st)) with st.
  rewrite bool_decide_false by done. destruct (ProviderStatesMapping st) as [lo err].
  apply stays_bind with (λ _, True); [|intros; apply stays_ret; by exists message].
  destruct err; [|by apply stays_ret]. by eexists tt, _.
Qed.

(** A poll with the data of an operation without a deadline. *)
Lemma ends_LastOperation s poll operation P c :
  parse_operation poll = (operation, None) → op_TimeOut operation = "" →
  (∀ s', view (st_world s') = view (st_world s) →
     ends s' (poll_state (TimeoutContext ctx timeout_30s) instanceID operation) P c) →
  ends s (LastOperation b ctx instanceID poll) P c.
Proof.
  intros Hparse Htime Hpoll. unfold LastOperation. rewrite Hparse.
  apply ends_emit. intros s1 Hw1 _. unfold check_timeout. rewrite Htime, bool_decide_true by done.
  eapply (ends_bind view s1 _ _ (λ r, r = None) _ (view (st_world s))).
  { by apply ends_ret; [|rewrite Hw1]. }
  intros r s2 -> Hv2 _. cbn beta iota. by apply ends_timeout, Hpoll.
Qed.
End polling.
