(* ===== verification/DeprovisionCycle.v ===== *)
(** * A deprovisioning from end to end

    The broker and the Redis provider together, against a cloud that deletes
    what it is asked to: a deprovisioning asked for with [Broker.Deprovision] is
    completed by the polls of [Broker.LastOperation], the last of which removes
    the parameter group.  What AWS has to do for this are the hypotheses of the
    section. *)
From S2P Require Import Prelude GoBase Sdk Providers Go Interfaces Bench Naming Json.
From S2P Require Import RedisBase RedisProvision RedisQuery Progress RedisFailover RedisService.
From S2P Require Import Config Parameters Broker BenchBroker Polling.
Local Open Scope Z_scope.
Local Open Scope go_scope.

(** ** The cloud *)

(** A replication group that is there, that is being deleted for some more
    polls, or that is gone. *)
Inductive phase := Running | GoingAway (polls : nat) | Gone.

(** What is left of an instance: its group, its parameter group, its secret. *)
Record remains := mkRemains {
  re_group : phase;
  re_parameters : bool;
  re_secret : bool;
}.

(** The status of the group. *)
Definition status_of (r : remains) : option string :=
  match re_group r with
  | Running => Some "available"
  | GoingAway _ => Some Deleting
  | Gone => None
  end.

(** Time passes between two polls. *)
Definition tick (r : remains) : remains :=
  mkRemains
    match re_group r with
    | GoingAway (S n) => GoingAway n
    | GoingAway O => Gone
    | ph => ph
    end (re_parameters r) (re_secret r).

Section cycle.
Context {X : Type} `{Runtime X} `{ElastiCache X} `{SecretsManager X}.
Variables (view : X → remains) (settle : X → X) (latency : nat).
Variables (b : Broker) (p : RedisProvider) (ctx : context) (instanceID serviceID planID : string).
Abbreviation id := (GenerateReplicationGroupName instanceID).

Hypothesis describes_group : ∀ ctx x,
  described (status_of (view x)) (ec_serve (DescribeReplicationGroupsWithContext ctx (Some id)) x).1.
Hypothesis describes_cluster : ∀ ctx node x,
  clusters_ok (ec_serve (DescribeCacheClustersWithContext ctx node) x).1.
Hypothesis describes_parameters : ∀ ctx group x,
  parameters_ok (ec_serve (DescribeCacheParametersWithContext ctx group) x).1.
Hypothesis describe_keeps : ∀ c x, is_describe c = true → view (ec_serve c x).2 = view x.
(** A group that is there can be deleted, which takes [latency] polls. *)
Hypothesis group_deletable : ∀ ctx input x,
  drg_ReplicationGroupId input = Some id → re_group (view x) = Running →
  (ec_serve (DeleteReplicationGroupWithContext ctx input) x).1 = (tt, None) ∧
  view (ec_serve (DeleteReplicationGroupWithContext ctx input) x).2 =
    mkRemains (GoingAway latency) (re_parameters (view x)) (re_secret (view x)).
Hypothesis secret_deletable : ∀ ctx input x,
  ds_SecretId input = Some (getAuthTokenPath p instanceID) →
  (sm_serve (DeleteSecretWithContext ctx input) x).1 = (tt, None) ∧
  view (sm_serve (DeleteSecretWithContext ctx input) x).2 =
    mkRemains (re_group (view x)) (re_parameters (view x)) false.
(** A parameter group can be deleted once no group uses it; it may be gone. *)
Hypothesis parameters_deletable : ∀ ctx x,
  re_group (view x) = Gone →
  ignore_not_found (ec_serve (DeleteCacheParameterGroupWithContext ctx (Some id)) x).1.2 = None ∧
  view (ec_serve (DeleteCacheParameterGroupWithContext ctx (Some id)) x).2 =
    mkRemains Gone false (re_secret (view x)).
Hypothesis settles : ∀ x, view (settle x) = tick (view x).

#[local] Instance redis : Provider X := RedisProvider_Provider p.
Abbreviation ends := (ends view).
Abbreviation stays := (stays view).

(** ** The operations of the provider *)

Lemma ends_redis_Deprovision s pctx params parameters secret :
  view (st_world s) = mkRemains Running parameters secret →
  ends s (RedisProvision.Deprovision p pctx instanceID params) (λ r, r = None)
    (mkRemains (GoingAway latency) parameters false).
Proof.
  intros Hv. unfold RedisProvision.Deprovision, DeleteAuthTokenSecret. cbv zeta.
  set (input := mkDeleteReplicationGroupInput _ _).
  destruct (group_deletable pctx input (st_world s)) as [Hr Hv']; [done|by rewrite Hv|].
  apply (ends_ec_bind view s (DeleteReplicationGroupWithContext pctx input) _ _ _ _ _ Hr Hv').
  intros s1 Hv1. rewrite Hv in Hv1. cbn beta iota.
  set (input' := mkDeleteSecretInput _ _).
  destruct (secret_deletable pctx input' (st_world s1)) as [Hr1 Hv1']; [done|].
  eapply (ends_bind view s1 _ _ (λ r, r = None)).
  - apply (ends_sm_bind view s1 (DeleteSecretWithContext pctx input') _ _ _ _ _ Hr1 Hv1').
    intros s2 Hv2. by apply ends_ret.
  - intros r s2 -> Hv2 _. apply ends_ret; [done|]. by rewrite Hv2, Hv1.
Qed.

Lemma ends_DeleteCacheParameterGroup s pctx parameters secret :
  view (st_world s) = mkRemains Gone parameters secret →
  ends s (DeleteCacheParameterGroup pctx instanceID) (λ r, r = None) (mkRemains Gone false secret).
Proof.
  intros Hv. unfold DeleteCacheParameterGroup. cbv zeta.
  destruct (parameters_deletable pctx (st_world s)) as [Hr Hv']; [by rewrite Hv|].
  set (call := DeleteCacheParameterGroupWithContext pctx (Some id)) in *.
  apply (ends_ec_bind view s call _ _ _ _ _ eq_refl Hv'). intros s' Hv1. rewrite Hv in Hv1.
  destruct (ec_serve call (st_world s)).1 as [[] [e|]]; cbn beta iota; [|by apply ends_ret].
  unfold ignore_not_found in Hr. cbn [snd] in Hr.
  destruct (has_aws_code _ e); [by apply ends_ret|done].
Qed.

(** ** The broker on top *)

Definition deprovision_poll : PollDetails :=
  mkPollDetails serviceID planID (Operation_String (mkOperation ActionDeprovisioning "" "")).

(** What a poll answers, and what it leaves. *)
Definition poll_answer (r : remains) (a : LastOperationResult * option error) : Prop :=
  match re_group r with
  | Running => ∃ message, a = (mkLastOperation Succeeded message, None)
  | GoingAway _ => ∃ message, a = (mkLastOperation InProgress message, None)
  | Gone => a = (zero_LastOperation, Some ErrInstanceDoesNotExist)
  end.

Definition poll_leaves (r : remains) : remains :=
  match re_group r with Gone => mkRemains Gone false (re_secret r) | _ => r end.

Lemma stays_progress s pctx :
  stays s (ProgressState pctx instanceID ActionDeprovisioning "")
    (λ r, ∃ message, r = (told (status_of (view (st_world s))), message, None)).
Proof. by eapply stays_ProgressState. Qed.

Lemma ends_last_operation s :
  ends s (LastOperation b ctx instanceID deprovision_poll)
    (poll_answer (view (st_world s))) (poll_leaves (view (st_world s))).
Proof.
  eapply (ends_LastOperation view _ p); [by vm_compute|done|]. intros s1 <-. unfold poll_leaves.
  destruct (re_group (view (st_world s1))) as [|n|] eqn:Hw.
  3: { unfold poll_state. eapply ends_bind; [apply (ends_pv view s1 (PvProgressState _ _ _ _)), stays_progress|].
       intros r s2 [message ->] Hv _. cbn beta iota. unfold status_of. rewrite Hw.
       rewrite !bool_decide_true by done. eapply (ends_bind view s2 _ _ (λ r, r = None)).
       { apply (ends_pv view s2 (PvDeleteCacheParameterGroup _ instanceID) (λ r, r = None)).
         eapply (ends_DeleteCacheParameterGroup s2 _ (re_parameters (view (st_world s1)))
           (re_secret (view (st_world s1)))).
         rewrite Hv, <-Hw. by destruct (view (st_world s1)). }
       intros r s3 -> Hv3 _. cbn beta iota. apply ends_ret; [|exact Hv3]. unfold poll_answer. by rewrite Hw. }
  all: destruct (stays_poll_state view status_of p instanceID describes_group describes_cluster
         describes_parameters describe_keeps s1 (TimeoutContext ctx timeout_30s)
         (mkOperation ActionDeprovisioning "" "")
         (told (status_of (view (st_world s1))))) as (a & s2 & Hrun & Ha & Hv);
    unfold status_of, told; rewrite ?Hw; try done;
    exists a, s2; split; [exact Hrun|]; split; [|exact Hv]; unfold poll_answer; rewrite Hw;
    unfold status_of, told in Ha; rewrite Hw in Ha; exact Ha.
Qed.

(** The polls of the platform, as long as the operation is in progress: the
    state they end in, when the instance is reported gone. *)
Fixpoint polls (n : nat) (s : state X) : option (state X) :=
  match n with
  | O => None
  | S n' =>
      match LastOperation b ctx instanceID deprovision_poll s with
      | (Ret (r, None), s') =>
          if bool_decide (lo_State r = InProgress)
          then polls n' (mkState (st_maps s') (st_trace s') (settle (st_world s')))
          else None
      | (Ret (_, Some e), s') => if bool_decide (e = ErrInstanceDoesNotExist) then Some s' else None
      | _ => None
      end
  end.

Lemma polls_in_progress n s s' message :
  LastOperation b ctx instanceID deprovision_poll s =
    (Ret (mkLastOperation InProgress message, None), s') →
  polls (S n) s = polls n (mkState (st_maps s') (st_trace s') (settle (st_world s'))).
Proof. intros Hrun. cbn [polls]. by rewrite Hrun. Qed.

Lemma polls_gone s parameters secret :
  view (st_world s) = mkRemains Gone parameters secret →
  ∃ s', polls 1 s = Some s' ∧ view (st_world s') = mkRemains Gone false secret.
Proof.
  intros Hv. destruct (ends_last_operation s) as (a & s' & Hrun & Ha & Hv' & _).
  rewrite Hv in Ha, Hv'. cbn in Ha. subst a. exists s'. cbn [polls]. by rewrite Hrun.
Qed.

Lemma polls_going n s parameters secret :
  view (st_world s) = mkRemains (GoingAway n) parameters secret →
  ∃ s', polls (S (S n)) s = Some s' ∧ view (st_world s') = mkRemains Gone false secret.
Proof.
  revert s. induction n as [|n IH]; intros s Hv;
    destruct (ends_last_operation s) as (a & s' & Hrun & Ha & Hv' & _); rewrite Hv in Ha, Hv';
    destruct Ha as [message ->]; rewrite (polls_in_progress _ _ _ _ Hrun).
  - apply polls_gone with parameters. cbn [st_world]. by rewrite settles, Hv'.
  - apply IH. cbn [st_world]. by rewrite settles, Hv'.
Qed.

Lemma ends_broker_Deprovision s details parameters secret :
  view (st_world s) = mkRemains Running parameters secret →
  ends s (Broker.Deprovision b ctx instanceID details true)
    (λ r, r = (mkDeprovisionServiceSpec true (poll_OperationData deprovision_poll), None))
    (mkRemains (GoingAway latency) parameters false).
Proof.
  intros Hv. unfold Broker.Deprovision. cbn [negb]. cbv zeta. apply ends_emit. intros s1 Hv1 _.
  apply ends_timeout. eapply ends_bind.
  { apply ends_pv, ends_redis_Deprovision with (secret := secret). by rewrite Hv1. }
  intros r s2 -> Hv2 _. cbn beta iota. apply ends_emit. intros s3 Hv3 _.
  apply ends_ret; [done|by rewrite Hv3].
Qed.

(** ** Properties *)

(** C12: a deprovisioning is completed, and the polls for it come to an end:
    against a cloud that deletes what it is asked to within [latency] polls,
    [Broker.Deprovision], over the Redis provider, accepts to remove a running
    instance; then at most [latency + 1] polls of [Broker.LastOperation] with the
    operation data of the answer report the operation in progress, until one
    reports the instance gone; its group, its parameter group and its secret no
    longer exist then. *)
Theorem deprovision_completes (s : state X) (details : DeprovisionDetails) (parameters secret : bool) :
  view (st_world s) = mkRemains Running parameters secret →
  ∃ s1, Broker.Deprovision b ctx instanceID details true s =
      (Ret (mkDeprovisionServiceSpec true (poll_OperationData deprovision_poll), None), s1) ∧
    ∃ s2, polls (S latency) (mkState (st_maps s1) (st_trace s1) (settle (st_world s1))) = Some s2 ∧
      view (st_world s2) = mkRemains Gone false false.
Proof.
  intros Hv. destruct (ends_broker_Deprovision s details parameters secret Hv) as (r & s1 & Hrun & -> & Hv1 & _).
  exists s1. split; [exact Hrun|].
  destruct latency as [|n].
  - apply polls_gone with parameters. cbn [st_world]. by rewrite settles, Hv1.
  - apply polls_going with parameters. cbn [st_world]. by rewrite settles, Hv1.
Qed.
End cycle.

(** ** A cloud that works *)

#[local] Instance small_ElastiCache : ElastiCache remains := λ c r,
  match c return (ec_out c * option error) * remains with
  | DescribeReplicationGroupsWithContext _ _ =>
      (match status_of r with
       | None => (None, Some (AwsError ErrCodeReplicationGroupNotFoundFault "not found"))
       | st => (Some [Some (mkReplicationGroup (Some "group") st [] [] None None None)], None)
       end, r)
  | DescribeCacheClustersWithContext _ _ => ((Some [], None), r)
  | DescribeCacheParametersWithContext _ _ => ((Some [], None), r)
  | DescribeSnapshotsPagesWithContext _ => (([], None), r)
  | ListTagsForResourceWithContext _ _ => ((Some [], None), r)
  | DeleteReplicationGroupWithContext _ _ =>
      ((tt, None), mkRemains (GoingAway 2) (re_parameters r) (re_secret r))
  | DeleteCacheParameterGroupWithContext _ _ =>
      ((tt, None), mkRemains (re_group r) false (re_secret r))
  | _ => ((tt, None), r)
  end.

#[local] Instance small_SecretsManager : SecretsManager remains := λ c r,
  (sm_empty c, match c with
               | DeleteSecretWithContext _ _ => mkRemains (re_group r) (re_parameters r) false
               | _ => r
               end).

#[local] Instance small_Runtime : Runtime remains := still_Runtime.

Lemma deprovision_completes_witness :
  let start := mkState bench_heap [] (mkRemains Running true true) in
  let poll := deprovision_poll "service-1" "plan-1" in
  ∃ s1, @Broker.Deprovision remains (RedisProvider_Provider bench_provider) bench_broker
      RequestContext "instance" (mkDeprovisionDetails "plan-1" "service-1" false) true start =
      (Ret (mkDeprovisionServiceSpec true (poll_OperationData poll), None), s1) ∧
    ∃ s2, polls tick bench_broker bench_provider RequestContext "instance" "service-1" "plan-1" 3
        (mkState (st_maps s1) (st_trace s1) (tick (st_world s1))) = Some s2 ∧
      st_world s2 = mkRemains Gone false false.
Proof.
  apply (deprovision_completes (λ r, r) tick 2 bench_broker bench_provider RequestContext
    "instance" "service-1" "plan-1") with (parameters := true) (secret := true); try done.
  - intros ctx [[|n|] ps sec]; cbn; by repeat eexists.
  - intros ctx node r. right. by exists [].
  - intros ctx group r. right. by exists [].
  - by intros [] r.
  - by intros ctx [[|n|] ps sec].
Defined.
