(* ===== verification/ProvisionCycle.v ===== *)
(** * A provisioning from end to end

    The broker and the Redis provider together, against a cloud that builds what
    it accepts: a provisioning asked for with [Broker.Provision] is completed by
    the polls of [Broker.LastOperation], and the instance can then be bound.  What
    AWS and the machine have to do for this are the hypotheses of the section. *)
From S2P Require Import Prelude GoBase Sdk Providers Go Interfaces Bench Naming Random Url Json.
From S2P Require Import RedisBase RedisProvision RedisQuery Progress RedisFailover RedisSnapshots RedisService.
From S2P Require Import Config Parameters Broker BenchBroker BrokerProvision Polling.
Local Open Scope Z_scope.
Local Open Scope go_scope.

(** ** Snapshots *)

Lemma tagsValues_some {X} (ts : list Tag) (s : state X) :
  tagsValues (Some <$> ts) s = (Ret (tags_spec ts), s).
Proof.
  unfold tagsValues, tags_spec. generalize (∅ : gmap string string).
  induction ts as [|t ts IH]; intros acc; [done|]. apply IH.
Qed.

(** ** The cloud *)

(** A replication group that is not there, that is being built with a token for
    some more polls, or that is ready. *)
Inductive stage := Absent | Building (polls : nat) (token : string) | Ready (token : string).

(** What there is of an instance: its group, its parameter group, its secret. *)
Record site := mkSite {
  site_group : stage;
  site_parameters : bool;
  site_secret : option string;
}.

Definition empty_site : site := mkSite Absent false None.

Definition site_status (c : site) : option string :=
  match site_group c with
  | Absent => None
  | Building _ _ => Some Creating
  | Ready _ => Some Available
  end.

(** Time passes between two polls. *)
Definition build (c : site) : site :=
  mkSite
    match site_group c with
    | Building (S n) token => Building n token
    | Building O token => Ready token
    | g => g
    end (site_parameters c) (site_secret c).

(** A group that can be connected to. *)
Definition reachable (rg : ReplicationGroup) (ep : Endpoint) (host : string) (port : Z) : Prop :=
  ep_Address ep = Some host ∧ ep_Port ep = Some port ∧
  (rg_ConfigurationEndpoint rg = Some ep ∨
   rg_ConfigurationEndpoint rg = None ∧
   ∃ g rest, rg_NodeGroups rg = Some g :: rest ∧ ng_PrimaryEndpoint g = Some ep).

(** What is restored from, if anything: with these snapshots in the account, the
    latest ones of the named instance may be used for the request. *)
Definition restorable (rows : list row) (details : ProvisionDetails) (up : ProvisionParameters) : Prop :=
  match prov_RestoreFromLatestSnapshotOf up with
  | None => True
  | Some source => snapshots_of source rows ≠ [] ∧
      ∀ latest, latest_snapshot latest (snapshots_of source rows) →
        check_snapshot_tags latest details = None
  end.

Section cycle.
Context {X : Type} `{RuntimeLaws X} `{ElastiCache X} `{SecretsManager X}.
Variables (view : X → site) (settle : X → X) (latency : nat) (host : string) (port : Z).
Variables (b : Broker) (p : RedisProvider) (ctx : context) (instanceID serviceID planID : string).
Variables (pages : list (list (option Snapshot))) (rows : list row).
Abbreviation id := (GenerateReplicationGroupName instanceID).
Abbreviation path := (getAuthTokenPath p instanceID).

Context `{!Quiet view}.
Hypothesis describes_group : ∀ ctx x,
  described (site_status (view x)) (ec_serve (DescribeReplicationGroupsWithContext ctx (Some id)) x).1.
Hypothesis describes_endpoint : ∀ ctx x token rg rest,
  site_group (view x) = Ready token →
  (ec_serve (DescribeReplicationGroupsWithContext ctx (Some id)) x).1 = (Some (Some rg :: rest), None) →
  ∃ ep, reachable rg ep host port.
Hypothesis describes_cluster : ∀ ctx node x,
  clusters_ok (ec_serve (DescribeCacheClustersWithContext ctx node) x).1.
Hypothesis describes_parameters : ∀ ctx group x,
  parameters_ok (ec_serve (DescribeCacheParametersWithContext ctx group) x).1.
Hypothesis describe_keeps : ∀ c x, is_describe c = true → view (ec_serve c x).2 = view x.
(** The snapshots of the account, with their tags. *)
Hypothesis pages_rows : Forall2 row_of (mjoin pages) rows.
Hypothesis lists_snapshots : ∀ ctx x,
  (ec_serve (DescribeSnapshotsPagesWithContext ctx) x).1 = (pages, None) ∧
  view (ec_serve (DescribeSnapshotsPagesWithContext ctx) x).2 = view x.
Hypothesis lists_tags : ∀ ctx x r, r ∈ rows →
  (ec_serve (ListTagsForResourceWithContext ctx (Some (snapshotARN p (row_Name r)))) x).1 =
    (Some (Some <$> row_Tags r), None) ∧
  view (ec_serve (ListTagsForResourceWithContext ctx (Some (snapshotARN p (row_Name r)))) x).2 = view x.
(** The names that are free can be used. *)
Hypothesis parameters_creatable : ∀ ctx input x,
  ccpg_CacheParameterGroupName input = Some id → site_parameters (view x) = false →
  (ec_serve (CreateCacheParameterGroupWithContext ctx input) x).1 = (tt, None) ∧
  view (ec_serve (CreateCacheParameterGroupWithContext ctx input) x).2 =
    mkSite (site_group (view x)) true (site_secret (view x)).
Hypothesis parameters_settable : ∀ ctx input x,
  mcpg_CacheParameterGroupName input = Some id → site_parameters (view x) = true →
  (ec_serve (ModifyCacheParameterGroupWithContext ctx input) x).1 = (tt, None) ∧
  view (ec_serve (ModifyCacheParameterGroupWithContext ctx input) x).2 = view x.
Hypothesis secret_creatable : ∀ ctx input x,
  cs_Name input = Some path → site_secret (view x) = None →
  (sm_serve (CreateSecretWithContext ctx input) x).1 = (tt, None) ∧
  view (sm_serve (CreateSecretWithContext ctx input) x).2 =
    mkSite (site_group (view x)) (site_parameters (view x)) (cs_SecretString input).
Hypothesis secret_readable : ∀ ctx x token,
  site_secret (view x) = Some token →
  (sm_serve (GetSecretValueWithContext ctx (Some path)) x).1 = (Some (Some token), None) ∧
  view (sm_serve (GetSecretValueWithContext ctx (Some path)) x).2 = view x.
(** A group with a parameter group and a valid token is built in [latency] polls. *)
Hypothesis group_creatable : ∀ ctx input x token,
  crg_ReplicationGroupId input = Some id → crg_CacheParameterGroupName input = Some id →
  crg_AuthToken input = Some token → valid_token token = true →
  site_group (view x) = Absent → site_parameters (view x) = true →
  (ec_serve (CreateReplicationGroupWithContext ctx input) x).1 = (tt, None) ∧
  view (ec_serve (CreateReplicationGroupWithContext ctx input) x).2 =
    mkSite (Building latency token) true (site_secret (view x)).
Hypothesis settles : ∀ x, view (settle x) = build (view x).

#[local] Instance redis : Provider X := RedisProvider_Provider p.
Abbreviation goes := (goes view).
Abbreviation ends := (ends view).
Abbreviation stays := (stays view).

(** ** The operations of the provider *)

Lemma goes_modifyCacheParameterGroup n v pctx r :
  ref_below n r → site_parameters v = true →
  goes n v (modifyCacheParameterGroup pctx id r) n (and_view v (λ e, e = None)).
Proof.
  intros Hr Hv. unfold modifyCacheParameterGroup.
  eapply goes_step; [by apply goes_read|]. intros m _. case_bool_decide; [by apply goes_ret|].
  eapply goes_step; [by apply goes_range_map|]. intros entries _.
  eapply goes_step; [by apply goes_for_each with (I := λ _, True); [intros ? [] ?; apply goes_ret|]|].
  intros values _. set (input := mkModifyCacheParameterGroupInput _ _).
  apply (goes_ec_bind view n v (ModifyCacheParameterGroupWithContext pctx input) _ (tt, None) v).
  - intros x Hx. destruct (parameters_settable pctx input x) as [Hr1 Hv1]; [done|by rewrite Hx|].
    by rewrite Hv1.
  - by apply goes_ret.
Qed.

Lemma goes_createCacheParameterGroup n v pctx params l :
  pp_Parameters params = Some l → (l < n)%nat → site_parameters v = false →
  goes n v (createCacheParameterGroup pctx id params) n
    (λ e v', e = None ∧ v' = mkSite (site_group v) true (site_secret v)).
Proof.
  intros Hl Hn Hv. unfold createCacheParameterGroup.
  set (input := mkCreateCacheParameterGroupInput _ _ _).
  set (v1 := mkSite (site_group v) true (site_secret v)).
  apply (goes_ec_bind view n v (CreateCacheParameterGroupWithContext pctx input) _ (tt, None) v1).
  { intros x Hx. destruct (parameters_creatable pctx input x) as [Hr Hv1]; [done|by rewrite Hx|].
    by rewrite Hv1, Hx. }
  cbn beta iota. rewrite Hl.
  eapply goes_step with (P := λ r, r = Some l); [by apply goes_ret|]. intros r ->.
  eapply goes_step; [by apply goes_read|]. intros m _.
  eapply goes_step with (P := λ _, True).
  { destruct (m !! "cluster-enabled"); [by apply goes_ret|by apply goes_write]. }
  intros [] _. eapply goes_conseq; [by apply goes_modifyCacheParameterGroup|]. by intros e v' [-> ->].
Qed.

Lemma goes_randChar n v len chars :
  0 <= len → chars ≠ [] → goes n v (randChar len chars) n (and_view v (λ _, True)).
Proof.
  intros Hlen Hne. unfold randChar. rewrite (proj2 (Z.ltb_ge len 0)) by done.
  apply goes_for_each; [|done]. intros w k _. eapply goes_step.
  { apply goes_rand; [done..|]. destruct chars; [done|]. simpl. lia. }
  intros r (i & -> & Hi). destruct (lookup_lt_is_Some_2 chars (Z.to_nat i)) as [c Hc]; [lia|].
  eapply goes_step with (P := λ y, y = c); [|intros y ->; by apply goes_ret].
  unfold index. rewrite Hc. by apply goes_ret.
Qed.

Lemma goes_GenerateAuthToken n v :
  goes n v GenerateAuthToken n (and_view v (λ token, valid_token token = true)).
Proof.
  assert (goes n v GenerateAuthToken n (and_view v (λ _, True))) as Hg.
  { unfold GenerateAuthToken, RandomAlphaNum, PasswordLength.
    eapply goes_step; [by apply goes_randChar|]. intros s _.
    eapply goes_step; [by apply goes_randChar|]. intros t _. by apply goes_ret. }
  eapply goes_conseq; [eapply goes_runs with (Q := λ token, valid_token token = true); [exact Hg|]|].
  - intros s a Ha. destruct (runs_GenerateAuthToken (st_maps s) s eq_refl) as (es & _ & _ & _ & Ho).
    by rewrite Ha in Ho.
  - by intros token v' [[-> _] Ht].
Qed.

(** A site that is being built, with its token in both places. *)
Definition under_way (v : site) : Prop :=
  ∃ token, valid_token token = true ∧ v = mkSite (Building latency token) true (Some token).

Lemma goes_redis_Provision n pctx params l :
  pp_Parameters params = Some l → (l < n)%nat →
  goes n empty_site (RedisProvision.Provision p pctx instanceID params) n
    (λ e v', e = None ∧ under_way v').
Proof.
  intros Hl Hn. unfold RedisProvision.Provision. cbv zeta.
  eapply goes_bind; [by eapply goes_createCacheParameterGroup|]. intros e v1 [-> ->]. cbn beta iota.
  eapply goes_step; [apply goes_GenerateAuthToken|]. intros token Htoken. cbn beta.
  set (v1 := mkSite Absent true (Some token)).
  eapply (goes_bind _ _ _ _ _ _ (λ e v', e = None ∧ v' = v1)).
  { unfold CreateAuthTokenSecret. cbv zeta. set (input := mkCreateSecretInput _ _ _ _).
    apply (goes_sm_bind view n _ (CreateSecretWithContext pctx input) _ (tt, None) v1).
    - intros x Hx. destruct (secret_creatable pctx input x) as [Hr Hv]; [done|by rewrite Hx|].
      by rewrite Hv, Hx.
    - by apply goes_ret. }
  intros e v' [-> ->]. cbn beta iota. eapply goes_step; [by apply goes_range_map|]. intros entries _.
  eapply goes_step; [by apply goes_for_each with (I := λ _, True); [intros ? [] ?; apply goes_ret|]|].
  intros tags _. set (input := replication_group_input _ _ _ _).
  set (v2 := mkSite (Building latency token) true (Some token)).
  apply (goes_ec_bind view n v1 (CreateReplicationGroupWithContext pctx input) _ (tt, None) v2).
  - intros x Hx. destruct (group_creatable pctx input x token) as [Hr Hv]; try done; [by rewrite Hx..|].
    by rewrite Hv, Hx.
  - cbn beta iota. eapply goes_step with (P := λ _, True); [by apply goes_ret|]. intros _ _.
    apply goes_ret. split; [done|]. by exists token.
Qed.

(** The snapshots to restore from. *)
Lemma goes_collect_snapshots n v pctx source l rs acc :
  Forall2 row_of l rs → (∀ r, r ∈ rs → r ∈ rows) →
  goes n v (collect_snapshots p pctx source l acc) n
    (and_view v (λ r, r = (acc ++ snapshots_of source rs, None))).
Proof.
  intros Hl. revert acc. induction Hl as [|x r l rs (sn & -> & Hd) _ IH]; intros acc Hin; cbn [collect_snapshots].
  { apply goes_ret. by rewrite app_nil_r. }
  apply goes_deref. unfold snapshot_data in Hd. destruct (sn_SnapshotName sn) as [name|]; [|done].
  destruct (sn_NodeSnapshots sn) as [|[node|] rest]; try done. apply goes_deref.
  destruct (ns_SnapshotCreateTime node) as [t|]; [|done]. injection Hd as -> ->.
  set (call := ListTagsForResourceWithContext pctx (Some (snapshotARN p (row_Name r)))).
  apply (goes_ec_bind view n v call _ (Some (Some <$> row_Tags r), None) v).
  { intros x <-. by apply lists_tags, Hin; left. }
  cbn beta iota. apply goes_deref.
  eapply goes_step with (P := λ tags, tags = tags_spec (row_Tags r)).
  { intros s Hn Hv. by rewrite tagsValues_some; eexists _, s. }
  intros tags ->. eapply goes_conseq; [apply IH; intros r' Hr'; by apply Hin; right|].
  intros o v' [-> ->]. split; [done|]. f_equal. unfold snapshots_of. rewrite fmap_cons.
  case_bool_decide.
  - by rewrite filter_cons_True, <-app_assoc.
  - by rewrite filter_cons_False.
Qed.

Lemma goes_FindSnapshots n v pctx source :
  goes n v (FindSnapshots p pctx source) n (and_view v (λ r, r = (snapshots_of source rows, None))).
Proof.
  unfold FindSnapshots. set (call := DescribeSnapshotsPagesWithContext pctx).
  apply (goes_ec_bind view n v call _ (pages, None) v); [intros x <-; by apply lists_snapshots|].
  cbn beta iota zeta. rewrite mjoin_foldl. by apply (goes_collect_snapshots _ _ _ _ _ rows []).
Qed.

(** ** The broker on top *)

Lemma goes_find_restore_snapshot n v pctx details up :
  restorable rows details up →
  goes n v (find_restore_snapshot pctx details up) n (and_view v (λ r, ∃ name, r = (name, None))).
Proof.
  unfold restorable, find_restore_snapshot. destruct (prov_RestoreFromLatestSnapshotOf up) as [source|].
  2: { intros _. apply goes_ret. split; [done|]. by eexists. }
  intros [Hne Hlatest].
  eapply goes_step; [apply (goes_pv view n v (PvFindSnapshots pctx source)), goes_FindSnapshots|].
  intros r ->. cbn beta iota. rewrite bool_decide_false by (by rewrite length_zero_iff_nil).
  cbv zeta. destruct (rt_sort ByCreateTime_Less (snapshots_of source rows)) as [|latest rest] eqn:Hsort.
  { pose proof (rt_sort_perm _ ByCreateTime_Less (snapshots_of source rows)) as Hp. rewrite Hsort in Hp.
    by apply Permutation_nil_l in Hp. }
  eapply goes_step with (P := λ y, y = latest); [by apply goes_ret|].
  intros y ->. rewrite Hlatest by (by eapply sorted_head_latest). apply goes_ret.
  split; [done|]. by eexists.
Qed.

Lemma goes_user_parameters n v details up :
  user_parameters_parsed details (Some up, None) →
  goes n v (provision_user_parameters details) n (and_view v (λ r, r = (Some up, None))).
Proof.
  unfold provision_user_parameters. intros [[-> [= ->]]|[Hraw Hr]].
  { rewrite bool_decide_false by (simpl; lia). by apply goes_ret. }
  rewrite bool_decide_true by (destruct (pd_RawParameters details); [done|simpl; lia]).
  destruct (provision_parsed_accepted _ _ Hr) as (keys & Hkeys & Hvalid & Hu).
  eapply goes_step with (P := λ r, r = (up, None)); [|intros r ->; by apply goes_ret].
  unfold unmarshalParameters. rewrite Hkeys, Hu.
  eapply goes_step; [by apply goes_range_keys|]. intros ks Hks. cbn beta in Hks.
  pose proof (unknown_key_spec ks provision_fields) as Hspec.
  change [ParamRestoreLatestSnapshotOf; ParamMaxMemoryPolicy; ParamPreferredMaintenanceWindow]
    with provision_fields.
  destruct (unknown_key ks provision_fields) as [key|]; [|by apply goes_ret].
  destruct Hspec as [Hin Hout]. destruct Hout. apply Hvalid. by rewrite Hks, elem_of_elements in Hin.
Qed.

Lemma goes_copy_parameters n v plan up :
  ref_below n (pc_Parameters plan) →
  goes n v (copy_parameters plan up) (S n) (and_view v (λ r, r = Some n)).
Proof.
  intros Hplan. unfold copy_parameters. eapply goes_step; [apply goes_alloc|]. intros r ->.
  eapply goes_step; [apply goes_read; destruct (pc_Parameters plan); simpl in *; [lia|done]|]. intros m _.
  eapply goes_step; [by apply goes_range_map|]. intros entries _.
  eapply goes_step; [apply goes_for_each with (I := λ _, True); [|done]|].
  { intros [] [k w] _. apply goes_write. lia. }
  intros [] _. eapply goes_step with (P := λ _, True); [|by intros; apply goes_ret].
  destruct (prov_MaxMemoryPolicy up); [apply goes_write; lia|by apply goes_ret].
Qed.

Definition provision_poll : PollDetails :=
  mkPollDetails serviceID planID (Operation_String (mkOperation ActionProvisioning "" "")).

Definition accepted : ProvisionedServiceSpec :=
  mkProvisionedServiceSpec true (poll_OperationData provision_poll).

Lemma goes_broker_Provision n details up plan :
  cf_PlanConfigs (b_config b) !! pd_PlanID details = Some plan →
  ref_below n (pc_Parameters plan) → user_parameters_parsed details (Some up, None) → restorable rows details up →
  goes n empty_site (Broker.Provision b ctx instanceID details true) (S n)
    (λ r v', r = (accepted, None) ∧ under_way v').
Proof.
  intros Hplan Href Hasked Hrestore. unfold Broker.Provision. cbn [negb]. cbv zeta. apply goes_emit.
  unfold GetPlanConfig. rewrite Hplan. apply goes_timeout.
  eapply goes_step; [by apply goes_user_parameters|]. intros r ->. cbn beta iota. apply goes_deref.
  eapply goes_step; [by apply goes_find_restore_snapshot|]. intros r [name ->]. cbn beta iota.
  eapply goes_step; [by apply goes_copy_parameters|]. intros r ->.
  eapply goes_bind; [apply goes_pv, (goes_redis_Provision (S n)) with (l := n); [done|lia]|].
  intros r v' [-> Hv']. cbn beta iota. apply goes_emit. by apply goes_ret.
Qed.

(** The polls of the platform, as long as the operation is in progress: the
    state they end in, when the operation succeeded. *)
Fixpoint polls (n : nat) (s : state X) : option (state X) :=
  match n with
  | O => None
  | S n' =>
      match LastOperation b ctx instanceID provision_poll s with
      | (Ret (r, None), s') =>
          match lo_State r with
          | Succeeded => Some s'
          | InProgress => polls n' (mkState (st_maps s') (st_trace s') (settle (st_world s')))
          | _ => None
          end
      | _ => None
      end
  end.

Lemma stays_last_operation s st :
  site_status (view (st_world s)) = Some st → st ≠ NonExisting →
  stays s (LastOperation b ctx instanceID provision_poll)
    (λ a, ∃ message, a = (mkLastOperation (ProviderStatesMapping st).1 message, None)).
Proof.
  intros Hst Hne. eapply (ends_LastOperation view _ p); [by vm_compute|done|]. intros s1 Hv.
  rewrite <-Hv. apply (stays_poll_state view site_status p instanceID describes_group describes_cluster
    describes_parameters describe_keeps); [done|by rewrite Hv|done].
Qed.

Lemma polls_ready s token secret :
  view (st_world s) = mkSite (Ready token) true secret →
  ∃ s', polls 1 s = Some s' ∧ view (st_world s') = mkSite (Ready token) true secret.
Proof.
  intros Hv. destruct (stays_last_operation s Available) as (a & s' & Hrun & [message ->] & Hv' & _);
    [by rewrite Hv|done|].
  exists s'. cbn [polls]. rewrite Hrun. split; [done|]. by rewrite Hv'.
Qed.

Lemma polls_building k s token secret :
  view (st_world s) = mkSite (Building k token) true secret →
  ∃ s', polls (S (S k)) s = Some s' ∧ view (st_world s') = mkSite (Ready token) true secret.
Proof.
  revert s. induction k as [|k IH]; intros s Hv;
    (destruct (stays_last_operation s Creating) as (a & s1 & Hrun & [message ->] & Hv1 & _);
      [by rewrite Hv|done|]);
    (assert (∀ n, polls (S n) s = polls n (mkState (st_maps s1) (st_trace s1) (settle (st_world s1))))
      as Hstep by (intros n; cbn [polls]; by rewrite Hrun)); rewrite Hstep.
  - apply polls_ready. cbn [st_world]. by rewrite settles, Hv1, Hv.
  - apply IH. cbn [st_world]. by rewrite settles, Hv1, Hv.
Qed.

(** ** The binding *)

Lemma stays_endpoint s rg ep :
  reachable rg ep host port → stays s (choose_endpoint rg) (λ r, r = Some ep).
Proof.
  intros (_ & _ & Hep). unfold choose_endpoint.
  destruct Hep as [->|(-> & g & rest & -> & Hg)]; [by apply stays_ret|].
  eapply stays_bind with (P := λ y, y = g); [by apply stays_ret|]. intros y s' ->. rewrite Hg.
  eapply stays_bind with (P := λ y, y = ep); [by apply stays_ret|]. intros y s2 ->. by apply stays_ret.
Qed.

Lemma stays_ready s pctx token :
  site_group (view (st_world s)) = Ready token →
  stays s (describeReplicationGroup pctx id)
    (λ r, ∃ rg ep, r = (Some rg, None) ∧ reachable rg ep host port).
Proof.
  intros Hready. unfold describeReplicationGroup.
  set (call := DescribeReplicationGroupsWithContext pctx (Some id)).
  eapply stays_bind.
  { apply (stays_describe view describe_keeps s call
      (λ r, ∃ rg ep rest, r = (Some (Some rg :: rest), None) ∧ reachable rg ep host port)); [done|].
    pose proof (describes_group pctx (st_world s)) as Hd. unfold site_status in Hd. rewrite Hready in Hd.
    destruct Hd as (rg & rest & Hr & _).
    destruct (describes_endpoint pctx (st_world s) token rg rest Hready Hr) as [ep Hep].
    by exists rg, ep, rest. }
  intros r s' (rg & ep & rest & -> & Hep). apply stays_ret. by exists rg, ep.
Qed.

(** The credentials of an instance that is ready. *)
Definition issued (token : string) : Credentials :=
  mkCredentials host port id token
    (url_string "rediss" "" token (host +:+ ":" +:+ pretty port)) true.

Lemma stays_bound s bindingID details async token :
  view (st_world s) = mkSite (Ready token) true (Some token) →
  stays s (Broker.Bind b ctx instanceID bindingID details async) (λ r, r = (Some (issued token), None)).
Proof.
  intros Hv. unfold Broker.Bind. apply ends_emit. intros s1 Hw1 _.
  unfold stays, Progress.stays. rewrite <-Hw1. rewrite <-Hw1 in Hv. clear s Hw1.
  eapply stays_bind with (P := λ r, r = (Some (issued token), None));
    [|intros r s' ->; by apply stays_ret].
  apply (ends_pv view s1 (PvGenerateCredentials ctx instanceID bindingID) (λ r, r = _)).
  cbn [pv_serve redis RedisProvider_Provider]. unfold GenerateCredentials. cbv zeta.
  eapply ends_bind; [by apply (stays_ready s1 _ token); rewrite Hv|].
  intros r s2 (rg & ep & -> & Hep) Hv2 _. cbn beta iota.
  eapply (ends_bind view s2 (deref (Some rg)) _ (λ y, y = rg)); [by apply ends_ret|].
  intros y s3 -> Hv3 _. eapply ends_bind; [by apply stays_endpoint|].
  intros r s4 -> Hv4 _. cbn beta iota. destruct Hep as (Ha & Hp & _). rewrite Ha, Hp.
  eapply (ends_bind view s4 (deref (Some host)) _ (λ y, y = host)); [by apply ends_ret|].
  intros y s5 -> Hv5 _.
  eapply (ends_bind view s5 (deref (Some port)) _ (λ y, y = port)); [by apply ends_ret|].
  intros y s6 -> Hv6 _.
  destruct (secret_readable ctx (st_world s6) token) as [Hr Hr']; [by rewrite Hv6, Hv3, Hv|].
  apply (ends_sm_bind view s6 (GetSecretValueWithContext ctx (Some path)) _ _ _ _ _ Hr Hr').
  intros s7 Hv7. cbn beta iota.
  eapply (ends_bind view s7 (deref (Some (Some token))) _ (λ y, y = Some token)); [by apply ends_ret|].
  intros y s8 -> Hv8 _. apply ends_ret; [done|]. congruence.
Qed.

(** ** Properties *)

(** C6: a provisioning is completed: against a cloud that builds what it accepts
    within [latency] polls, [Broker.Provision], over the Redis provider, accepts
    any request for a known plan whose parameters are valid, with or without a
    restore from the snapshots in the account, when nothing has the names of the instance yet; then at most
    [latency + 1] polls of [Broker.LastOperation] with the operation data of the
    answer report the operation in progress, until one reports success; the
    secret then holds the token that the group was created with, which is valid,
    and [Broker.Bind] returns credentials with the endpoint of the group and this
    token. *)
Theorem provision_completes (s : state X) (details : ProvisionDetails) (up : ProvisionParameters)
    (plan : PlanConfig) (bindingID : string) (binding : BindDetails) (async : bool) :
  view (st_world s) = empty_site →
  cf_PlanConfigs (b_config b) !! pd_PlanID details = Some plan →
  ref_below (length (st_maps s)) (pc_Parameters plan) →
  user_parameters_parsed details (Some up, None) → restorable rows details up →
  ∃ token s1, valid_token token = true ∧
    Broker.Provision b ctx instanceID details true s = (Ret (accepted, None), s1) ∧
    ∃ s2, polls (S latency) (mkState (st_maps s1) (st_trace s1) (settle (st_world s1))) = Some s2 ∧
      view (st_world s2) = mkSite (Ready token) true (Some token) ∧
      ∃ s3, Broker.Bind b ctx instanceID bindingID binding async s2 =
          (Ret (Some (issued token), None), s3) ∧
        view (st_world s3) = mkSite (Ready token) true (Some token).
Proof.
  intros Hv Hplan Href Hasked Hrestore.
  destruct (goes_broker_Provision _ _ _ _ Hplan Href Hasked Hrestore s eq_refl Hv)
    as (r & s1 & Hrun & _ & -> & token & Htoken & Hv1).
  exists token, s1. split; [done|]. split; [done|].
  assert (∃ s2, polls (S latency) (mkState (st_maps s1) (st_trace s1) (settle (st_world s1))) = Some s2 ∧
    view (st_world s2) = mkSite (Ready token) true (Some token)) as (s2 & Hpolls & Hv2).
  { destruct latency as [|k]; [apply polls_ready|apply polls_building]; cbn [st_world];
      by rewrite settles, Hv1. }
  exists s2. split; [done|]. split; [done|].
  destruct (stays_bound s2 bindingID binding async token Hv2) as (r & s3 & Hb & -> & Hv3 & _).
  exists s3. split; [done|]. by rewrite Hv3.
Qed.
End cycle.

(** ** A cloud that works *)

(** A snapshot of another instance of the space, which the user asks for. *)
Definition small_row : row := mkRow "snapshot" 1700000000
  (to_tag <$> [("instance-id", "source"); ("space-id", "space"); ("organization-id", "org");
               ("plan-id", "plan-1")]).

Definition small_pages : list (list (option Snapshot)) :=
  [[]; [Some (mkSnapshot (Some "snapshot") [Some (mkNodeSnapshot (Some 1700000000))])]].

Definition small_group (c : site) : ReplicationGroup :=
  mkReplicationGroup (Some "group") (site_status c) [] [] None None
    (Some (mkEndpoint (Some "redis.example") (Some 6379))).

#[local] Instance small_ElastiCache : ElastiCache site := λ c v,
  match c return (ec_out c * option error) * site with
  | DescribeReplicationGroupsWithContext _ _ =>
      (match site_status v with
       | None => (None, Some (AwsError ErrCodeReplicationGroupNotFoundFault "not found"))
       | Some _ => (Some [Some (small_group v)], None)
       end, v)
  | DescribeCacheClustersWithContext _ _ => ((Some [], None), v)
  | DescribeCacheParametersWithContext _ _ => ((Some [], None), v)
  | DescribeSnapshotsPagesWithContext _ => ((small_pages, None), v)
  | ListTagsForResourceWithContext _ _ => ((Some (Some <$> row_Tags small_row), None), v)
  | CreateCacheParameterGroupWithContext _ _ =>
      ((tt, None), mkSite (site_group v) true (site_secret v))
  | CreateReplicationGroupWithContext _ input =>
      ((tt, None), mkSite (Building 2 (default "" (crg_AuthToken input))) (site_parameters v)
                     (site_secret v))
  | _ => ((tt, None), v)
  end.

#[local] Instance small_SecretsManager : SecretsManager site := λ c v,
  match c return (sm_out c * option error) * site with
  | CreateSecretWithContext _ input =>
      ((tt, None), mkSite (site_group v) (site_parameters v) (cs_SecretString input))
  | GetSecretValueWithContext _ _ => ((Some (site_secret v), None), v)
  | DeleteSecretWithContext _ _ => ((tt, None), mkSite (site_group v) (site_parameters v) None)
  end.

#[local] Instance small_Runtime : Runtime site := still_Runtime.

#[local] Instance small_RuntimeLaws : RuntimeLaws site := still_RuntimeLaws.

#[local] Instance small_Quiet : Quiet (λ v : site, v).
Proof. by split. Qed.

Definition small_details : ProvisionDetails :=
  mkProvisionDetails "service-1" "plan-1" "org" "space"
    (marshal_strings [("maxmemory_policy", "noeviction"); ("restore_from_latest_snapshot_of", "source")]).

Definition small_parameters : ProvisionParameters :=
  mkProvisionParameters (Some "source") (Some "noeviction") "".

Lemma small_parsed : user_parameters_parsed small_details (Some small_parameters, None).
Proof.
  right. split; [by vm_compute|].
  eapply document_ok with (ms := [("maxmemory_policy", JString "noeviction");
    ("restore_from_latest_snapshot_of", JString "source")]); [by vm_compute| |by split; vm_compute].
  intros k w [[= -> ->]|[[= -> ->]|[]%elem_of_nil]%elem_of_cons]%elem_of_cons;
    (split; [unfold provision_keys; set_solver|right; by eexists]).
Qed.

Lemma small_restorable : restorable [small_row] small_details small_parameters.
Proof.
  assert (snapshots_of "source" [small_row] = [row_info small_row]) as Hs by by vm_compute.
  unfold restorable. cbn [prov_RestoreFromLatestSnapshotOf small_parameters]. rewrite Hs.
  split; [done|]. intros latest [->%list_elem_of_singleton _]. by vm_compute.
Qed.

Lemma provision_completes_witness :
  let start := mkState bench_heap [] empty_site in
  let _ := RedisProvider_Provider bench_provider in
  let binding := mkBindDetails "app" "plan-1" "service-1" "" in
  ∃ token s1, valid_token token = true ∧
    Broker.Provision bench_broker RequestContext "instance" small_details true start =
      (Ret (accepted "service-1" "plan-1", None), s1) ∧
    ∃ s2, polls (λ v, build v) bench_broker bench_provider RequestContext "instance" "service-1" "plan-1" 3
        (mkState (st_maps s1) (st_trace s1) (build (st_world s1))) = Some s2 ∧
      st_world s2 = mkSite (Ready token) true (Some token) ∧
      ∃ s3, Broker.Bind bench_broker RequestContext "instance" "binding" binding true s2 =
          (Ret (Some (issued "redis.example" 6379 "instance" token), None), s3) ∧
        st_world s3 = mkSite (Ready token) true (Some token).
Proof.
  apply (provision_completes (λ v, v) build 2 "redis.example" 6379 bench_broker bench_provider
    RequestContext "instance" "service-1" "plan-1" small_pages [small_row]) with
    (up := small_parameters) (plan := bench_plan); try done.
  - intros ctx [[|n t|t] ps se]; cbn; by repeat eexists.
  - intros ctx [g ps se] token rg rest; cbn. intros -> [= <- <-].
    exists (mkEndpoint (Some "redis.example") (Some 6379)). split; [done|]. split; [done|by left].
  - intros ctx node r. right. by exists [].
  - intros ctx group r. right. by exists [].
  - by intros [] r.
  - constructor; [|constructor]. by eexists.
  - by intros ctx x r ->%list_elem_of_singleton.
  - intros ctx [g ps se] token. cbn. by intros ->.
  - intros ctx input [g ps se] token. cbn. by intros _ _ -> _ -> ->.
  - vm_compute. lia.
  - apply small_parsed.
  - apply small_restorable.
Defined.
