(* ===== verification/JsonDecode.v ===== *)
(** * Decoding JSON into structs

    How [encoding/json] decodes a value into a variable of a Go type: a decoder
    stores a JSON value over an old value.  A type error is saved and decoding
    goes on; the error of a type with its own [UnmarshalJSON] (the two metadata
    types of the catalog of brokerapi) ends it.  A slice is decoded over the
    elements it has, as the library does; only what a slice that shrank leaves
    behind in its capacity is not kept. *)
From S2P Require Import Prelude GoBase Sdk Providers Go Json.
Local Open Scope Z_scope.
Local Open Scope go_scope.

(** ** Decoders *)

Inductive status := Fine | Saved | Aborted.

#[export] Instance status_eq_dec : EqDecision status.
Proof. solve_decision. Defined.

(** The status after two values: the first error ends the decoding if it is not
    only saved. *)
Definition worse (a b : status) : status :=
  match a, b with
  | Aborted, _ | _, Aborted => Aborted
  | Saved, _ | _, Saved => Saved
  | Fine, Fine => Fine
  end.

Definition decoder (X T : Type) : Type := json → T → M X (T * status).

Section decoders.
Context {X : Type}.

(** A loop over values that ends when the decoding is aborted. *)
Fixpoint decode_each {A T} (l : list A) (t : T) (st : status) (body : T → A → M X (T * status))
    : M X (T * status) :=
  match l with
  | [] => ret (t, st)
  | a :: l' =>
      if bool_decide (st = Aborted) then ret (t, st) else
      let! (t', st') := body t a in
      decode_each l' t' (worse st st') body
  end.

Definition decode_text : decoder X string := λ v old,
  ret match v with JString s => (s, Fine) | JNull => (old, Fine) | _ => (old, Saved) end.

Definition decode_flag : decoder X bool := λ v old,
  ret match v with JBool b => (b, Fine) | JNull => (old, Fine) | _ => (old, Saved) end.

(** [strconv.ParseInt(literal, 10, 64)] on a number literal. *)
Definition parse_int64 (literal : string) : option Z :=
  let (negative, digits) :=
    match literal with
    | String c rest => if bool_decide (c = "-"%char) then (true, rest) else (false, literal)
    | EmptyString => (false, literal)
    end in
  if string_forallb is_digit digits then
    let n := digits_val 0 digits in
    let n := if negative : bool then - n else n in
    if (- 2 ^ 63 <=? n) && (n <? 2 ^ 63) then Some n else None
  else None.

Definition decode_int64 : decoder X Z := λ v old,
  ret match v with
      | JNumber literal =>
          match parse_int64 literal with Some n => (n, Fine) | None => (old, Saved) end
      | JNull => (old, Fine)
      | _ => (old, Saved)
      end.

(** A pointer: nil, or a new or the present object. *)
Definition decode_pointer {T} (zero : T) (d : decoder X T) : decoder X (option T) := λ v old,
  match v with
  | JNull => ret (None, Fine)
  | _ => let! (t, st) := d v (default zero old) in ret (Some t, st)
  end.

(** A slice; [taken] are the elements decoded so far, [rest] the old ones. *)
Definition decode_slice {T} (zero : T) (d : decoder X T) : decoder X (list T) := λ v old,
  match v with
  | JArray l =>
      let! (ts, st) := decode_each l ([], old) Fine (λ ts v,
        let (taken, rest) := ts in
        let! (t, st) := d v (default zero (head rest)) in
        ret ((taken ++ [t], tail rest), st)) in
      ret (ts.1, st)
  | JNull => ret ([], Fine)
  | _ => ret (old, Saved)
  end.

(** A map whose elements are values: each one starts at its zero value. *)
Definition decode_map {T} (zero : T) (d : decoder X T) : decoder X (gmap string T) := λ v old,
  match v with
  | JObject ms =>
      decode_each ms old Fine (λ m kv,
        let! (t, st) := d kv.2 zero in
        ret (<[kv.1 := t]> m, st))
  | JNull => ret (∅, Fine)
  | _ => ret (old, Saved)
  end.

(** A [map\[string\]string]: an object of the heap, made when there is none. *)
Definition decode_string_map : decoder X map_ref := λ v old,
  match v with
  | JObject ms =>
      let! r := match old with None => alloc_map ∅ | Some l => ret (Some l) end in
      decode_each ms r Fine (λ r kv,
        let! (s, st) := decode_text kv.2 "" in
        do! write_map r kv.1 s in
        ret (r, st))
  | JNull => ret (None, Fine)
  | _ => ret (old, Saved)
  end.

(** A field of a struct: its name, and how a value is stored in it. *)
Definition struct_field (T : Type) : Type := string * (T → json → M X (T * status)).

Definition field {T U} (name : string) (get : T → U) (set : T → U → T) (d : decoder X U)
    : struct_field T :=
  (name, λ t v, let! (u, st) := d v (get t) in ret (set t u, st)).

Definition decode_member {T} (fields : list (struct_field T)) (t : T) (kv : string * json)
    : M X (T * status) :=
  match select_field (fst <$> fields) kv.1 with
  | None => ret (t, Fine)
  | Some name =>
      match filter (λ f, f.1 = name) fields with
      | f :: _ => f.2 t kv.2
      | [] => ret (t, Fine)
      end
  end.

Definition decode_struct {T} (fields : list (struct_field T)) : decoder X T := λ v old,
  match v with
  | JObject ms => decode_each ms old Fine (decode_member fields)
  | JNull => ret (old, Fine)
  | _ => ret (old, Saved)
  end.
End decoders.

(** ** The types of the fields that are decoded and not read *)

#[warnings="-register-all"]
Inductive shape :=
  | ShString
  | ShBool
  | ShFloat
  | ShAny
  | ShSlice (s : shape)
  | ShMap (s : shape)
  | ShStruct (fields : list (string * shape))
  | ShMetadata (fields : list (string * shape)).  (** with an [UnmarshalJSON] of its own *)

(** The loop of [decode_each] for the status alone. *)
Definition status_each {A} (f : A → status) : list A → status → status :=
  fix go l st :=
    match l with
    | [] => st
    | a :: l' => if bool_decide (st = Aborted) then st else go l' (worse st (f a))
    end.

(** The shape of the field that a key selects. *)
Definition shape_at (fields : list (string * shape)) (key : string) : option shape :=
  match select_field (fst <$> fields) key with
  | None => None
  | Some name => match filter (λ f, f.1 = name) fields with f :: _ => Some f.2 | [] => None end
  end.

(** The status of a value decoded into a type of this shape. *)
Fixpoint fits (v : json) (s : shape) : status :=
  match v with
  | JNull => Fine
  | JString _ => match s with ShString | ShAny => Fine | ShMetadata _ => Aborted | _ => Saved end
  | JBool _ => match s with ShBool | ShAny => Fine | ShMetadata _ => Aborted | _ => Saved end
  | JNumber literal =>
      match s with
      | ShFloat | ShAny => if float64_overflows literal then Saved else Fine
      | ShMetadata _ => Aborted
      | _ => Saved
      end
  | JArray l =>
      match s with
      | ShSlice s' => status_each (λ v, fits v s') l Fine
      | ShAny => if has_overflow v then Saved else Fine
      | ShMetadata _ => Aborted
      | _ => Saved
      end
  | JObject ms =>
      let members fields := status_each (λ kv : string * json,
        match shape_at fields kv.1 with Some s' => fits kv.2 s' | None => Fine end) ms Fine in
      match s with
      | ShMap s' => status_each (λ kv : string * json, fits kv.2 s') ms Fine
      | ShStruct fields => members fields
      | ShAny => if has_overflow v then Saved else Fine
      | ShMetadata fields =>
          if bool_decide (members fields = Fine) && negb (has_overflow v) then Fine else Aborted
      | _ => Saved
      end
  end.

(** ** Structs in the monad *)

Section unmarshal.
Context {X : Type}.

(** A field that is decoded and not read. *)
Definition unread {T} (name : string) (s : shape) : @struct_field X T :=
  (name, λ t v, ret (t, fits v s)).

(** [json.Unmarshal] into a variable that holds [zero]. *)
Definition unmarshal_with {T} (d : decoder X T) (zero : T) (data : string)
    : M X (T * option error) :=
  match json_parse data with
  | None => ret (zero, Some JsonSyntaxError)
  | Some v =>
      let! (t, st) := d v zero in
      ret (t, if bool_decide (st = Fine) then None else Some (JsonTypeError ""))
  end.
End unmarshal.
