(* ===== verification/ConfigFile.v ===== *)
(** * The configuration file

    [LoadConfig] of broker/config.go: the file is read, decoded into the tagged
    structs of the program and of the catalog of brokerapi, validated, and given
    a default host. *)
From S2P Require Import Prelude GoBase Sdk Providers Go Interfaces Bench Json JsonDecode Config.
Local Open Scope Z_scope.
Local Open Scope go_scope.

(** ** The catalog *)

Section catalog.
Context {X : Type}.

(* map: vendor/github.com/pivotal-cf/brokerapi/domain/service_plan_metadata.go 11-21 ServicePlanMetadata *)
Definition plan_metadata_shape : shape := ShMetadata [
  ("displayName", ShString); ("bullets", ShSlice ShString);
  ("costs", ShSlice (ShStruct [("amount", ShMap ShFloat); ("unit", ShString)]));
  ("AdditionalMetadata", ShMap ShAny)].

(* map: vendor/github.com/pivotal-cf/brokerapi/domain/service_metadata.go 10-19 ServiceMetadata *)
Definition service_metadata_shape : shape := ShMetadata [
  ("displayName", ShString); ("imageUrl", ShString); ("longDescription", ShString);
  ("providerDisplayName", ShString); ("documentationUrl", ShString); ("supportUrl", ShString);
  ("shareable", ShBool); ("AdditionalMetadata", ShMap ShAny)].

Definition schema_shape : shape := ShStruct [("parameters", ShMap ShAny)].

(* map: vendor/github.com/pivotal-cf/brokerapi/domain/service_catalog.go 38-54 ServiceSchemas *)
Definition schemas_shape : shape := ShStruct [
  ("service_instance", ShStruct [("create", schema_shape); ("update", schema_shape)]);
  ("service_binding", ShStruct [("create", schema_shape)])].

(* map: vendor/github.com/pivotal-cf/brokerapi/domain/maintenance_info.go 5-10 MaintenanceInfo *)
Definition maintenance_shape : shape := ShStruct [
  ("public", ShMap ShString); ("private", ShString); ("version", ShString);
  ("description", ShString)].

(* map: vendor/github.com/pivotal-cf/brokerapi/domain/service_catalog.go 27-36 ServicePlan *)
Definition decode_plan : decoder X ServicePlan := decode_struct [
    field "id" plan_ID (λ _ x, mkServicePlan x) decode_text;
    unread "name" ShString; unread "description" ShString; unread "free" ShBool;
    unread "bindable" ShBool; unread "metadata" plan_metadata_shape;
    unread "schemas" schemas_shape; unread "maintenance_info" maintenance_shape].

(* map: vendor/github.com/pivotal-cf/brokerapi/domain/service_catalog.go 12-25 Service *)
Definition decode_service : decoder X Service := decode_struct [
    field "id" service_ID (λ s x, mkService x (service_Plans s)) decode_text;
    unread "name" ShString; unread "description" ShString; unread "bindable" ShBool;
    unread "instances_retrievable" ShBool; unread "bindings_retrievable" ShBool;
    unread "tags" (ShSlice ShString); unread "plan_updateable" ShBool;
    field "plans" service_Plans (λ s x, mkService (service_ID s) x)
      (decode_slice (mkServicePlan "") decode_plan);
    unread "requires" (ShSlice ShString); unread "metadata" service_metadata_shape;
    unread "dashboard_client" (ShStruct [("id", ShString); ("secret", ShString);
                                         ("redirect_uri", ShString)])].

(* map: vendor/github.com/pivotal-cf/brokerapi/domain/apiresponses/responses.go 27-29 CatalogResponse *)
Definition decode_catalog : decoder X (list Service) := decode_struct [
    field "services" id (λ _ x, x) (decode_slice (mkService "" []) decode_service)].

(** ** The configuration *)

(* map: broker/tls_config.go 8-11 TLSConfig *)
Definition decode_tls : decoder X TLSConfig := decode_struct [
    field "certificate" tls_Certificate (λ t x, mkTLSConfig x (tls_PrivateKey t)) decode_text;
    field "private_key" tls_PrivateKey (λ t x, mkTLSConfig (tls_Certificate t) x) decode_text].

(* map: broker/config.go 23-34 PlanConfig *)
Definition decode_plan_config : decoder X PlanConfig := decode_struct [
    field "instance_type" pc_InstanceType (λ p x, mkPlanConfig x (pc_ReplicasPerNodeGroup p)
      (pc_ShardCount p) (pc_SnapshotRetentionLimit p) (pc_AutomaticFailoverEnabled p)
      (pc_MultiAZEnabled p) (pc_Parameters p) (pc_Engine p) (pc_EngineVersion p)
      (pc_CacheParameterGroupFamily p)) decode_text;
    field "replicas_per_node_group" pc_ReplicasPerNodeGroup (λ p x, mkPlanConfig
      (pc_InstanceType p) x (pc_ShardCount p) (pc_SnapshotRetentionLimit p)
      (pc_AutomaticFailoverEnabled p) (pc_MultiAZEnabled p) (pc_Parameters p) (pc_Engine p)
      (pc_EngineVersion p) (pc_CacheParameterGroupFamily p)) decode_int64;
    field "shard_count" pc_ShardCount (λ p x, mkPlanConfig (pc_InstanceType p)
      (pc_ReplicasPerNodeGroup p) x (pc_SnapshotRetentionLimit p) (pc_AutomaticFailoverEnabled
      p) (pc_MultiAZEnabled p) (pc_Parameters p) (pc_Engine p) (pc_EngineVersion p)
      (pc_CacheParameterGroupFamily p)) decode_int64;
    field "snapshot_retention_limit" pc_SnapshotRetentionLimit (λ p x, mkPlanConfig
      (pc_InstanceType p) (pc_ReplicasPerNodeGroup p) (pc_ShardCount p) x
      (pc_AutomaticFailoverEnabled p) (pc_MultiAZEnabled p) (pc_Parameters p) (pc_Engine p)
      (pc_EngineVersion p) (pc_CacheParameterGroupFamily p)) decode_int64;
    field "automatic_failover_enabled" pc_AutomaticFailoverEnabled (λ p x, mkPlanConfig
      (pc_InstanceType p) (pc_ReplicasPerNodeGroup p) (pc_ShardCount p)
      (pc_SnapshotRetentionLimit p) x (pc_MultiAZEnabled p) (pc_Parameters p) (pc_Engine p)
      (pc_EngineVersion p) (pc_CacheParameterGroupFamily p)) decode_flag;
    field "multi_az_enabled" pc_MultiAZEnabled (λ p x, mkPlanConfig (pc_InstanceType p)
      (pc_ReplicasPerNodeGroup p) (pc_ShardCount p) (pc_SnapshotRetentionLimit p)
      (pc_AutomaticFailoverEnabled p) x (pc_Parameters p) (pc_Engine p) (pc_EngineVersion p)
      (pc_CacheParameterGroupFamily p)) decode_flag;
    field "parameters" pc_Parameters (λ p x, mkPlanConfig (pc_InstanceType p)
      (pc_ReplicasPerNodeGroup p) (pc_ShardCount p) (pc_SnapshotRetentionLimit p)
      (pc_AutomaticFailoverEnabled p) (pc_MultiAZEnabled p) x (pc_Engine p) (pc_EngineVersion p)
      (pc_CacheParameterGroupFamily p)) decode_string_map;
    field "engine" pc_Engine (λ p x, mkPlanConfig (pc_InstanceType p) (pc_ReplicasPerNodeGroup
      p) (pc_ShardCount p) (pc_SnapshotRetentionLimit p) (pc_AutomaticFailoverEnabled p)
      (pc_MultiAZEnabled p) (pc_Parameters p) x (pc_EngineVersion p)
      (pc_CacheParameterGroupFamily p)) decode_text;
    field "engine_version" pc_EngineVersion (λ p x, mkPlanConfig (pc_InstanceType p)
      (pc_ReplicasPerNodeGroup p) (pc_ShardCount p) (pc_SnapshotRetentionLimit p)
      (pc_AutomaticFailoverEnabled p) (pc_MultiAZEnabled p) (pc_Parameters p) (pc_Engine p) x
      (pc_CacheParameterGroupFamily p)) decode_text;
    field "cache_parameter_group_family" pc_CacheParameterGroupFamily (λ p x, mkPlanConfig
      (pc_InstanceType p) (pc_ReplicasPerNodeGroup p) (pc_ShardCount p)
      (pc_SnapshotRetentionLimit p) (pc_AutomaticFailoverEnabled p) (pc_MultiAZEnabled p)
      (pc_Parameters p) (pc_Engine p) (pc_EngineVersion p) x) decode_text].

(* map: broker/config.go 36-50 Config *)
Definition decode_config : decoder X Config := decode_struct [
    field "log_level" cf_LogLevel (λ c x, mkConfig x (cf_Username c) (cf_Password c) (cf_Region
      c) (cf_BrokerName c) (cf_CacheSubnetGroupName c) (cf_VpcSecurityGroupIds c) (cf_Catalog c)
      (cf_PlanConfigs c) (cf_KmsKeyID c) (cf_SecretsManagerPath c) (cf_Host c) (cf_TLS c))
      decode_text;
    field "username" cf_Username (λ c x, mkConfig (cf_LogLevel c) x (cf_Password c) (cf_Region
      c) (cf_BrokerName c) (cf_CacheSubnetGroupName c) (cf_VpcSecurityGroupIds c) (cf_Catalog c)
      (cf_PlanConfigs c) (cf_KmsKeyID c) (cf_SecretsManagerPath c) (cf_Host c) (cf_TLS c))
      decode_text;
    field "password" cf_Password (λ c x, mkConfig (cf_LogLevel c) (cf_Username c) x (cf_Region
      c) (cf_BrokerName c) (cf_CacheSubnetGroupName c) (cf_VpcSecurityGroupIds c) (cf_Catalog c)
      (cf_PlanConfigs c) (cf_KmsKeyID c) (cf_SecretsManagerPath c) (cf_Host c) (cf_TLS c))
      decode_text;
    field "region" cf_Region (λ c x, mkConfig (cf_LogLevel c) (cf_Username c) (cf_Password c) x
      (cf_BrokerName c) (cf_CacheSubnetGroupName c) (cf_VpcSecurityGroupIds c) (cf_Catalog c)
      (cf_PlanConfigs c) (cf_KmsKeyID c) (cf_SecretsManagerPath c) (cf_Host c) (cf_TLS c))
      decode_text;
    field "broker_name" cf_BrokerName (λ c x, mkConfig (cf_LogLevel c) (cf_Username c)
      (cf_Password c) (cf_Region c) x (cf_CacheSubnetGroupName c) (cf_VpcSecurityGroupIds c)
      (cf_Catalog c) (cf_PlanConfigs c) (cf_KmsKeyID c) (cf_SecretsManagerPath c) (cf_Host c)
      (cf_TLS c)) decode_text;
    field "cache_subnet_group_name" cf_CacheSubnetGroupName (λ c x, mkConfig (cf_LogLevel c)
      (cf_Username c) (cf_Password c) (cf_Region c) (cf_BrokerName c) x (cf_VpcSecurityGroupIds
      c) (cf_Catalog c) (cf_PlanConfigs c) (cf_KmsKeyID c) (cf_SecretsManagerPath c) (cf_Host c)
      (cf_TLS c)) decode_text;
    field "vpc_security_group_ids" cf_VpcSecurityGroupIds (λ c x, mkConfig (cf_LogLevel c)
      (cf_Username c) (cf_Password c) (cf_Region c) (cf_BrokerName c) (cf_CacheSubnetGroupName
      c) x (cf_Catalog c) (cf_PlanConfigs c) (cf_KmsKeyID c) (cf_SecretsManagerPath c) (cf_Host
      c) (cf_TLS c)) (decode_slice "" decode_text);
    field "catalog" cf_Catalog (λ c x, mkConfig (cf_LogLevel c) (cf_Username c) (cf_Password c)
      (cf_Region c) (cf_BrokerName c) (cf_CacheSubnetGroupName c) (cf_VpcSecurityGroupIds c) x
      (cf_PlanConfigs c) (cf_KmsKeyID c) (cf_SecretsManagerPath c) (cf_Host c) (cf_TLS c))
      decode_catalog;
    field "plan_configs" cf_PlanConfigs (λ c x, mkConfig (cf_LogLevel c) (cf_Username c)
      (cf_Password c) (cf_Region c) (cf_BrokerName c) (cf_CacheSubnetGroupName c)
      (cf_VpcSecurityGroupIds c) (cf_Catalog c) x (cf_KmsKeyID c) (cf_SecretsManagerPath c)
      (cf_Host c) (cf_TLS c)) (decode_map zero_PlanConfig decode_plan_config);
    field "kms_key_id" cf_KmsKeyID (λ c x, mkConfig (cf_LogLevel c) (cf_Username c) (cf_Password
      c) (cf_Region c) (cf_BrokerName c) (cf_CacheSubnetGroupName c) (cf_VpcSecurityGroupIds c)
      (cf_Catalog c) (cf_PlanConfigs c) x (cf_SecretsManagerPath c) (cf_Host c) (cf_TLS c))
      decode_text;
    field "secrets_manager_path" cf_SecretsManagerPath (λ c x, mkConfig (cf_LogLevel c)
      (cf_Username c) (cf_Password c) (cf_Region c) (cf_BrokerName c) (cf_CacheSubnetGroupName
      c) (cf_VpcSecurityGroupIds c) (cf_Catalog c) (cf_PlanConfigs c) (cf_KmsKeyID c) x (cf_Host
      c) (cf_TLS c)) decode_text;
    field "host" cf_Host (λ c x, mkConfig (cf_LogLevel c) (cf_Username c) (cf_Password c)
      (cf_Region c) (cf_BrokerName c) (cf_CacheSubnetGroupName c) (cf_VpcSecurityGroupIds c)
      (cf_Catalog c) (cf_PlanConfigs c) (cf_KmsKeyID c) (cf_SecretsManagerPath c) x (cf_TLS c))
      decode_text;
    field "tls" cf_TLS (λ c x, mkConfig (cf_LogLevel c) (cf_Username c) (cf_Password c)
      (cf_Region c) (cf_BrokerName c) (cf_CacheSubnetGroupName c) (cf_VpcSecurityGroupIds c)
      (cf_Catalog c) (cf_PlanConfigs c) (cf_KmsKeyID c) (cf_SecretsManagerPath c) (cf_Host c) x)
      (decode_pointer (mkTLSConfig "" "") decode_tls)].

(** The zero value of [Config]. *)
Definition zero_Config : Config := mkConfig "" "" "" "" "" "" [] [] ∅ "" "" "" None.

(** [json.Unmarshal(bytes, &config)] *)
(* map: broker/config.go 75-77 LoadConfig *)
Definition unmarshal_config (data : string) : M X (Config * option error) :=
  unmarshal_with decode_config zero_Config data.
End catalog.

(** The files of the machine: [os.Open] and [ioutil.ReadAll]. *)
Class Files := {
  os_Open : string → option error;
  ioutil_ReadAll : string → string + error;
}.

(** [config.Host = host] *)
Definition with_host (c : Config) (host : string) : Config :=
  mkConfig (cf_LogLevel c) (cf_Username c) (cf_Password c) (cf_Region c) (cf_BrokerName c)
    (cf_CacheSubnetGroupName c) (cf_VpcSecurityGroupIds c) (cf_Catalog c) (cf_PlanConfigs c)
    (cf_KmsKeyID c) (cf_SecretsManagerPath c) host (cf_TLS c).

Section load.
Context {X : Type} `{Runtime X} {certificate : Type} `{X509 certificate} `{Files}.

(* map: broker/config.go 60-89 LoadConfig *)
Definition LoadConfig (configFile : string) : M X (Config * option error) :=
  if bool_decide (configFile = "") then
    ret (zero_Config, Some (ErrorString "Must provide a config file"))
  else match os_Open configFile with
  | Some err => ret (zero_Config, Some err)
  | None =>
      match ioutil_ReadAll configFile with
      | inr err => ret (zero_Config, Some err)
      | inl bytes =>
          let! (config, err) := unmarshal_config bytes in
          match err with
          | Some err => ret (config, Some err)
          | None =>
              check! Validate config catch err =>
                ret (config, Some (ErrorString
                       ("Validating config contents: " +:+ error_text err))) in
              ret (if bool_decide (cf_Host config = "") then with_host config DefaultHost
                   else config, None)
          end
      end
  end.
End load.
