(* ===== verification/ConfigLoad.v ===== *)
(** * What [LoadConfig] loads

    The result of every branch of [LoadConfig], where the maps of the
    configuration are, and that its numbers are [int64] values. *)
From S2P Require Import Prelude GoBase Sdk Providers Go Interfaces Bench Json JsonDecode Config ConfigFile.
Local Open Scope Z_scope.
Local Open Scope go_scope.

Create HintDb decoding.

(** ** Where the maps of a configuration are

    A configuration that is decoded has the parameters of its plans in map
    objects of its own, between the addresses [base] and [n]. *)

Definition ref_in (base n : nat) (r : map_ref) : Prop :=
  ∀ l, r = Some l → (base ≤ l < n)%nat.

(** The numbers of a plan are [int64] values. *)
Definition is_int64 (n : Z) : Prop := - 2 ^ 63 <= n < 2 ^ 63.

Definition plan_int64 (p : PlanConfig) : Prop :=
  is_int64 (pc_ReplicasPerNodeGroup p) ∧ is_int64 (pc_ShardCount p) ∧
  is_int64 (pc_SnapshotRetentionLimit p).

Definition config_int64 (c : Config) : Prop :=
  ∀ id p, cf_PlanConfigs c !! id = Some p → plan_int64 p.

Record plans_in (base n : nat) (m : gmap string PlanConfig) : Prop := {
  plans_int64 : ∀ id p, m !! id = Some p → plan_int64 p;
  plans_range : ∀ id p, m !! id = Some p → ref_in base n (pc_Parameters p);
  plans_apart : ∀ i j p q l, m !! i = Some p → m !! j = Some q →
    pc_Parameters p = Some l → pc_Parameters q = Some l → i = j;
}.

(** The heap keeps what it has below [base]. *)
Definition kept (base : nat) (h h' : list (gmap string string)) : Prop :=
  (length h ≤ length h')%nat ∧ ∀ l, (l < base)%nat → h' !! l = h !! l.

Lemma kept_refl base h : kept base h h.
Proof. done. Qed.

Lemma kept_trans base h1 h2 h3 : kept base h1 h2 → kept base h2 h3 → kept base h1 h3.
Proof. intros [? H1] [? H2]. split; [lia|]. intros l Hl. by rewrite H2, H1. Qed.

Lemma kept_weaken base base' h h' : (base' ≤ base)%nat → kept base h h' → kept base' h h'.
Proof. intros Hb [Hl Hk]. split; [done|]. intros l Hl'. apply Hk. lia. Qed.

(** ** Decoders keep invariants

    [P base n t]: the references inside [t] are between [base] and [n]. *)
Section keeps.
Context {X : Type}.
Implicit Types h : list (gmap string string).

Definition placed (T : Type) : Type := nat → nat → T → Prop.

Definition no_maps {T} : placed T := λ _ _ _, True.

Definition keeps_one {T} (P : placed T) (m : M X (T * status)) (base : nat) h : Prop :=
  runs h m (λ o es h', es = [] ∧ kept base h h' ∧
    ∃ t st, o = Ret (t, st) ∧ P base (length h') t).

Definition keeps {T} (P : placed T) (d : decoder X T) : Prop :=
  ∀ base h v old, (base ≤ length h)%nat → P base (length h) old → keeps_one P (d v old) base h.

Lemma keeps_ret {T} (P : placed T) t st base h :
  P base (length h) t → keeps_one P (ret (t, st)) base h.
Proof. intros HP. apply runs_ret. split; [done|]. split; [done|]. eauto. Qed.

Lemma keeps_bind {T U} (P : placed T) (Q : placed U) m (k : U * status → M X (T * status)) base h :
  keeps_one Q m base h →
  (∀ u st h', kept base h h' → Q base (length h') u → keeps_one P (k (u, st)) base h') →
  keeps_one P (bind m k) base h.
Proof.
  intros Hm Hk. apply runs_bind. eapply runs_conseq; [exact Hm|].
  intros o es h' (-> & Hkept & u & st & -> & HQ). eapply runs_conseq; [by apply Hk|].
  intros o es h'' (-> & Hkept' & HP). split; [done|]. split; [by eapply kept_trans|done].
Qed.

Lemma keeps_each {A T} (P : placed T) (l : list A) t st (body : T → A → M X (T * status)) base h :
  P base (length h) t →
  (∀ a t h', kept base h h' → P base (length h') t → keeps_one P (body t a) base h') →
  keeps_one P (decode_each l t st body) base h.
Proof.
  intros HP Hb. assert (∀ h', kept base h h' → ∀ t st, P base (length h') t →
    keeps_one P (decode_each l t st body) base h') as Hgen; [|by apply Hgen].
  clear t st HP. induction l as [|a l IH]; intros h' Hk t st HP; simpl; [by apply keeps_ret|].
  case_bool_decide; [by apply keeps_ret|]. eapply keeps_bind; [by apply Hb|].
  intros t' st' h'' Hk' HP'. apply IH; [by eapply kept_trans|done].
Qed.

(** Values without references. *)
Lemma keeps_text : keeps no_maps decode_text.
Proof. intros base h [] old Hb _; by apply keeps_ret. Qed.

Lemma keeps_flag : keeps no_maps decode_flag.
Proof. intros base h [] old Hb _; by apply keeps_ret. Qed.

Lemma parse_int64_range literal n : parse_int64 literal = Some n → is_int64 n.
Proof.
  unfold parse_int64, is_int64. repeat case_match; intros [= <-]; try done.
  all: rewrite andb_true_iff, Z.leb_le, Z.ltb_lt in *; lia.
Qed.

(** An [int64] variable holds an [int64] value. *)
Definition int64_in : placed Z := λ _ _ n, is_int64 n.

Lemma keeps_int64_in : keeps int64_in decode_int64.
Proof.
  intros base h [] old Hb HP; try by apply keeps_ret. unfold decode_int64.
  destruct (parse_int64 _) eqn:Hp; apply keeps_ret; [by eapply parse_int64_range|done].
Qed.

Lemma keeps_pointer {T} (zero : T) d : keeps no_maps d → keeps no_maps (decode_pointer zero d).
Proof.
  intros Hd base h v old Hb _. unfold decode_pointer. destruct v; try by apply keeps_ret.
  all: eapply keeps_bind; [by apply Hd|intros; by apply keeps_ret].
Qed.

Lemma keeps_slice {T} (zero : T) d : keeps no_maps d → keeps no_maps (decode_slice zero d).
Proof.
  intros Hd base h v old Hb _. unfold decode_slice. destruct v; try by apply keeps_ret.
  apply keeps_bind with no_maps; [|intros; by apply keeps_ret].
  apply keeps_each; [done|]. intros a [taken rest] h' Hk _.
  eapply keeps_bind; [apply Hd; [|done]|intros; by apply keeps_ret]. destruct Hk. lia.
Qed.

(** Structs. *)
Definition field_keeps {T} (P : placed T) (f : struct_field T) : Prop :=
  ∀ base h t v, (base ≤ length h)%nat → P base (length h) t → keeps_one P (f.2 t v) base h.

Lemma keeps_struct {T} (P : placed T) (fields : list (struct_field T)) :
  Forall (field_keeps P) fields → keeps P (decode_struct fields).
Proof.
  intros Hf base h v old Hb HP. unfold decode_struct. destruct v; try by apply keeps_ret.
  apply keeps_each; [done|]. intros [key v] t h' Hk HP'. unfold decode_member.
  destruct (select_field _ _); [|by apply keeps_ret].
  destruct (filter _ fields) as [|f fs] eqn:Hfilter; [by apply keeps_ret|].
  apply filter_cons_elem in Hfilter as [Hin _]. rewrite list.Forall_forall in Hf.
  apply (Hf f Hin); [|done]. destruct Hk. lia.
Qed.

Lemma field_keeps_field {T U} (P : placed T) (Q : placed U) name get set (d : decoder X U) :
  keeps Q d →
  (∀ base n t, P base n t → Q base n (get t)) →
  (∀ base n n' t u, (n ≤ n')%nat → P base n t → Q base n' u → P base n' (set t u)) →
  field_keeps P (field name get set d).
Proof.
  intros Hd Hget Hset base h t v Hb HP. unfold field. simpl.
  eapply keeps_bind; [apply Hd; eauto|]. intros u st h' [Hl _] HQ. apply keeps_ret. eauto.
Qed.

Lemma field_keeps_plain {T U} (P : placed T) name get set (d : decoder X U) :
  keeps no_maps d →
  (∀ base n n' t u, (n ≤ n')%nat → P base n t → P base n' (set t u)) →
  field_keeps P (field name get set d).
Proof. intros Hd Hset. apply field_keeps_field with no_maps; [done|done|]. intros. by eapply Hset. Qed.

Lemma field_keeps_unread {T} (P : placed T) name s : field_keeps P (unread name s).
Proof. intros base h t v Hb HP. by apply keeps_ret. Qed.
End keeps.

#[export] Hint Resolve keeps_text keeps_flag keeps_pointer keeps_slice
  field_keeps_unread : decoding.

Section keeps_config.
Context {X : Type}.
Implicit Types h : list (gmap string string).

Lemma keeps_string_map : keeps ref_in (decode_string_map : decoder X _).
Proof.
  intros base h v old Hb HP. unfold decode_string_map. destruct v as [|?|?|?|?|ms]; try by apply keeps_ret.
  assert (∀ l h', kept base h h' → (base ≤ l < length h')%nat →
    keeps_one ref_in (decode_each ms (Some l) Fine (λ r kv,
      let! (s, st) := decode_text kv.2 "" in do! write_map r kv.1 s in ret (r, st)) : M X _) base h')
    as Hloop.
  { intros l h' Hk Hl. assert (ref_in base (length h') (Some l)) as Hr by (by intros ? [= <-]).
    eapply runs_conseq.
    - apply (keeps_each (λ b n r, r = Some l ∧ (b ≤ l < n)%nat)); [done|].
      intros [key w] r h1 Hk1 [-> Hl1].
      eapply keeps_bind; [apply (keeps_text base); [lia|done]|].
      intros u st h2 Hk2 _. destruct Hk2 as [Hlen Hlow].
      destruct (lookup_lt_is_Some_2 h2 l) as [m Hm]; [lia|].
      apply runs_bind. eapply runs_write_map; [exact Hm|]. apply runs_ret.
      split; [done|]. split; [|eexists _, _; split; [done|]; rewrite length_insert; split; [done|lia]].
      split; [by rewrite length_insert|]. intros l' Hl'. apply list_lookup_insert_ne. lia.
    - intros o es h'' (-> & Hk' & r & st & -> & -> & Hl'). split; [done|]. split; [done|].
      exists (Some l), st. split; [done|]. by intros ? [= <-]. }
  destruct old as [l|].
  - apply runs_bind, runs_ret. apply Hloop; [apply kept_refl|by apply HP].
  - apply runs_bind, runs_alloc_map. eapply runs_conseq; [apply Hloop with (l := length h)|].
    + apply (kept_trans _ _ (h ++ [∅])); [|apply kept_refl]. split; [rewrite length_app; lia|].
      intros l Hl. apply lookup_app_l. lia.
    + rewrite length_app. simpl. lia.
    + intros o es h' (-> & Hk & Hr). split; [done|]. split; [|done].
      eapply kept_trans; [|exact Hk]. split; [rewrite length_app; lia|].
      intros l Hl. apply lookup_app_l. lia.
Qed.

Lemma ref_in_mono base n n' r : (n ≤ n')%nat → ref_in base n r → ref_in base n' r.
Proof. intros Hn Hr l Hl. specialize (Hr l Hl). lia. Qed.

Lemma plans_in_mono base n n' m : (n ≤ n')%nat → plans_in base n m → plans_in base n' m.
Proof. intros Hn [Hi Hr Ha]. split; [done| |done]. intros id p Hp. eapply ref_in_mono; eauto. Qed.

(** A plan with a fresh map joins the others. *)
Lemma plans_in_insert base n n' key p (m : gmap string PlanConfig) :
  (base ≤ n ≤ n')%nat → plans_in base n m → ref_in n n' (pc_Parameters p) → plan_int64 p →
  plans_in base n' (<[key := p]> m).
Proof.
  intros Hn [Hi Hr Ha] Hp Hint. split.
  - intros id q [[_ <-]|[_ Hq]]%lookup_insert_Some; [done|by eapply Hi].
  - intros id q Hq l Hl. destruct (decide (id = key)) as [->|Hne].
    + rewrite lookup_insert_eq in Hq. simplify_eq. specialize (Hp l Hl). lia.
    + rewrite lookup_insert_ne in Hq by done. specialize (Hr id q Hq l Hl). lia.
  - intros i j q q' l Hq Hq' Hl Hl'.
    rewrite lookup_insert_Some in Hq, Hq'.
    destruct Hq as [[<- <-]|[_ Hq]], Hq' as [[<- <-]|[_ Hq']]; [done| | |by eapply Ha].
    + specialize (Hp l Hl). specialize (Hr _ _ Hq' l Hl'). lia.
    + specialize (Hp l Hl'). specialize (Hr _ _ Hq l Hl). lia.
Qed.

(** The references of a plan, and of a configuration. *)
Definition plan_in : placed PlanConfig := λ base n p, ref_in base n (pc_Parameters p) ∧ plan_int64 p.
Definition config_in : placed Config := λ base n c, plans_in base n (cf_PlanConfigs c).

Lemma plan_field_plain {U} name (get : PlanConfig → U) set (d : decoder X U) :
  keeps no_maps d →
  (∀ p x, pc_Parameters (set p x) = pc_Parameters p ∧ (plan_int64 p → plan_int64 (set p x))) →
  field_keeps plan_in (field name get set d).
Proof.
  intros Hd Hset. apply field_keeps_plain; [done|]. intros base n n' p x Hn [Hp Hint].
  destruct (Hset p x) as [Heq Hi]. split; [rewrite Heq; by eapply ref_in_mono|by apply Hi].
Qed.

Lemma plan_field_int64 name (get : PlanConfig → Z) set :
  (∀ p, plan_int64 p → is_int64 (get p)) →
  (∀ p x, pc_Parameters (set p x) = pc_Parameters p ∧ (plan_int64 p → is_int64 x → plan_int64 (set p x))) →
  field_keeps plan_in (field (X:=X) name get set decode_int64).
Proof.
  intros Hget Hset. apply field_keeps_field with int64_in; [apply keeps_int64_in| |].
  - intros base n p [_ Hint]. by apply Hget.
  - intros base n n' p x Hn [Hp Hint] Hx. destruct (Hset p x) as [Heq Hi].
    split; [rewrite Heq; by eapply ref_in_mono|by apply Hi].
Qed.

Lemma config_field_plain {U} name (get : Config → U) set (d : decoder X U) :
  keeps no_maps d → (∀ c x, cf_PlanConfigs (set c x) = cf_PlanConfigs c) →
  field_keeps config_in (field name get set d).
Proof.
  intros Hd Hset. apply field_keeps_plain; [done|]. intros base n n' c x Hn Hc.
  unfold config_in. rewrite Hset. by eapply plans_in_mono.
Qed.

Lemma keeps_plan_config : keeps plan_in (decode_plan_config : decoder X _).
Proof.
  apply keeps_struct. unfold decode_plan_config.
  repeat (apply list.Forall_cons; split); [..|by constructor].
  7: { apply field_keeps_field with ref_in; [apply keeps_string_map|by intros ??? []|].
       intros base n n' p r _ [_ Hint] Hr. by split. }
  2, 3, 4: by apply plan_field_int64; unfold plan_int64; [naive_solver|split; [|naive_solver]].
  all: by apply plan_field_plain; [auto with decoding|].
Qed.

Lemma keeps_plain_struct {T} (fields : list (@struct_field X T)) :
  Forall (field_keeps no_maps) fields → keeps no_maps (decode_struct fields).
Proof. apply keeps_struct. Qed.

Lemma keeps_catalog : keeps no_maps (decode_catalog : decoder X _).
Proof.
  assert (keeps no_maps (decode_plan : decoder X _)) as Hplan.
  { apply keeps_struct. repeat constructor; try apply field_keeps_unread.
    apply field_keeps_plain; auto with decoding. }
  assert (keeps no_maps (decode_service : decoder X _)) as Hservice.
  { apply keeps_struct. repeat constructor; try apply field_keeps_unread.
    all: apply field_keeps_plain; auto with decoding. }
  apply keeps_struct. repeat constructor. apply field_keeps_plain; auto with decoding.
Qed.

(** Every plan gets a map object that no other plan has. *)
Lemma keeps_plan_configs :
  keeps plans_in (decode_map zero_PlanConfig decode_plan_config : decoder X _).
Proof.
  intros base h v old Hb HP. unfold decode_map. destruct v as [|?|?|?|?|ms];
    try (apply keeps_ret; first [exact HP|by split]).
  apply keeps_each; [done|]. intros [key w] m h' Hk Hm. cbn [fst snd].
  destruct Hk as [Hlen _]. unfold keeps_one. apply runs_bind.
  eapply runs_conseq; [apply (keeps_plan_config (length h') h' w zero_PlanConfig); [lia|by split]|].
  intros o es h'' (-> & Hk & p & st & -> & Hp & Hint). cbn beta iota.
  apply runs_ret. split; [done|]. split; [eapply kept_weaken; [|exact Hk]; lia|].
  eexists _, _. split; [done|]. destruct Hk as [Hlen' _].
  by apply plans_in_insert with (length h'); [lia|..].
Qed.

Lemma keeps_config : keeps config_in (decode_config : decoder X _).
Proof.
  assert (keeps no_maps (decode_tls : decoder X _)) as Htls.
  { apply keeps_struct. repeat constructor; apply field_keeps_plain; auto with decoding. }
  apply keeps_struct. unfold decode_config.
  repeat (apply list.Forall_cons; split); [..|by constructor].
  9: by apply field_keeps_field with plans_in; [apply keeps_plan_configs| |].
  all: apply config_field_plain; [auto using keeps_catalog with decoding|done].
Qed.

(** What is decoded, and the two kinds of errors. *)
Lemma runs_unmarshal_config h data :
  runs h (unmarshal_config data : M X _) (λ o es h', es = [] ∧ frame [] h h' ∧
    ∃ config err, o = Ret (config, err) ∧ config_in (length h) (length h') config ∧
    match json_parse data with
    | None => config = zero_Config ∧ err = Some JsonSyntaxError
    | Some _ => err = None ∨ err = Some (JsonTypeError "")
    end).
Proof.
  unfold unmarshal_config, unmarshal_with. destruct (json_parse data) as [v|].
  2: { apply runs_ret. split; [done|]. split; [apply frame_refl|]. by eexists _, _. }
  apply runs_bind. eapply runs_conseq; [by apply (keeps_config (length h))|].
  intros o es h' (-> & [Hl Hk] & config & st & -> & Hc). cbn beta iota. apply runs_ret.
  split; [done|]. split; [split; auto|]. eexists _, _. split; [done|]. split; [done|].
  case_bool_decide; auto.
Qed.
End keeps_config.

(** ** The branches of [LoadConfig] *)

Section load_run.
Context `{Files} {certificate : Type} `{X509 certificate}.
Variables (configFile : string) (base n : nat).

Definition readable (data : string) : Prop :=
  configFile ≠ "" ∧ os_Open configFile = None ∧ ioutil_ReadAll configFile = inl data.

Definition host_or_default (c : Config) : Config :=
  if bool_decide (cf_Host c = "") then with_host c DefaultHost else c.

Inductive load_run : Config → option error → Prop :=
  | load_no_path :
      configFile = "" → load_run zero_Config (Some (ErrorString "Must provide a config file"))
  | load_no_file e :
      configFile ≠ "" → os_Open configFile = Some e → load_run zero_Config (Some e)
  | load_unreadable e :
      configFile ≠ "" → os_Open configFile = None → ioutil_ReadAll configFile = inr e →
      load_run zero_Config (Some e)
  | load_syntax data :
      readable data → json_parse data = None → load_run zero_Config (Some JsonSyntaxError)
  | load_type data v c :
      readable data → json_parse data = Some v → config_in base n c →
      load_run c (Some (JsonTypeError ""))
  | load_invalid data v c msg :
      readable data → json_parse data = Some v → config_in base n c → ¬ config_ok c →
      load_run c (Some (ErrorString ("Validating config contents: " +:+ msg)))
  | load_done data v c :
      readable data → json_parse data = Some v → config_in base n c → config_ok c →
      load_run (host_or_default c) None.

(** What a configuration that has been loaded is like. *)
Lemma load_run_done c : load_run c None → config_ok c ∧ cf_Host c ≠ "" ∧ config_in base n c.
Proof.
  inversion 1 as [| | | | | |data v c' _ _ Hin Hok]; subst. unfold host_or_default.
  case_bool_decide; [|done]. split; [|split; [discriminate|exact Hin]]. by destruct Hok.
Qed.

(** On every path the numbers are those of [int64] variables. *)
Lemma load_run_int64 c err : load_run c err → config_int64 c.
Proof.
  assert (∀ c, config_in base n c → config_int64 c) as Hin by (by intros ? []).
  assert (config_int64 zero_Config) as Hzero by done.
  destruct 1; try done; [by apply Hin..|]. unfold host_or_default.
  case_bool_decide; [|by apply Hin]. intros id p. by apply (Hin c).
Qed.
End load_run.

Section load_lemmas.
Context {X : Type} `{RuntimeLaws X} {certificate : Type} `{X509 certificate} `{Files}.

Lemma runs_LoadConfig h configFile :
  runs h (LoadConfig configFile : M X _) (λ o es h', es = [] ∧ frame [] h h' ∧
    ∃ config err, o = Ret (config, err) ∧
      load_run configFile (length h) (length h') config err).
Proof.
  unfold LoadConfig. case_bool_decide as Hpath.
  { apply runs_ret. split; [done|]. split; [apply frame_refl|]. eexists _, _. split; [done|].
    by apply load_no_path. }
  destruct (os_Open configFile) as [e|] eqn:Hopen.
  { apply runs_ret. split; [done|]. split; [apply frame_refl|]. eexists _, _. split; [done|].
    by apply load_no_file. }
  destruct (ioutil_ReadAll configFile) as [data|e] eqn:Hread.
  2: { apply runs_ret. split; [done|]. split; [apply frame_refl|]. eexists _, _. split; [done|].
       by apply load_unreadable. }
  assert (readable configFile data) as Hdata by done.
  apply runs_bind. eapply runs_conseq; [apply runs_unmarshal_config|].
  intros o es h' (-> & Hf & c & err & -> & Hin & Hjson). cbn beta iota.
  destruct (json_parse data) as [v|] eqn:Hv.
  2: { destruct Hjson as [-> ->]. apply runs_ret. split; [done|]. split; [done|].
       eexists _, _. split; [done|]. by eapply load_syntax. }
  destruct Hjson as [->| ->].
  2: { apply runs_ret. split; [done|]. split; [done|]. eexists _, _. split; [done|].
       by eapply load_type. }
  apply runs_bind. eapply runs_conseq; [apply runs_Validate|].
  intros o es h'' (-> & -> & err & -> & Hok). cbn beta iota.
  destruct err as [e|]; apply runs_ret; (split; [done|]; split; [done|]; eexists _, _; split; [done|]).
  - eapply load_invalid; [done..|]. intros Hc. by apply Hok in Hc.
  - eapply load_done; [done..|]. by apply Hok.
Qed.
End load_lemmas.

(** ** Properties *)

(** C19: [LoadConfig] refines [load_run], whatever the file holds: no path, a
    file that cannot be opened or read, and text that is not JSON give their
    error and the empty configuration; a value of the wrong type and a
    configuration that is not valid give an error; what is returned without an
    error is valid, has a host, and keeps the parameters of every plan in a map
    object of its own, new in the heap. *)
Theorem load_config_correct {X : Type} `{RuntimeLaws X} {certificate : Type} `{X509 certificate}
    `{Files} (h : list (gmap string string)) (configFile : string) :
  runs h (LoadConfig configFile : M X _) (λ o es h', es = [] ∧ frame [] h h' ∧
    ∃ config err, o = Ret (config, err) ∧
      load_run configFile (length h) (length h') config err).
Proof. apply runs_LoadConfig. Qed.

(** *** A file with a number that is too large *)

#[local] Instance any_X509 : X509 () := λ _ _, inl tt.

Definition one_file (data : string) : Files := {|
  os_Open path := if bool_decide (path = "config.json") then None else Some (SdkError "no such file");
  ioutil_ReadAll _ := inl data;
|}.

Definition large_number : string :=
  "{" +:+ json_string "plan_configs" +:+ ":{" +:+ json_string "p" +:+ ":{" +:+
  json_string "shard_count" +:+ ":9223372036854775808}}}".

Lemma load_config_correct_witness :
  let files := one_file large_number in
  runs [] (LoadConfig "config.json" : M bench _) (λ o es h', es = [] ∧ frame [] [] h' ∧
    ∃ config err, o = Ret (config, err) ∧ load_run "config.json" 0 (length h') config err) ∧
  ∃ c, (LoadConfig "config.json" (bench_start [] (mkBench 0 ec_empty sm_empty pv_empty))).1 =
    Ret (c, Some (JsonTypeError "")).
Proof.
  intros files. split; [apply (load_config_correct [] "config.json")|].
  eexists. vm_compute. reflexivity.
Defined.
