(* ===== verification/JsonText.v ===== *)
(** * The text of a JSON value

    A printer for JSON values, compact as that of [json.Marshal], and the proof
    that the scanner of [Json] reads back what it prints. *)
From S2P Require Import Prelude GoBase Url Json.
From stdpp Require Import pretty.
Local Open Scope Z_scope.

(** ** Printing *)

Fixpoint json_text (v : json) : string :=
  match v with
  | JNull => "null"
  | JBool true => "true"
  | JBool false => "false"
  | JNumber literal => literal
  | JString s => json_string s
  | JArray l => "[" +:+ string_join "," (map json_text l) +:+ "]"
  | JObject ms =>
      "{" +:+ string_join "," (map (λ m, json_string m.1 +:+ ":" +:+ json_text m.2) ms) +:+ "}"
  end.

(** The rest of a number, from a state of the scanner. *)
Fixpoint number_rest (st : number_state) (s : string) : bool :=
  match s with
  | EmptyString => number_complete st
  | String c s' => match step_number st c with Some st' => number_rest st' s' | None => false end
  end.

Definition number_start (c : ascii) : option number_state :=
  if bool_decide (c = "-"%char) then Some NumNeg
  else if bool_decide (c = "0"%char) then Some Num0
  else if byte_in "1" "9" c then Some Num1 else None.

Definition valid_number (literal : string) : bool :=
  match literal with
  | EmptyString => false
  | String c s => match number_start c with Some st => number_rest st s | None => false end
  end.

(** Values that can be printed: numbers are literals, strings are UTF-8. *)
Fixpoint json_wf (v : json) : bool :=
  match v with
  | JNumber literal => valid_number literal
  | JString s => utf8_valid s
  | JArray l => forallb json_wf l
  | JObject ms => forallb (λ m, utf8_valid m.1 && json_wf m.2) ms
  | _ => true
  end.

Definition max_depth {A} (f : A → nat) (l : list A) : nat := foldr (λ x n, Nat.max (f x) n) 0%nat l.

Fixpoint json_depth (v : json) : nat :=
  match v with
  | JArray l => S (max_depth json_depth l)
  | JObject ms => S (max_depth (λ m, json_depth m.2) ms)
  | _ => 0
  end.

(** ** Induction on values *)

Section json_nested_ind.
Variables (P : json → Prop).
Hypothesis P_null : P JNull.
Hypothesis P_bool : ∀ b, P (JBool b).
Hypothesis P_number : ∀ l, P (JNumber l).
Hypothesis P_string : ∀ s, P (JString s).
Hypothesis P_array : ∀ l, Forall P l → P (JArray l).
Hypothesis P_object : ∀ ms, Forall (λ m, P m.2) ms → P (JObject ms).

Fixpoint json_nested_ind (v : json) : P v :=
  match v with
  | JNull => P_null
  | JBool b => P_bool b
  | JNumber l => P_number l
  | JString s => P_string s
  | JArray l => P_array l
      ((fix go l := match l return Forall P l with
                    | [] => Forall_nil_2 P
                    | x :: l' => Forall_cons_2 P x l' (json_nested_ind x) (go l')
                    end) l)
  | JObject ms => P_object ms
      ((fix go ms := match ms return Forall (λ m, P m.2) ms with
                     | [] => Forall_nil_2 (λ m, P m.2)
                     | x :: ms' => Forall_cons_2 (λ m, P m.2) x ms' (json_nested_ind x.2) (go ms')
                     end) ms)
  end.
End json_nested_ind.

(** ** Reading back *)

(** The bytes that follow a value inside a text. *)
Definition delimiter (c : ascii) : Prop :=
  c = ","%char ∨ c = "]"%char ∨ c = "}"%char ∨ is_json_space c = true.

(** A value has been read, and the rest of the input follows. *)
Definition scan_after (s : option scanner) (input : string) : option scanner :=
  match s with Some s => scan s input | None => None end.

(** The scanner is about to read a value. *)
Definition at_value (m : scan_mode) : Prop := m = BeginValue ∨ m = BeginValueOrEmpty.

Definition awaits_value (k : list scan_frame) : Prop := ∀ ms k', k ≠ FObject ms None :: k'.

Definition reads_back (v : json) : Prop := ∀ k m c rest,
  awaits_value k → json_wf v = true → Z.of_nat (length k + json_depth v) <= maxNestingDepth → at_value m → delimiter c →
  scan (mkScanner k m) (json_text v +:+ String c rest) =
  scan_after (finish_value k v) (String c rest).

Lemma scan_after_value k v c rest :
  match finish_value k v with
  | Some s' => match step_after s' c with Some s'' => scan s'' rest | None => None end
  | None => None
  end = scan_after (finish_value k v) (String c rest).
Proof. destruct k as [|[l|ms [key|]] k']; done. Qed.

Lemma not_in_number st c : delimiter c → step_number st c = None.
Proof.
  intros [-> |[-> |[-> |Hc]]]; [by destruct st..|].
  destruct c as [[] [] [] [] [] [] [] []]; try discriminate Hc; by destruct st.
Qed.

Lemma scan_number_rest k st raw s c rest :
  number_rest st s = true → delimiter c →
  scan (mkScanner k (InNumber st raw)) (s +:+ String c rest) =
  scan_after (finish_value k (JNumber (raw +:+ s))) (String c rest).
Proof.
  intros Hs Hc. revert st raw Hs. induction s as [|d s IH]; intros st raw Hs; simpl in Hs.
  - rewrite string_app_nil_l, string_app_nil_r. cbn [scan scan_step sc_mode sc_stack].
    rewrite not_in_number, Hs by done. rewrite <-scan_after_value. by destruct (finish_value _ _).
  - rewrite string_app_cons. cbn [scan scan_step sc_mode sc_stack].
    destruct (step_number st d) as [st'|]; [|done]. rewrite IH by done.
    by rewrite string_app_assoc, string_app_cons, string_app_nil_l.
Qed.

Lemma at_value_step k m c :
  at_value m → is_json_space c = false → c ≠ "]"%char →
  scan_step (mkScanner k m) c = step_begin_value k c.
Proof.
  intros [-> | ->] Hs Hc; cbn [scan_step sc_mode sc_stack]; rewrite Hs; [done|].
  by rewrite bool_decide_false.
Qed.

Lemma push_ok f k m :
  Z.of_nat (S (length k)) <= maxNestingDepth → push f k m = Some (mkScanner (f :: k) m).
Proof. intros H. unfold push. simpl length. by rewrite (proj2 (Z.leb_le _ _)). Qed.

Lemma max_depth_cons {A} (f : A → nat) x l :
  (f x ≤ max_depth f (x :: l) ∧ max_depth f l ≤ max_depth f (x :: l))%nat.
Proof. unfold max_depth. simpl. lia. Qed.

(** The elements of an array. *)
Lemma scan_elements l : ∀ k acc m t,
  l ≠ [] → Forall reads_back l → forallb json_wf l = true → at_value m →
  Z.of_nat (S (length k) + max_depth json_depth l) <= maxNestingDepth →
  scan (mkScanner (FArray acc :: k) m) (string_join "," (map json_text l) +:+ String "]" t) =
  scan_after (finish_value k (JArray (rev acc ++ l))) t.
Proof.
  induction l as [|x l IH]; intros k acc m t Hne Hl Hwf Hm Hd; [done|].
  apply list.Forall_cons in Hl as [Hx Hl]. simpl in Hwf. apply andb_true_iff in Hwf as [Hwx Hwf].
  destruct (max_depth_cons json_depth x l) as [D1 D2].
  assert (Z.of_nat (length (FArray acc :: k) + json_depth x) <= maxNestingDepth) as Hdx
    by (simpl length; lia).
  destruct l as [|y l].
  - cbn [map string_join]. rewrite Hx by (done || by right; left).
    done.
  - change (string_join "," (map json_text (x :: y :: l))) with
      (json_text x +:+ "," +:+ string_join "," (map json_text (y :: l))).
    rewrite string_app_assoc, (string_app_cons ","), string_app_nil_l.
    rewrite string_app_cons. rewrite Hx by (done || by left).
    cbn [finish_value scan_after scan].
    change (scan_step _ ",") with (Some (mkScanner (FArray (x :: acc) :: k) BeginValue)).
    cbv iota. rewrite IH; [|done..|by left|lia]. cbn [rev]. by rewrite <-app_assoc.
Qed.

Definition member_text (m : string * json) : string := json_string m.1 +:+ ":" +:+ json_text m.2.

(** The members of an object. *)
Lemma scan_text_members ms : ∀ k acc m t,
  ms ≠ [] → Forall (λ m, reads_back m.2) ms →
  forallb (λ m, utf8_valid m.1 && json_wf m.2) ms = true → m = BeginString ∨ m = BeginStringOrEmpty →
  Z.of_nat (S (length k) + max_depth (λ m, json_depth m.2) ms) <= maxNestingDepth →
  scan (mkScanner (FObject acc None :: k) m) (string_join "," (map member_text ms) +:+ String "}" t) =
  scan_after (finish_value k (JObject (rev acc ++ ms))) t.
Proof.
  induction ms as [|[key x] ms IH]; intros k acc m t Hne Hms Hwf Hm Hd; [done|].
  apply list.Forall_cons in Hms as [Hx Hms]. simpl in Hwf, Hx.
  rewrite !andb_true_iff in Hwf. destruct Hwf as [[Hkey Hwx] Hwf].
  destruct (max_depth_cons (λ m, json_depth m.2) (key, x) ms) as [D1 D2]. cbn [snd] in D1.
  assert (∀ c rest, delimiter c →
    scan (mkScanner (FObject acc None :: k) m) (member_text (key, x) +:+ String c rest) =
    scan (mkScanner (FObject ((key, x) :: acc) None :: k) EndValue) (String c rest)) as Hmember.
  { intros c rest Hc. unfold member_text. cbn [fst snd].
    rewrite !string_app_assoc. rewrite scan_app, scan_quoted by (done || by destruct Hm as [-> | ->]).
    cbn [finish_string]. rewrite unquote_quote_string by done.
    rewrite string_app_cons, string_app_nil_l. cbn [scan].
    change (scan_step _ ":") with (Some (mkScanner (FObject acc (Some key) :: k) BeginValue)).
    cbv iota. rewrite Hx; [done..|simpl length; lia|by left|done]. }
  destruct ms as [|y ms].
  - cbn [map string_join]. by rewrite Hmember by (by right; right; left).
  - change (string_join "," (map member_text ((key, x) :: y :: ms))) with
      (member_text (key, x) +:+ "," +:+ string_join "," (map member_text (y :: ms))).
    rewrite string_app_assoc, (string_app_cons ","), string_app_nil_l.
    rewrite string_app_cons. rewrite Hmember by (by left). cbn [scan].
    change (scan_step _ ",") with (Some (mkScanner (FObject ((key, x) :: acc) None :: k) BeginString)).
    cbv iota. rewrite IH; [|done..|by left|lia]. cbn [rev]. by rewrite <-app_assoc.
Qed.

Lemma number_start_step k m c st :
  number_start c = Some st → at_value m →
  scan_step (mkScanner k m) c = Some (mkScanner k (InNumber st (String c ""))).
Proof.
  intros Hc Hm. destruct c as [[] [] [] [] [] [] [] []]; try discriminate Hc;
    injection Hc as <-; by destruct Hm as [-> | ->].
Qed.

(** Whatever is printed is read back. *)
Lemma scan_json_text v : reads_back v.
Proof.
  induction v as [|b|l|s|l IH|ms IH] using json_nested_ind; intros k m c rest Hk Hwf Hd Hm Hc.
  - by destruct Hm as [-> | ->].
  - by destruct b, Hm as [-> | ->].
  - simpl in Hwf. destruct l as [|d l]; [done|]. simpl in Hwf.
    destruct (number_start d) as [st|] eqn:Hst; [|done].
    change (json_text (JNumber (String d l))) with (String d l). rewrite string_app_cons. cbn [scan].
    rewrite (number_start_step k m d st) by done. by rewrite scan_number_rest.
  - simpl in Hwf. change (json_text (JString s)) with (json_string s).
    assert (∀ o, finish_string k o = finish_value k (JString (unquote o))) as Hkey.
    { intros o. destruct k as [|[l|ms [key|]] k']; try done. by destruct (Hk ms k'). }
    rewrite scan_app, scan_quoted by (done || by destruct Hm as [-> | ->]).
    by rewrite Hkey, unquote_quote_string.
  - simpl in Hwf. cbn [json_depth] in Hd. cbn [json_text].
    rewrite !string_app_assoc, (string_app_cons "["), string_app_nil_l. cbn [scan].
    rewrite at_value_step by done. cbn [step_begin_value].
    change (step_begin_value k "[") with (push (FArray []) k BeginValueOrEmpty).
    rewrite push_ok by lia. rewrite (string_app_cons "]"), string_app_nil_l.
    destruct l as [|x l]; [done|]. rewrite scan_elements by (done || lia || by right). done.
  - simpl in Hwf. cbn [json_depth] in Hd. cbn [json_text].
    rewrite !string_app_assoc, (string_app_cons "{"), string_app_nil_l. cbn [scan].
    rewrite at_value_step by done.
    change (step_begin_value k "{") with (push (FObject [] None) k BeginStringOrEmpty).
    rewrite push_ok by lia. rewrite (string_app_cons "}"), string_app_nil_l.
    destruct ms as [|x ms]; [done|]. fold member_text.
    rewrite scan_text_members by (done || lia || by right). done.
Qed.

Lemma json_parse_text v :
  json_wf v = true → Z.of_nat (json_depth v) <= maxNestingDepth → json_parse (json_text v) = Some v.
Proof.
  intros Hwf Hd. unfold json_parse.
  rewrite (scan_json_text v [] BeginValue " "%char ""); [done|by intros ??|done|exact Hd|by left|].
  by right; right; right.
Qed.

(** ** Integers as literals *)

Lemma digit_char x : (x < 10)%N →
  (step_number Num1 (pretty_N_char x) = Some Num1 ∧ byte_val (pretty_N_char x) - byte_val "0" = Z.of_N x ∧
   is_digit (pretty_N_char x) = true) ∧
  (x ≠ 0%N → number_start (pretty_N_char x) = Some Num1).
Proof.
  intros Hx. assert (x = 0 ∨ x = 1 ∨ x = 2 ∨ x = 3 ∨ x = 4 ∨ x = 5 ∨ x = 6 ∨ x = 7 ∨ x = 8 ∨ x = 9)%N
    as Hc by lia.
  repeat (destruct Hc as [->|Hc]; [done|]). by subst x.
Qed.

(** Division by ten, digit by digit: the digits of [x] in front of [s]. *)
Lemma pretty_N_go_spec x s :
  (0 < x)%N → string_forallb is_digit s = true → number_rest Num1 s = true →
  string_forallb is_digit (pretty_N_go x s) = true ∧ valid_number (pretty_N_go x s) = true ∧
  digits_val 0 (pretty_N_go x s) = digits_val (Z.of_N x) s.
Proof.
  revert s. induction (N.lt_wf_0 x) as [x _ IH]. intros s Hx Hs Hr.
  rewrite pretty_N_go_step by lia.
  destruct (digit_char (x `mod` 10)%N) as [(Hstep & Hv & Hd) Hst]; [apply N.mod_lt; lia|].
  assert (Z.of_N x = Z.of_N (x `div` 10) * 10 + Z.of_N (x `mod` 10)) as Hdm.
  { rewrite N2Z.inj_div, N2Z.inj_mod. pose proof (Z.div_mod (Z.of_N x) 10). lia. }
  destruct (decide (x `div` 10 = 0)%N) as [Hz|Hnz].
  - rewrite Hz, pretty_N_go_0 in *. cbn [string_forallb valid_number digits_val].
    rewrite Hd, Hv. split; [done|]. split; [rewrite Hst; [done|lia]|]. f_equal. lia.
  - destruct (IH (x `div` 10)%N) with (s := String (pretty_N_char (x `mod` 10)) s) as (H1 & H2 & H3).
    + apply N.div_lt; lia.
    + by apply N.neq_0_lt_0.
    + simpl. by rewrite Hd.
    + cbn [number_rest]. by rewrite Hstep.
    + split; [done|]. split; [done|]. rewrite H3. cbn [digits_val]. rewrite Hd, Hv. f_equal. lia.
Qed.

Lemma pretty_pos_spec p :
  string_forallb is_digit (pretty (N.pos p)) = true ∧ valid_number (pretty (N.pos p)) = true ∧
  digits_val 0 (pretty (N.pos p)) = Z.pos p.
Proof. destruct (pretty_N_go_spec (N.pos p) "") as (H1 & H2 & H3); done. Qed.

Lemma valid_pretty (n : Z) : valid_number (pretty n) = true.
Proof.
  destruct n as [|p|p]; [done| |]; destruct (pretty_pos_spec p) as (Hd & Hv & _); [exact Hv|].
  change (pretty (Z.neg p)) with (String "-" (pretty (N.pos p))).
  destruct (pretty (N.pos p)) as [|c s]; [done|]. simpl in Hd, Hv |- *.
  apply andb_true_iff in Hd as [Hd _]. revert Hd Hv.
  destruct c as [[] [] [] [] [] [] [] []]; try done.
Qed.
