(* ===== verification/ConfigDocument.v ===== *)
(** * A configuration read back from its document

    The JSON document with all the fields of a configuration, and the proof that
    [LoadConfig] reads the same configuration from it: every field under its tag,
    the maps in new objects of the heap.  A number of a plan that does not fit is
    refused wherever it is in the document. *)
From S2P Require Import Prelude GoBase Sdk Providers Go Interfaces Bench Json JsonDecode Config ConfigFile.
From S2P Require Import JsonText ConfigLoad.
From stdpp Require Import pretty.
Local Open Scope Z_scope.
Local Open Scope go_scope.

(** ** The document *)

Definition string_map_json (m : gmap string string) : json :=
  JObject (prod_map id JString <$> sorted_entries m).

(** What a reference stands for in the heap [h]. *)
Definition contents (h : list (gmap string string)) (r : map_ref) : option (gmap string string) :=
  match r with None => None | Some l => h !! l end.

Definition plan_config_json (h : list (gmap string string)) (p : PlanConfig) : json :=
  JObject [
    ("instance_type", JString (pc_InstanceType p));
    ("replicas_per_node_group", JNumber (pretty (pc_ReplicasPerNodeGroup p)));
    ("shard_count", JNumber (pretty (pc_ShardCount p)));
    ("snapshot_retention_limit", JNumber (pretty (pc_SnapshotRetentionLimit p)));
    ("automatic_failover_enabled", JBool (pc_AutomaticFailoverEnabled p));
    ("multi_az_enabled", JBool (pc_MultiAZEnabled p));
    ("parameters", from_option string_map_json JNull (contents h (pc_Parameters p)));
    ("engine", JString (pc_Engine p));
    ("engine_version", JString (pc_EngineVersion p));
    ("cache_parameter_group_family", JString (pc_CacheParameterGroupFamily p))].

Definition plan_json (p : ServicePlan) : json := JObject [("id", JString (plan_ID p))].

Definition service_json (s : Service) : json :=
  JObject [("id", JString (service_ID s)); ("plans", JArray (plan_json <$> service_Plans s))].

Definition tls_json (t : TLSConfig) : json :=
  JObject [("certificate", JString (tls_Certificate t)); ("private_key", JString (tls_PrivateKey t))].

Definition catalog_json (services : list Service) : json :=
  JObject [("services", JArray (service_json <$> services))].

(** [catalog] and [plans] are the documents of the catalog and of the plans. *)
Definition config_json_with (catalog plans : json) (c : Config) : json :=
  JObject [
    ("log_level", JString (cf_LogLevel c));
    ("username", JString (cf_Username c));
    ("password", JString (cf_Password c));
    ("region", JString (cf_Region c));
    ("broker_name", JString (cf_BrokerName c));
    ("cache_subnet_group_name", JString (cf_CacheSubnetGroupName c));
    ("vpc_security_group_ids", JArray (JString <$> cf_VpcSecurityGroupIds c));
    ("catalog", catalog);
    ("plan_configs", plans);
    ("kms_key_id", JString (cf_KmsKeyID c));
    ("secrets_manager_path", JString (cf_SecretsManagerPath c));
    ("host", JString (cf_Host c));
    ("tls", from_option tls_json JNull (cf_TLS c))].

Definition plans_json (h : list (gmap string string)) (m : gmap string PlanConfig) : json :=
  JObject (prod_map id (plan_config_json h) <$> sorted_entries m).

Definition config_json (h : list (gmap string string)) (c : Config) : json :=
  config_json_with (catalog_json (cf_Catalog c)) (plans_json h (cf_PlanConfigs c)) c.

(** ** The same configuration in another heap *)

Definition with_parameters (p : PlanConfig) (r : map_ref) : PlanConfig :=
  mkPlanConfig (pc_InstanceType p) (pc_ReplicasPerNodeGroup p) (pc_ShardCount p)
    (pc_SnapshotRetentionLimit p) (pc_AutomaticFailoverEnabled p) (pc_MultiAZEnabled p) r
    (pc_Engine p) (pc_EngineVersion p) (pc_CacheParameterGroupFamily p).

Definition with_plans (c : Config) (m : gmap string PlanConfig) : Config :=
  mkConfig (cf_LogLevel c) (cf_Username c) (cf_Password c) (cf_Region c) (cf_BrokerName c)
    (cf_CacheSubnetGroupName c) (cf_VpcSecurityGroupIds c) (cf_Catalog c) m
    (cf_KmsKeyID c) (cf_SecretsManagerPath c) (cf_Host c) (cf_TLS c).

Definition same_map (h : list (gmap string string)) (m : option (gmap string string)) (r : map_ref)
    : Prop :=
  match m with None => r = None | Some m => ∃ l, r = Some l ∧ h !! l = Some m end.

Definition same_plan (h h' : list (gmap string string)) (p p' : PlanConfig) : Prop :=
  ∃ r, p' = with_parameters p r ∧ same_map h' (contents h (pc_Parameters p)) r.

Definition same_config (h h' : list (gmap string string)) (c c' : Config) : Prop :=
  ∃ m, c' = with_plans c m ∧
    ∀ id, option_Forall2 (same_plan h h') (cf_PlanConfigs c !! id) (m !! id).

(** ** Integers *)

(** The decimal digits of an integer are parsed, and those of one that does not
    fit are refused. *)
Lemma parse_pretty_any n :
  parse_int64 (pretty n) = if (- 2 ^ 63 <=? n) && (n <? 2 ^ 63) then Some n else None.
Proof.
  destruct n as [|p|p]; [done| |].
  - destruct (pretty_pos_spec p) as (Hd & _ & Hv). change (pretty (Z.pos p)) with (pretty (N.pos p)).
    unfold parse_int64. destruct (pretty (N.pos p)) as [|c rest] eqn:Hp; [by simpl in Hv|].
    rewrite bool_decide_false; [by rewrite Hd, Hv|]. intros ->. by simpl in Hd.
  - destruct (pretty_pos_spec p) as (Hd & _ & Hv).
    change (pretty (Z.neg p)) with (String "-" (pretty (N.pos p))).
    unfold parse_int64. rewrite bool_decide_true by done. by rewrite Hd, Hv.
Qed.

Lemma parse_pretty n : is_int64 n → parse_int64 (pretty n) = Some n.
Proof.
  intros [Hlow Hhigh]. rewrite parse_pretty_any.
  by rewrite (proj2 (Z.leb_le _ _) Hlow), (proj2 (Z.ltb_lt _ _) Hhigh).
Qed.

Lemma parse_pretty_wide n : ¬ is_int64 n → parse_int64 (pretty n) = None.
Proof.
  intros Hn. rewrite parse_pretty_any. destruct (_ && _) eqn:Hb; [|done].
  apply andb_true_iff in Hb as [Hl Hh]. destruct Hn. unfold is_int64. lia.
Qed.

(** ** Steps of the decoder

    [steps m h t h']: from the heap [h], [m] decodes [t] without an error and
    leaves the heap [h']. *)
Section steps.
Context {X : Type}.
Implicit Types h : list (gmap string string).

Definition steps {T} (m : M X (T * status)) h (t : T) h' : Prop :=
  ∀ tr w, m (mkState h tr w) = (Ret (t, Fine), mkState h' tr w).

Lemma steps_ret {T} (t : T) h : steps (ret (t, Fine)) h t h.
Proof. done. Qed.

Lemma steps_bind {T U} (m : M X (U * status)) (k : U * status → M X (T * status)) h u h1 t h2 :
  steps m h u h1 → steps (k (u, Fine)) h1 t h2 → steps (bind m k) h t h2.
Proof. intros Hm Hk tr w. unfold bind. by rewrite Hm. Qed.

Lemma steps_cons {A T} (a : A) l (t : T) body h t1 h1 t2 h2 :
  steps (body t a) h t1 h1 → steps (decode_each l t1 Fine body) h1 t2 h2 →
  steps (decode_each (a :: l) t Fine body) h t2 h2.
Proof. intros Ha Hl. cbn [decode_each]. rewrite bool_decide_false by done. by eapply steps_bind. Qed.

(** The member of a struct that is at the position [i] among its fields. *)
Lemma decode_member_field {T U} (i : nat) (fields : list (@struct_field X T)) name (get : T → U)
    set d v t :
  fields !! i = Some (field name get set d) → bool_decide (NoDup (fst <$> fields)) = true →
  decode_member fields t (name, v) = (let! (u, st) := d v (get t) in ret (set t u, st)).
Proof.
  intros Hi Hnd%bool_decide_eq_true.
  assert (name ∈ fst <$> fields) as Hname.
  { apply list_elem_of_fmap. exists (field name get set d). split; [done|].
    by eapply list_elem_of_lookup_2. }
  unfold decode_member, select_field. cbn [fst snd]. rewrite bool_decide_true by done.
  destruct (filter _ fields) as [|f fs] eqn:Hf.
  - exfalso. rewrite filter_nil_forall in Hf. eapply (Hf (field name get set d)); [|done].
    by eapply list_elem_of_lookup_2.
  - apply filter_cons_elem in Hf as [Hin Hfn].
    apply list_elem_of_lookup in Hin as [j Hj].
    assert (i = j) as ->.
    { apply (NoDup_lookup _ _ _ name Hnd); (etrans; [apply list_lookup_fmap|]).
      - by apply (f_equal (fmap fst)) in Hi.
      - apply (f_equal (fmap fst)) in Hj. by rewrite <-Hfn. }
    rewrite Hi in Hj. by injection Hj as <-.
Qed.

Lemma steps_field {T U} (i : nat) (fields : list (@struct_field X T)) name (get : T → U) set d v l
    t h u h1 t2 h2 :
  fields !! i = Some (field name get set d) → bool_decide (NoDup (fst <$> fields)) = true →
  steps (d v (get t)) h u h1 →
  steps (decode_each l (set t u) Fine (decode_member fields)) h1 t2 h2 →
  steps (decode_each ((name, v) :: l) t Fine (decode_member fields)) h t2 h2.
Proof.
  intros Hi Hnd Hd Hl. eapply steps_cons; [|exact Hl].
  rewrite (decode_member_field i fields name get set d v t Hi Hnd).
  eapply steps_bind; [exact Hd|apply steps_ret].
Qed.

Lemma steps_text s old h : steps (decode_text (JString s) old) h s h.
Proof. done. Qed.

Lemma steps_flag b old h : steps (decode_flag (JBool b) old) h b h.
Proof. done. Qed.

Lemma steps_int64 n old h : is_int64 n → steps (decode_int64 (JNumber (pretty n)) old) h n h.
Proof. intros Hn tr w. unfold decode_int64. by rewrite parse_pretty. Qed.

Lemma steps_slice {T} (zero : T) d (enc : T → json) (l : list T) h :
  (∀ t, steps (d (enc t) zero) h t h) →
  steps (decode_slice zero d (JArray (enc <$> l)) []) h l h.
Proof.
  intros Hd. unfold decode_slice. eapply (steps_bind _ _ _ (l, [])); [|apply steps_ret].
  assert (∀ taken, steps (decode_each (enc <$> l) (taken, []) Fine (λ ts v,
    let (taken, rest) := ts in let! (t, st) := d v (default zero (head rest)) in
    ret ((taken ++ [t], tail rest), st))) h (taken ++ l, []) h) as Hgen; [|by apply Hgen].
  induction l as [|t l IH]; intros taken; [by rewrite app_nil_r|].
  eapply steps_cons; [by eapply steps_bind; [apply Hd|apply steps_ret]|].
  cbn [tail]. replace (taken ++ t :: l) with ((taken ++ [t]) ++ l) by by rewrite <-app_assoc.
  apply IH.
Qed.

(** Two distinct lists of keys. *)
Lemma list_to_map_cons_union {V} k (v : V) l (acc : gmap string V) :
  k ∉ l.*1 → list_to_map ((k, v) :: l) ∪ acc = list_to_map l ∪ <[k := v]> acc.
Proof.
  intros Hk. cbn [list_to_map foldr]. rewrite <-insert_union_r; [by rewrite insert_union_l|].
  by apply not_elem_of_list_to_map_1.
Qed.

Lemma steps_string_map (m : gmap string string) h :
  steps (decode_string_map (string_map_json m) None) h (Some (length h)) (h ++ [m]).
Proof.
  unfold decode_string_map, string_map_json. intros tr w. unfold bind at 1. cbn [alloc_map st_maps].
  assert (∀ l acc, NoDup l.*1 → steps (decode_each (prod_map id JString <$> l) (Some (length h)) Fine
    (λ r kv, let! (s, st) := decode_text kv.2 "" in do! write_map r kv.1 s in ret (r, st)))
    (h ++ [acc]) (Some (length h)) (h ++ [list_to_map l ∪ acc])) as Hgen.
  { induction l as [|[k v] l IH]; intros acc Hnd.
    - intros tr' w'. cbn. by rewrite (left_id_L ∅ (∪)).
    - apply NoDup_cons in Hnd as [Hk Hnd].
      rewrite list_to_map_cons_union by done. eapply steps_cons; [|by apply IH].
      intros tr' w'. unfold bind. cbn. rewrite lookup_app_r, Nat.sub_diag by lia. cbn.
      rewrite insert_app_r_alt, Nat.sub_diag by lia. done. }
  rewrite Hgen by apply sorted_entries_NoDup.
  by rewrite list_to_map_sorted, (right_id_L ∅ (∪)).
Qed.
End steps.

(** ** Every part of the document *)

(** The fields of a record that is being filled in. *)
Ltac record_simpl :=
  cbv beta;
  cbn [plan_ID service_ID service_Plans tls_Certificate tls_PrivateKey
    pc_InstanceType pc_ReplicasPerNodeGroup pc_ShardCount pc_SnapshotRetentionLimit
    pc_AutomaticFailoverEnabled pc_MultiAZEnabled pc_Parameters pc_Engine pc_EngineVersion
    pc_CacheParameterGroupFamily
    cf_LogLevel cf_Username cf_Password cf_Region cf_BrokerName cf_CacheSubnetGroupName
    cf_VpcSecurityGroupIds cf_Catalog cf_PlanConfigs cf_KmsKeyID cf_SecretsManagerPath cf_Host
    cf_TLS].

(** The next member is the field at this position. *)
Ltac field_step i tac :=
  eapply (steps_field i); [reflexivity|reflexivity|record_simpl; tac|record_simpl].

Section parts.
Context {X : Type}.
Implicit Types h : list (gmap string string).

Lemma steps_plan (p : ServicePlan) h : steps (decode_plan (plan_json p) (mkServicePlan "") : M X _) h p h.
Proof. destruct p as [id]. field_step 0%nat ltac:(apply steps_text). apply steps_ret. Qed.

Lemma steps_service (s : Service) h :
  steps (decode_service (service_json s) (mkService "" []) : M X _) h s h.
Proof.
  destruct s as [id plans]. field_step 0%nat ltac:(apply steps_text).
  field_step 8%nat ltac:(apply (steps_slice _ _ plan_json); intros; apply steps_plan).
  apply steps_ret.
Qed.

Lemma steps_catalog (c : list Service) h :
  steps (decode_catalog (catalog_json c) [] : M X _) h c h.
Proof.
  field_step 0%nat ltac:(apply (steps_slice _ _ service_json); intros; apply steps_service).
  apply steps_ret.
Qed.

Lemma steps_tls (t : option TLSConfig) h :
  steps (decode_pointer (mkTLSConfig "" "") decode_tls (from_option tls_json JNull t) None : M X _) h t h.
Proof.
  destruct t as [[cert key]|]; [|done]. eapply (steps_bind _ _ _ (mkTLSConfig cert key)); [|done].
  field_step 0%nat ltac:(apply steps_text). field_step 1%nat ltac:(apply steps_text). apply steps_ret.
Qed.

Lemma steps_parameters h0 h r :
  ∃ r' h', steps (decode_string_map (from_option string_map_json JNull (contents h0 r)) None : M X _)
    h r' h' ∧ frame [] h h' ∧ same_map h' (contents h0 r) r'.
Proof.
  destruct (contents h0 r) as [m|]; simpl.
  - exists (Some (length h)), (h ++ [m]). split; [apply steps_string_map|].
    split; [apply frame_alloc|]. exists (length h). split; [done|].
    by rewrite lookup_app_r, Nat.sub_diag by lia.
  - exists None, h. split; [done|]. split; [apply frame_refl|done].
Qed.

Lemma steps_plan_config h0 h p :
  plan_int64 p →
  ∃ p' h', steps (decode_plan_config (plan_config_json h0 p) zero_PlanConfig : M X _) h p' h' ∧
    frame [] h h' ∧ same_plan h0 h' p p'.
Proof.
  intros (H1 & H2 & H3). destruct (steps_parameters h0 h (pc_Parameters p)) as (r & h' & Hr & Hf & Hs).
  exists (with_parameters p r), h'. split; [|split; [done|by exists r]].
  unfold decode_plan_config, plan_config_json, decode_struct, zero_PlanConfig.
  field_step 0%nat ltac:(apply steps_text). field_step 1%nat ltac:(by apply steps_int64).
  field_step 2%nat ltac:(by apply steps_int64). field_step 3%nat ltac:(by apply steps_int64).
  field_step 4%nat ltac:(apply steps_flag). field_step 5%nat ltac:(apply steps_flag).
  field_step 6%nat ltac:(exact Hr). field_step 7%nat ltac:(apply steps_text).
  field_step 8%nat ltac:(apply steps_text). field_step 9%nat ltac:(apply steps_text).
  apply steps_ret.
Qed.
(** The plans already read keep their maps. *)
Lemma same_map_frame h h' m r : frame [] h h' → same_map h m r → same_map h' m r.
Proof.
  intros Hf. destruct m as [m|]; [|done]. intros (l & -> & Hl). exists l. split; [done|].
  by eapply frame_lookup.
Qed.

Lemma same_plan_frame h0 h h' p p' : frame [] h h' → same_plan h0 h p p' → same_plan h0 h' p p'.
Proof. intros Hf (r & -> & Hr). exists r. split; [done|]. by eapply same_map_frame. Qed.

Lemma steps_plans h0 l : ∀ h (acc : gmap string PlanConfig),
  NoDup l.*1 → Forall plan_int64 l.*2 → (∀ k, k ∈ l.*1 → acc !! k = None) →
  ∃ m h', steps (decode_each (prod_map id (plan_config_json h0) <$> l) acc Fine (λ m kv,
      let! (t, st) := decode_plan_config kv.2 zero_PlanConfig in ret (<[kv.1 := t]> m, st)) : M X _)
    h m h' ∧ frame [] h h' ∧
    ∀ k, match (list_to_map l : gmap string PlanConfig) !! k with
         | Some p => ∃ p', m !! k = Some p' ∧ same_plan h0 h' p p'
         | None => m !! k = acc !! k
         end.
Proof.
  induction l as [|[k p] l IH]; intros h acc Hnd Hint Hacc.
  { exists acc, h. split; [done|]. split; [apply frame_refl|]. intros k.
    by replace (list_to_map [] !! k) with (@None PlanConfig) by (symmetry; apply lookup_empty). }
  apply NoDup_cons in Hnd as [Hk Hnd]. apply list.Forall_cons in Hint as [Hp Hint].
  destruct (steps_plan_config h0 h p Hp) as (p' & h1 & Hstep & Hf1 & Hsame).
  destruct (IH h1 (<[k := p']> acc)) as (m & h2 & Hsteps & Hf2 & Hm); [done|done| |].
  { intros j Hj. rewrite lookup_insert_ne by (by intros <-). apply Hacc. by apply elem_of_cons; right. }
  exists m, h2. split; [|split; [by eapply frame_trans|]].
  - eapply steps_cons; [eapply steps_bind; [exact Hstep|apply steps_ret]|exact Hsteps].
  - intros j. specialize (Hm j). cbn [list_to_map foldr]. destruct (decide (j = k)) as [->|Hne].
    + rewrite lookup_insert_eq. rewrite not_elem_of_list_to_map_1 in Hm by done.
      rewrite lookup_insert_eq in Hm. exists p'. split; [done|]. by eapply same_plan_frame.
    + rewrite lookup_insert_ne by done. rewrite lookup_insert_ne in Hm by done. exact Hm.
Qed.

(** The document of the plans, of which a nil map has none. *)
Definition plans_document h0 (m : gmap string PlanConfig) (plans : json) : Prop :=
  plans = plans_json h0 m ∨ (m = ∅ ∧ plans = JNull).

Lemma steps_plan_configs h0 h m plans :
  (∀ id p, m !! id = Some p → plan_int64 p) → plans_document h0 m plans →
  ∃ m' h', steps (decode_map zero_PlanConfig decode_plan_config plans ∅ : M X _) h m' h' ∧
    frame [] h h' ∧ ∀ id, option_Forall2 (same_plan h0 h') (m !! id) (m' !! id).
Proof.
  intros Hint [->|[-> ->]].
  2: { exists ∅, h. split; [apply steps_ret|]. split; [apply frame_refl|].
       intros id. rewrite lookup_empty. constructor. }
  destruct (steps_plans h0 (sorted_entries m) h ∅) as (m' & h' & Hsteps & Hf & Hm).
  { apply sorted_entries_NoDup. }
  { apply list.Forall_forall. intros p Hp.
    apply list_elem_of_fmap in Hp as ([id q] & -> & Hq%elem_of_sorted_entries).
    by eapply Hint. }
  { intros k _. apply lookup_empty. }
  exists m', h'. split; [exact Hsteps|]. split; [done|].
  intros id. specialize (Hm id). rewrite list_to_map_sorted in Hm.
  destruct (m !! id) as [p|].
  - destruct Hm as (p' & -> & Hp). by constructor.
  - rewrite Hm, lookup_empty. constructor.
Qed.

(** The whole document. *)
Lemma steps_config_with h0 h c catalog plans :
  config_int64 c → plans_document h0 (cf_PlanConfigs c) plans →
  (∀ h1, steps (decode_catalog catalog [] : M X _) h1 (cf_Catalog c) h1) →
  ∃ c' h', steps (decode_config (config_json_with catalog plans c) zero_Config : M X _) h c' h' ∧
    frame [] h h' ∧ same_config h0 h' c c'.
Proof.
  intros Hint Hplans Hcat.
  destruct (steps_plan_configs h0 h (cf_PlanConfigs c) plans Hint Hplans) as (m & h' & Hsteps & Hf & Hm).
  exists (with_plans c m), h'. split; [|split; [done|by exists m]].
  unfold decode_config, config_json_with, decode_struct, zero_Config.
  field_step 0%nat ltac:(apply steps_text). field_step 1%nat ltac:(apply steps_text).
  field_step 2%nat ltac:(apply steps_text). field_step 3%nat ltac:(apply steps_text).
  field_step 4%nat ltac:(apply steps_text). field_step 5%nat ltac:(apply steps_text).
  field_step 6%nat ltac:(apply steps_slice; intros; apply steps_text).
  field_step 7%nat ltac:(apply Hcat). field_step 8%nat ltac:(exact Hsteps).
  field_step 9%nat ltac:(apply steps_text). field_step 10%nat ltac:(apply steps_text).
  field_step 11%nat ltac:(apply steps_text). field_step 12%nat ltac:(apply steps_tls).
  apply steps_ret.
Qed.
End parts.

Section reads.
Context {X : Type} `{RuntimeLaws X} {certificate : Type} `{X509 certificate} `{Files}.

Lemma runs_steps {T} (m : M X (T * status)) h t h' (Q : outcome (T * status) → list event → _ → Prop) :
  steps m h t h' → Q (Ret (t, Fine)) [] h' → runs h m Q.
Proof.
  intros Hm HQ [h0 tr w] Hs. simpl in Hs. subst h0. rewrite Hm. exists []. simpl. by rewrite app_nil_r.
Qed.

(** The plans of [c'] are those of [c], so the one is valid when the other is. *)
Lemma same_config_ok h h' c c' : same_config h h' c c' → config_ok c ↔ config_ok c'.
Proof.
  intros (m & -> & Hm).
  assert (∀ id, is_Some (cf_PlanConfigs c !! id) ↔ is_Some (m !! id)) as Hdom.
  { intros id. specialize (Hm id). destruct Hm; split; by intros [? ?]. }
  assert (∀ id, in_catalog (with_plans c m) id ↔ in_catalog c id) as Hcat by done.
  split; intros []; split; try done; intros id; [rewrite Hcat|rewrite <-Hcat];
    rewrite ok_plans; [by rewrite Hdom|]. simpl. by rewrite <-Hdom.
Qed.

(** The document is not deep. *)
Lemma max_depth_le {A} (f : A → nat) l n : (∀ x, x ∈ l → f x ≤ n)%nat → (max_depth f l ≤ n)%nat.
Proof.
  induction l as [|x l IH]; intros Hl; simpl; [lia|].
  pose proof (Hl x ltac:(by left)). enough (max_depth f l ≤ n)%nat by lia. apply IH.
  intros y Hy. apply Hl. by right.
Qed.

Lemma service_depth s : (json_depth (service_json s) ≤ 3)%nat.
Proof.
  simpl. enough (max_depth json_depth (plan_json <$> service_Plans s) ≤ 1)%nat by lia.
  apply max_depth_le. intros v Hv. apply list_elem_of_fmap in Hv as (p & -> & _). done.
Qed.

Lemma string_map_depth m : (json_depth (string_map_json m) ≤ 1)%nat.
Proof.
  simpl. enough (max_depth (λ m, json_depth m.2) (prod_map id JString <$> sorted_entries m) ≤ 0)%nat by lia.
  apply max_depth_le. intros v Hv. apply list_elem_of_fmap in Hv as ([k w] & -> & _). done.
Qed.

Lemma plan_config_depth h p : (json_depth (plan_config_json h p) ≤ 2)%nat.
Proof.
  enough (json_depth (from_option string_map_json JNull (contents h (pc_Parameters p))) ≤ 1)%nat
    by (simpl; lia).
  destruct (contents h (pc_Parameters p)) as [m|]; [apply string_map_depth|simpl; lia].
Qed.

Lemma plans_depth h m : (json_depth (plans_json h m) ≤ 3)%nat.
Proof.
  unfold plans_json. simpl. apply le_n_S. apply max_depth_le. intros v Hv.
  apply list_elem_of_fmap in Hv as ([k p] & -> & _). apply plan_config_depth.
Qed.

Lemma catalog_depth services : (json_depth (catalog_json services) ≤ 5)%nat.
Proof.
  assert (max_depth json_depth (service_json <$> services) ≤ 3)%nat as Hsv; [|unfold catalog_json; simpl; lia].
  apply max_depth_le. intros v Hv. apply list_elem_of_fmap in Hv as (p & -> & _). apply service_depth.
Qed.

Lemma config_depth catalog plans h c :
  plans_document h (cf_PlanConfigs c) plans →
  (json_depth (config_json_with catalog plans c) ≤ 4 + json_depth catalog)%nat.
Proof.
  intros Hplans.
  assert (json_depth plans ≤ 3)%nat as Hpl.
  { destruct Hplans as [->|[_ ->]]; [apply plans_depth|simpl; lia]. }
  assert (max_depth json_depth (JString <$> cf_VpcSecurityGroupIds c) ≤ 0)%nat as Hsg.
  { apply max_depth_le. intros v Hv. by apply list_elem_of_fmap in Hv as (p & -> & _). }
  assert (json_depth (from_option tls_json JNull (cf_TLS c)) ≤ 1)%nat as Htl
    by (destruct (cf_TLS c); simpl; lia).
  unfold config_json_with. simpl. lia.
Qed.

(** What the file must hold for [c]. *)
Record document_of h (c : Config) (catalog plans : json) : Prop := {
  doc_plans : plans_document h (cf_PlanConfigs c) plans;
  doc_catalog : ∀ h1, steps (decode_catalog catalog [] : M X _) h1 (cf_Catalog c) h1;
  doc_depth : Z.of_nat (4 + json_depth catalog) <= maxNestingDepth;
  doc_wf : json_wf (config_json_with catalog plans c) = true;
}.

Lemma document_config_json h c :
  json_wf (config_json h c) = true →
  document_of h c (catalog_json (cf_Catalog c)) (plans_json h (cf_PlanConfigs c)).
Proof.
  intros Hwf. split; [by left|apply steps_catalog| |done].
  pose proof (catalog_depth (cf_Catalog c)). unfold maxNestingDepth. lia.
Qed.

Lemma runs_LoadConfig_document h0 h path c catalog plans :
  document_of h0 c catalog plans →
  readable path (json_text (config_json_with catalog plans c)) → config_int64 c →
  runs h (LoadConfig path : M X _) (λ o es h', es = [] ∧ frame [] h h' ∧
    ∃ c', same_config h0 h' c c' ∧
      ((config_ok c ∧ o = Ret (host_or_default c', None)) ∨
       (¬ config_ok c ∧ ∃ msg,
          o = Ret (c', Some (ErrorString ("Validating config contents: " +:+ msg)))))).
Proof.
  intros [Hplans Hcat Hdepth Hwf] (Hpath & Hopen & Hread) Hint.
  set (doc := config_json_with catalog plans c) in *.
  assert (json_parse (json_text doc) = Some doc) as Hparse.
  { apply json_parse_text; [done|]. pose proof (config_depth catalog plans h0 c Hplans).
    fold doc in H3. lia. }
  destruct (steps_config_with h0 h c catalog plans Hint Hplans Hcat) as (c' & h' & Hsteps & Hf & Hsame).
  unfold LoadConfig, unmarshal_config, unmarshal_with. rewrite bool_decide_false by done.
  rewrite Hopen, Hread, Hparse. apply runs_bind, runs_bind.
  apply (runs_steps _ _ _ _ _ Hsteps). cbn beta iota. rewrite bool_decide_true by done.
  apply runs_ret. cbn beta iota. apply runs_bind.
  eapply runs_conseq; [apply runs_Validate|]. intros o es h'' (-> & -> & err & -> & Hok).
  pose proof (same_config_ok _ _ _ _ Hsame) as Hiff.
  destruct err as [e|]; apply runs_ret; (split; [done|]; split; [done|]; exists c'; split; [done|]).
  - right. split; [|by eexists]. intros Hc. apply Hiff, Hok in Hc. done.
  - left. split; [|done]. by apply Hiff, Hok.
Qed.
End reads.

(** ** Numbers that do not fit

    The number of a plan that is not an [int64] value, somewhere in the document. *)
Definition wide_number (v : json) : Prop := ∃ n, v = JNumber (pretty n) ∧ ¬ is_int64 n.

Definition has_member (name : string) (v w : json) : Prop :=
  ∃ members, v = JObject members ∧ (name, w) ∈ members.

Definition out_of_range (v : json) : Prop :=
  ∃ plans id plan name number,
    has_member "plan_configs" v plans ∧ has_member id plans plan ∧ has_member name plan number ∧
    name ∈ ["replicas_per_node_group"; "shard_count"; "snapshot_retention_limit"] ∧
    wide_number number.

(** [faulty m]: what [m] decodes, it decodes with an error. *)
Section faulty.
Context {X : Type}.

Definition faulty {T} (m : M X (T * status)) : Prop :=
  ∀ s t st s', m s = (Ret (t, st), s') → st ≠ Fine.

Lemma faulty_ret {T} (t : T) st : st ≠ Fine → faulty (ret (t, st)).
Proof. by intros Hst s t' st' s' [= <- <- <-]. Qed.

(** The status is kept. *)
Lemma faulty_set {T U} (m : M X (U * status)) (f : U → T) :
  faulty m → faulty (let! (u, st) := m in ret (f u, st)).
Proof.
  intros Hm s t st s'. unfold bind. destruct (m s) as [[[u st1]|q] s1] eqn:E; [|done].
  intros [= <- <- <-]. by apply (Hm _ _ _ _ E).
Qed.

Lemma faulty_each_saved {A T} (l : list A) (t : T) st body :
  st ≠ Fine → faulty (decode_each l t st body : M X _).
Proof.
  revert t st. induction l as [|a l IH]; intros t st Hst; [by apply faulty_ret|]. cbn [decode_each].
  case_bool_decide; [by apply faulty_ret|]. intros s t' st' s'. unfold bind.
  destruct (body t a s) as [[[t1 st1]|q] s1]; [|done]. apply IH. by destruct st, st1.
Qed.

(** One bad element spoils the whole. *)
Lemma faulty_each {A T} (a : A) (l : list A) (t : T) st body :
  a ∈ l → (∀ t, faulty (body t a)) → faulty (decode_each l t st body : M X _).
Proof.
  intros Ha Hbody. revert t st. induction Ha as [a l|a b l _ IH]; intros t st; cbn [decode_each];
    (case_bool_decide; [by apply faulty_ret; subst|]); intros s t' st' s'; unfold bind.
  - destruct (body t a s) as [[[t1 st1]|q] s1] eqn:E; [|done]. apply faulty_each_saved.
    pose proof (Hbody t _ _ _ _ E). by destruct st, st1.
  - destruct (body t b s) as [[[t1 st1]|q] s1]; [|done]. by apply IH.
Qed.

Lemma faulty_struct {T U} (i : nat) (fields : list (@struct_field X T)) name (get : T → U) set d
    members v old :
  fields !! i = Some (field name get set d) → bool_decide (NoDup (fst <$> fields)) = true →
  (name, v) ∈ members → (∀ u, faulty (d v u)) →
  faulty (decode_struct fields (JObject members) old).
Proof.
  intros Hi Hnd Hin Hd. eapply faulty_each; [exact Hin|]. intros t.
  rewrite (decode_member_field i fields name get set d v t Hi Hnd). by apply faulty_set.
Qed.

Lemma faulty_int64 v old : wide_number v → faulty (decode_int64 v old : M X _).
Proof.
  intros (n & -> & Hn). unfold decode_int64. rewrite parse_pretty_wide by done. by apply faulty_ret.
Qed.

Lemma faulty_plan_config name plan number old :
  has_member name plan number →
  name ∈ ["replicas_per_node_group"; "shard_count"; "snapshot_retention_limit"] →
  wide_number number → faulty (decode_plan_config plan old : M X _).
Proof.
  intros (members & -> & Hin) Hname Hn.
  assert (∀ u, faulty (decode_int64 number u : M X _)) as Hd by (intros u; by apply faulty_int64).
  rewrite !elem_of_cons, elem_of_nil in Hname. destruct Hname as [->|[->|[->|[]]]].
  - by eapply (faulty_struct 1 _ "replicas_per_node_group").
  - by eapply (faulty_struct 2 _ "shard_count").
  - by eapply (faulty_struct 3 _ "snapshot_retention_limit").
Qed.

Lemma faulty_config v old : out_of_range v → faulty (decode_config v old : M X _).
Proof.
  intros (plans & id & plan & name & number & (members & -> & Hin) & (entries & -> & Hid) & Hplan & Hname & Hn).
  eapply (faulty_struct 8 _ "plan_configs"); [done|done|exact Hin|]. intros m. unfold decode_map.
  eapply faulty_each; [exact Hid|]. intros t. apply faulty_set. by eapply faulty_plan_config.
Qed.
End faulty.

Lemma runs_unmarshal_wide {X : Type} h data v :
  json_parse data = Some v → out_of_range v →
  runs h (unmarshal_config data : M X _) (λ o _ _, ∃ c, o = Ret (c, Some (JsonTypeError ""))).
Proof.
  intros Hparse Hv s Hs. destruct (runs_unmarshal_config (X:=X) h data s Hs) as (es & Htr & _ & _ & c & err & Ho & _).
  exists es. split; [done|]. rewrite Ho. exists c. do 2 f_equal.
  unfold unmarshal_config, unmarshal_with in Ho. rewrite Hparse in Ho. unfold bind in Ho.
  destruct (decode_config v zero_Config s) as [[[t st]|q] s'] eqn:E; [|done].
  pose proof (faulty_config v zero_Config Hv _ _ _ _ E) as Hst. cbn in Ho.
  rewrite bool_decide_false in Ho by done. congruence.
Qed.

(** ** Properties *)

(** C18: a configuration survives its file: when the file holds the document of
    [c], with all its fields under the tags of the code, [LoadConfig] returns [c]
    if it is valid, with the default host when it has none, and the validation
    error otherwise; the maps of the plans are copied to new objects of the heap
    with the same contents, a nil map staying nil. *)
Theorem load_config_reads {X : Type} `{RuntimeLaws X} {certificate : Type} `{X509 certificate}
    `{Files} (h : list (gmap string string)) (configFile : string) (c : Config) :
  readable configFile (json_text (config_json h c)) → json_wf (config_json h c) = true →
  config_int64 c →
  runs h (LoadConfig configFile : M X _) (λ o es h', es = [] ∧ frame [] h h' ∧
    ∃ c', same_config h h' c c' ∧
      ((config_ok c ∧ o = Ret (host_or_default c', None)) ∨
       (¬ config_ok c ∧ ∃ msg,
          o = Ret (c', Some (ErrorString ("Validating config contents: " +:+ msg)))))).
Proof.
  intros Hread Hwf Hint. by eapply runs_LoadConfig_document; [apply document_config_json|..].
Qed.

#[local] Instance any_X509 : X509 () := λ _ _, inl tt.

(** A configuration with two plans, one of them with parameters. *)
Definition document_heap : list (gmap string string) :=
  [{[ "maxmemory-policy" := "volatile-lru"; "cluster-enabled" := "no" ]}].

Definition document_config : Config :=
  mkConfig "info" "user" "pass" "eu-west-1" "broker" "subnet" ["sg-1"; "sg-2"]
    [mkService "service-1" [mkServicePlan "small"; mkServicePlan "large"]]
    {[ "small" := mkPlanConfig "cache.t3.micro" 0 1 (-7) false false (Some 0%nat) "redis" "6.x" "redis6.x";
       "large" := mkPlanConfig "cache.r5.large" 1 3 7 true true None "redis" "6.x" "redis6.x" ]}
    "key" "path/" "" (Some (mkTLSConfig "cert" "key")).

Lemma document_config_int64 : config_int64 document_config.
Proof.
  intros id p Hp. unfold document_config in Hp. cbn [cf_PlanConfigs] in Hp.
  apply lookup_insert_Some in Hp as [[_ <-]|[_ [_ <-]%lookup_singleton_Some]];
    unfold plan_int64, is_int64; simpl; lia.
Qed.

Lemma load_config_reads_witness :
  let files := one_file (json_text (config_json document_heap document_config)) in
  runs document_heap (LoadConfig "config.json" : M bench _) (λ o es h',
    es = [] ∧ frame [] document_heap h' ∧
    ∃ c', same_config document_heap h' document_config c' ∧
      ((config_ok document_config ∧ o = Ret (host_or_default c', None)) ∨
       (¬ config_ok document_config ∧ ∃ msg,
          o = Ret (c', Some (ErrorString ("Validating config contents: " +:+ msg)))))) ∧
  ∃ c, (LoadConfig "config.json" (bench_start document_heap (mkBench 0 ec_empty sm_empty pv_empty))).1 =
    Ret (c, None).
Proof.
  intros files. split.
  - apply (load_config_reads document_heap "config.json" document_config).
    + done.
    + vm_compute. reflexivity.
    + apply document_config_int64.
  - eexists. vm_compute. reflexivity.
Defined.

(** C36: the plan numbers of a configuration are [int64] values, on every path of
    [LoadConfig], errors included; and a literal that is out of range is neither
    wrapped around nor cut off: a document that has one for a number of a plan is
    refused with a type error, whatever else it holds. *)
Theorem load_numbers_int64 {X : Type} `{RuntimeLaws X} {certificate : Type} `{X509 certificate}
    `{Files} (h : list (gmap string string)) (configFile : string) :
  runs h (LoadConfig configFile : M X _) (λ o es h', ∃ config err,
    o = Ret (config, err) ∧ config_int64 config ∧
    ∀ data v, readable configFile data → json_parse data = Some v → out_of_range v →
      err = Some (JsonTypeError "")).
Proof.
  intros s Hs. destruct (runs_LoadConfig h configFile s Hs) as (es & Htr & _ & _ & config & err & Ho & Hrun).
  exists es. split; [done|]. exists config, err. split; [done|].
  split; [by eapply load_run_int64|]. intros data v (Hpath & Hopen & Hread) Hparse Hv.
  destruct (runs_unmarshal_wide (X:=X) h data v Hparse Hv s Hs) as (es' & _ & c & Hun).
  unfold LoadConfig in Ho. rewrite bool_decide_false, Hopen, Hread in Ho by done.
  unfold bind in Ho. destruct (unmarshal_config data s) as [o' s']. cbn [fst] in Hun. subst o'.
  cbn in Ho. congruence.
Qed.

Lemma load_numbers_int64_witness :
  let files := one_file large_number in
  (∃ c, (LoadConfig "config.json" (bench_start [] (mkBench 0 ec_empty sm_empty pv_empty))).1 =
    Ret (c, Some (JsonTypeError ""))) ∧
  runs [] (LoadConfig "config.json" : M bench _) (λ o es h', ∃ config err,
    o = Ret (config, err) ∧ config_int64 config ∧ err = Some (JsonTypeError "")).
Proof.
  intros files. split; [eexists; vm_compute; reflexivity|].
  eapply runs_conseq; [apply (load_numbers_int64 [] "config.json")|].
  intros o es h' (config & err & Ho & Hint & Herr). exists config, err. split; [done|]. split; [done|].
  eapply Herr; [by split|by vm_compute|].
  eexists _, "p", _, "shard_count", _. split; [by eexists; split; [reflexivity|left]|].
  split; [by eexists; split; [reflexivity|left]|]. split; [by eexists; split; [reflexivity|left]|].
  split; [by right; left|]. exists (2 ^ 63). split; [by vm_compute|unfold is_int64; lia].
Defined.
