(* ===== verification/Startup.v ===== *)
(** * The process

    main.go: the configuration is loaded, the broker is put over the Redis
    provider, and a server is started; and cache-cluster-name-generator/main.go.
    The AWS session, the identity of the account and the network are parameters.
    What [main] serves is a value: the handlers by pattern, the address and the
    TLS settings.  The specification follows the worlds from step to step, so that
    every error and the account are the answers of the machine. *)
From S2P Require Import Prelude GoBase Sdk Providers Go Interfaces Bench Naming.
From S2P Require Import RedisBase RedisProvision RedisService.
From S2P Require Import Config ConfigFile ConfigLoad JsonText ConfigDocument Parameters Broker.
From S2P Require Import BrokerProvision BrokerService.
Local Open Scope go_scope.

(** The machine and the AWS account: [session.NewSession] for a region,
    [sts.GetCallerIdentity], whose output has an [Account], and [net.Listen]
    on an address. *)
Class Machine (X : Type) := {
  aws_NewSession : string → X → option error * X;
  sts_GetCallerIdentity : X → (option (option string) * option error) * X;
  net_Listen : string → X → option error * X;
}.

(** ** The logger *)

Inductive lager_level := DEBUG | INFO | ERROR | FATAL.

(* map: main.go 28-33 logLevels *)
Definition logLevels : list (string * lager_level) :=
  [("DEBUG", DEBUG); ("INFO", INFO); ("ERROR", ERROR); ("FATAL", FATAL)].

(** [strings.ToUpper], as far as it matters for the names of the levels: besides
    the ASCII letters, U+0131 and U+017F have an ASCII letter as upper case. *)
Fixpoint upper_name (s : string) : string :=
  match s with
  | EmptyString => EmptyString
  | String c s1 =>
      let upper := if is_lower c then byte_of_val (byte_val c - 32) else c in
      match s1 with
      | String c1 s2 =>
          if bool_decide (byte_val c = 196%Z) && bool_decide (byte_val c1 = 177%Z)
          then String "I" (upper_name s2)
          else if bool_decide (byte_val c = 197%Z) && bool_decide (byte_val c1 = 191%Z)
          then String "S" (upper_name s2)
          else String upper (upper_name s1)
      | EmptyString => String upper EmptyString
      end
  end.

Definition log_level_of (logLevel : string) : option lager_level :=
  snd <$> head (filter (λ l, l.1 = upper_name logLevel) logLevels).

(** ** The server *)

(** What answers a request: the API of the broker, behind the credentials, or the
    health check, which answers 200 to anyone. *)
Inductive handler :=
  | BrokerAPI (b : Broker) (username password : string)
  | Healthcheck.

Record server (certificate : Type) := mkServer {
  srv_handlers : list (string * handler);
  srv_address : string;
  srv_tls : option (tls_settings certificate);
}.
Arguments mkServer {certificate} _ _ _.
Arguments srv_handlers {certificate} _.
Arguments srv_address {certificate} _.
Arguments srv_tls {certificate} _.

(** [http.ServeMux]: the handler of a path that is clean (the mux redirects the
    others): that of the pattern equal to the path, or of the longest pattern
    that ends in a slash and starts the path. *)
Definition ends_in_slash (pattern : string) : bool :=
  bool_decide (trim_right_byte "/" pattern ≠ pattern).

Definition matches (path pattern : string) : bool :=
  bool_decide (pattern = path) ||
  (ends_in_slash pattern && bool_decide (is_Some (strip_prefix pattern path))).

Definition longer (a b : option (string * handler)) : option (string * handler) :=
  match a, b with
  | Some x, Some y => if (String.length x.1 <? String.length y.1)%nat then b else a
  | None, _ => b
  | _, None => a
  end.

Definition mux_handler (handlers : list (string * handler)) (path : string) : option handler :=
  snd <$> foldr (λ h, longer (if matches path h.1 then Some h else None)) None handlers.

(* map: main.go 83-96 newHTTPHandler *)
Definition newHTTPHandler (serviceBroker : Broker) (config : Config) : list (string * handler) :=
  [("/", BrokerAPI serviceBroker (cf_Username config) (cf_Password config));
   ("/healthcheck", Healthcheck)].

(** ** main.go *)

Section main.
Context {X : Type} `{Runtime X} `{Machine X} {certificate : Type} `{X509 certificate} `{Files}.

(* map: main.go 41-51 newLogger *)
Definition newLogger (logLevel : string) : M X lager_level :=
  match log_level_of logLevel with
  | None => panic (LogFatal ("Invalid log level: " +:+ logLevel))
  | Some laggerLogLevel => ret laggerLogLevel
  end.

(* map: main.go 74-81 userAccount *)
Definition userAccount : M X (string * option error) :=
  let! (getCallerIdentityOutput, err) := external sts_GetCallerIdentity in
  match err with
  | Some err => ret ("", Some err)
  | None =>
      let! output := deref getCallerIdentityOutput in
      let! account := deref output in
      ret (account, None)
  end.

(** The broker and the provider it works over. [session.Must] panics on an
    error. *)
(* map: main.go 53-72 newBroker *)
Definition newBroker (config : Config) : M X (option (Broker * RedisProvider) * option error) :=
  let! err := external (aws_NewSession (cf_Region config)) in
  match err with
  | Some err => panic (PanicError err)
  | None =>
      let! (awsAccountID, err) := userAccount in
      match err with
      | Some err => ret (None, Some err)
      | None =>
          let awsPartition := "aws" in
          let awsRegion := cf_Region config in
          let provider := NewProvider awsAccountID awsPartition awsRegion
            (cf_KmsKeyID config) (cf_SecretsManagerPath config) in
          ret (Some (New config, provider), None)
      end
  end.

(* map: main.go 120-141 CreateListener *)
Definition CreateListener (serviceBroker : Broker) (config : Config) (portNumber : string)
    : M X (option (server certificate) * option error) :=
  let handlers := newHTTPHandler serviceBroker config in
  let listenAddress := cf_Host config +:+ ":" +:+ portNumber in
  let! err := external (net_Listen listenAddress) in
  match err with
  | Some err => ret (None, Some (ErrorString
      ("failed to listen on address " +:+ listenAddress +:+ ": " +:+ error_text err)))
  | None =>
      let tlsConfig :=
        match cf_TLS config with
        | None => (None, None)
        | Some tls => GenerateTLSConfig tls
        end in
      match tlsConfig with
      | (_, Some err) => ret (None, Some (ErrorString ("Error configuring TLS: " +:+ error_text err)))
      | (tlsConfig, None) =>
          do! log LInfo "start" None
            [("port", LString portNumber); ("tls", LBool (TLSEnabled config));
             ("host", LString (cf_Host config)); ("address", LString listenAddress)] in
          ret (Some (mkServer handlers listenAddress tlsConfig), None)
      end
  end.

(** The process: what it prints, and the server it runs from then on. *)
Record process := mkProcess {
  proc_broker : Broker;
  proc_provider : RedisProvider;
  proc_level : lager_level;
  proc_output : string;
  proc_server : server certificate;
}.

Definition fatal {A} (msg : string) (err : error) : M X A := panic (LogFatal (msg +:+ error_text err)).

(** The two flags, with the values they have on the command line. *)
(* map: main.go 36-39 init *)
Definition flags (config port : option string) : string * string :=
  (default "" config, default "3000" port).

(* map: main.go 98-118 main *)
Definition main (configFlag portFlag : option string) : M X process :=
  let (configFilePath, port) := flags configFlag portFlag in
  try! config := LoadConfig configFilePath catch err => fatal "Error loading config file: " err in
  let! logger := newLogger (cf_LogLevel config) in
  try! created := newBroker config catch err => fatal "Error creating broker: " err in
  let! (serviceBroker, provider) := deref created in
  try! httpServer := CreateListener serviceBroker config port
    catch err => fatal "Error creating listener: " err in
  let! httpServer := deref httpServer in
  ret (mkProcess serviceBroker provider logger
         ("ElastiCache Service Broker started on port " +:+ port +:+ "...") httpServer).
End main.
Arguments process : clear implicits.
Arguments mkProcess {certificate} _ _ _ _ _.
Arguments proc_broker {certificate} _.
Arguments proc_provider {certificate} _.
Arguments proc_server {certificate} _.

(** ** cache-cluster-name-generator/main.go *)

(** The lines printed and the exit status; the arguments come after the name of
    the program. *)
(* map: cache-cluster-name-generator/main.go 10-22 main *)
Definition name_generator (args : list string) : list string * nat :=
  match args with
  | [] => (["Must provide a service GUID as the first argument"], 1%nat)
  | id :: _ => (["GUID: " +:+ id; "Hash: " +:+ GenerateReplicationGroupName id], 0%nat)
  end.

(** ** What the process does *)

(** The server for a configuration. *)
Definition serves `{X509 certificate} (c : Config) (port : string) (srv : server certificate) : Prop :=
  srv_address srv = cf_Host c +:+ ":" +:+ port ∧
  srv_handlers srv =
    [("/", BrokerAPI (mkBroker c) (cf_Username c) (cf_Password c)); ("/healthcheck", Healthcheck)] ∧
  match cf_TLS c with
  | None => srv_tls srv = None
  | Some t => ∃ cert settings, X509KeyPair (tls_Certificate t) (tls_PrivateKey t) = inl cert ∧
      srv_tls srv = Some settings ∧ ts_Certificates settings = [cert] ∧
      ts_MinVersion settings = VersionTLS12
  end.

Section main_run.
Context {X : Type} `{Machine X} {certificate : Type} `{X509 certificate} `{Files}.
Variables (configFilePath port : string) (base n : nat).
Abbreviation loads c err := (load_run configFilePath base n c err).

Definition start_line (c : Config) : event :=
  EvLog (mkLogLine LInfo "start" None
    [("port", LString port); ("tls", LBool (TLSEnabled c)); ("host", LString (cf_Host c));
     ("address", LString (cf_Host c +:+ ":" +:+ port))]).

(** The configuration that has been loaded, with its log level. *)
Definition configured (c : Config) (level : lager_level) : Prop :=
  loads c None ∧ log_level_of (cf_LogLevel c) = Some level.

(** [main_run x es o x']: in the world [x], after the configuration has been read,
    [main] logs [es] and ends with [o], and leaves the world [x'].  Every cause is
    the answer of the machine to that step, in the world that the steps before it
    have left. *)
Inductive main_run (x : X) : list event → outcome (process certificate) → X → Prop :=
  | main_no_config c e :
      loads c (Some e) → main_run x [] (Panic (LogFatal ("Error loading config file: " +:+ error_text e))) x
  | main_no_level c :
      loads c None → log_level_of (cf_LogLevel c) = None →
      main_run x [] (Panic (LogFatal ("Invalid log level: " +:+ cf_LogLevel c))) x
  | main_no_session c level e x1 :
      configured c level → aws_NewSession (cf_Region c) x = (Some e, x1) →
      main_run x [] (Panic (PanicError e)) x1
  | main_no_account c level output e x1 x2 :
      configured c level → aws_NewSession (cf_Region c) x = (None, x1) →
      sts_GetCallerIdentity x1 = ((output, Some e), x2) →
      main_run x [] (Panic (LogFatal ("Error creating broker: " +:+ error_text e))) x2
  | main_nil_account c level output x1 x2 :
      configured c level → aws_NewSession (cf_Region c) x = (None, x1) →
      sts_GetCallerIdentity x1 = ((output, None), x2) → output = None ∨ output = Some None →
      main_run x [] (Panic NilDereference) x2
  | main_no_listener c level account e x1 x2 x3 :
      configured c level → aws_NewSession (cf_Region c) x = (None, x1) →
      sts_GetCallerIdentity x1 = ((Some (Some account), None), x2) →
      net_Listen (cf_Host c +:+ ":" +:+ port) x2 = (Some e, x3) →
      main_run x [] (Panic (LogFatal ("Error creating listener: failed to listen on address " +:+
        (cf_Host c +:+ ":" +:+ port) +:+ ": " +:+ error_text e))) x3
  | main_started c level account srv x1 x2 x3 :
      configured c level → aws_NewSession (cf_Region c) x = (None, x1) →
      sts_GetCallerIdentity x1 = ((Some (Some account), None), x2) →
      net_Listen (cf_Host c +:+ ":" +:+ port) x2 = (None, x3) →
      serves c port srv →
      main_run x [start_line c] (Ret (mkProcess (mkBroker c)
        (mkRedisProvider account "aws" (cf_Region c) (cf_KmsKeyID c)
          (trim_right_byte "/" (cf_SecretsManagerPath c)))
        level ("ElastiCache Service Broker started on port " +:+ port +:+ "...") srv)) x3.
End main_run.

Section main_lemmas.
Context {X : Type} `{RuntimeLaws X} `{Machine X} {certificate : Type} `{X509 certificate} `{Files}.

(** The account, when there is one. *)
Lemma userAccount_run s output err x' :
  sts_GetCallerIdentity (st_world s) = ((output, err), x') →
  (userAccount : M X _) s =
    (match err, output with
     | Some e, _ => Ret ("", Some e)
     | None, Some (Some account) => Ret (account, None)
     | None, _ => Panic NilDereference
     end, mkState (st_maps s) (st_trace s) x').
Proof.
  intros Hsts. unfold userAccount. rewrite (run_external _ _ _ _ _ Hsts).
  by destruct err, output as [[account|]|].
Qed.

(** The listener of a valid configuration: the key pair has been checked, so
    that only the network can fail. *)
Lemma CreateListener_run s c port err x' :
  config_ok c → net_Listen (cf_Host c +:+ ":" +:+ port) (st_world s) = (err, x') →
  match err with
  | Some e => (CreateListener (New c) c port : M X (option (server certificate) * _)) s =
      (Ret (None, Some (ErrorString ("failed to listen on address " +:+
        (cf_Host c +:+ ":" +:+ port) +:+ ": " +:+ error_text e))), mkState (st_maps s) (st_trace s) x')
  | None => ∃ srv, serves c port srv ∧ CreateListener (New c) c port s =
      (Ret (Some srv, None), mkState (st_maps s) (st_trace s ++ [start_line port c]) x')
  end.
Proof.
  intros Hok Hnet. unfold CreateListener. cbv zeta. rewrite (run_external _ _ _ _ _ Hnet).
  destruct err as [e|]; [done|]. unfold serves. destruct (cf_TLS c) as [t|] eqn:Ht.
  - destruct (ok_TLS c Hok t Ht) as (_ & _ & cert & Hcert). unfold GenerateTLSConfig. rewrite Hcert.
    eexists. split; [|done]. split; [done|]. split; [done|]. by eexists cert, _.
  - eexists. split; [|done]. done.
Qed.

(** [main] after the configuration. *)
Definition main_rest (c : Config) (port : string) : M X (process certificate) :=
  let! logger := newLogger (cf_LogLevel c) in
  try! created := newBroker c catch err => fatal "Error creating broker: " err in
  let! (serviceBroker, provider) := deref created in
  try! httpServer := CreateListener serviceBroker c port
    catch err => fatal "Error creating listener: " err in
  let! httpServer := deref httpServer in
  ret (mkProcess serviceBroker provider logger
    ("ElastiCache Service Broker started on port " +:+ port +:+ "...") httpServer).

(** [m] keeps the maps, logs [es] and is a run of [main]. *)
Definition run_of path port base n (s : state X) (out : outcome (process certificate) * state X) : Prop :=
  ∃ es, st_maps out.2 = st_maps s ∧ st_trace out.2 = st_trace s ++ es ∧
    main_run path port base n (st_world s) es out.1 (st_world out.2).

Lemma run_of_silent path port base n s o x' :
  main_run path port base n (st_world s) [] o x' →
  run_of path port base n s (o, mkState (st_maps s) (st_trace s) x').
Proof. intros Hrun. exists []. by rewrite app_nil_r. Qed.

Lemma main_rest_run s path port c base n :
  load_run path base n c None → run_of path port base n s (main_rest c port s).
Proof.
  intros Hload. destruct (load_run_done _ _ _ _ Hload) as (Hok & _). unfold main_rest, newLogger, fatal.
  destruct (log_level_of (cf_LogLevel c)) as [level|] eqn:Hlevel.
  2: { destruct s as [h tr x]. apply (run_of_silent _ _ _ _ (mkState h tr x)). by eapply main_no_level. }
  assert (configured path base n c level) as Hc by done.
  rewrite (run_bind (ret level) _ s level s) by done.
  destruct (aws_NewSession (cf_Region c) (st_world s)) as [[e|] x1] eqn:E1.
  { unfold bind at 1, newBroker. rewrite (run_external _ _ _ _ _ E1).
    apply run_of_silent. by eapply main_no_session. }
  destruct (sts_GetCallerIdentity x1) as [[output err] x2] eqn:E2.
  pose proof (userAccount_run (mkState (st_maps s) (st_trace s) x1) _ _ _ E2) as Hacc.
  cbn [st_maps st_trace] in Hacc. unfold bind at 1, newBroker. rewrite (run_external _ _ _ _ _ E1).
  unfold bind at 1. rewrite Hacc. destruct err as [e|]; cbn beta iota.
  { apply run_of_silent. by eapply main_no_account. }
  destruct output as [[account|]|]; cbn beta iota.
  2, 3: apply run_of_silent; eapply main_nil_account; [done..|by auto].
  unfold ret at 1. cbn beta iota.
  destruct (net_Listen (cf_Host c +:+ ":" +:+ port) x2) as [err x3] eqn:E3.
  pose proof (CreateListener_run (mkState (st_maps s) (st_trace s) x2) c port err x3 Hok E3) as Hl.
  cbn [st_maps st_trace] in Hl.
  match goal with |- run_of _ _ _ _ _ (bind (deref (Some ?r)) ?k ?s') =>
    rewrite (run_bind (deref (Some r)) k s' r s' eq_refl) end.
  cbn beta iota. unfold bind at 1. destruct err as [e|].
  - rewrite Hl. apply (run_of_silent _ _ _ _ s). by eapply main_no_listener.
  - destruct Hl as (srv & Hsrv & ->). exists [start_line port c]. split; [done|]. split; [done|].
    by eapply main_started.
Qed.

Lemma main_state (s : state X) config port :
  let out := main config port s in
  ∃ es, st_trace out.2 = st_trace s ++ es ∧ frame [] (st_maps s) (st_maps out.2) ∧
    main_run (default "" config) (default "3000" port) (length (st_maps s)) (length (st_maps out.2))
      (st_world (LoadConfig (default "" config) s).2) es out.1 (st_world out.2).
Proof.
  set (path := default "" config).
  destruct (runs_LoadConfig (st_maps s) path s eq_refl) as (es & Htr & -> & Hf & c & err & Ho & Hload).
  unfold main, flags. fold path. destruct (LoadConfig path s) as [o s1] eqn:E.
  cbn [fst snd] in *. subst o. rewrite app_nil_r in Htr.
  rewrite (run_bind (LoadConfig path) _ _ _ _ E). destruct err as [e|]; cbn beta iota.
  - exists []. rewrite app_nil_r. split; [done|]. split; [done|]. by eapply main_no_config.
  - destruct (main_rest_run s1 path (default "3000" port) c _ _ Hload) as (es & Hm & Htr' & Hrun).
    exists es. fold (main_rest c (default "3000" port)). cbv zeta. rewrite Hm, Htr', Htr. done.
Qed.
End main_lemmas.

(** ** The requests of a process *)

Section requests.
Context {X : Type} `{RuntimeLaws X} `{ElastiCache X} `{SecretsManager X} {certificate : Type}.
Variables (pr : process certificate).

#[local] Instance served_provider : Provider X := RedisProvider_Provider (proc_provider pr).

(** A request, and the state after some of them; net/http recovers the panic of a
    handler, so that the process goes on. *)
Definition request (ctx : context) (m : method) : M X (method_out m) := serve (proc_broker pr) ctx m.

Definition after_requests (l : list (context * method)) (s : state X) : state X :=
  foldl (λ s r, (request r.1 r.2 s).2) s l.

Lemma plan_maps_ok_frame b h h' : frame [] h h' → plan_maps_ok b h → plan_maps_ok b h'.
Proof.
  intros Hf Hok id plan Hp. destruct (Hok id plan Hp) as [m Hm]. exists m. by eapply frame_deref.
Qed.

Lemma after_requests_frame l s :
  plan_maps_ok (proc_broker pr) (st_maps s) → frame [] (st_maps s) (st_maps (after_requests l s)).
Proof.
  revert s. induction l as [|[ctx m] l IH]; intros s Hok; [apply frame_refl|].
  cbn [after_requests foldl fst snd].
  destruct (runs_serve (proc_broker pr) ctx m (st_maps s) Hok s eq_refl) as (es & _ & Hf & _).
  eapply frame_trans; [exact Hf|]. apply IH. by eapply plan_maps_ok_frame.
Qed.

(** Every request of the process works on the configuration it was started
    with. *)
Definition process_contained (h : list (gmap string string)) : Prop :=
  ∀ s l ctx m, st_maps s = h →
    frame [] h (st_maps (after_requests l s)) ∧
    runs (st_maps (after_requests l s)) (request ctx m)
      (contained ctx (method_context ctx m) (st_maps (after_requests l s))).

Lemma plan_maps_contained h : plan_maps_ok (proc_broker pr) h → process_contained h.
Proof.
  intros Hok s l ctx m <-. pose proof (after_requests_frame l s Hok) as Hf. split; [done|].
  apply runs_serve. by eapply plan_maps_ok_frame.
Qed.
End requests.

Lemma config_in_maps_ok base (h : list (gmap string string)) c :
  config_in base (length h) c → plan_maps_ok (New c) h.
Proof.
  intros [_ Hr _] id plan Hp. destruct (pc_Parameters plan) as [l|] eqn:Hl; [|by eexists].
  apply lookup_lt_is_Some_2. by destruct (Hr id plan Hp l Hl).
Qed.

Lemma main_run_ready `{Machine X} `{X509 certificate} `{Files} path port base
    (h : list (gmap string string)) (x x' : X) es pr :
  main_run path port base (length h) x es (Ret pr) x' → plan_maps_ok (proc_broker pr) h.
Proof.
  inversion 1 as [| | | | | |c level account srv x1 x2 x3 [Hload _]]; subst. cbn [proc_broker].
  apply load_run_done in Hload as (_ & _ & Hin). by eapply config_in_maps_ok.
Qed.

(** ** Properties *)

(** C21: [main] refines [main_run]: it stops with the message of the first thing
    that fails, in the order configuration, log level, AWS session for the region
    of the configuration, identity of the account, listener, and the error is the
    one that this step answered.  Otherwise it serves the broker of the
    configuration, over a provider for exactly the account that AWS named and the
    region, at the address of the host and the port on which the listener was
    opened, behind TLS exactly when the configuration has a TLS section, with its
    certificate and TLS 1.2 at least; once the configuration is valid the TLS
    settings cannot fail. *)
Theorem main_correct {X : Type} `{RuntimeLaws X} `{Machine X} {certificate : Type}
    `{X509 certificate} `{Files} (s : state X) (config port : option string) :
  let out : outcome (process certificate) * state X := main config port s in
  let loaded := st_world (LoadConfig (default "" config) s).2 in
  ∃ es, st_trace out.2 = st_trace s ++ es ∧ frame [] (st_maps s) (st_maps out.2) ∧
    main_run (default "" config) (default "3000" port) (length (st_maps s)) (length (st_maps out.2))
      loaded es out.1 (st_world out.2).
Proof. apply main_state. Qed.

(** C22: a process that has been started serves every request safely: after any
    sequence of requests, panics included, the configuration is what was loaded,
    and the next request is contained: right context, cancelled when done, no
    panic that does not come from the provider. *)
Theorem process_serves {X : Type} `{RuntimeLaws X} `{Machine X} `{ElastiCache X}
    `{SecretsManager X} {certificate : Type} `{X509 certificate} `{Files}
    (h : list (gmap string string)) (config port : option string) :
  runs h (main config port : M X (process certificate)) (λ o es h',
    match o with Ret pr => process_contained (X:=X) pr h' | Panic _ => True end).
Proof.
  intros s <-. destruct (main_state (certificate:=certificate) s config port) as (es & Htr & _ & Hrun).
  exists es. split; [done|]. destruct (main config port s) as [[pr|p] s']; [|done].
  eapply plan_maps_contained, main_run_ready, Hrun.
Qed.

(** The health check is open and the API is not: of the clean paths, exactly
    [/healthcheck] is answered by the health check, and all others by the API
    behind the credentials of the configuration. *)
Theorem routes_correct (b : Broker) (c : Config) (path : string) :
  mux_handler (newHTTPHandler b c) (String "/" path) =
    Some (if bool_decide (path = "healthcheck") then Healthcheck
          else BrokerAPI b (cf_Username c) (cf_Password c)).
Proof.
  unfold mux_handler, newHTTPHandler. cbn [foldr fst].
  assert (matches (String "/" path) "/" = true) as ->.
  { unfold matches. rewrite orb_true_iff. right. vm_compute. by eexists. }
  assert (matches (String "/" path) "/healthcheck" = bool_decide (path = "healthcheck")) as ->.
  { unfold matches. replace (ends_in_slash "/healthcheck") with false by (vm_compute; done).
    cbn [andb]. rewrite orb_false_r. apply bool_decide_ext. split; [by intros [= <-]|by intros ->]. }
  by case_bool_decide.
Qed.

(** *** A machine on which everything works *)

#[local] Instance bench_Machine : Machine bench := {|
  aws_NewSession _ w := (None, w);
  sts_GetCallerIdentity w := ((Some (Some "123456789012"), None), w);
  net_Listen _ w := (None, w);
|}.

#[local] Instance any_X509 : X509 () := λ _ _, inl tt.

Definition start_config : Config :=
  mkConfig "Debug" "user" "pass" "eu-west-1" "broker" "subnet" ["sg-1"]
    [mkService "service-1" [mkServicePlan "plan-1"]] {[ "plan-1" := zero_PlanConfig ]}
    "key" "path/" "" (Some (mkTLSConfig "cert" "key")).

Definition start_file : Files := one_file (json_text (config_json [] start_config)).

Definition start_state : state bench := bench_start [] (mkBench 0 ec_empty sm_empty pv_empty).

Lemma main_correct_witness :
  let files := start_file in
  let out : outcome (process ()) * state bench := main (Some "config.json") None start_state in
  (∃ es, st_trace out.2 = es ∧ frame [] [] (st_maps out.2) ∧
    main_run "config.json" "3000" 0 (length (st_maps out.2)) (st_world start_state) es out.1
      (st_world out.2)) ∧
  ∃ pr, out.1 = Ret pr ∧ srv_address (proc_server pr) = "0.0.0.0:3000" ∧
    p_awsAccountID (proc_provider pr) = "123456789012".
Proof.
  intros files out. split.
  - replace (st_world start_state) with (st_world (LoadConfig "config.json" start_state).2)
      by (vm_compute; reflexivity).
    exact (main_correct start_state (Some "config.json") None).
  - eexists. split; [vm_compute; reflexivity|]. by vm_compute.
Defined.

Lemma process_serves_witness :
  let files := start_file in
  runs [] (main (Some "config.json") None : M bench (process ())) (λ o es h',
    match o with Ret pr => process_contained (X:=bench) pr h' | Panic _ => True end).
Proof. intros files. apply (process_serves [] (Some "config.json") None). Defined.
