(* ===== verification/Query.v ===== *)
(** * Query strings

    [url.Values] of net/url: a map from keys to lists of values, its encoding,
    sorted by key, and [url.ParseQuery]. *)
From S2P Require Import Prelude Url.
From stdpp Require Import sorting.
Local Open Scope Z_scope.

Abbreviation Values := (gmap string (list string)).

(** [v.Add(key, value)] *)
Definition values_add (v : Values) (kv : string * string) : Values :=
  <[kv.1 := default [] (v !! kv.1) ++ [kv.2]]> v.

(** [url.QueryEscape] and [url.QueryUnescape] *)
Definition query_plain (c : ascii) : bool := is_alnum c || byte_mem c "-_.~".

Fixpoint query_escape (s : string) : string :=
  match s with
  | EmptyString => EmptyString
  | String c s' =>
      if bool_decide (c = " "%char) then String "+" (query_escape s')
      else if query_plain c then String c (query_escape s')
      else String "%" (String (upper_hex (byte_val c / 16))
                         (String (upper_hex (byte_val c mod 16)) (query_escape s')))
  end.

Fixpoint query_unescape (s : string) : option string :=
  match s with
  | EmptyString => Some EmptyString
  | String c s' =>
      if bool_decide (c = "%"%char) then
        match s' with
        | String a (String b s'') =>
            match hex_val a, hex_val b with
            | Some x, Some y => String (byte_of_val (16 * x + y)) <$> query_unescape s''
            | _, _ => None
            end
        | _ => None
        end
      else if bool_decide (c = "+"%char) then String " " <$> query_unescape s'
      else String c <$> query_unescape s'
  end.

(** The keys in the order of [sort.Strings]. *)
Definition sorted_keys (v : Values) : list string := merge_sort key_le (elements (dom v)).

Definition pair_text (kv : string * string) : string :=
  query_escape kv.1 +:+ "=" +:+ query_escape kv.2.

Definition pairs_of (v : Values) (ks : list string) : list (string * string) :=
  ks ≫= λ k, pair k <$> default [] (v !! k).

(** [v.Encode()] *)
Definition values_encode (v : Values) : string :=
  string_join "&" (pair_text <$> pairs_of v (sorted_keys v)).

(** [strings.Cut(s, sep)] for a one-byte separator: the part before the first
    one, and the part after it if there is one. *)
Fixpoint cut (sep : ascii) (s : string) : string * option string :=
  match s with
  | EmptyString => (EmptyString, None)
  | String c s' =>
      if bool_decide (c = sep) then (EmptyString, Some s')
      else let (a, b) := cut sep s' in (String c a, b)
  end.

(** [strings.Split(s, sep)] *)
Fixpoint split (sep : ascii) (s : string) : list string :=
  match s with
  | EmptyString => [EmptyString]
  | String c s' =>
      if bool_decide (c = sep) then EmptyString :: split sep s'
      else match split sep s' with
           | [] => [String c EmptyString]
           | x :: l => String c x :: l
           end
  end.

(** One setting of a query; a broken one is skipped. *)
Definition parse_setting (setting : string) : option (string * string) :=
  if byte_mem ";" setting || bool_decide (setting = "") then None else
  let (key, value) := cut "=" setting in
  match query_unescape key, query_unescape (default "" value) with
  | Some k, Some v => Some (k, v)
  | _, _ => None
  end.

(** [u.Query()]: [url.ParseQuery] with its error dropped. *)
Definition parse_query (query : string) : Values :=
  foldl values_add ∅ (omap parse_setting (split "&" query)).

(** ** Lemmas *)

(** The bytes an escaped string is made of. *)
Definition escaped_char (c : ascii) : bool :=
  query_plain c || bool_decide (c = "+"%char) || bool_decide (c = "%"%char).

Lemma escaped_not_special c : escaped_char c = true → c ∉ ["&"; "="; ";"]%char.
Proof.
  intros Hc. assert (implb (escaped_char c) (bool_decide (c ∉ ["&"; "="; ";"]%char)) = true) as Hi.
  { clear Hc. revert c. apply byte_forall. vm_compute. reflexivity. }
  rewrite Hc in Hi. by apply bool_decide_eq_true in Hi.
Qed.

Lemma upper_hex_plain d : 0 <= d < 16 → escaped_char (upper_hex d) = true.
Proof.
  intros Hd. assert (forallb (λ n, escaped_char (upper_hex (Z.of_nat n))) (seq 0 16) = true) as Hall
    by (vm_compute; reflexivity).
  rewrite forallb_forall in Hall. rewrite <-(Z2Nat.id d) by lia. apply Hall, in_seq. lia.
Qed.

Lemma query_escape_chars s : string_forallb escaped_char (query_escape s) = true.
Proof.
  induction s as [|c s IH]; simpl; [done|]. case_bool_decide; [simpl; by rewrite IH|].
  pose proof (byte_val_range c).
  destruct (query_plain c) eqn:Hc; simpl; rewrite IH, andb_true_r.
  - unfold escaped_char. by rewrite Hc.
  - rewrite !upper_hex_plain by (Z.to_euclidean_division_equations; lia). done.
Qed.

Lemma query_unescape_escape s : query_unescape (query_escape s) = Some s.
Proof.
  induction s as [|c s IH]; simpl; [done|]. case_bool_decide as Hsp.
  { subst c. cbn [query_unescape]. rewrite bool_decide_false, bool_decide_true by done. by rewrite IH. }
  destruct (query_plain c) eqn:Hc.
  - cbn [query_unescape]. rewrite !bool_decide_false, IH by (intros ->; by vm_compute in Hc). done.
  - pose proof (byte_val_range c). cbn [query_unescape]. rewrite bool_decide_true by done.
    rewrite !hex_val_upper by (Z.to_euclidean_division_equations; lia).
    rewrite IH. simpl. rewrite <-Z.div_mod by lia. by rewrite byte_of_val_of.
Qed.

Lemma cut_app sep s t :
  string_forallb (λ c, bool_decide (c ≠ sep)) s = true → cut sep (s +:+ String sep t) = (s, Some t).
Proof.
  induction s as [|c s IH]; cbn [string_forallb].
  - intros _. rewrite string_app_nil_l. cbn [cut]. by rewrite bool_decide_true.
  - rewrite andb_true_iff, bool_decide_eq_true. intros [Hc Hs]. rewrite string_app_cons. cbn [cut].
    by rewrite bool_decide_false, IH.
Qed.

Lemma split_plain sep s :
  string_forallb (λ c, bool_decide (c ≠ sep)) s = true → split sep s = [s].
Proof.
  induction s as [|c s IH]; simpl; [done|]. rewrite andb_true_iff, bool_decide_eq_true.
  intros [Hc Hs]. by rewrite bool_decide_false, IH.
Qed.

Lemma split_app sep s t :
  string_forallb (λ c, bool_decide (c ≠ sep)) s = true →
  split sep (s +:+ String sep t) = s :: split sep t.
Proof.
  induction s as [|c s IH]; cbn [string_forallb].
  - intros _. rewrite string_app_nil_l. cbn [split]. by rewrite bool_decide_true.
  - rewrite andb_true_iff, bool_decide_eq_true. intros [Hc Hs]. rewrite string_app_cons. cbn [split].
    by rewrite bool_decide_false, IH.
Qed.

Lemma split_join sep l :
  l ≠ [] → Forall (λ s, string_forallb (λ c, bool_decide (c ≠ sep)) s = true) l →
  split sep (string_join (String sep "") l) = l.
Proof.
  intros Hne Hl. induction Hl as [|s l Hs Hl IH]; [done|]. destruct l as [|t l].
  - by apply split_plain.
  - change (string_join (String sep "") (s :: t :: l)) with
      (s +:+ String sep "" +:+ string_join (String sep "") (t :: l)).
    rewrite (string_app_cons sep), string_app_nil_l, split_app by done. by rewrite IH.
Qed.

Lemma forallb_avoids sep s :
  sep ∈ ["&"; "="; ";"]%char → string_forallb escaped_char s = true →
  string_forallb (λ c, bool_decide (c ≠ sep)) s = true.
Proof.
  intros Hsep. apply string_forallb_impl. intros c Hc%escaped_not_special.
  apply bool_decide_eq_true. by intros ->.
Qed.

Lemma byte_mem_avoids c s :
  string_forallb (λ d, bool_decide (d ≠ c)) s = true → byte_mem c s = false.
Proof.
  intros Hs. apply bool_decide_eq_false. induction s as [|d s IH]; simpl; [apply not_elem_of_nil|].
  simpl in Hs. rewrite andb_true_iff, bool_decide_eq_true in Hs. destruct Hs as [Hd Hs].
  rewrite elem_of_cons. intros [->|Hin]; [done|by apply IH].
Qed.

Lemma pair_text_avoids c kv :
  c = "&"%char ∨ c = ";"%char → string_forallb (λ d, bool_decide (d ≠ c)) (pair_text kv) = true.
Proof.
  intros Hc. assert (c ∈ ["&"; "="; ";"]%char) as Hsep by (destruct Hc as [-> | ->]; set_solver).
  unfold pair_text. rewrite !string_forallb_app.
  rewrite !(forallb_avoids c (query_escape _)) by (done || apply query_escape_chars).
  by destruct Hc as [-> | ->].
Qed.

Lemma parse_pair_text kv : parse_setting (pair_text kv) = Some kv.
Proof.
  unfold parse_setting. rewrite byte_mem_avoids by (apply pair_text_avoids; by right).
  rewrite bool_decide_false.
  - unfold pair_text. rewrite string_app_cons, string_app_nil_l, cut_app.
    + cbn [orb default from_option id]. rewrite !query_unescape_escape. by destruct kv.
    + apply forallb_avoids; [set_solver|apply query_escape_chars].
  - unfold pair_text. destruct (query_escape kv.1); discriminate.
Qed.

Lemma omap_pairs (l : list (string * string)) : omap parse_setting (pair_text <$> l) = l.
Proof. induction l as [|kv l IH]; [done|]. csimpl. by rewrite parse_pair_text, IH. Qed.

(** The values of a key in a list of settings. *)
Definition values_of (k : string) (l : list (string * string)) : list string :=
  snd <$> filter (λ kv, kv.1 = k) l.

Lemma lookup_values_add v kv k :
  default [] (values_add v kv !! k) = default [] (v !! k) ++ (if decide (kv.1 = k) then [kv.2] else []).
Proof.
  unfold values_add. destruct (decide (kv.1 = k)) as [<-|Hne].
  - by rewrite lookup_insert_eq.
  - by rewrite lookup_insert_ne, app_nil_r.
Qed.

Lemma values_add_nonempty v kv :
  (∀ k, v !! k ≠ Some []) → ∀ k, values_add v kv !! k ≠ Some [].
Proof.
  intros Hv k. unfold values_add. destruct (decide (kv.1 = k)) as [<-|Hne].
  - rewrite lookup_insert_eq. intros [=]. by destruct (default [] (v !! kv.1)).
  - by rewrite lookup_insert_ne.
Qed.

Lemma foldl_values_add l v k :
  default [] (foldl values_add v l !! k) = default [] (v !! k) ++ values_of k l.
Proof.
  revert v. induction l as [|kv l IH]; intros v; simpl; [by rewrite app_nil_r|].
  rewrite IH, lookup_values_add, <-app_assoc. unfold values_of. rewrite filter_cons.
  by destruct (decide (kv.1 = k)).
Qed.

Lemma foldl_values_nonempty l v :
  (∀ k, v !! k ≠ Some []) → ∀ k, foldl values_add v l !! k ≠ Some [].
Proof.
  revert v. induction l as [|kv l IH]; intros v Hv; [done|]. simpl.
  apply IH, values_add_nonempty, Hv.
Qed.

(** Two maps without empty lists are equal when their lists are. *)
Lemma values_eq (v w : Values) :
  (∀ k, v !! k ≠ Some []) → (∀ k, w !! k ≠ Some []) →
  (∀ k, default [] (v !! k) = default [] (w !! k)) → v = w.
Proof.
  intros Hv Hw Heq. apply map_eq. intros k. specialize (Hv k). specialize (Hw k). specialize (Heq k).
  destruct (v !! k), (w !! k); simpl in *; congruence.
Qed.

Lemma values_of_app k l l' : values_of k (l ++ l') = values_of k l ++ values_of k l'.
Proof. unfold values_of. by rewrite list.filter_app, fmap_app. Qed.

Lemma values_of_pair k j (l : list string) :
  values_of k (pair j <$> l) = if decide (j = k) then l else [].
Proof.
  unfold values_of. destruct (decide (j = k)) as [Hjk|Hjk].
  - induction l as [|x l IH]; [done|]. rewrite fmap_cons, filter_cons_True by done. csimpl. by rewrite IH.
  - induction l as [|x l IH]; [done|]. by rewrite fmap_cons, filter_cons_False.
Qed.

Lemma values_of_pairs v ks k :
  NoDup ks → values_of k (pairs_of v ks) = if decide (k ∈ ks) then default [] (v !! k) else [].
Proof.
  induction 1 as [|j ks Hj Hks IH]; [done|].
  change (pairs_of v (j :: ks)) with ((pair j <$> default [] (v !! j)) ++ pairs_of v ks).
  rewrite values_of_app, values_of_pair, IH. destruct (decide (j = k)) as [->|Hne].
  - rewrite (decide_False (P := k ∈ ks)) by done. rewrite app_nil_r.
    by rewrite decide_True by (by left).
  - simpl. destruct (decide (k ∈ ks)); [by rewrite decide_True by (by right)|].
    rewrite decide_False; [done|]. rewrite elem_of_cons. naive_solver.
Qed.

(** What is encoded is parsed to the same map. *)
Lemma parse_query_encode v : (∀ k, v !! k ≠ Some []) → parse_query (values_encode v) = v.
Proof.
  intros Hv. unfold parse_query, values_encode.
  assert (sorted_keys v ≡ₚ elements (dom v)) as Hperm by apply merge_sort_Permutation.
  assert (NoDup (sorted_keys v)) as Hnd by (rewrite Hperm; apply NoDup_elements).
  assert (omap parse_setting (split "&" (string_join "&" (pair_text <$> pairs_of v (sorted_keys v)))) =
    pairs_of v (sorted_keys v)) as ->.
  { destruct (pairs_of v (sorted_keys v)) as [|kv l] eqn:Hl; [done|]. rewrite <-Hl.
    change "&" with (String "&" ""). rewrite split_join, omap_pairs; [done| |].
    - by rewrite Hl.
    - apply list.Forall_forall. intros s Hs. apply list_elem_of_fmap in Hs as (x & -> & _).
      apply pair_text_avoids. by left. }
  apply values_eq; [|done|].
  - apply foldl_values_nonempty. intros k. by rewrite lookup_empty.
  - intros k. rewrite foldl_values_add, lookup_empty, values_of_pairs by done. cbn [default app].
    destruct (decide (k ∈ sorted_keys v)) as [Hin|Hout]; [done|].
    rewrite Hperm, elem_of_elements, not_elem_of_dom in Hout. by rewrite Hout.
Qed.
