(* ===== verification/Client.v ===== *)
(** * The client of the acceptance tests

    ci/helpers/brokerapi_helper.go: a client of the Open Service Broker API, that
    writes the requests a platform makes and reads the responses.  Parsing a URL
    apart from its query, and sending a request, are parameters.  What the client
    prints for the reader of a test run is not modelled. *)
From S2P Require Import Prelude GoBase Sdk Providers Go Interfaces Bench Url Json JsonDecode.
From S2P Require Import Config ConfigFile Query.
From stdpp Require Import pretty.
Local Open Scope Z_scope.
Local Open Scope go_scope.

(** ** Data *)

(* map: ci/helpers/brokerapi_helper.go 20-20 ByServiceID *)
Definition ByServiceID : Type := list Service.

(* map: ci/helpers/brokerapi_helper.go 22-22 Len *)
Definition ByServiceID_Len (a : ByServiceID) : nat := length a.

(** Swapping panics when an index is out of range. *)
(* map: ci/helpers/brokerapi_helper.go 23-23 Swap *)
Definition ByServiceID_Swap {X} (a : ByServiceID) (i j : nat) : M X ByServiceID :=
  let! x := index a j in
  let! y := index a i in
  ret (<[j := y]> (<[i := x]> a)).

(* map: ci/helpers/brokerapi_helper.go 24-24 Less *)
Definition ByServiceID_Less {X} (a : ByServiceID) (i j : nat) : M X bool :=
  let! x := index a i in
  let! y := index a j in
  ret (String.ltb (service_ID x) (service_ID y)).

(* map: ci/helpers/brokerapi_helper.go 26-29 ProvisioningResponse *)
Record ProvisioningResponse := mkProvisioningResponse {
  pr_DashboardURL : string;
  pr_Operation : string;
}.

(** The values of the credentials are kept as JSON. *)
(* map: ci/helpers/brokerapi_helper.go 31-33 BindingResponse *)
Record BindingResponse := mkBindingResponse { br_Credentials : gmap string json }.

(* map: ci/helpers/brokerapi_helper.go 35-38 LastOperationResponse *)
Record LastOperationResponse := mkLastOperationResponse {
  lr_State : string;
  lr_Description : string;
}.

(* map: ci/helpers/brokerapi_helper.go 40-43 uriParam *)
Definition uriParam : Type := string * string.

(* map: ci/helpers/brokerapi_helper.go 54-62 BrokerAPIClient *)
Record BrokerAPIClient := mkBrokerAPIClient {
  bc_URL : string;
  bc_Username : string;
  bc_Password : string;
  bc_DefaultOrganizationID : string;
  bc_DefaultSpaceID : string;
  bc_AcceptsIncomplete : bool;
  bc_CaPEM : string;
}.

(* map: ci/helpers/brokerapi_helper.go 64-73 NewBrokerAPIClient *)
Definition NewBrokerAPIClient (url username password defaultOrganizationID defaultSpaceID caPEM : string)
    : BrokerAPIClient :=
  mkBrokerAPIClient url username password defaultOrganizationID defaultSpaceID false caPEM.

(** A request as it is sent: the URL it was made for, and the query that
    replaces that of the URL. *)
Record http_request := mkRequest {
  rq_Method : string;
  rq_URL : string;
  rq_Query : string;
  rq_APIVersion : string;             (** the header [X-Broker-API-Version] *)
  rq_BasicAuth : string * string;
  rq_Body : option string;
  rq_RootCAs : string;                (** the PEM blocks of the pool of the client *)
  rq_ServerName : string;
}.

(** A response; reading its body can fail. *)
Record http_response := mkResponse {
  rs_StatusCode : Z;
  rs_Body : string + error;
}.

Class HTTP (X : Type) := {
  http_NewRequest : string → string → option error;
  client_Do : http_request → X → (http_response + error) * X;
}.

(** ** Bodies *)

(* map: ci/helpers/brokerapi_helper.go 45-52 BodyBytes *)
Definition BodyBytes (resp : http_response) : string * option error :=
  match rs_Body resp with inl body => (body, None) | inr err => ("", Some err) end.

Definition newline (tabs : nat) : string := chr 10 +:+ string_repeat (byte_of_val 9) tabs.

(** An object of a template, indented, with a member in every line.  The verb [%s]
    between quotation marks is [in_quotes]: nothing is escaped. *)
Definition template (tabs : nat) (members : list (string * string)) : string :=
  "{" +:+ string_join "," ((λ m, newline (S tabs) +:+ in_quotes m.1 +:+ ": " +:+ m.2) <$> members)
  +:+ newline tabs +:+ "}".

(* map: ci/helpers/brokerapi_helper.go 132-140 DoProvisionRequest *)
Definition provision_body (b : BrokerAPIClient) (serviceID planID paramJSON : string) : string :=
  newline 2 +:+ template 2
    [("service_id", in_quotes serviceID);
     ("plan_id", in_quotes planID);
     ("organization_guid", in_quotes (bc_DefaultOrganizationID b));
     ("space_guid", in_quotes (bc_DefaultSpaceID b));
     ("parameters", paramJSON)] +:+ newline 1.

(* map: ci/helpers/brokerapi_helper.go 166-178 DoUpdateRequest *)
Definition update_body (serviceID planID oldPlanID oldServiceID orgID spaceID paramJSON : string)
    : string :=
  newline 2 +:+ template 2
    [("service_id", in_quotes serviceID);
     ("plan_id", in_quotes planID);
     ("previous_values", template 3
       [("plan_id", in_quotes oldPlanID);
        ("service_id", in_quotes oldServiceID);
        ("org_id", in_quotes orgID);
        ("space_id", in_quotes spaceID)]);
     ("parameters", paramJSON)] +:+ newline 1.

(* map: ci/helpers/brokerapi_helper.go 315-327 DoBindRequest *)
Definition bind_body (serviceID planID appGUID : string) : string :=
  newline 2 +:+ template 2
    [("service_id", in_quotes serviceID);
     ("plan_id", in_quotes planID);
     ("bind_resource", template 3 [("app_guid", in_quotes appGUID)]);
     ("parameters", "{}")].

(** ** Requests *)

(** The query of a URL that is parsed: what is between the first question mark
    and the fragment. *)
Definition url_query (url : string) : string :=
  let (rest, _) := cut "#" url in
  let (_, query) := cut "?" rest in
  default "" query.

(* map: ci/helpers/brokerapi_helper.go 89-102 doRequest *)
Definition build_request (b : BrokerAPIClient) (action path : string) (body : option string)
    (params : list uriParam) : http_request :=
  let url := bc_URL b +:+ path in
  let q := foldl values_add (parse_query (url_query url)) params in
  mkRequest action url (values_encode q) "2.14" (bc_Username b, bc_Password b) body
    (bc_CaPEM b) "example.com".

Definition FormatBool (b : bool) : string := if b then "true" else "false".

Definition instance_path (instanceID : string) : string := "/v2/service_instances/" +:+ instanceID.

Definition binding_path (instanceID bindingID : string) : string :=
  instance_path instanceID +:+ "/service_bindings/" +:+ bindingID.

Section client.
Context {X : Type} `{HTTP X}.
Variables (b : BrokerAPIClient).

(* map: ci/helpers/brokerapi_helper.go 75-105 doRequest *)
Definition doRequest (action path : string) (body : option string) (params : list uriParam)
    : M X (http_response + error) :=
  match http_NewRequest action (bc_URL b +:+ path) with
  | Some err => ret (inr err)
  | None => external (client_Do (build_request b action path body params))
  end.

(* map: ci/helpers/brokerapi_helper.go 129-148 DoProvisionRequest *)
Definition DoProvisionRequest (instanceID serviceID planID paramJSON : string)
    : M X (http_response + error) :=
  doRequest "PUT" (instance_path instanceID) (Some (provision_body b serviceID planID paramJSON))
    [("accepts_incomplete", FormatBool (bc_AcceptsIncomplete b))].

(* map: ci/helpers/brokerapi_helper.go 150-161 DoDeprovisionRequest *)
Definition DoDeprovisionRequest (instanceID serviceID planID : string) : M X (http_response + error) :=
  doRequest "DELETE" (instance_path instanceID) None
    [("service_id", serviceID); ("plan_id", planID);
     ("accepts_incomplete", FormatBool (bc_AcceptsIncomplete b))].

(* map: ci/helpers/brokerapi_helper.go 163-186 DoUpdateRequest *)
Definition DoUpdateRequest
    (instanceID serviceID planID oldPlanID oldServiceID orgID spaceID paramJSON : string)
    : M X (http_response + error) :=
  doRequest "PATCH" (instance_path instanceID)
    (Some (update_body serviceID planID oldPlanID oldServiceID orgID spaceID paramJSON))
    [("accepts_incomplete", FormatBool (bc_AcceptsIncomplete b))].

(* map: ci/helpers/brokerapi_helper.go 262-273 DoLastOperationRequest *)
Definition DoLastOperationRequest (instanceID serviceID planID operation : string)
    : M X (http_response + error) :=
  doRequest "GET" (instance_path instanceID +:+ "/last_operation") None
    [("service_id", serviceID); ("plan_id", planID); ("operation", operation)].

(* map: ci/helpers/brokerapi_helper.go 302-310 DoGetInstanceRequest *)
Definition DoGetInstanceRequest (instanceID : string) : M X (http_response + error) :=
  doRequest "GET" (instance_path instanceID) None [].

(* map: ci/helpers/brokerapi_helper.go 312-334 DoBindRequest *)
Definition DoBindRequest (instanceID serviceID planID appGUID bindingID : string)
    : M X (http_response + error) :=
  doRequest "PUT" (binding_path instanceID bindingID) (Some (bind_body serviceID planID appGUID)) [].

(* map: ci/helpers/brokerapi_helper.go 336-346 DoUnbindRequest *)
Definition DoUnbindRequest (instanceID serviceID planID bindingID : string)
    : M X (http_response + error) :=
  doRequest "DELETE" (binding_path instanceID bindingID) None
    [("service_id", serviceID); ("plan_id", planID)].

(** ** Responses *)

(* map: ci/helpers/brokerapi_helper.go 26-29 ProvisioningResponse *)
Definition decode_provisioning_response : decoder X ProvisioningResponse := decode_struct [
  field "dashboard_url" pr_DashboardURL (λ r x, mkProvisioningResponse x (pr_Operation r)) decode_text;
  field "operation" pr_Operation (λ r x, mkProvisioningResponse (pr_DashboardURL r) x) decode_text].

(** A [map\[string\]interface{}]: only a number that overflows is an error. *)
Definition decode_any_map : decoder X (gmap string json) :=
  decode_map JNull (λ v _, ret (v, fits v ShAny)).

(* map: ci/helpers/brokerapi_helper.go 31-33 BindingResponse *)
Definition decode_binding_response : decoder X BindingResponse := decode_struct [
  field "credentials" br_Credentials (λ _ x, mkBindingResponse x) decode_any_map].

(* map: ci/helpers/brokerapi_helper.go 35-38 LastOperationResponse *)
Definition decode_last_operation_response : decoder X LastOperationResponse := decode_struct [
  field "state" lr_State (λ r x, mkLastOperationResponse x (lr_Description r)) decode_text;
  field "description" lr_Description (λ r x, mkLastOperationResponse (lr_State r) x) decode_text].

(** The text of the error goes on with the response, printed with [%v]. *)
(* map: ci/helpers/brokerapi_helper.go 107-127 GetCatalog *)
Definition GetCatalog : M X (list Service * option error) :=
  let! resp := doRequest "GET" "/v2/catalog" None [] in
  match resp with
  | inr err => ret ([], Some err)
  | inl resp =>
      if negb (bool_decide (rs_StatusCode resp = 200))
      then ret ([], Some (ErrorString "Invalid catalog response")) else
      match BodyBytes resp with
      | (_, Some err) => ret ([], Some err)
      | (body, None) => unmarshal_with decode_catalog [] body
      end
  end.

(** [200], [201] and [202]. *)
Definition accepted (code : Z) : bool :=
  bool_decide (code = 200) || bool_decide (code = 201) || bool_decide (code = 202).

(** The operation of a response to a provision or deprovision request. *)
(* map: ci/helpers/brokerapi_helper.go 190-209 ProvisionInstance *)
Definition read_operation (resp : http_response + error) : M X (Z * string * option error) :=
  match resp with
  | inr err => ret (0, "", Some err)
  | inl resp =>
      if negb (accepted (rs_StatusCode resp)) then ret (rs_StatusCode resp, "", None) else
      match BodyBytes resp with
      | (_, Some err) => ret (rs_StatusCode resp, "", Some err)
      | (body, None) =>
          let! (r, err) :=
            unmarshal_with decode_provisioning_response (mkProvisioningResponse "" "") body in
          match err with
          | Some err => ret (rs_StatusCode resp, "", Some err)
          | None => ret (rs_StatusCode resp, pr_Operation r, None)
          end
      end
  end.

(* map: ci/helpers/brokerapi_helper.go 188-210 ProvisionInstance *)
Definition ProvisionInstance (instanceID serviceID planID paramJSON : string)
    : M X (Z * string * option error) :=
  bind (DoProvisionRequest instanceID serviceID planID paramJSON) read_operation.

(* map: ci/helpers/brokerapi_helper.go 212-234 DeprovisionInstance *)
Definition DeprovisionInstance (instanceID serviceID planID : string)
    : M X (Z * string * option error) :=
  bind (DoDeprovisionRequest instanceID serviceID planID) read_operation.

(** The body is read first, and returned with a status that is not accepted. *)
(* map: ci/helpers/brokerapi_helper.go 236-260 UpdateInstance *)
Definition UpdateInstance
    (instanceID serviceID planID oldPlanID oldServiceID orgID spaceID paramJSON : string)
    : M X (Z * string * string * option error) :=
  let! resp := DoUpdateRequest instanceID serviceID planID oldPlanID oldServiceID orgID spaceID
    paramJSON in
  match resp with
  | inr err => ret (0, "", "", Some err)
  | inl resp =>
      match BodyBytes resp with
      | (_, Some err) => ret (rs_StatusCode resp, "", "", Some err)
      | (body, None) =>
          if negb (accepted (rs_StatusCode resp)) then ret (rs_StatusCode resp, "", body, None) else
          let! (r, err) :=
            unmarshal_with decode_provisioning_response (mkProvisioningResponse "" "") body in
          match err with
          | Some err => ret (rs_StatusCode resp, "", body, Some err)
          | None => ret (rs_StatusCode resp, pr_Operation r, body, None)
          end
      end
  end.

(* map: ci/helpers/brokerapi_helper.go 275-300 GetLastOperationState *)
Definition GetLastOperationState (instanceID serviceID planID operation : string)
    : M X (string * option error) :=
  let! resp := DoLastOperationRequest instanceID serviceID planID operation in
  match resp with
  | inr err => ret ("", Some err)
  | inl resp =>
      match BodyBytes resp with
      | (_, Some err) => ret ("", Some err)
      | (body, None) =>
          if bool_decide (rs_StatusCode resp = 410) then ret ("gone", None)
          else if bool_decide (rs_StatusCode resp = 200) then
            let! (r, err) :=
              unmarshal_with decode_last_operation_response (mkLastOperationResponse "" "") body in
            match err with
            | Some err => ret ("", Some err)
            | None => ret (lr_State r, None)
            end
          else ret ("", Some (ErrorString
                 ("Unknown code " +:+ pretty (rs_StatusCode resp) +:+ ": " +:+ body)))
      end
  end.

(* map: ci/helpers/brokerapi_helper.go 348-370 Bind *)
Definition Bind (instanceID serviceID planID appGUID bindingID : string)
    : M X (Z * option BindingResponse * option error) :=
  let! resp := DoBindRequest instanceID serviceID planID appGUID bindingID in
  match resp with
  | inr err => ret (0, None, Some err)
  | inl resp =>
      if negb (bool_decide (rs_StatusCode resp = 200) || bool_decide (rs_StatusCode resp = 201))
      then ret (rs_StatusCode resp, None, None) else
      match BodyBytes resp with
      | (_, Some err) => ret (rs_StatusCode resp, None, Some err)
      | (body, None) =>
          let! (r, err) := unmarshal_with decode_binding_response (mkBindingResponse ∅) body in
          match err with
          | Some err => ret (rs_StatusCode resp, None, Some err)
          | None => ret (rs_StatusCode resp, Some r, None)
          end
      end
  end.

(* map: ci/helpers/brokerapi_helper.go 372-379 Unbind *)
Definition Unbind (instanceID serviceID planID bindingID : string) : M X (Z * option error) :=
  let! resp := DoUnbindRequest instanceID serviceID planID bindingID in
  match resp with
  | inr err => ret (0, Some err)
  | inl resp => ret (rs_StatusCode resp, None)
  end.

(* map: providers/provider.go 61-64 CacheParameter *)
Definition decode_cache_parameter : decoder X CacheParameter := decode_struct [
  field "parameter_name" cp_ParameterName (λ c x, mkCacheParameter x (cp_ParameterValue c))
     decode_text;
  field "parameter_value" cp_ParameterValue (λ c x, mkCacheParameter (cp_ParameterName c) x)
     decode_text].

(* map: providers/provider.go 65-73 InstanceParameters *)
Definition decode_instance_parameters : decoder X InstanceParameters := decode_struct [
  field "preferred_maintenance_window" ip_PreferredMaintenanceWindow (λ p x,
     mkInstanceParameters x (ip_DailyBackupWindow p) (ip_MaxMemoryPolicy p) (ip_CacheParameters
     p) (ip_ActiveNodes p) (ip_PassiveNodes p) (ip_AutoFailover p)) decode_text;
  field "daily_backup_window" ip_DailyBackupWindow (λ p x, mkInstanceParameters
     (ip_PreferredMaintenanceWindow p) x (ip_MaxMemoryPolicy p) (ip_CacheParameters p)
     (ip_ActiveNodes p) (ip_PassiveNodes p) (ip_AutoFailover p)) decode_text;
  field "maxmemory_policy" ip_MaxMemoryPolicy (λ p x, mkInstanceParameters
     (ip_PreferredMaintenanceWindow p) (ip_DailyBackupWindow p) x (ip_CacheParameters p)
     (ip_ActiveNodes p) (ip_PassiveNodes p) (ip_AutoFailover p)) decode_text;
  field "cache_parameters" ip_CacheParameters (λ p x, mkInstanceParameters
     (ip_PreferredMaintenanceWindow p) (ip_DailyBackupWindow p) (ip_MaxMemoryPolicy p) x
     (ip_ActiveNodes p) (ip_PassiveNodes p) (ip_AutoFailover p)) (decode_slice (mkCacheParameter
     "" "") decode_cache_parameter);
  field "active_nodes" ip_ActiveNodes (λ p x, mkInstanceParameters
     (ip_PreferredMaintenanceWindow p) (ip_DailyBackupWindow p) (ip_MaxMemoryPolicy p)
     (ip_CacheParameters p) x (ip_PassiveNodes p) (ip_AutoFailover p)) (decode_slice ""
     decode_text);
  field "passive_nodes" ip_PassiveNodes (λ p x, mkInstanceParameters
     (ip_PreferredMaintenanceWindow p) (ip_DailyBackupWindow p) (ip_MaxMemoryPolicy p)
     (ip_CacheParameters p) (ip_ActiveNodes p) x (ip_AutoFailover p)) (decode_slice ""
     decode_text);
  field "auto_failover" ip_AutoFailover (λ p x, mkInstanceParameters
     (ip_PreferredMaintenanceWindow p) (ip_DailyBackupWindow p) (ip_MaxMemoryPolicy p)
     (ip_CacheParameters p) (ip_ActiveNodes p) (ip_PassiveNodes p) x) decode_flag].

(** Only the parameters are used; the fields of the embedded struct have the same
    names, and the outer ones hide them. *)
(* map: providers/provider.go 75-81 InstanceDetails *)
Definition decode_instance_details : decoder X InstanceParameters := decode_struct [
  unread "service_id" ShString; unread "plan_id" ShString; unread "dashboard_url" ShString;
  field "parameters" id (λ _ x, x) decode_instance_parameters].

(** The status of the response is not looked at. *)
(* map: ci/helpers/brokerapi_helper.go 381-397 GetServiceParams *)
Definition GetServiceParams (instanceID : string) : M X (InstanceParameters * option error) :=
  let! serviceInfo := DoGetInstanceRequest instanceID in
  match serviceInfo with
  | inr err => ret (zero_InstanceParameters, Some err)
  | inl resp =>
      match BodyBytes resp with
      | (_, Some err) => ret (zero_InstanceParameters, Some err)
      | (body, None) =>
          let! (r, err) := unmarshal_with decode_instance_details zero_InstanceParameters body in
          match err with
          | Some err => ret (zero_InstanceParameters, Some err)
          | None => ret (r, None)
          end
      end
  end.
End client.
