(* ===== verification/ClientRequests.v ===== *)
(** * What the client writes and reads

    The bodies of the requests of [Client] are the JSON documents they look like,
    as long as the identifiers need no escapes; and the operation data of the
    broker come back through the client as they were written. *)
From S2P Require Import Prelude GoBase Sdk Providers Go Interfaces Bench Url Json JsonDecode.
From S2P Require Import JsonText Query Config ConfigFile ConfigLoad ConfigDocument Parameters.
From S2P Require Import Broker BrokerOperation Client.
Local Open Scope Z_scope.
Local Open Scope go_scope.

(** ** Texts *)

(** A string that can stand between quotation marks as it is. *)
Definition plain_byte (c : ascii) : bool :=
  (32 <=? byte_val c) && is_ascii c && negb (bool_decide (c = quote)) &&
  negb (bool_decide (c = backslash)).

Definition plain (s : string) : Prop := string_forallb plain_byte s = true.

(** [denotes d t v]: the text [t] is read as the value [v], of depth [d], where a
    value is expected. *)
Definition denotes (d : nat) (t : string) (v : json) : Prop := ∀ k c rest,
  awaits_value k → Z.of_nat (length k + d) <= maxNestingDepth → delimiter c →
  scan (mkScanner k BeginValue) (t +:+ String c rest) =
  scan_after (finish_value k v) (String c rest).

Lemma denotes_text v : json_wf v = true → denotes (json_depth v) (json_text v) v.
Proof. intros Hwf k c rest Hk Hd Hc. apply scan_json_text; try done. by left. Qed.

Lemma denotes_weaken d d' t v : (d ≤ d')%nat → denotes d t v → denotes d' t v.
Proof. intros Hd Ht k c rest Hk Hl Hc. apply Ht; [done|lia|done]. Qed.

Lemma plain_byte_facts c : plain_byte c = true →
  32 <= byte_val c ∧ is_ascii c = true ∧ c ≠ quote ∧ c ≠ backslash.
Proof.
  unfold plain_byte. rewrite !andb_true_iff, !negb_true_iff, !bool_decide_eq_false, Z.leb_le. tauto.
Qed.

Lemma scan_plain k raw s :
  plain s → scan (mkScanner k (InString raw)) s = Some (mkScanner k (InString (raw +:+ s))).
Proof.
  unfold plain. revert raw. induction s as [|c s IH]; intros raw; simpl string_forallb.
  - intros _. by rewrite string_app_nil_r.
  - rewrite andb_true_iff. intros [(H1 & _ & H2 & H3)%plain_byte_facts Hs]. cbn [scan].
    rewrite scan_raw_byte by done. by rewrite IH, string_app_assoc.
Qed.

Lemma unquote_plain s : plain s → unquote s = s.
Proof.
  unfold plain. induction s as [|c s IH]; simpl string_forallb; [done|].
  rewrite andb_true_iff. intros [(_ & Ha & _ & Hb)%plain_byte_facts Hs]. cbn [unquote].
  by rewrite bool_decide_false, Ha, IH.
Qed.

Lemma scan_in_quotes k m s t :
  plain s → scan_step (mkScanner k m) quote = Some (mkScanner k (InString "")) →
  scan (mkScanner k m) (in_quotes s +:+ t) = scan_after (finish_string k s) t.
Proof.
  intros Hs Hm. unfold in_quotes. rewrite string_app_cons. cbn [scan]. rewrite Hm.
  rewrite string_app_assoc, scan_app, scan_plain by done.
  rewrite string_app_nil_l, string_app_cons. cbn [scan scan_step sc_mode sc_stack].
  rewrite bool_decide_true by done. by rewrite string_app_nil_l.
Qed.

Lemma denotes_plain s : plain s → denotes 0 (in_quotes s) (JString s).
Proof.
  intros Hs k c rest Hk _ Hc. rewrite scan_in_quotes by done.
  assert (finish_string k s = finish_value k (JString (unquote s))) as ->.
  { destruct k as [|[l|ms [key|]] k']; try done. by destruct (Hk ms k'). }
  by rewrite unquote_plain.
Qed.

(** ** White space *)

Definition skips_spaces (s : scanner) : Prop :=
  ∀ c, is_json_space c = true → scan_step s c = Some s.

Lemma scan_spaces s w t :
  skips_spaces s → string_forallb is_json_space w = true → scan s (w +:+ t) = scan s t.
Proof.
  intros Hs. induction w as [|c w IH]; simpl string_forallb; [done|].
  rewrite andb_true_iff. intros [Hc Hw]. rewrite string_app_cons. cbn [scan].
  rewrite Hs by done. by apply IH.
Qed.

Lemma newline_spaces n : string_forallb is_json_space (newline n) = true.
Proof. unfold newline. rewrite string_forallb_app. simpl. by induction n as [|n IH]. Qed.

Lemma skips_mode k m :
  m = BeginString ∨ m = BeginStringOrEmpty ∨ m = BeginValue ∨ m = EndValue →
  skips_spaces (mkScanner k m).
Proof.
  intros Hm c Hc. destruct Hm as [-> |[-> |[-> | ->]]]; cbn [scan_step sc_mode sc_stack];
    unfold step_end; by rewrite Hc.
Qed.

(** ** Templates *)

Definition template_line (tabs : nat) (m : string * string) : string :=
  newline (S tabs) +:+ in_quotes m.1 +:+ ": " +:+ m.2.

Definition member_denotes (d : nat) (m : string * string) (f : string * json) : Prop :=
  f.1 = m.1 ∧ plain m.1 ∧ denotes d m.2 f.2.

Lemma scan_template_line d tabs k acc m line f c rest :
  member_denotes d line f → m = BeginString ∨ m = BeginStringOrEmpty →
  Z.of_nat (S (length k) + d) <= maxNestingDepth → delimiter c →
  scan (mkScanner (FObject acc None :: k) m) (template_line tabs line +:+ String c rest) =
  scan (mkScanner (FObject (f :: acc) None :: k) EndValue) (String c rest).
Proof.
  intros (Hkey & Hplain & Hd) Hm Hlen Hc. destruct line as [key t], f as [key' v]. cbn [fst snd] in *. subst key'.
  unfold template_line. cbn [fst snd]. rewrite !string_app_assoc, scan_spaces;
    [|apply skips_mode; naive_solver|apply newline_spaces].
  rewrite scan_in_quotes by (done || by destruct Hm as [-> | ->]).
  cbn [finish_string scan_after]. rewrite unquote_plain by done.
  change (": " +:+ t +:+ String c rest) with (String ":" (String " " (t +:+ String c rest))).
  cbn [scan]. change (scan_step _ ":") with (Some (mkScanner (FObject acc (Some key) :: k) BeginValue)).
  cbv iota. change (scan_step _ " ") with (Some (mkScanner (FObject acc (Some key) :: k) BeginValue)).
  cbv iota. rewrite Hd; [done|by intros ??|simpl length; lia|done].
Qed.

Lemma scan_template d tabs lines : ∀ fields k acc m t,
  lines ≠ [] → Forall2 (member_denotes d) lines fields → m = BeginString ∨ m = BeginStringOrEmpty →
  Z.of_nat (S (length k) + d) <= maxNestingDepth →
  scan (mkScanner (FObject acc None :: k) m)
    (string_join "," (template_line tabs <$> lines) +:+ newline tabs +:+ String "}" t) =
  scan_after (finish_value k (JObject (rev acc ++ fields))) t.
Proof.
  induction lines as [|line lines IH]; intros fields k acc m t Hne Hl Hm Hd; [done|].
  inversion Hl as [|? f ? fields' Hf Hfs]; subst. destruct lines as [|line' lines].
  - inversion Hfs; subst. cbn [fmap list_fmap string_join].
    change (newline tabs) with (String (byte_of_val 10) (string_repeat (byte_of_val 9) tabs)) at 1.
    rewrite string_app_cons. erewrite scan_template_line by (done || by right; right; right).
    change (String (byte_of_val 10) (string_repeat (byte_of_val 9) tabs +:+ String "}" t)) with
      (newline tabs +:+ String "}" t).
    rewrite scan_spaces; [|apply skips_mode; auto|apply newline_spaces]. done.
  - change (string_join "," (template_line tabs <$> line :: line' :: lines)) with
      (template_line tabs line +:+ "," +:+ string_join "," (template_line tabs <$> line' :: lines)).
    rewrite !string_app_assoc, (string_app_cons ","), string_app_nil_l.
    erewrite scan_template_line by (done || by left).
    cbn [scan]. change (scan_step _ ",") with (Some (mkScanner (FObject (f :: acc) None :: k) BeginString)).
    cbv iota. erewrite IH by (done || by left). cbn [rev]. by rewrite <-app_assoc.
Qed.

Lemma denotes_template d tabs lines fields :
  lines ≠ [] → Forall2 (member_denotes d) lines fields →
  denotes (S d) (template tabs lines) (JObject fields).
Proof.
  intros Hne Hl k c rest Hk Hd Hc. unfold template. fold (template_line tabs).
  rewrite !string_app_assoc, (string_app_cons "{"), string_app_nil_l. cbn [scan].
  change (scan_step _ "{") with (push (FObject [] None) k BeginStringOrEmpty).
  rewrite push_ok by lia. rewrite (string_app_cons "}"), string_app_nil_l.
  change ((λ m, newline (S tabs) +:+ in_quotes m.1 +:+ ": " +:+ m.2) <$> lines)
    with (template_line tabs <$> lines).
  by erewrite scan_template by (done || lia || by right).
Qed.

(** A document with white space around it. *)
Lemma denotes_parse d n n' t v :
  denotes d t v → Z.of_nat d <= maxNestingDepth →
  json_parse (newline n +:+ t +:+ newline n') = Some v.
Proof.
  intros Ht Hd. unfold json_parse. rewrite !string_app_assoc, scan_spaces
    by (apply newline_spaces || (apply skips_mode; auto)).
  change (newline n' +:+ " ") with
    (String (byte_of_val 10) (string_repeat (byte_of_val 9) n' +:+ " ")).
  rewrite (Ht [] (byte_of_val 10)) by (by intros ?? || done || by right; right; right).
  cbn [finish_value scan_after].
  change (String (byte_of_val 10) (string_repeat (byte_of_val 9) n' +:+ " ")) with (newline n' +:+ " ").
  rewrite scan_spaces; [done| |apply newline_spaces].
  intros c Hc. cbn [scan_step sc_mode]. by rewrite Hc.
Qed.

Lemma denotes_parse_end d n t v :
  denotes d t v → Z.of_nat d <= maxNestingDepth → json_parse (newline n +:+ t) = Some v.
Proof.
  intros Ht Hd. unfold json_parse. rewrite !string_app_assoc, scan_spaces
    by (apply newline_spaces || (apply skips_mode; auto)).
  by rewrite (Ht [] " "%char "") by (by intros ?? || done || by right; right; right).
Qed.

(** ** The poll of an operation *)

(** [r.FormValue(key)] of a request without a body. *)
Definition FormValue (q : Values) (key : string) : string := default "" (head (default [] (q !! key))).

(** The details that the API of the broker takes from the query of a poll. *)
(* map: vendor/github.com/pivotal-cf/brokerapi/handlers/last_operation.go 19-23 LastOperation *)
Definition poll_details (query : string) : PollDetails :=
  let q := parse_query query in
  mkPollDetails (FormValue q "service_id") (FormValue q "plan_id") (FormValue q "operation").

(** The poll that the client sends. *)
Definition poll_request (b : BrokerAPIClient) (instanceID serviceID planID operation : string)
    : http_request :=
  build_request b "GET" (instance_path instanceID +:+ "/last_operation") None
    [("service_id", serviceID); ("plan_id", planID); ("operation", operation)].

(** The parameters of a request, when the URL has no query of its own. *)
Lemma request_query b action path body params :
  url_query (bc_URL b +:+ path) = "" →
  parse_query (rq_Query (build_request b action path body params)) = foldl values_add ∅ params.
Proof.
  intros Hq. unfold build_request. cbn [rq_Query]. rewrite Hq.
  change (parse_query "") with (∅ : Values). apply parse_query_encode, foldl_values_nonempty.
  intros k. by rewrite lookup_empty.
Qed.

Lemma poll_details_request b instanceID serviceID planID operation :
  url_query (bc_URL b +:+ instance_path instanceID +:+ "/last_operation") = "" →
  poll_details (rq_Query (poll_request b instanceID serviceID planID operation)) =
    mkPollDetails serviceID planID operation.
Proof.
  intros Hq. unfold poll_details, poll_request. rewrite request_query by done. reflexivity.
Qed.

Section operation.
Context {X : Type} `{HTTP X}.

(** A response with an operation and nothing else. *)
Lemma read_operation_response code body d (s : state X) :
  accepted code = true → json_parse body = Some (JObject [("operation", JString d)]) →
  read_operation (inl (mkResponse code (inl body))) s = (Ret (code, d, None), s).
Proof.
  intros Hc Hb. unfold read_operation, unmarshal_with. cbn [rs_StatusCode rs_Body BodyBytes].
  rewrite Hc, Hb. cbn [negb]. unfold decode_provisioning_response.
  assert (steps (decode_struct [
    field "dashboard_url" pr_DashboardURL (λ r x, mkProvisioningResponse x (pr_Operation r)) decode_text;
    field "operation" pr_Operation (λ r x, mkProvisioningResponse (pr_DashboardURL r) x) decode_text]
    (JObject [("operation", JString d)]) (mkProvisioningResponse "" "") : M X _)
    (st_maps s) (mkProvisioningResponse "" d) (st_maps s)) as Hs.
  { eapply (steps_field 1%nat); [reflexivity|reflexivity|apply steps_text|apply steps_ret]. }
  destruct s as [h tr w]. unfold bind. cbn [st_maps] in Hs. by rewrite Hs.
Qed.
End operation.

(** ** Properties *)

(** The bodies of the requests are what they look like: with identifiers that
    are plain (printable ASCII without quotation marks and backslashes) and the
    text of any JSON value as parameters, the templates of the client are read as
    the objects with these members; the identifiers cannot break out of their
    strings. *)
Theorem request_bodies_parse (b : BrokerAPIClient) (params : json)
    (serviceID planID oldPlanID oldServiceID orgID spaceID appGUID : string) :
  Forall plain [serviceID; planID; oldPlanID; oldServiceID; orgID; spaceID; appGUID;
                bc_DefaultOrganizationID b; bc_DefaultSpaceID b] →
  json_wf params = true → Z.of_nat (json_depth params) + 3 <= maxNestingDepth →
  json_parse (provision_body b serviceID planID (json_text params)) = Some (JObject
    [("service_id", JString serviceID); ("plan_id", JString planID);
     ("organization_guid", JString (bc_DefaultOrganizationID b));
     ("space_guid", JString (bc_DefaultSpaceID b)); ("parameters", params)]) ∧
  json_parse (update_body serviceID planID oldPlanID oldServiceID orgID spaceID (json_text params)) =
    Some (JObject
      [("service_id", JString serviceID); ("plan_id", JString planID);
       ("previous_values", JObject
         [("plan_id", JString oldPlanID); ("service_id", JString oldServiceID);
          ("org_id", JString orgID); ("space_id", JString spaceID)]);
       ("parameters", params)]) ∧
  json_parse (bind_body serviceID planID appGUID) = Some (JObject
    [("service_id", JString serviceID); ("plan_id", JString planID);
     ("bind_resource", JObject [("app_guid", JString appGUID)]); ("parameters", JObject [])]).
Proof.
  intros Hplain Hwf Hd. rewrite !list.Forall_cons in Hplain.
  destruct Hplain as (H1 & H2 & H3 & H4 & H5 & H6 & H7 & H8 & H9 & _).
  set (d := S (json_depth params)).
  assert (denotes d (json_text params) params) as Hp
    by (eapply denotes_weaken; [|by apply denotes_text]; lia).
  assert (∀ s, plain s → denotes d (in_quotes s) (JString s)) as Hs
    by (intros s Hs; eapply denotes_weaken; [|by apply denotes_plain]; lia).
  assert (∀ lines fields, lines ≠ [] → Forall2 (member_denotes 0) lines fields →
    denotes d (template 3 lines) (JObject fields)) as Hobj
    by (intros lines fields Hne Hl; eapply denotes_weaken; [|by apply denotes_template]; lia).
  split; [|split].
  - apply (denotes_parse (S d) 2 1); [apply denotes_template; [done|]|lia].
    repeat constructor; cbn [snd]; auto.
  - apply (denotes_parse (S d) 2 1); [apply denotes_template; [done|]|lia].
    repeat constructor; cbn [snd]; auto.
    apply Hobj; [done|]. repeat constructor; cbn [snd]; auto using denotes_plain.
  - apply (denotes_parse_end (S d) 2); [apply denotes_template; [done|]|lia].
    repeat constructor; cbn [snd]; auto.
    + apply Hobj; [done|]. repeat constructor; cbn [snd]; auto using denotes_plain.
    + eapply denotes_weaken; [|by apply (denotes_text (JObject []))]. simpl. lia.
Qed.

Lemma request_bodies_parse_witness :
  let params := JObject [("maxmemory_policy", JString "noeviction")] in
  let b := NewBrokerAPIClient "https://localhost" "user" "pass" "org" "space" "" in
  json_parse (provision_body b "service" "plan" (json_text params)) = Some (JObject
    [("service_id", JString "service"); ("plan_id", JString "plan");
     ("organization_guid", JString "org"); ("space_guid", JString "space"); ("parameters", params)]) ∧
  json_parse (update_body "service" "plan" "old" "oldservice" "org" "space" (json_text params)) =
    Some (JObject
      [("service_id", JString "service"); ("plan_id", JString "plan");
       ("previous_values", JObject
         [("plan_id", JString "old"); ("service_id", JString "oldservice");
          ("org_id", JString "org"); ("space_id", JString "space")]);
       ("parameters", params)]) ∧
  json_parse (bind_body "service" "plan" "app") = Some (JObject
    [("service_id", JString "service"); ("plan_id", JString "plan");
     ("bind_resource", JObject [("app_guid", JString "app")]); ("parameters", JObject [])]).
Proof.
  intros params b. apply (request_bodies_parse b params).
  - by repeat constructor.
  - by vm_compute.
  - by vm_compute.
Defined.

(** C23: operation data come back: when the API answers a provisioning with the
    operation that the broker made of [o], however the response is written, the
    client returns it, and the poll that it sends with it carries, percent-encoded
    in its query, exactly the service, the plan and the operation data that
    [LastOperation] decodes to [o]. *)
Theorem operation_through_client {X : Type} `{HTTP X} (b : BrokerAPIClient) (o : Operation)
    (instanceID serviceID planID paramJSON body : string) (code : Z) (s : state X) :
  operation_utf8 o → op_Action o ≠ "" → accepted code = true →
  json_parse body = Some (JObject [("operation", JString (Operation_String o))]) →
  url_query (bc_URL b +:+ instance_path instanceID +:+ "/last_operation") = "" →
  (∀ action path, http_NewRequest action path = None) →
  (∀ rq, rq_Method rq = "PUT" → (client_Do rq (st_world s)).1 = inl (mkResponse code (inl body))) →
  let operation := Operation_String o in
  let poll := poll_request b instanceID serviceID planID operation in
  (ProvisionInstance b instanceID serviceID planID paramJSON s).1 = Ret (code, operation, None) ∧
  DoLastOperationRequest b instanceID serviceID planID operation = external (client_Do poll) ∧
  poll_details (rq_Query poll) = mkPollDetails serviceID planID operation ∧
  parse_operation (poll_details (rq_Query poll)) = (o, None).
Proof.
  intros Hutf Ha Hc Hb Hq Hnew Hdo operation poll.
  rewrite (poll_details_request b instanceID serviceID planID operation Hq : poll_details (rq_Query poll) = _).
  split; [|split; [|split; [done|by apply parse_operation_string]]].
  - unfold ProvisionInstance, DoProvisionRequest, doRequest, bind, external. rewrite Hnew, Hdo by done.
    by erewrite read_operation_response by done.
  - unfold DoLastOperationRequest, doRequest. by rewrite Hnew.
Qed.

(** A server that answers every request with the operation. *)
Definition operation_server (body : string) : HTTP () := {|
  http_NewRequest _ _ := None;
  client_Do _ w := (inl (mkResponse 202 (inl body)), w);
|}.

Definition test_client : BrokerAPIClient :=
  NewBrokerAPIClient "https://localhost:8080" "user" "pass" "org" "space" "".

Definition test_operation : Operation :=
  mkOperation "failover" "node & 001=é" "2023-11-14T22:13:20+01:00".

Lemma operation_through_client_witness :
  let server := operation_server (marshal_strings [("operation", Operation_String test_operation)]) in
  let poll := poll_request test_client "i" "s" "p" (Operation_String test_operation) in
  (ProvisionInstance test_client "i" "s" "p" "{}" (mkState [] [] tt)).1 =
    Ret (202, Operation_String test_operation, None) ∧
  DoLastOperationRequest test_client "i" "s" "p" (Operation_String test_operation) =
    external (client_Do poll) ∧
  poll_details (rq_Query poll) = mkPollDetails "s" "p" (Operation_String test_operation) ∧
  parse_operation (poll_details (rq_Query poll)) = (test_operation, None).
Proof.
  intros server. apply (operation_through_client test_client test_operation "i" "s" "p" "{}"
    (marshal_strings [("operation", Operation_String test_operation)]) 202 (mkState [] [] tt)).
  all: try done; vm_compute; auto.
Defined.
