(* ===== verification/AwsHelper.v ===== *)
(** * The AWS resources of the acceptance tests

    ci/helpers/aws_helper.go: the subnet group and the security group the tests
    run in.  The calls to EC2, ElastiCache, STS and the metadata service, the
    environment of the process and the random UUIDs are parameters; the clients
    made from a session are the session. *)
From S2P Require Import Prelude GoBase Sdk Providers Go RedisBase.
Local Open Scope Z_scope.
Local Open Scope go_scope.

(** ** The calls *)

Record Filter := mkFilter { f_Name : option string; f_Values : list (option string) }.

Record IpPermission := mkIpPermission {
  ip_IpProtocol : option string;
  ip_FromPort : option Z;
  ip_ToPort : option Z;
  ip_CidrIp : list (option string);   (** of [IpRanges] *)
}.

Record session := mkSession { s_Region : option string }.

Inductive test_call :=
  | GetMetadata (path : string)
  | NewV4
  | DescribeSubnets (filters : list Filter)
  | CreateCacheSubnetGroup (name description : option string) (subnetIDs : list (option string))
  | CreateEC2SecurityGroup (name description vpcID : option string)
  | AuthorizeSecurityGroupIngress (groupID : option string) (permissions : list IpPermission)
  | DeleteCacheSubnetGroup (name : option string)
  | DeleteTestParameterGroup (name : option string)
  | DeleteSecurityGroup (groupID : option string)
  | GetCallerIdentity
  | DescribeNetworkInterfaces (filters : list Filter).

(** What is read of the answers; pointers are options. A subnet has an id, a
    subnet group in the answer of its creation has a name. *)
Definition test_out (c : test_call) : Type :=
  match c with
  | GetMetadata _ | NewV4 => string
  | DescribeSubnets _ => option (list (option (option string)))
  | CreateCacheSubnetGroup _ _ _ => option (option (option string))
  | CreateEC2SecurityGroup _ _ _ => option (option string)
  | GetCallerIdentity => option (option string)
  | DescribeNetworkInterfaces _ => option (list ())
  | _ => ()
  end.

Class TestCloud (X : Type) := {
  test_serve : ∀ c : test_call, X → (test_out c * option error) * X;
  test_getenv : string → string;   (** [os.Getenv] *)
}.

Section helper.
Context {X : Type} `{TestCloud X}.

Definition test_do (c : test_call) : M X (test_out c * option error) := external (test_serve c).

(** [fmt.Sprintf("%s-%s", prefix, uuid.NewV4().String())]; [NewV4] panics when
    the random source fails. *)
Definition unique_name (prefix : string) : M X string :=
  try! uuid := test_do NewV4
    catch err => panic (PanicError err) in
  ret (prefix +:+ "-" +:+ uuid).

(* map: ci/helpers/aws_helper.go 170-181 getNetworkMetadata *)
Definition getNetworkMetadata (name : string) (s : session) : M X (string * option error) :=
  let prefix := "network/interfaces/macs" in
  try! mac := test_do (GetMetadata prefix)
    catch err => ret ("", Some err) in
  test_do (GetMetadata (string_join "/" [prefix; mac; name])).

(** The variable [name] of the environment, or else the metadata. *)
(* map: ci/helpers/aws_helper.go 158-168 getVPCID *)
Definition getVPCID (s : session) : M X (string * option error) :=
  let vpcID := test_getenv "AWS_VPC_ID" in
  if bool_decide (vpcID = "") then
    try! vpcID := getNetworkMetadata "vpc-id" s
      catch err => ret ("", Some err) in
    ret (vpcID, None)
  else ret (vpcID, None).

(* map: ci/helpers/aws_helper.go 17-50 CreateSubnetGroup *)
Definition CreateSubnetGroup (prefix : string) (s : session) : M X (option string * option error) :=
  try! vpcID := getVPCID s
    catch err => ret (None, Some err) in
  try! subnets := test_do (DescribeSubnets [mkFilter (Some "vpc-id") [Some vpcID]])
    catch err => ret (None, Some err) in
  let! subnets := deref subnets in
  let! subnetIDs := for_each subnets [] (λ subnetIDs subnet,
    let! subnet := deref subnet in ret (subnetIDs ++ [subnet])) in
  let! name := unique_name prefix in
  try! subnetGroup := test_do (CreateCacheSubnetGroup (Some name)
      (Some (prefix +:+ " integration tests")) subnetIDs)
    catch err => ret (None, Some err) in
  let! subnetGroup := deref subnetGroup in
  let! subnetGroup := deref subnetGroup in
  ret (subnetGroup, None).

(** The network the tests come from. *)
(* map: ci/helpers/aws_helper.go 58-64 CreateSecurityGroup *)
Definition local_subnet (s : session) : M X (string * option error) :=
  let localSubnet := test_getenv "AWS_SUBNET_CIDR_BLOCK" in
  if bool_decide (localSubnet = "") then getNetworkMetadata "subnet-ipv4-cidr-block" s
  else ret (localSubnet, None).

(** The permission for one port. *)
(* map: ci/helpers/aws_helper.go 79-84 CreateSecurityGroup *)
Definition open_port (localSubnet : string) (port : Z) : IpPermission :=
  mkIpPermission (Some "tcp") (Some port) (Some port) [Some localSubnet].

(** The loop over the ports; the first error ends it. *)
(* map: ci/helpers/aws_helper.go 76-89 CreateSecurityGroup *)
Fixpoint authorize_ports (securityGroup : option (option string)) (localSubnet : string)
    (ports : list Z) : M X (option error) :=
  match ports with
  | [] => ret None
  | port :: ports' =>
      let! groupID := deref securityGroup in
      try! _out := test_do (AuthorizeSecurityGroupIngress groupID [open_port localSubnet port])
        catch err => ret (Some err) in
      authorize_ports securityGroup localSubnet ports'
  end.

(* map: ci/helpers/aws_helper.go 52-92 CreateSecurityGroup *)
Definition CreateSecurityGroup (prefix : string) (s : session) : M X (option string * option error) :=
  try! vpcID := getVPCID s
    catch err => ret (None, Some err) in
  try! localSubnet := local_subnet s
    catch err => ret (None, Some err) in
  let! name := unique_name prefix in
  try! securityGroup := test_do (CreateEC2SecurityGroup (Some name)
      (Some (prefix +:+ " integration tests")) (Some vpcID))
    catch err => ret (None, Some err) in
  check! authorize_ports securityGroup localSubnet [6379]
    catch err => ret (None, Some err) in
  let! groupID := deref securityGroup in
  ret (groupID, None).

(* map: ci/helpers/aws_helper.go 94-101 DestroySubnetGroup *)
Definition DestroySubnetGroup (name : option string) (s : session) : M X (option error) :=
  let! (_, err) := test_do (DeleteCacheSubnetGroup name) in ret err.

(* map: ci/helpers/aws_helper.go 103-110 DestroyParameterGroup *)
Definition DestroyParameterGroup (name : option string) (s : session) : M X (option error) :=
  let! (_, err) := test_do (DeleteTestParameterGroup name) in ret err.

(* map: ci/helpers/aws_helper.go 112-119 DestroySecurityGroup *)
Definition DestroySecurityGroup (id : option string) (s : session) : M X (option error) :=
  let! (_, err) := test_do (DeleteSecurityGroup id) in ret err.

(* map: ci/helpers/aws_helper.go 121-139 ReplicationGroupARN *)
Definition ReplicationGroupARN (s : session) (replicationGroupID : string)
    : M X (string * option error) :=
  try! getCallerIdentityOutput := test_do GetCallerIdentity
    catch err => ret ("", Some err) in
  let awsPartition := "aws" in
  let awsRegion := StringValue (s_Region s) in
  let! account := deref getCallerIdentityOutput in
  let awsAccountID := StringValue account in
  ret ("arn:" +:+ awsPartition +:+ ":elasticache:" +:+ awsRegion +:+ ":" +:+ awsAccountID +:+
       ":cluster:" +:+ replicationGroupID +:+ "-001", None).

(* map: ci/helpers/aws_helper.go 141-156 CountSGAssociatedInterfaces *)
Definition CountSGAssociatedInterfaces (secGroupID : option string) (s : session)
    : M X (Z * option error) :=
  try! result := test_do (DescribeNetworkInterfaces [mkFilter (Some "group-id") [secGroupID]])
    catch err => ret (-1, Some err) in
  let! interfaces := deref result in
  ret (Z.of_nat (length interfaces), None).
End helper.

(** ** The calls that are made

    A cloud that keeps a record of the calls and its answers. *)
Inductive test_event := TestEvent (c : test_call) (r : test_out c * option error).

#[local] Instance recording (X : Type) `{TestCloud X} : TestCloud (X * list test_event) := {
  test_serve c w :=
    ((test_serve c w.1).1, ((test_serve c w.1).2, w.2 ++ [TestEvent c (test_serve c w.1).1]));
  test_getenv := test_getenv (X:=X);
}.

Section records.
Context {X : Type} `{TestCloud X}.
Abbreviation W := (X * list test_event)%type.

(** Whatever is answered, [m] makes calls and has an outcome with [Q]. *)
Definition records {A} (m : M W A) (Q : outcome A → list test_event → Prop) : Prop :=
  ∀ s, ∃ es, (st_world (m s).2).2 = (st_world s).2 ++ es ∧ Q (m s).1 es.

Lemma records_conseq {A} (m : M W A) (Q Q' : outcome A → list test_event → Prop) :
  records m Q' → (∀ o es, Q' o es → Q o es) → records m Q.
Proof. intros Hm HQ s. destruct (Hm s) as (es & Hes & Ho). exists es. auto. Qed.

Lemma records_ret {A} (a : A) (Q : outcome A → list test_event → Prop) :
  Q (Ret a) [] → records (ret a) Q.
Proof. intros HQ s. exists []. by rewrite app_nil_r. Qed.

Lemma records_panic {A} p (Q : outcome A → list test_event → Prop) :
  Q (Panic p) [] → records (panic p) Q.
Proof. intros HQ s. exists []. by rewrite app_nil_r. Qed.

Lemma records_bind {A B} (m : M W A) (k : A → M W B) (Q : outcome B → list test_event → Prop) :
  records m (λ o es,
    match o with
    | Ret a => records (k a) (λ o' es', Q o' (es ++ es'))
    | Panic p => Q (Panic p) es
    end) →
  records (bind m k) Q.
Proof.
  intros Hm s. destruct (Hm s) as (es & Hes & HQ). unfold bind.
  destruct (m s) as [[a|p] s'] eqn:Hms; simpl in *; [|by exists es].
  destruct (HQ s') as (es' & Hes' & HQ'). exists (es ++ es').
  by rewrite Hes', Hes, app_assoc.
Qed.

Lemma records_deref {A} (o : option A) (Q : outcome A → list test_event → Prop) :
  match o with Some a => Q (Ret a) [] | None => Q (Panic NilDereference) [] end →
  records (deref o) Q.
Proof. destruct o; [apply records_ret|apply records_panic]. Qed.

Lemma records_do c (Q : outcome (test_out c * option error) → list test_event → Prop) :
  (∀ r, Q (Ret r) [TestEvent c r]) → records (test_do c) Q.
Proof. intros HQ s. eexists. split; [reflexivity|apply HQ]. Qed.

(** ** What [CreateSecurityGroup] promises *)

(** A setting: the variable of the environment, or the metadata of the first
    network interface; with an error, the value does not matter. *)
Inductive setting_run (variable name : string) : list test_event → string * option error → Prop :=
  | setting_given :
      test_getenv (X:=X) variable ≠ "" →
      setting_run variable name [] (test_getenv (X:=X) variable, None)
  | setting_no_mac mac v e :
      test_getenv (X:=X) variable = "" →
      setting_run variable name [TestEvent (GetMetadata "network/interfaces/macs") (mac, Some e)]
        (v, Some e)
  | setting_unread mac value v e :
      test_getenv (X:=X) variable = "" →
      setting_run variable name
        [TestEvent (GetMetadata "network/interfaces/macs") (mac, None);
         TestEvent (GetMetadata ("network/interfaces/macs/" +:+ mac +:+ "/" +:+ name)) (value, Some e)]
        (v, Some e)
  | setting_read mac value :
      test_getenv (X:=X) variable = "" →
      setting_run variable name
        [TestEvent (GetMetadata "network/interfaces/macs") (mac, None);
         TestEvent (GetMetadata ("network/interfaces/macs/" +:+ mac +:+ "/" +:+ name)) (value, None)]
        (value, None).

Definition creation_event (prefix uuid vpcID : string) r : test_event :=
  TestEvent (CreateEC2SecurityGroup (Some (prefix +:+ "-" +:+ uuid))
    (Some (prefix +:+ " integration tests")) (Some vpcID)) r.

Definition authorize_event (groupID : option string) (subnet : string) r : test_event :=
  TestEvent (AuthorizeSecurityGroupIngress groupID
    [mkIpPermission (Some "tcp") (Some 6379) (Some 6379) [Some subnet]]) r.

(** The group, once the network and the place are known. *)
Inductive creation_run (prefix vpc subnet : string)
    : list test_event → outcome (option string * option error) → Prop :=
  | creation_no_name uuid e :
      creation_run prefix vpc subnet [TestEvent NewV4 (uuid, Some e)] (Panic (PanicError e))
  | creation_refused uuid out e :
      creation_run prefix vpc subnet
        [TestEvent NewV4 (uuid, None); creation_event prefix uuid vpc (out, Some e)]
        (Ret (None, Some e))
  | creation_nil uuid :
      creation_run prefix vpc subnet
        [TestEvent NewV4 (uuid, None); creation_event prefix uuid vpc (None, None)]
        (Panic NilDereference)
  | creation_done uuid groupID err :
      creation_run prefix vpc subnet
        [TestEvent NewV4 (uuid, None); creation_event prefix uuid vpc (Some groupID, None);
         authorize_event groupID subnet ((), err)]
        (Ret (match err with Some _ => None | None => groupID end, err)).

Inductive security_group_run (prefix : string)
    : list test_event → outcome (option string * option error) → Prop :=
  | group_no_vpc es v e :
      setting_run "AWS_VPC_ID" "vpc-id" es (v, Some e) →
      security_group_run prefix es (Ret (None, Some e))
  | group_no_subnet es es' vpc v e :
      setting_run "AWS_VPC_ID" "vpc-id" es (vpc, None) →
      setting_run "AWS_SUBNET_CIDR_BLOCK" "subnet-ipv4-cidr-block" es' (v, Some e) →
      security_group_run prefix (es ++ es') (Ret (None, Some e))
  | group_asked es es' vpc subnet end_es o :
      setting_run "AWS_VPC_ID" "vpc-id" es (vpc, None) →
      setting_run "AWS_SUBNET_CIDR_BLOCK" "subnet-ipv4-cidr-block" es' (subnet, None) →
      creation_run prefix vpc subnet end_es o →
      security_group_run prefix (es ++ es' ++ end_es) o.

(** ** Lemmas *)

Lemma records_metadata variable name s :
  test_getenv (X:=X) variable = "" →
  records (getNetworkMetadata name s) (λ o es, ∃ r, o = Ret r ∧
    (setting_run variable name es r ∧ ∀ e, r.2 = Some e → ∀ v, setting_run variable name es (v, Some e))).
Proof.
  intros Hv. unfold getNetworkMetadata. cbv zeta. apply records_bind, records_do.
  intros [mac [e|]]; cbn beta iota.
  - apply records_ret. eexists. split; [done|]. split; [by constructor|].
    intros e' [= <-] v. by constructor.
  - apply (records_do (GetMetadata _)). intros [value [e|]]; eexists; (split; [done|]).
    + split; [by apply setting_unread|]. intros e' [= <-] v. by apply setting_unread.
    + split; [by apply setting_read|]. done.
Qed.

Lemma records_getVPCID s :
  records (getVPCID s) (λ o es, ∃ r, o = Ret r ∧ setting_run "AWS_VPC_ID" "vpc-id" es r).
Proof.
  unfold getVPCID. cbv zeta. case_bool_decide as Hv.
  - apply records_bind. eapply records_conseq; [by apply records_metadata|].
    intros o es ([value [e|]] & -> & Hr & He); apply records_ret; rewrite app_nil_r;
      eexists; (split; [done|]); [by apply He|done].
  - apply records_ret. eexists. split; [done|]. by apply setting_given.
Qed.

Lemma records_local_subnet s :
  records (local_subnet s) (λ o es, ∃ r, o = Ret r ∧
    setting_run "AWS_SUBNET_CIDR_BLOCK" "subnet-ipv4-cidr-block" es r).
Proof.
  unfold local_subnet. cbv zeta. case_bool_decide as Hv.
  - eapply records_conseq; [by apply records_metadata|]. intros o es (r & -> & Hr & _). by exists r.
  - apply records_ret. eexists. split; [done|]. by apply setting_given.
Qed.

Lemma records_CreateSecurityGroup prefix s :
  records (CreateSecurityGroup prefix s) (λ o es, security_group_run prefix es o).
Proof.
  unfold CreateSecurityGroup. apply records_bind. eapply records_conseq; [apply records_getVPCID|].
  intros o es ([vpc [e|]] & -> & Hvpc); cbn beta iota.
  { apply records_ret. rewrite app_nil_r. by eapply group_no_vpc. }
  apply records_bind. eapply records_conseq; [apply records_local_subnet|].
  intros o es' ([subnet [e|]] & -> & Hsub); cbn beta iota.
  { apply records_ret. rewrite app_nil_r. by eapply group_no_subnet. }
  eapply records_conseq with (λ o end_es, creation_run prefix vpc subnet end_es o);
    [|intros o end_es Ho; by eapply group_asked].
  unfold unique_name. apply records_bind, records_bind, records_do. intros [uuid [e|]]; cbn beta iota.
  { apply records_panic. apply creation_no_name. }
  apply records_ret, records_bind, (records_do (CreateEC2SecurityGroup _ _ _)).
  intros [out [e|]]; cbn beta iota.
  { apply records_ret. apply creation_refused. }
  apply records_bind. cbn [authorize_ports]. apply records_bind, records_deref.
  destruct out as [groupID|]; [|apply creation_nil].
  apply records_bind, (records_do (AuthorizeSecurityGroupIngress _ _)).
  intros [[] [e|]]; cbn beta iota; apply records_ret; cbn beta iota.
  - apply records_ret. apply (creation_done prefix vpc subnet uuid groupID (Some e)).
  - apply records_bind, records_deref, records_ret.
    apply (creation_done prefix vpc subnet uuid groupID None).
Qed.
End records.

(** ** Properties *)

(** C37: [CreateSecurityGroup] refines [security_group_run], whatever is answered:
    the network and the subnet come from the environment or the metadata, one
    group is created, and its port 6379, and nothing else, is opened to that
    subnet alone; every error ends it and is returned.  When the port cannot be
    opened, the group that was created is left behind, and its id is lost. *)
Theorem create_security_group_correct {X : Type} `{TestCloud X} (prefix : string) (s : session) :
  records (CreateSecurityGroup prefix s) (λ o es, security_group_run (X:=X) prefix es o).
Proof. apply records_CreateSecurityGroup. Qed.
