(* ===== verification/ConfigHelper.v ===== *)
(** * The configuration of the acceptance tests

    ci/helpers/config_helper.go: the tests take a configuration, set the names of
    the resources they made, write it to a temporary file and start the broker
    with it.  What is written is read back by [LoadConfig].

    The file system is a parameter, and so is the encoding of the catalog, of
    which the model keeps only the ids. *)
From S2P Require Import Prelude GoBase Sdk Providers Go Interfaces Bench Json JsonDecode Config ConfigFile.
From S2P Require Import JsonText ConfigLoad ConfigDocument.
Local Open Scope Z_scope.
Local Open Scope go_scope.

(** ** The file system *)

Class FileSystem (X : Type) := {
  fs_file : Type;                                              (** [*os.File] *)
  fs_Name : fs_file → string;                                  (** its [Name] *)
  fs_TempFile : string → string → X → (fs_file + error) * X;   (** [ioutil.TempFile] *)
  fs_WriteFile : string → string → Z → X → option error * X;   (** [ioutil.WriteFile] *)
  fs_Close : fs_file → X → option error * X;                   (** its [Close] *)
  fs_files : X → Files;                                        (** what can be read now *)
}.

Definition holds `{FileSystem X} (x : X) (name data : string) : Prop :=
  @os_Open (fs_files x) name = None ∧ @ioutil_ReadAll (fs_files x) name = inl data.

(** A temporary file has a name; what the process writes to it is there until
    somebody changes it, and closing it does not. *)
Class FileSystemLaws (X : Type) `{FileSystem X} : Prop := {
  fs_name_nonempty : ∀ dir pattern x file x',
    fs_TempFile dir pattern x = (inl file, x') → fs_Name file ≠ "";
  fs_written : ∀ dir pattern x file x1 data perm x2,
    fs_TempFile dir pattern x = (inl file, x1) →
    fs_WriteFile (fs_Name file) data perm x1 = (None, x2) → holds x2 (fs_Name file) data;
  fs_close_keeps : ∀ file x name data,
    holds x name data → holds (fs_Close file x).2 name data;
}.

(** What a configuration holds beyond its model: the document that [json.Marshal]
    makes of the catalog, with the names, descriptions and metadata, or its error,
    and whether an empty map of plans is nil. *)
Class ConfigRest := {
  rest_catalog : list Service → json + error;
  rest_nil_plans : bool;
}.

(** ** [WriteCustomConfig] *)

(* map: ci/helpers/config_helper.go 16-20 WriteCustomConfig *)
Definition custom_config (config : Config)
    (brokerName elastiCacheSubnetGroupName ec2SecurityGroupID : string) : Config :=
  mkConfig (cf_LogLevel config) (cf_Username config) (cf_Password config) (cf_Region config)
    brokerName elastiCacheSubnetGroupName [ec2SecurityGroupID] (cf_Catalog config)
    (cf_PlanConfigs config) (cf_KmsKeyID config) (cf_SecretsManagerPath config) (cf_Host config)
    (cf_TLS config).

Section write.
Context {X : Type} `{Runtime X} {certificate : Type} `{X509 certificate} `{FileSystem X} `{ConfigRest}.

(** The map objects of the heap, for the encoder. *)
Definition get_maps : M X (list (gmap string string)) := λ s, (Ret (st_maps s), s).

Definition plans_or_null (h : list (gmap string string)) (m : gmap string PlanConfig) : json :=
  if rest_nil_plans && bool_decide (m = ∅) then JNull else plans_json h m.

(** [json.Marshal(newConfig)]: the fields under their tags, in their order; maps
    sorted by key. *)
(* map: ci/helpers/config_helper.go 31-34 WriteCustomConfig *)
Definition marshal_config (h : list (gmap string string)) (newConfig : Config) : string + error :=
  match rest_catalog (cf_Catalog newConfig) with
  | inr err => inr err
  | inl catalog =>
      inl (json_text (config_json_with catalog (plans_or_null h (cf_PlanConfigs newConfig)) newConfig))
  end.

(** The part after the validation. *)
(* map: ci/helpers/config_helper.go 26-44 WriteCustomConfig *)
Definition write_config (newConfig : Config) : M X (Config * string * option error) :=
  let! created := external (fs_TempFile "" "elasticache-broker") in
  match created with
  | inr err => ret (zero_Config, "", Some err)
  | inl configFile =>
      let! h := get_maps in
      match marshal_config h newConfig with
      | inr err => ret (zero_Config, "", Some err)
      | inl configJSON =>
          check! external (fs_WriteFile (fs_Name configFile) configJSON 420)
            catch err => ret (zero_Config, "", Some err) in
          check! external (fs_Close configFile) catch err => ret (zero_Config, "", Some err) in
          ret (newConfig, fs_Name configFile, None)
      end
  end.

(* map: ci/helpers/config_helper.go 10-45 WriteCustomConfig *)
Definition WriteCustomConfig (config : Config)
    (brokerName elastiCacheSubnetGroupName ec2SecurityGroupID : string)
    : M X (Config * string * option error) :=
  let newConfig := custom_config config brokerName elastiCacheSubnetGroupName ec2SecurityGroupID in
  check! Validate newConfig catch err => ret (zero_Config, "", Some err) in
  write_config newConfig.

(** ** Specification

    The configuration with the three names set: the one security group replaces
    those that were there, and all the rest is as it was. *)
Record renamed (config : Config)
    (brokerName elastiCacheSubnetGroupName ec2SecurityGroupID : string) (c : Config) : Prop := {
  renamed_BrokerName : cf_BrokerName c = brokerName;
  renamed_CacheSubnetGroupName : cf_CacheSubnetGroupName c = elastiCacheSubnetGroupName;
  renamed_VpcSecurityGroupIds : cf_VpcSecurityGroupIds c = [ec2SecurityGroupID];
  same_LogLevel : cf_LogLevel c = cf_LogLevel config;
  same_Username : cf_Username c = cf_Username config;
  same_Password : cf_Password c = cf_Password config;
  same_Region : cf_Region c = cf_Region config;
  same_Catalog : cf_Catalog c = cf_Catalog config;
  same_PlanConfigs : cf_PlanConfigs c = cf_PlanConfigs config;
  same_KmsKeyID : cf_KmsKeyID c = cf_KmsKeyID config;
  same_SecretsManagerPath : cf_SecretsManagerPath c = cf_SecretsManagerPath config;
  same_Host : cf_Host c = cf_Host config;
  same_TLS : cf_TLS c = cf_TLS config;
}.

Lemma renamed_custom config brokerName elastiCacheSubnetGroupName ec2SecurityGroupID c :
  renamed config brokerName elastiCacheSubnetGroupName ec2SecurityGroupID c →
  custom_config config brokerName elastiCacheSubnetGroupName ec2SecurityGroupID = c.
Proof. intros []. destruct c. unfold custom_config. simpl in *. congruence. Qed.

(** [write_run c verdict json x r x']: with the verdict of the validation and the
    encoding of the configuration [c], started in the world [x], the result is
    [r] and the world is left as [x'].  Each step is made only if the ones before
    succeeded. *)
Inductive write_run (c : Config) : option error → string + error → X →
    Config * string * option error → X → Prop :=
  | WriteInvalid err json x :
      write_run c (Some err) json x (zero_Config, "", Some err) x
  | WriteNoFile err json x x1 :
      fs_TempFile "" "elasticache-broker" x = (inr err, x1) →
      write_run c None json x (zero_Config, "", Some err) x1
  | WriteNotEncoded err file x x1 :
      fs_TempFile "" "elasticache-broker" x = (inl file, x1) →
      write_run c None (inr err) x (zero_Config, "", Some err) x1
  | WriteFailed err file json x x1 x2 :
      fs_TempFile "" "elasticache-broker" x = (inl file, x1) →
      fs_WriteFile (fs_Name file) json 420 x1 = (Some err, x2) →
      write_run c None (inl json) x (zero_Config, "", Some err) x2
  | WriteNotClosed err file json x x1 x2 x3 :
      fs_TempFile "" "elasticache-broker" x = (inl file, x1) →
      fs_WriteFile (fs_Name file) json 420 x1 = (None, x2) →
      fs_Close file x2 = (Some err, x3) →
      write_run c None (inl json) x (zero_Config, "", Some err) x3
  | WriteDone file json x x1 x2 x3 :
      fs_TempFile "" "elasticache-broker" x = (inl file, x1) →
      fs_WriteFile (fs_Name file) json 420 x1 = (None, x2) →
      fs_Close file x2 = (None, x3) →
      write_run c None (inl json) x (c, fs_Name file, None) x3.

(** The file is written when the configuration is valid. *)
Lemma write_run_valid s (c : Config) :
  ∃ r x', write_config c s = (Ret r, mkState (st_maps s) (st_trace s) x') ∧
    write_run c None (marshal_config (st_maps s) c) (st_world s) r x'.
Proof.
  unfold write_config.
  destruct (fs_TempFile "" "elasticache-broker" (st_world s)) as [[file|err] x1] eqn:E1;
    rewrite (run_external _ _ _ _ _ E1); [|by eexists _, _; split; [done|by constructor]].
  change (bind get_maps ?k ?s') with (k (st_maps s') s'). cbn [st_maps].
  destruct (marshal_config (st_maps s) c) as [json|err];
    [|eexists _, _; split; [done|]; by eapply WriteNotEncoded].
  destruct (fs_WriteFile (fs_Name file) json 420 x1) as [[err|] x2] eqn:E2;
    rewrite (run_external _ _ (mkState _ _ x1) _ _ E2); [by eexists _, _; split; [done|by eapply WriteFailed]|].
  destruct (fs_Close file x2) as [[err|] x3] eqn:E3; rewrite (run_external _ _ (mkState _ _ x2) _ _ E3);
    eexists _, _; (split; [done|]); [by eapply WriteNotClosed|by eapply WriteDone].
Qed.

(** What [Validate] leaves is its verdict and a world. *)
Lemma run_Validate `{!RuntimeLaws X} s (c : Config) :
  ∃ verdict x', Validate c s = (Ret verdict, mkState (st_maps s) (st_trace s) x') ∧
    (verdict = None ↔ config_ok c).
Proof.
  destruct (runs_Validate (st_maps s) c s eq_refl) as (es & Htr & -> & Hm & err & Ho & Hok).
  exists err, (st_world (Validate c s).2). split; [|done]. rewrite app_nil_r in Htr.
  destruct (Validate c s) as [o [h tr x]]. simpl in *. by subst.
Qed.

(** ** What is there afterwards *)

(** The configuration can be encoded: it is text, and so is its catalog, from
    which the ids can be read. *)
Definition encodable (h : list (gmap string string)) (c : Config) : Prop :=
  ∀ catalog, rest_catalog (cf_Catalog c) = inl catalog →
    (∀ h1, steps (decode_catalog catalog [] : M X _) h1 (cf_Catalog c) h1) ∧
    Z.of_nat (4 + json_depth catalog) <= maxNestingDepth ∧
    json_wf (config_json_with catalog (plans_or_null h (cf_PlanConfigs c)) c) = true.

Lemma plans_or_null_document h m : plans_document h m (plans_or_null h m).
Proof.
  unfold plans_or_null, plans_document. destruct rest_nil_plans; [|by left]. cbn [andb].
  case_bool_decide; [by right|by left].
Qed.

Lemma write_run_holds `{!FileSystemLaws X} h c x c' path x' :
  write_run c None (marshal_config h c) x (c', path, None) x' →
  c' = c ∧ path ≠ "" ∧ ∃ catalog, rest_catalog (cf_Catalog c) = inl catalog ∧
    holds x' path (json_text (config_json_with catalog (plans_or_null h (cf_PlanConfigs c)) c)).
Proof.
  intros Hrun. destruct (marshal_config h c) as [json|err] eqn:Hj; [|by inversion Hrun].
  inversion Hrun as [| | | | |file json' y x1 x2 x3 E1 E2 E3]; subst.
  split; [done|]. split; [by eapply fs_name_nonempty|]. unfold marshal_config in Hj.
  destruct (rest_catalog _) as [catalog|]; [|done]. injection Hj as <-. exists catalog.
  split; [done|]. replace x' with (fs_Close file x2).2 by by rewrite E3.
  apply fs_close_keeps. by eapply fs_written.
Qed.

Lemma runs_LoadConfig_written `{!RuntimeLaws X, !FileSystemLaws X} h c catalog x path h1 :
  encodable h c → config_int64 c → config_ok c → path ≠ "" →
  rest_catalog (cf_Catalog c) = inl catalog →
  holds x path (json_text (config_json_with catalog (plans_or_null h (cf_PlanConfigs c)) c)) →
  let files := fs_files x in
  runs h1 (LoadConfig path : M X _) (λ o es h', es = [] ∧ frame [] h1 h' ∧
    ∃ c', same_config h h' c c' ∧ o = Ret (host_or_default c', None)).
Proof.
  intros Henc Hint Hok Hpath Hcat [Hopen Hread] files. destruct (Henc catalog Hcat) as (Hdec & Hd & Hwf).
  eapply runs_conseq.
  - apply (runs_LoadConfig_document h h1 path c catalog (plans_or_null h (cf_PlanConfigs c)));
      [split; [apply plans_or_null_document|done..]|done|done].
  - intros o es h' (-> & Hf & c' & Hsame & [[_ ->]|[Hnok _]]); [|done].
    split; [done|]. split; [done|]. by exists c'.
Qed.
End write.

(** ** Properties *)

(** C20: the configuration that the tests write is the one the broker is started
    with: [WriteCustomConfig] validates the configuration [c], which has the
    broker name, the subnet group and the one security group that are given, and
    is the given configuration in every other field.  On each branch it makes the
    calls of [write_run] and returns their first error, with no configuration and
    no path; when there is none it returns [c] and the path of a file from which,
    in any heap, [LoadConfig] reads the same configuration, with the default host
    when it has none and with maps of its own. *)
Theorem custom_config_loads {X : Type} `{RuntimeLaws X} {certificate : Type} `{X509 certificate}
    `{FileSystemLaws X} `{ConfigRest} (s : state X) (config : Config)
    (brokerName elastiCacheSubnetGroupName ec2SecurityGroupID : string) (c : Config) :
  renamed config brokerName elastiCacheSubnetGroupName ec2SecurityGroupID c →
  encodable (X:=X) (st_maps s) c → config_int64 c →
  ∃ verdict x x' r,
    WriteCustomConfig config brokerName elastiCacheSubnetGroupName ec2SecurityGroupID s =
      (Ret r, mkState (st_maps s) (st_trace s) x') ∧
    (verdict = None ↔ config_ok c) ∧
    write_run c verdict (marshal_config (st_maps s) c) x r x' ∧
    (r.2 = None → r.1.1 = c ∧
      let files := fs_files x' in
      ∀ h, runs h (LoadConfig r.1.2 : M X _) (λ o es h', es = [] ∧ frame [] h h' ∧
        ∃ c', same_config (st_maps s) h' c c' ∧ o = Ret (host_or_default c', None))).
Proof.
  intros Hc%renamed_custom Henc Hint. destruct (run_Validate s c) as (verdict & x & Hv & Hok).
  unfold WriteCustomConfig. cbv zeta. rewrite Hc. unfold bind. rewrite Hv. destruct verdict as [err|].
  { exists (Some err), x, x, (zero_Config, "", Some err). split; [done|]. split; [done|].
    by split; [constructor|]. }
  destruct (write_run_valid (mkState (st_maps s) (st_trace s) x) c) as ([[c' path] err] & x' & Hw & Hrun).
  exists None, x, x', (c', path, err). rewrite Hw. split; [done|]. split; [done|]. split; [exact Hrun|].
  cbn [fst snd]. intros ->. destruct (write_run_holds _ _ _ _ _ _ Hrun) as (-> & Hpath & catalog & Hcat & Hholds).
  split; [done|]. intros files h. eapply runs_LoadConfig_written; try done. by apply Hok.
Qed.

(** *** A disk *)

Record disk := mkDisk { dk_contents : gmap string string; dk_next : nat }.

#[local] Instance disk_Runtime : Runtime disk := still_Runtime.

#[local] Instance disk_RuntimeLaws : RuntimeLaws disk := still_RuntimeLaws.

#[local] Instance disk_FileSystem : FileSystem disk := {|
  fs_file := string;
  fs_Name f := f;
  fs_TempFile dir pattern d :=
    let name := "/tmp/" +:+ pattern +:+ pretty (dk_next d) in
    (inl name, mkDisk (<[name := ""]> (dk_contents d)) (S (dk_next d)));
  fs_WriteFile name data _ d := (None, mkDisk (<[name := data]> (dk_contents d)) (dk_next d));
  fs_Close _ d := (None, d);
  fs_files d := {|
    os_Open name := match dk_contents d !! name with
                    | Some _ => None | None => Some (ErrorString "no such file") end;
    ioutil_ReadAll name := match dk_contents d !! name with
                           | Some data => inl data | None => inr (ErrorString "no such file") end;
  |};
|}.

#[local] Instance disk_FileSystemLaws : FileSystemLaws disk.
Proof.
  split.
  - by intros dir pattern d file d' [= <- <-].
  - intros dir pattern d file d1 data perm d2 _ [= <-]. unfold holds. cbn.
    by rewrite lookup_insert_eq.
  - done.
Qed.

#[local] Instance plain_rest : ConfigRest := {|
  rest_catalog services := inl (catalog_json services);
  rest_nil_plans := false;
|}.

#[local] Instance any_X509 : X509 () := λ _ _, inl tt.

Definition test_config : Config :=
  mkConfig "info" "user" "pass" "eu-west-1" "test-broker" "test-subnets" ["sg-test"]
    (cf_Catalog document_config) (cf_PlanConfigs document_config) "key" "path/" ""
    (Some (mkTLSConfig "cert" "key")).

Lemma custom_config_loads_witness :
  let c := test_config in
  let s := mkState document_heap [] (mkDisk ∅ 7) in
  ∃ verdict x x' r,
    WriteCustomConfig document_config "test-broker" "test-subnets" "sg-test" s =
      (Ret r, mkState document_heap [] x') ∧
    (verdict = None ↔ config_ok c) ∧
    write_run c verdict (marshal_config document_heap c) x r x' ∧
    (r.2 = None → r.1.1 = c ∧
      let files := fs_files x' in
      ∀ h, runs h (LoadConfig r.1.2 : M disk _) (λ o es h', es = [] ∧ frame [] h h' ∧
        ∃ c', same_config document_heap h' c c' ∧ o = Ret (host_or_default c', None))).
Proof.
  intros c s. apply (custom_config_loads s document_config "test-broker" "test-subnets" "sg-test" c); [by split|..].
  - intros catalog [= <-]. split; [apply steps_catalog|]. split; by vm_compute.
  - apply document_config_int64.
Defined.

(** It is written, under the name the disk gives it. *)
Example custom_config_written :
  let s := mkState document_heap [] (mkDisk ∅ 7) in
  ∃ s' c, WriteCustomConfig document_config "test-broker" "test-subnets" "sg-test" s =
    (Ret (c, "/tmp/elasticache-broker7", None), s').
Proof. eexists _, _. vm_compute. reflexivity. Qed.
